(* ===== verification/_CoqProject ===== *)
-Q . S2P
Prelude.v
Words.v
RustStr.v
Errors.v
BufferPool.v
Packet.v
StartupOptions.v
Crypto.v
ToyCrypto.v
Digests.v
Tls.v
Verifier.v
ScramServer.v
ScramClient.v
ScramExchange.v
ScramReference.v
LookupCache.v
CredentialFile.v
AuthQuery.v
CredentialStore.v
LookupTasks.v
StoreReload.v
Config.v
BackendPolicy.v
Transport.v
Dialogue.v
PgClient.v
BackendTls.v
Backend.v
Registry.v
ConnHalf.v
ConnState.v
ConnAuth.v
Conn.v
ConnSafety.v
ConnOutput.v
ConnDriver.v
ConnReady.v
StartupReplay.v
BackendLogin.v
ConnLogin.v
ConnTwins.v
ConnSecrecy.v
Server.v
Listener.v
ListenerTask.v
ConnWitness.v
Cli.v
TestKit.v
ScramTests.v
UnitTests.v
