(* ===== verification/Prelude.v ===== *)
(** * wirechaos: a verification library for the proxy core

    wirechaos is a PostgreSQL proxy.  A client connects, may ask for TLS, sends a
    StartupMessage and authenticates by SCRAM-SHA-256 against the proxy's
    credential store; from the client's proof the proxy recovers the client key
    and opens its own authenticated link to the backend with it, without knowing
    the password.  The session then gets a cancel key, the backend's startup
    messages and the ready signal.  Paths below are relative to
    [src/crates/wirechaos-core/src/proxy/].

    ** Parts

    - [Prelude], [Words], [RustStr]: the result and I/O monads and their tactics;
      machine integers as [Z] with the wrap-around written out; the string
      functions of the language that the source uses, on UTF-8 bytes.
    - [Errors]: [error.rs], [backend/error.rs], [auth/error.rs],
      [auth/scram/error.rs], [auth/credentials/report.rs]: error values and what a
      client is shown of them.
    - [BufferPool]: [buffer_pool.rs], with both halves of the contract of its
      [unsafe] blocks: a length stays within the allocation, and what it exposes
      has been written.
    - [Packet]: [packet.rs], [wire_util.rs]: the message cursor and body helpers.
    - [StartupOptions]: [startup_config_parse_util.rs], [replication_mode.rs].
    - [Crypto], [ToyCrypto], [Digests]: hash functions, base64 and SASLprep are the
      class [Primitives] with their laws in [PrimitivesOk].  Two instances satisfy
      the laws: a toy one, which runs the witnesses, and the published algorithms
      (SHA-2, HMAC, PBKDF2, MD5, base64), which run published vectors and the tests.
    - [Tls]: [tls.rs], the certificate hash and the binding data.
    - [Verifier]: [auth/verifier.rs], [auth/credentials/secret.rs].
    - [ScramServer]: [auth/scram/scram_authenticator.rs]; [ScramClient]:
      [backend/scram_client.rs]; [ScramExchange]: the two against each other;
      [ScramReference]: each against the RFC 5802 client that the tests write out,
      and the vector of RFC 7677.
    - [LookupCache], [CredentialFile], [AuthQuery], [CredentialStore]: the sources
      of verifiers under [auth/credentials/]; [StoreReload] and [LookupTasks]: the
      reloads of a store, and the lookups of a source, that overlap.
    - [Config]: [config.rs], [auth/credentials/config.rs].
    - [BackendPolicy], [PgClient], [BackendTls], [Backend]: the backend link of
      [backend/mod.rs] and [backend/pg_client.rs].
    - [Registry]: [backend/registry.rs], [backend/session_key_secret.rs],
      [conn_registry.rs]: the tables all sessions share.
    - [Transport]: the streams and pooled buffers that the frontend session and
      the backend client both use, behind the class [Session]; its rules
      ([pool_safe], [io_preserves]) are proved against the class.  [Dialogue] adds
      the rules of a computation whose peer plays along: what it reads, writes
      and returns.
    - [ConnHalf]: [conn_read.rs], [conn_write.rs], the two halves of a connection
      as instances of the traits they implement.
    - [ConnState], [ConnAuth], [Conn]: the session of [conn.rs],
      [auth/handler.rs] and [auth/scram/handler.rs]: the struct and its framing,
      the SASL dialogue, the handlers, the driver loop, the deadline, the permit.
      [ConnSafety], [ConnDriver], [ConnOutput], [ConnReady] hold its theorems and
      [ConnWitness] complete runs of it; [StartupReplay] follows the backend's
      startup messages through the backend client to the session's client.
      [BackendLogin] and [ConnLogin] run the two dialogues of a login to their end;
      [ConnTwins] compares two sessions that differ in their stores, and
      [ConnSecrecy] what they show to a client.
    - [Server]: [server.rs], sessions served one after another; [Listener]: the
      accept loop and tasks that run concurrently, each a sequence of operations
      on what all share; [ListenerTask]: a session of [Conn] is such a task.
    - [Cli]: [crates/wirechaos/src/main.rs], all commands, up to the server that
      the [proxy] command starts.
    - [TestKit], [ScramTests], [UnitTests]: the unit tests of the source, each a
      boolean of the test's name over the definitions of the model, evaluated.

    ** How the code is modelled

    An [async fn] is a state transformer [IO S E A] over the object it borrows
    mutably.  Its outcome is a value or an error, a crash (a panic, or a length
    that an [unsafe] block sets beyond its allocation), or [Pending]: the future waits for a peer
    that stays silent.  [tokio::time::timeout] turns [Pending] into its error;
    [io_finally] is a [Drop] that runs on every exit.  A socket is a script: the
    bytes the peer will send and what follows them (an error, or silence), and
    the number of writes it will take; everything written is kept in order, one
    element per flush, over the plaintext and then the TLS transport.  Library
    calls (rustls, the YAML parser, the PostgreSQL driver, random numbers, the
    clock, DNS) are arguments; in [ConnEnv] a call that does not return before
    the deadline is [None].  An object behind a lock is owned by the running
    session; interleavings on such objects are step relations over the same
    operations, in [Registry], [BufferPool], [StoreReload], [LookupTasks] and
    [Listener]; [Transport.pool_safe] and [ListenerTask] tie them to the sessions,
    and a reload or lookup that nothing interrupts is proved to be the atomic
    one.  The outcome [StartupOutCome::Ready] is called [SessionReady].

    ** What is proved

    - Authentication ([ScramServer], [ScramExchange], [ScramClient],
      [ConnReady]): a session is ready only after a proof of possession of the key
      for a user of the store, through a link made with that key; at most one
      login per exchange; rejections do not tell a missing user from a wrong
      password; channel binding; the proxy's two halves interoperate and the
      captured key opens the backend; mutual authentication of the backend.  The
      server accepts every client of RFC 5802, which is given nothing of the
      server's own record, and the proxy's client is one, byte for byte
      ([ScramReference]).
    - Logins as a whole ([ConnLogin], [BackendLogin], [ConnSecrecy]): a client with
      the right password gets a session on a backend that holds the same secret,
      with exactly the messages of the protocol on both sides; a client that does
      not log in cannot tell two stores apart that show the same salts, whatever
      it sends.
    - Sessions ([ConnDriver], [ConnOutput], [ConnReady]): the startup loop ends;
      every session ends unless its client stops reading; everything sent is a
      well-formed message, an error is the last one; no session panics, and each
      gives back its buffers (no bucket keeps fewer than before) and its slot; cancel requests reach the session
      whose key they carry; plaintext sent ahead of TLS has no effect; the
      backend's startup messages are replayed byte for byte ([StartupReplay]).
    - Shared state ([Registry], [BufferPool], [Server], [Listener],
      [ListenerTask], [Cli]): the server starts with an empty registry, no slot
      taken and a whole pool; in every interleaving the connection cap holds and
      no task waits for another; buffers are accounted for ([covers]): each one
      the pool kept is in its bucket or rented by a task, and back when the tasks
      have ended ([nothing_lost]).  A live session's cancel key always resolves to
      that session; that keys are those of the live sessions and no others, and
      that none remains when they end, needs connection ids that differ among live
      sessions, as they do for the first 2^32 connections: ids wrap, and
      [reused_id_leaks_key] is what happens then.  Of the contract of [set_len]
      the bounds hold at every call; fresh buffers are handed out before they are
      written ([get_exposes_unwritten]), and what is proved is that a session that
      has read its message sees written bytes only.
    - Credentials ([Verifier], [CredentialFile], [LookupCache], [AuthQuery],
      [CredentialStore], [StoreReload], [LookupTasks]): secrets round trip and are
      bounded; loading and reloading are all or nothing; cached answers are
      fresh, and both hold of reloads and lookups that overlap; outages are not
      reported as missing users; counters are exact.
    - Backend link ([PgClient], [BackendPolicy], [BackendTls], [Backend]):
      handshakes end within their input; the TLS dance implements the policy
      table; each TLS mode checks what it promises, against the configured roots;
      the chosen mechanism is optimal; errors round trip.
    - Bytes ([Packet], [BufferPool], [StartupOptions], [Errors], [Config]): reads
      never panic; parsers invert printers; internal details are not disclosed.

    ** Bounds

    Loops that are not structural take fuel, each with a theorem that the fuel
    given by its caller is enough: the driver loop 3 (two encryption requests can
    be answered), the backend handshake one more than the bytes of its input
    (each turn reads a message), the parameters of a StartupMessage and the
    fields of an ErrorResponse one more than the bytes of the body, the pool's
    construction 64 (sizes double within a [usize]), a key's draws and a
    registration 64 as in the source.

    ** Not modelled

    The relay after the ready signal does not exist in the source.  Logging and
    module declarations do nothing the model observes; erasing memory cannot be
    observed in it.  [startup.rs] belongs to no crate: no module declares it, and
    it would not compile.  The TLS handshake, X.509 path validation, YAML syntax,
    the PostgreSQL driver and the hash functions are libraries, hence parameters.
    The integration tests start servers and are not modelled; of the unit tests,
    those about poisoned locks, erased memory, generated certificates, Unicode tables
    and random sampling are left out. *)
From Stdlib Require Export ZArith Lia.
From Stdlib Require Import Strings.String.
From Stdlib Require Export Strings.Byte.
From stdpp Require Export base list gmap strings fin_maps.

(** Bytes ([u8]) are the 256 constructors of [Byte.byte]; a Rust [Vec<u8>],
    [&[u8]], [String] or [&str] is the list of its bytes.  A [String] is in
    addition valid UTF-8, which the conversion functions of [RustStr] check. *)
Abbreviation byte := Byte.byte.
Abbreviation bytes := (list Byte.byte).

#[export] Instance byte_eq_dec : EqDecision Byte.byte := Byte.byte_eq_dec.

#[export] Instance byte_countable : Countable Byte.byte :=
  inj_countable Byte.to_N Byte.of_N Byte.of_to_N.

(** A string literal of the source, as bytes. *)
Definition lit (s : String.string) : bytes := String.list_byte_of_string s.

Declare Scope wire_scope.
Delimit Scope wire_scope with wire.
Notation "# s" := (lit s%string) (at level 8, s at level 0, format "# s") : wire_scope.
Open Scope wire_scope.

(** ** [Result] *)

Inductive result (E A : Type) : Type :=
| Ok (a : A)
| Err (e : E).
Arguments Ok {E A} a.
Arguments Err {E A} e.

#[export] Instance result_ret {E} : MRet (result E) := fun A a => Ok a.

#[export] Instance result_bind {E} : MBind (result E) :=
  fun A B k m => match m with Ok a => k a | Err e => Err e end.

#[export] Instance result_fmap {E} : FMap (result E) :=
  fun A B f m => match m with Ok a => Ok (f a) | Err e => Err e end.

(** [Option::ok_or], [Result::map_err], [Result::ok], [Result::is_ok]. *)
Definition ok_or {E A} (o : option A) (e : E) : result E A :=
  match o with Some a => Ok a | None => Err e end.

Definition map_err {E E' A} (f : E -> E') (m : result E A) : result E' A :=
  match m with Ok a => Ok a | Err e => Err (f e) end.

Definition to_option {E A} (m : result E A) : option A :=
  match m with Ok a => Some a | Err _ => None end.

Definition is_ok {E A} (m : result E A) : bool :=
  match m with Ok _ => true | Err _ => false end.

(** ** Crashes

    A panic of safe code, and the undefined behaviour of a length set beyond its
    allocation in an [unsafe] block.  No theorem assumes their absence: it is
    proved.  Bytes exposed before they are written are tracked in [BufferPool]. *)
Inductive crash := Panic | UndefinedBehaviour.

Inductive exec (A : Type) : Type :=
| Val (a : A)
| Crash (c : crash).
Arguments Val {A} a.
Arguments Crash {A} c.

#[export] Instance exec_ret : MRet exec := fun A a => Val a.

#[export] Instance exec_bind : MBind exec :=
  fun A B k m => match m with Val a => k a | Crash c => Crash c end.

(** ** Asynchronous computations

    An [async fn] of the source is a state transformer over the session's
    state.  [Pending] is a future that has not completed when the peer goes
    silent: it is what an enclosing [tokio::time::timeout] observes. *)
Inductive poll (A : Type) : Type :=
| Ready (a : A)
| Pending
| Crashed (c : crash).
Arguments Ready {A} a.
Arguments Pending {A}.
Arguments Crashed {A} c.

Definition IO (S E A : Type) : Type := S -> poll (result E A) * S.

#[export] Instance io_ret {S E} : MRet (IO S E) := fun A a s => (Ready (Ok a), s).

#[export] Instance io_bind {S E} : MBind (IO S E) :=
  fun A B k m s =>
    match m s with
    | (Ready (Ok a), s') => k a s'
    | (Ready (Err e), s') => (Ready (Err e), s')
    | (Pending, s') => (Pending, s')
    | (Crashed c, s') => (Crashed c, s')
    end.

Definition io_lift {S E A} (r : result E A) : IO S E A := fun s => (Ready r, s).
Definition io_fail {S E A} (e : E) : IO S E A := io_lift (Err e).
Definition io_get {S E} : IO S E S := fun s => (Ready (Ok s), s).
Definition io_gets {S E A} (f : S -> A) : IO S E A := fun s => (Ready (Ok (f s)), s).
Definition io_modify {S E} (f : S -> S) : IO S E unit := fun s => (Ready (Ok tt), f s).
Definition io_pending {S E A} : IO S E A := fun s => (Pending, s).

(** A step on the state that may crash. *)
Definition io_exec {S E A} (f : S -> exec (A * S)) : IO S E A :=
  fun s => match f s with
           | Val (a, s') => (Ready (Ok a), s')
           | Crash c => (Crashed c, s)
           end.

(** [fut.await.map_err(f)]. *)
Definition io_map_err {S E E' A} (f : E -> E') (m : IO S E A) : IO S E' A :=
  fun s => match m s with
           | (Ready r, s') => (Ready (map_err f r), s')
           | (Pending, s') => (Pending, s')
           | (Crashed c, s') => (Crashed c, s')
           end.

(** [match fut.await { .. }]: the continuation sees the result itself. *)
Definition io_try {S E E' A} (m : IO S E A) : IO S E' (result E A) :=
  fun s => match m s with
           | (Ready r, s') => (Ready (Ok r), s')
           | (Pending, s') => (Pending, s')
           | (Crashed c, s') => (Crashed c, s')
           end.

(** A value whose [Drop] runs however the scope ends: by a value, by [?], or
    by the future being dropped while pending. *)
Definition io_finally {S E A} (fin : S -> exec S) (m : IO S E A) : IO S E A :=
  fun s => let '(r, s') := m s in
           match fin s' with
           | Val s'' => (r, s'')
           | Crash c => (Crashed c, s')
           end.

(** A computation on a local object, which the caller keeps. *)
Definition io_local {S L E A} (l : L) (m : IO L E A) : IO S E (A * L) :=
  fun s => match m l with
           | (Ready (Ok a), l') => (Ready (Ok (a, l')), s)
           | (Ready (Err e), _) => (Ready (Err e), s)
           | (Pending, _) => (Pending, s)
           | (Crashed c, _) => (Crashed c, s)
           end.

(** A condition on the state and on the state a computation leaves. *)
Definition io_preserves {S E A} (R : S -> S -> Prop) (m : IO S E A) : Prop :=
  forall s, R s (m s).2.

Lemma io_preserves_bind {S E A B} (R : S -> S -> Prop) `{!Transitive R}
    (m : IO S E A) (k : A -> IO S E B) :
  io_preserves R m -> (forall a, io_preserves R (k a)) -> io_preserves R (m ≫= k).
Proof.
  intros Hm Hk s. specialize (Hm s). unfold mbind, io_bind.
  destruct (m s) as [[[a|e]| |c] s']; simpl in *; try done.
  etrans; [exact Hm|apply Hk].
Qed.

Lemma io_preserves_lift {S E A} (R : S -> S -> Prop) `{!Reflexive R} (r : result E A) :
  io_preserves R (io_lift r).
Proof. by intros s. Qed.

(** ** Successful computations, run backwards *)

Lemma result_bind_Ok {E A B} (m : result E A) (k : A -> result E B) b :
  m ≫= k = Ok b -> exists a, m = Ok a /\ k a = Ok b.
Proof. destruct m; simpl; [eauto|done]. Qed.

Lemma io_bind_Ok {S E A B} (m : IO S E A) (k : A -> IO S E B) s b s' :
  (m ≫= k) s = (Ready (Ok b), s') ->
  exists a s1, m s = (Ready (Ok a), s1) /\ k a s1 = (Ready (Ok b), s').
Proof. unfold mbind, io_bind. destruct (m s) as [[[a|e]| |c] s1]; try done. eauto. Qed.

Lemma io_map_err_Ok {S E E' A} (f : E -> E') (m : IO S E A) s a s' :
  io_map_err f m s = (Ready (Ok a), s') -> m s = (Ready (Ok a), s').
Proof. unfold io_map_err. destruct (m s) as [[[x|e]| |c] s1]; simpl; congruence. Qed.

Lemma io_local_Ok {S L E A} (l : L) (m : IO L E A) (s : S) (x : A * L) (s' : S) :
  io_local (E := E) l m s = (Ready (Ok x), s') -> s' = s /\ m l = (Ready (Ok x.1), x.2).
Proof. unfold io_local. destruct (m l) as [[[a|e]| |c] l']; intros; by simplify_eq/=. Qed.

Lemma io_lift_Ok {S E A} (r : result E A) (s : S) a s' :
  io_lift r s = (Ready (Ok a), s') -> s' = s /\ r = Ok a.
Proof. unfold io_lift. intros. by simplify_eq. Qed.

Lemma io_ret_Ok {S E A} (x : A) (s : S) a s' :
  mret (M := IO S E) x s = (Ready (Ok a), s') -> s' = s /\ a = x.
Proof. unfold mret, io_ret. intros. by simplify_eq. Qed.

Lemma io_get_Ok {S E} (s : S) a s' :
  io_get (E := E) s = (Ready (Ok a), s') -> s' = s /\ a = s.
Proof. unfold io_get. intros. by simplify_eq. Qed.

Lemma io_modify_Ok {S E} (f : S -> S) (s : S) a s' :
  io_modify (E := E) f s = (Ready (Ok a), s') -> s' = f s.
Proof. unfold io_modify. intros. by simplify_eq. Qed.

Lemma ok_or_Ok {E A} (o : option A) (e : E) a : ok_or o e = Ok a -> o = Some a.
Proof. destruct o; simpl; congruence. Qed.

(** ** Sums over a list of tasks *)

Lemma sum_list_with_app {X} (f : X -> nat) l k :
  sum_list_with f (l ++ k) = (sum_list_with f l + sum_list_with f k)%nat.
Proof. induction l as [|x l IH]; simpl; lia. Qed.

(** One task moves. *)
Lemma sum_list_with_insert {X} (f : X -> nat) l i x y :
  l !! i = Some x ->
  (sum_list_with f (<[i := y]> l) + f x = sum_list_with f l + f y)%nat.
Proof.
  revert i. induction l as [|z l IH]; intros [|i] H; simpl in *; try done.
  - injection H as ->. lia.
  - specialize (IH i H). lia.
Qed.

Lemma sum_list_with_le {X} (f g : X -> nat) l :
  (forall x, (f x <= g x)%nat) -> (sum_list_with f l <= sum_list_with g l)%nat.
Proof. intros H. induction l as [|x l IH]; simpl; [done|]. specialize (H x). lia. Qed.

(** ** Tactics *)

(** One step of a successful run [H : m s = (Ready (Ok a), s')]. *)
Ltac io_inv H :=
  lazymatch type of H with
  | (_ ≫= _) _ = _ =>
      let a := fresh "a" in let s := fresh "s" in let H1 := fresh "H" in
      apply io_bind_Ok in H as (a & s & H1 & H); io_inv H1; cbv beta iota zeta in H; io_inv H
  | io_map_err _ _ _ = _ => apply io_map_err_Ok in H; io_inv H
  | io_local _ _ _ = (Ready (Ok ?x), _) =>
      try (is_var x; let y := fresh "a" in let l := fresh "l" in destruct x as [y l]);
      apply io_local_Ok in H as [? H]; subst; cbn [fst snd] in H; io_inv H
  | (match ?x with pair _ _ => _ end) _ = _ =>
      tryif is_var x
      then (let y := fresh "a" in let l := fresh "b" in
            destruct x as [y l]; cbv beta iota zeta in H; io_inv H)
      else idtac
  | io_lift _ _ = _ => apply io_lift_Ok in H as [? H]; subst
  | mret _ _ = _ => apply io_ret_Ok in H as [? ?]; subst
  | io_get _ = _ => apply io_get_Ok in H as [? ?]; subst
  | io_modify _ _ = _ => apply io_modify_Ok in H; subst
  | io_fail _ _ = _ => discriminate H
  | io_pending _ = _ => discriminate H
  | _ => idtac
  end.

(** Case analysis on every [match] and [if] of the goal or a hypothesis,
    keeping the equations. *)
Ltac split_match :=
  match goal with
  | |- context [match ?x with _ => _ end] => destruct x eqn:?
  end.

Ltac split_match_in H :=
  match type of H with
  | context [match ?x with _ => _ end] => destruct x eqn:?
  end.

(** Runs a hypothesis [m = Ok a] (or [Some a]) backwards through the binds of
    the result monad. *)
Ltac inv_ok H :=
  repeat (simpl in H; split_match_in H; simplify_eq H); simplify_eq H.

Create HintDb wire discriminated.
Create Rewrite HintDb wire.
