(* ===== verification/Words.v ===== *)
(** Machine integers and bytes: [u8] as a byte, [u16]/[u32]/[i32]/[usize] as [Z]
    with their wrap-around, big-endian encoding and decoding, and the byte-wise
    exclusive or of the SCRAM proofs. *)
From S2P Require Import Prelude.
Local Open Scope Z_scope.

(** ** Bytes and integers *)

(** [b as u32]. *)
Definition b2z (b : byte) : Z := Z.of_N (Byte.to_N b).

(** [z as u8]. *)
Definition z2b (z : Z) : byte :=
  match Byte.of_N (Z.to_N (z mod 256)) with Some b => b | None => x00 end.

Definition as_u32 (z : Z) : Z := z mod 2 ^ 32.

(** [z as i32]. *)
Definition as_i32 (z : Z) : Z :=
  let u := z mod 2 ^ 32 in if u <? 2 ^ 31 then u else u - 2 ^ 32.

(** [z as usize] on a 64-bit target; a negative [i32] sign-extends. *)
Definition as_usize (z : Z) : Z := z mod 2 ^ 64.

Definition is_u32 (z : Z) : Prop := 0 <= z < 2 ^ 32.
Definition is_i32 (z : Z) : Prop := - 2 ^ 31 <= z < 2 ^ 31.

(** [u16::to_be_bytes], [u32::to_be_bytes] and their inverses.  The value is
    reduced to its width first, which is what the [as u32] casts do. *)
Definition u32_to_be (z : Z) : bytes :=
  [z2b (Z.shiftr z 24); z2b (Z.shiftr z 16); z2b (Z.shiftr z 8); z2b z].

Definition u32_from_be (b0 b1 b2 b3 : byte) : Z :=
  Z.shiftl (b2z b0) 24 + Z.shiftl (b2z b1) 16 + Z.shiftl (b2z b2) 8 + b2z b3.

Definition u16_from_be (b0 b1 : byte) : Z := Z.shiftl (b2z b0) 8 + b2z b1.

(** [a ^ b] on [u8], and the [zip]ped exclusive or of two slices. *)
Definition bxor (a b : byte) : byte := z2b (Z.lxor (b2z a) (b2z b)).

Definition xor_bytes (l k : bytes) : bytes := zip_with bxor l k.

(** ** Lemmas *)

Lemma b2z_range b : 0 <= b2z b < 256.
Proof. unfold b2z. pose proof (Byte.to_N_bounded b). lia. Qed.

Lemma z2b_b2z b : z2b (b2z b) = b.
Proof.
  unfold z2b. rewrite Z.mod_small by apply b2z_range.
  unfold b2z. by rewrite N2Z.id, Byte.of_to_N.
Qed.

Lemma b2z_z2b z : b2z (z2b z) = z mod 256.
Proof.
  unfold z2b. pose proof (Z.mod_pos_bound z 256 ltac:(lia)) as Hb.
  destruct (Byte.of_N _) as [b|] eqn:Hof.
  - apply Byte.to_of_N in Hof. unfold b2z. rewrite Hof. lia.
  - apply Byte.of_N_None_iff in Hof. lia.
Qed.

Lemma b2z_inj a b : b2z a = b2z b -> a = b.
Proof. intros H. by rewrite <- (z2b_b2z a), H, z2b_b2z. Qed.

Lemma as_u32_range z : is_u32 (as_u32 z).
Proof. unfold is_u32, as_u32. apply Z.mod_pos_bound. lia. Qed.

Lemma as_u32_id z : is_u32 z -> as_u32 z = z.
Proof. apply Z.mod_small. Qed.

Lemma as_i32_range z : is_i32 (as_i32 z).
Proof.
  unfold as_i32, is_i32. pose proof (Z.mod_pos_bound z (2 ^ 32) ltac:(lia)).
  destruct (Z.ltb_spec (z mod 2 ^ 32) (2 ^ 31)); lia.
Qed.

Lemma as_i32_as_u32 z : is_i32 z -> as_i32 (as_u32 z) = z.
Proof.
  unfold as_i32, as_u32, is_i32. intros H. rewrite Zmod_mod.
  destruct (Z.le_gt_cases 0 z).
  - rewrite Z.mod_small by lia. destruct (Z.ltb_spec z (2 ^ 31)); lia.
  - replace (z mod 2 ^ 32) with (z + 2 ^ 32).
    2: { apply Z.mod_unique with (-1); lia. }
    destruct (Z.ltb_spec (z + 2 ^ 32) (2 ^ 31)); lia.
Qed.

Lemma as_u32_as_i32 z : as_u32 (as_i32 z) = as_u32 z.
Proof.
  unfold as_i32, as_u32. destruct (_ <? _); [apply Zmod_mod|].
  replace (z mod 2 ^ 32 - 2 ^ 32) with (z mod 2 ^ 32 + (-1) * 2 ^ 32) by lia.
  rewrite Z.mod_add by lia. apply Zmod_mod.
Qed.

Lemma as_i32_mod a b : as_u32 a = as_u32 b -> as_i32 a = as_i32 b.
Proof. unfold as_i32, as_u32. by intros ->. Qed.

Lemma as_i32_congr a b : as_i32 a = as_i32 b -> (a - b) mod 2 ^ 32 = 0.
Proof.
  intros H. apply (f_equal as_u32) in H. rewrite !as_u32_as_i32 in H. unfold as_u32 in H.
  rewrite Zminus_mod, H, Z.sub_diag. done.
Qed.

Lemma as_i32_as_i32_succ z : as_i32 (as_i32 z + 1) = as_i32 (z + 1).
Proof.
  apply as_i32_mod. unfold as_u32. rewrite <- Zplus_mod_idemp_l.
  change (as_i32 z mod 2 ^ 32) with (as_u32 (as_i32 z)). rewrite as_u32_as_i32.
  apply Zplus_mod_idemp_l.
Qed.

Lemma u32_from_be_range b0 b1 b2 b3 : is_u32 (u32_from_be b0 b1 b2 b3).
Proof.
  unfold is_u32, u32_from_be. rewrite !Z.shiftl_mul_pow2 by lia.
  pose proof (b2z_range b0). pose proof (b2z_range b1).
  pose proof (b2z_range b2). pose proof (b2z_range b3). lia.
Qed.

Lemma u32_be_length z : length (u32_to_be z) = 4%nat.
Proof. done. Qed.

(** Decoding undoes encoding, up to the 32-bit width. *)
Lemma u32_from_to_be z :
  u32_from_be (z2b (Z.shiftr z 24)) (z2b (Z.shiftr z 16)) (z2b (Z.shiftr z 8)) (z2b z)
  = as_u32 z.
Proof.
  unfold u32_from_be, as_u32. rewrite !b2z_z2b, !Z.shiftl_mul_pow2, !Z.shiftr_div_pow2 by lia.
  change (2 ^ 24) with 16777216. change (2 ^ 16) with 65536.
  change (2 ^ 8) with 256. change (2 ^ 32) with 4294967296.
  Z.to_euclidean_division_equations; lia.
Qed.

Lemma u32_to_from_be b0 b1 b2 b3 :
  u32_to_be (u32_from_be b0 b1 b2 b3) = [b0; b1; b2; b3].
Proof.
  pose proof (b2z_range b0). pose proof (b2z_range b1).
  pose proof (b2z_range b2). pose proof (b2z_range b3).
  unfold u32_to_be, u32_from_be. rewrite !Z.shiftl_mul_pow2, !Z.shiftr_div_pow2 by lia.
  repeat f_equal; apply b2z_inj; rewrite b2z_z2b; Z.to_euclidean_division_equations; lia.
Qed.

Lemma u32_to_be_as_u32 z : u32_to_be (as_u32 z) = u32_to_be z.
Proof. rewrite <- u32_from_to_be. apply u32_to_from_be. Qed.

(** A boolean property of bytes holds when it holds of the 256 values. *)
Definition all_bytes : bytes :=
  omap (fun n => Byte.of_N (N.of_nat n)) (seq 0 256).

Lemma all_bytes_complete b : In b all_bytes.
Proof.
  apply list_elem_of_In, list_elem_of_omap. exists (N.to_nat (Byte.to_N b)).
  rewrite N2Nat.id. split; [|apply Byte.of_to_N].
  apply elem_of_seq. pose proof (Byte.to_N_bounded b). lia.
Qed.

Lemma byte_forall (P : byte -> bool) :
  forallb P all_bytes = true -> forall b, P b = true.
Proof. intros H b. eapply forallb_forall in H; [exact H | apply all_bytes_complete]. Qed.

Lemma bxor_involutive a b : bxor (bxor a b) b = a.
Proof.
  apply Byte.byte_dec_bl. revert b. apply byte_forall. revert a.
  apply (byte_forall (fun a => forallb _ all_bytes)). vm_compute. reflexivity.
Qed.

Lemma xor_bytes_length l k :
  length l = length k -> length (xor_bytes l k) = length l.
Proof. intros H. unfold xor_bytes. rewrite length_zip_with. lia. Qed.

Lemma xor_bytes_involutive l k :
  length l = length k -> xor_bytes (xor_bytes l k) k = l.
Proof.
  revert k. induction l as [|a l IH]; intros [|b k] Hl; simpl in *; try done.
  f_equal; [apply bxor_involutive | apply IH; lia].
Qed.

#[export] Hint Rewrite b2z_z2b z2b_b2z u32_from_to_be u32_to_from_be : wire.
