(* ===== verification/RustStr.v ===== *)
(** The operations of Rust's [str] and [String] the proxy uses, on the bytes of
    the string: UTF-8 checking and decoding, splitting, searching, and reading
    and printing unsigned integers. *)
From S2P Require Import Prelude Words.
Local Open Scope Z_scope.

(** ** UTF-8 *)

Definition in_range (lo hi : Z) (b : byte) : bool := (lo <=? b2z b) && (b2z b <=? hi).

Definition is_cont : byte -> bool := in_range 0x80 0xBF.

(** Number of bytes of the scalar a non-ASCII lead byte starts, 0 when none. *)
Definition utf8_width (b : byte) : nat :=
  if in_range 0xC2 0xDF b then 2 else if in_range 0xE0 0xEF b then 3
  else if in_range 0xF0 0xF4 b then 4 else 0.

(** The second byte each three- and four-byte lead admits: no overlong form,
    no surrogate, nothing above U+10FFFF. *)
Definition second_ok (b0 b1 : byte) : bool :=
  if bool_decide (b0 = xe0) then in_range 0xA0 0xBF b1
  else if bool_decide (b0 = xed) then in_range 0x80 0x9F b1
  else if bool_decide (b0 = xf0) then in_range 0x90 0xBF b1
  else if bool_decide (b0 = xf4) then in_range 0x80 0x8F b1
  else is_cont b1.

(** The scalars of a byte string: [Some] the bytes of a well-formed one, [None]
    a maximal ill-formed subpart. *)
Fixpoint utf8_chunks (s : bytes) : list (option bytes) :=
  match s with
  | [] => []
  | b0 :: s0 =>
      if b2z b0 <? 0x80 then Some [b0] :: utf8_chunks s0
      else match utf8_width b0, s0 with
      | 2%nat, b1 :: s1 =>
          if is_cont b1 then Some [b0; b1] :: utf8_chunks s1 else None :: utf8_chunks s0
      | 3%nat, b1 :: s1 =>
          if second_ok b0 b1 then
            match s1 with
            | b2 :: s2 =>
                if is_cont b2 then Some [b0; b1; b2] :: utf8_chunks s2
                else None :: utf8_chunks s1
            | [] => [None]
            end
          else None :: utf8_chunks s0
      | 4%nat, b1 :: s1 =>
          if second_ok b0 b1 then
            match s1 with
            | b2 :: s2 =>
                if is_cont b2 then
                  match s2 with
                  | b3 :: s3 =>
                      if is_cont b3 then Some [b0; b1; b2; b3] :: utf8_chunks s3
                      else None :: utf8_chunks s2
                  | [] => [None]
                  end
                else None :: utf8_chunks s1
            | [] => [None]
            end
          else None :: utf8_chunks s0
      | _, _ => None :: utf8_chunks s0
      end
  end.

Definition is_utf8 (s : bytes) : bool :=
  forallb (fun c => match c with Some _ => true | None => false end) (utf8_chunks s).

(** [String::from_utf8]. *)
Definition from_utf8 (s : bytes) : option bytes := if is_utf8 s then Some s else None.

(** [String::from_utf8_lossy]: U+FFFD for each ill-formed subpart. *)
Definition from_utf8_lossy (s : bytes) : bytes :=
  concat (map (default [xef; xbf; xbd]) (utf8_chunks s)).

(** [s.chars().next()], as the bytes of the character. *)
Definition first_char (s : bytes) : option bytes :=
  match utf8_chunks s with c :: _ => c | [] => None end.

(** ** Splitting and searching *)

(** [s.split(d)]; one piece more than there are separators. *)
Fixpoint split (d : byte) (s : bytes) : list bytes :=
  match s with
  | [] => [[]]
  | c :: s' =>
      if bool_decide (c = d) then [] :: split d s'
      else match split d s' with
           | w :: ws => (c :: w) :: ws
           | [] => [[c]]
           end
  end.

(** [s.split_once(d)] and [s.rsplit_once(d)]. *)
Fixpoint split_once (d : byte) (s : bytes) : option (bytes * bytes) :=
  match s with
  | [] => None
  | c :: s' =>
      if bool_decide (c = d) then Some ([], s')
      else match split_once d s' with
           | Some (a, b) => Some (c :: a, b)
           | None => None
           end
  end.

Fixpoint rsplit_once (d : byte) (s : bytes) : option (bytes * bytes) :=
  match s with
  | [] => None
  | c :: s' =>
      match rsplit_once d s' with
      | Some (a, b) => Some (c :: a, b)
      | None => if bool_decide (c = d) then Some ([], s') else None
      end
  end.

(** [s.splitn(n, d)]. *)
Fixpoint splitn (n : nat) (d : byte) (s : bytes) : list bytes :=
  match n with
  | O => []
  | S O => [s]
  | S n' => match split_once d s with
            | Some (a, b) => a :: splitn n' d b
            | None => [s]
            end
  end.

Fixpoint strip_prefix (p s : bytes) : option bytes :=
  match p, s with
  | [], _ => Some s
  | a :: p', c :: s' => if bool_decide (a = c) then strip_prefix p' s' else None
  | _ :: _, [] => None
  end.

Definition starts_with (p s : bytes) : bool :=
  match strip_prefix p s with Some _ => true | None => false end.

(** [s.rfind(p)]: the offset of the last occurrence. *)
Fixpoint rfind (p s : bytes) : option nat :=
  match s with
  | [] => if starts_with p [] then Some 0%nat else None
  | _ :: s' => match rfind p s' with
               | Some n => Some (S n)
               | None => if starts_with p s then Some 0%nat else None
               end
  end.

(** [s.to_lowercase()] compared with ASCII literals: the other letters whose
    lowercase form contains an ASCII letter (the Kelvin sign, the dotted I)
    give no string the source compares with. *)
Definition lower_byte (b : byte) : byte := if in_range 65 90 b then z2b (b2z b + 32) else b.
Definition to_lowercase (s : bytes) : bytes := map lower_byte s.

(** [s.replace(a, b)] for one-character strings. *)
Definition replace_char (a b : byte) (s : bytes) : bytes :=
  map (fun c => if bool_decide (c = a) then b else c) s.

(** ** Unsigned integers *)

Definition digit_value (b : byte) : option Z :=
  if in_range 48 57 b then Some (b2z b - 48) else None.

Definition is_ascii_digit (b : byte) : bool := in_range 48 57 b.

Fixpoint parse_digits (hi acc : Z) (s : bytes) : option Z :=
  match s with
  | [] => Some acc
  | c :: s' =>
      d ← digit_value c;
      let v := acc * 10 + d in
      if v <=? hi then parse_digits hi v s' else None
  end.

(** [s.parse::<uN>()], [hi] being the type's maximum: an optional [+], at least
    one digit, nothing else, no overflow. *)
Definition parse_uint (hi : Z) (s : bytes) : option Z :=
  match s with
  | [] => None
  | c :: s' =>
      if bool_decide (c = x2b)
      then match s' with [] => None | _ => parse_digits hi 0 s' end
      else parse_digits hi 0 s
  end.

Definition parse_u32 : bytes -> option Z := parse_uint (2 ^ 32 - 1).
Definition parse_u16 : bytes -> option Z := parse_uint (2 ^ 16 - 1).

(** [format!("{}", n)] for unsigned [n]; twenty digits hold a [u64]. *)
Fixpoint show_digits (fuel : nat) (z : Z) : bytes :=
  match fuel with
  | O => []
  | S f => (if z <? 10 then [] else show_digits f (z / 10)) ++ [z2b (48 + z mod 10)]
  end.

Definition show_uint (z : Z) : bytes := show_digits 20 z.

(** [format!("{}", n)] for a signed [n]. *)
Definition show_int (z : Z) : bytes :=
  if z <? 0 then x2d :: show_uint (- z) else show_uint z.

(** ** [Debug] formatting *)

(** The scalar value of a well-formed UTF-8 sequence. *)
Definition scalar_value (c : bytes) : Z :=
  match c with
  | [b] => b2z b
  | b :: cs => fold_left (fun acc x => acc * 64 + b2z x mod 64) cs
                 (b2z b mod (if b2z b <? 0xE0 then 32 else if b2z b <? 0xF0 then 16 else 8))
  | [] => 0
  end.

Definition hex_char (n : Z) : byte := if n <? 10 then z2b (48 + n) else z2b (87 + n).

(** Lowercase hexadecimal without leading zeros; eight digits hold a scalar. *)
Fixpoint show_hex_digits (fuel : nat) (z : Z) : bytes :=
  match fuel with
  | O => []
  | S f => (if z <? 16 then [] else show_hex_digits f (z / 16)) ++ [hex_char (z mod 16)]
  end.

Definition show_hex (z : Z) : bytes := show_hex_digits 8 z.

Section debug.
(** Whether the Unicode tables call a non-ASCII character printable. *)
Variable printable : bytes -> bool.

(** [char::escape_debug]; [quote] is the enclosing quotation mark. *)
Definition escape_debug (quote : byte) (c : bytes) : bytes :=
  match c with
  | [b] =>
      if bool_decide (b = x00) then #"\0"
      else if bool_decide (b = x09) then #"\t"
      else if bool_decide (b = x0a) then #"\n"
      else if bool_decide (b = x0d) then #"\r"
      else if bool_decide (b = x5c) || bool_decide (b = quote) then [x5c; b]
      else if in_range 32 126 b then [b]
      else #"\u{" ++ show_hex (b2z b) ++ #"}"
  | _ => if printable c then c else #"\u{" ++ show_hex (scalar_value c) ++ #"}"
  end.

(** [{:?}] of a [char] cast from a [u8]. *)
Definition latin1_char (b : byte) : bytes :=
  if b2z b <? 128 then [b] else [z2b (0xC0 + b2z b / 64); z2b (0x80 + b2z b mod 64)].

Definition debug_char (b : byte) : bytes := x27 :: escape_debug x27 (latin1_char b) ++ [x27].

(** [{:?}] of a [str]: the scalars of its bytes. *)
Definition debug_str (s : bytes) : bytes :=
  x22 :: concat (map (fun c => escape_debug x22 (default [xef; xbf; xbd] c)) (utf8_chunks s))
  ++ [x22].

(** [{:?}] of an [Option<String>] and of a [Vec<String>]. *)
Definition debug_option_str (o : option bytes) : bytes :=
  match o with Some s => #"Some(" ++ debug_str s ++ #")" | None => #"None" end.

Definition join (sep : bytes) (l : list bytes) : bytes :=
  match l with
  | [] => []
  | x :: l' => x ++ concat (map (fun y => sep ++ y) l')
  end.

(** [debug_struct], for fields already rendered. *)
Definition debug_struct (name : bytes) (fields : list (bytes * bytes)) : bytes :=
  name ++ #" { " ++ join #", " (map (fun f => f.1 ++ #": " ++ f.2) fields) ++ #" }".

Definition debug_strings (l : list bytes) : bytes :=
  #"[" ++ join #", " (map debug_str l) ++ #"]".

End debug.

Example debug_example :
  debug_strings (fun _ => true) [ #"OAUTHBEARER"; [x61; x22; x00; xc3; xa9; x07] ] =
  #"[" ++ [x22] ++ #"OAUTHBEARER" ++ [x22] ++ #", " ++ [x22] ++ #"a\" ++ [x22]
    ++ #"\0" ++ [xc3; xa9] ++ #"\u{7}" ++ [x22] ++ #"]".
Proof. reflexivity. Qed.

(** ** Lemmas *)

Lemma from_utf8_Some s t : from_utf8 s = Some t -> t = s /\ is_utf8 s = true.
Proof. unfold from_utf8. by destruct (is_utf8 s) eqn:?; intros; simplify_eq. Qed.

Lemma from_utf8_valid s : is_utf8 s = true -> from_utf8 s = Some s.
Proof. unfold from_utf8. by intros ->. Qed.

Lemma split_nonempty d s : split d s <> [].
Proof. destruct s as [|c s]; simpl; [done|]. by repeat split_match. Qed.

Lemma split_no_delim d s : d ∉ s -> split d s = [s].
Proof.
  induction s as [|c s IH]; simpl; [done|]. intros [? ?]%not_elem_of_cons.
  rewrite bool_decide_eq_false_2 by congruence. by rewrite IH.
Qed.

Lemma split_app d a b : d ∉ a -> split d (a ++ d :: b) = a :: split d b.
Proof.
  induction a as [|c a IH]; simpl; intros Ha.
  - by rewrite bool_decide_eq_true_2.
  - apply not_elem_of_cons in Ha as [? ?].
    rewrite bool_decide_eq_false_2 by congruence. by rewrite IH.
Qed.

Lemma split_once_app d a b : d ∉ a -> split_once d (a ++ d :: b) = Some (a, b).
Proof.
  induction a as [|c a IH]; simpl; intros Ha.
  - by rewrite bool_decide_eq_true_2.
  - apply not_elem_of_cons in Ha as [? ?].
    rewrite bool_decide_eq_false_2 by congruence. by rewrite IH.
Qed.

Lemma split_once_Some d s a b :
  split_once d s = Some (a, b) <-> s = a ++ d :: b /\ d ∉ a.
Proof.
  split; [|intros [-> ?]; by apply split_once_app].
  revert a. induction s as [|c s IH]; intros a; simpl; [done|].
  case_bool_decide as Hc; [intros; simplify_eq; split; [done|set_solver]|].
  destruct (split_once d s) as [[a' b']|]; [|done]. intros; simplify_eq.
  destruct (IH a' eq_refl) as [-> ?]. split; [done|]. set_solver.
Qed.

Lemma split_once_None d s : split_once d s = None <-> d ∉ s.
Proof.
  induction s as [|c s IH]; simpl; [set_solver|].
  case_bool_decide as Hc; [subst; set_solver|].
  destruct (split_once d s) as [[]|]; set_solver.
Qed.

Lemma strip_prefix_Some p s r : strip_prefix p s = Some r <-> s = p ++ r.
Proof.
  revert s. induction p as [|a p IH]; intros [|c s]; simpl; try naive_solver.
  case_bool_decide; [rewrite IH|]; naive_solver.
Qed.

Lemma strip_prefix_app p r : strip_prefix p (p ++ r) = Some r.
Proof. by apply strip_prefix_Some. Qed.

Lemma starts_with_true p s : starts_with p s = true <-> exists r, s = p ++ r.
Proof.
  unfold starts_with. destruct (strip_prefix p s) as [r|] eqn:H.
  - apply strip_prefix_Some in H. naive_solver.
  - split; [done|]. intros [r Hr]. by apply strip_prefix_Some in Hr; congruence.
Qed.

Lemma starts_with_app p r : starts_with p (p ++ r) = true.
Proof. apply starts_with_true. eauto. Qed.

(** A needle whose first byte does not occur in a suffix is not found there. *)
Lemma rfind_absent c p s : c ∉ s -> rfind (c :: p) s = None.
Proof.
  induction s as [|b s IH]; intros Hs; [done|].
  apply not_elem_of_cons in Hs as [Hb Hs]. simpl. rewrite IH by done.
  unfold starts_with. simpl. by rewrite bool_decide_eq_false_2.
Qed.

Lemma rfind_app c p a t :
  c ∉ p ++ t -> rfind (c :: p) (a ++ (c :: p) ++ t) = Some (length a).
Proof.
  intros Hc. induction a as [|b a IH].
  - simpl. rewrite rfind_absent by done. change (c :: p ++ t) with ((c :: p) ++ t).
    by rewrite starts_with_app.
  - simpl in *. by rewrite IH.
Qed.

Lemma split_app_any d a b : split d (a ++ d :: b) = split d a ++ split d b.
Proof.
  induction a as [|c a IH]; simpl; [by rewrite bool_decide_eq_true_2|].
  case_bool_decide; rewrite IH; [done|].
  destruct (split d a) eqn:E; [by apply split_nonempty in E|done].
Qed.

(** A separator that is not in the needle ends every occurrence. *)
Lemma starts_with_app_sep p d s t :
  d ∉ p -> starts_with p (s ++ d :: t) = starts_with p s.
Proof.
  revert s. induction p as [|a p IH]; intros s Hd; [by destruct s|].
  apply not_elem_of_cons in Hd as [? Hd]. destruct s as [|c s]; unfold starts_with; simpl.
  - by rewrite bool_decide_eq_false_2 by congruence.
  - case_bool_decide; [|done]. apply (IH s Hd).
Qed.

Lemma rfind_app_sep c p s t :
  c ∉ p -> rfind (c :: p) (c :: t) = None ->
  rfind (c :: p) (s ++ c :: t) = rfind (c :: p) s.
Proof.
  intros Hc Ht. induction s as [|b s IH]; [by rewrite app_nil_l, Ht|].
  cbn [app rfind]. rewrite IH. destruct (rfind (c :: p) s); [done|].
  unfold starts_with. simpl. case_bool_decide; [|done].
  pose proof (starts_with_app_sep p c s t Hc) as Hs. unfold starts_with in Hs. by rewrite Hs.
Qed.

(** Every occurrence [rfind] reports is one. *)
Lemma rfind_Some p s n :
  rfind p s = Some n -> (n <= length s)%nat /\ starts_with p (drop n s) = true.
Proof.
  revert n. induction s as [|b s IH]; intros n; simpl.
  - destruct (starts_with p []) eqn:?; intros; simplify_eq. by rewrite drop_0.
  - destruct (rfind p s) as [m|].
    + intros; simplify_eq. destruct (IH m eq_refl). simpl. split; [lia|done].
    + destruct (starts_with p (b :: s)) eqn:?; intros; simplify_eq. split; [lia|done].
Qed.

Lemma digit_value_digit n : 0 <= n < 10 -> digit_value (z2b (48 + n)) = Some n.
Proof.
  intros Hn. unfold digit_value, in_range. rewrite b2z_z2b, Z.mod_small by lia.
  rewrite (proj2 (Z.leb_le _ _)), (proj2 (Z.leb_le _ _)) by lia. simpl. f_equal. lia.
Qed.

Lemma parse_digits_app hi acc s c :
  parse_digits hi acc (s ++ [c]) =
  v ← parse_digits hi acc s; parse_digits hi v [c].
Proof.
  revert acc. induction s as [|b s IH]; intros acc; simpl; [done|].
  destruct (digit_value b) as [d|]; simpl; [|done].
  destruct (_ <=? hi); simpl; [apply IH|done].
Qed.

Lemma parse_show_digits hi f z :
  0 <= z < 10 ^ Z.of_nat f -> z <= hi -> parse_digits hi 0 (show_digits f z) = Some z.
Proof.
  revert z. induction f as [|f IH]; intros z Hz Hhi; [simpl in *; f_equal; lia|].
  rewrite Nat2Z.inj_succ, Z.pow_succ_r in Hz by lia.
  pose proof (Z.div_mod z 10 ltac:(lia)). pose proof (Z.mod_pos_bound z 10 ltac:(lia)).
  cbn [show_digits]. rewrite parse_digits_app.
  assert (Hstep : forall v, v * 10 + z mod 10 = z ->
                       parse_digits hi v [z2b (48 + z mod 10)] = Some z).
  { intros v Hv. cbn [parse_digits]. rewrite digit_value_digit by lia. simpl.
    rewrite Hv, (proj2 (Z.leb_le _ _)) by lia. done. }
  destruct (Z.ltb_spec z 10).
  - simpl. apply Hstep. rewrite Z.mod_small by lia. lia.
  - rewrite IH; [|split; [apply Z.div_pos; lia|apply Z.div_lt_upper_bound; lia]|].
    + simpl. apply Hstep. lia.
    + assert (z / 10 <= z) by (apply Z.div_le_upper_bound; lia). lia.
Qed.

Lemma show_digits_all_digits f z :
  0 <= z -> Forall (fun b => is_ascii_digit b = true) (show_digits f z).
Proof.
  revert z. induction f as [|f IH]; intros z Hz; simpl; [constructor|].
  pose proof (Z.mod_pos_bound z 10 ltac:(lia)).
  apply Forall_app. split.
  - destruct (z <? 10); [constructor|]. apply IH. apply Z.div_pos; lia.
  - repeat constructor. unfold is_ascii_digit, in_range. rewrite b2z_z2b, Z.mod_small by lia.
    rewrite (proj2 (Z.leb_le _ _)), (proj2 (Z.leb_le _ _)) by lia. done.
Qed.

Lemma show_digits_nonempty f z : (0 < f)%nat -> show_digits f z <> [].
Proof. destruct f; [lia|]. simpl. intros _ []%app_nil. done. Qed.

(** Printing an unsigned integer and parsing it back. *)
Lemma parse_show_uint hi z :
  0 <= z <= hi -> hi < 10 ^ 20 -> parse_uint hi (show_uint z) = Some z.
Proof.
  intros Hz Hhi. unfold show_uint.
  pose proof (show_digits_all_digits 20 z ltac:(lia)) as Hd.
  pose proof (parse_show_digits hi 20 z ltac:(lia) ltac:(lia)) as Hp.
  destruct (show_digits 20 z) as [|c s] eqn:E.
  { by apply show_digits_nonempty in E; [|lia]. }
  unfold parse_uint. rewrite bool_decide_eq_false_2; [done|].
  intros ->. by inversion Hd.
Qed.

Lemma not_digit_not_in_show c z : 0 <= z -> is_ascii_digit c = false -> c ∉ show_uint z.
Proof.
  intros Hz Hc Hin. pose proof (show_digits_all_digits 20 z Hz) as Hd.
  rewrite Forall_forall in Hd. apply Hd in Hin. congruence.
Qed.

(** The scalars of a well-formed string, put together again. *)
Lemma utf8_chunks_concat r n s :
  (length s <= n)%nat -> is_utf8 s = true -> concat (map (default r) (utf8_chunks s)) = s.
Proof.
  unfold is_utf8. revert s. induction n as [|n IH]; intros [|b0 s0] Hn; try done; [simpl in Hn; lia|].
  simpl in Hn. cbn [utf8_chunks].
  repeat (case_match; simplify_eq; cbn [forallb map concat default from_option id andb]; try done);
    intros Hu; simpl; by rewrite IH by (simpl in *; lia || done).
Qed.

Lemma from_utf8_lossy_valid s : is_utf8 s = true -> from_utf8_lossy s = s.
Proof. intros H. by apply (utf8_chunks_concat _ (length s)). Qed.
