(* ===== verification/Errors.v ===== *)
(** The error types of the proxy and what a client is told about each:
    [proxy/error.rs], [backend/error.rs], [auth/error.rs], [auth/scram/error.rs]
    and the configuration report of [auth/credentials/report.rs].

    A [Box<dyn Trait>] is the sum of the types that implement the trait. *)
From S2P Require Import Prelude Words RustStr.

(** ** Configuration reports *)

Record EntryError := mkEntryError {
  ee_user : option bytes;
  ee_field : bytes;
  ee_reason : bytes }.

Record ConfigError := mkConfigError { ce_entries : list EntryError }.

Record ErrorBag := mkErrorBag { eb_entries : list EntryError }.

Definition config_error_single (field reason : bytes) : ConfigError :=
  mkConfigError [mkEntryError None field reason].

Definition config_error_len (e : ConfigError) : nat := length (ce_entries e).

Definition entry_display (e : EntryError) : bytes :=
  match ee_user e with
  | Some user => #"user " ++ user ++ #": " ++ ee_field e ++ #": " ++ ee_reason e
  | None => ee_field e ++ #": " ++ ee_reason e
  end.

Definition config_error_display (e : ConfigError) : bytes :=
  show_uint (Z.of_nat (length (ce_entries e))) ++ #" credentials configuration error(s)"
  ++ concat (map (fun entry => x0a :: #" - " ++ entry_display entry) (ce_entries e)).

Definition bag_default : ErrorBag := mkErrorBag [].

Definition bag_push (b : ErrorBag) (user : option bytes) (field reason : bytes) : ErrorBag :=
  mkErrorBag (eb_entries b ++ [mkEntryError user field reason]).

Definition bag_is_empty (b : ErrorBag) : bool :=
  match eb_entries b with [] => true | _ => false end.

Definition bag_into_result (b : ErrorBag) : result ConfigError unit :=
  if bag_is_empty b then Ok tt else Err (mkConfigError (eb_entries b)).

(** ** What an authentication error carries *)

Inductive ScramError :=
| AuthenticationFailed (m : bytes)
| Protocol (m : bytes)
| ChannelBindingMismatch
| ChannelBindingDowngrade.

Inductive ProviderError := Unavailable (reason : bytes).

(** [Box<dyn AuthError>]. *)
Inductive AuthError :=
| AeScram (e : ScramError)
| AeProvider (e : ProviderError).

(** ** Internal errors: [Box<dyn Error + Send + Sync>] *)

Inductive IoError :=
| UnexpectedEof
| BrokenPipe
| WriteZero
| ConnectFailed
| HandshakeFailed
| InvalidDataMsg (m : bytes).

Inductive InternalError :=
| BoxedIo (e : IoError)
| BoxedUtf8
| BoxedStr (m : bytes)
| BoxedConfig (e : ConfigError)
| BoxedProvider (reason : bytes)
| BoxedRejected (e : AuthError)
| BoxedAuth (e : InternalError).

(** ** Connection errors *)

Inductive ConnectionErrorInner :=
| TooManyRequest
| FirstMessageTooBig
| AuthTimeout
| EmptyMessageBody
| InvalidMessageLength
| MessageTooLarge
| TlsRequired
| TlsAlreadyDone
| InvalidData
| GssAlreadyDone
| AuthFailed
| InvalidState
| StatementCanceled
| InvalidStartupLayout
| MissingUser.

Definition connection_error_code (e : ConnectionErrorInner) : bytes :=
  match e with
  | TooManyRequest => #"53300"
  | AuthTimeout | StatementCanceled => #"57014"
  | FirstMessageTooBig | EmptyMessageBody | InvalidMessageLength | MessageTooLarge
  | InvalidStartupLayout => #"08P01"
  | MissingUser => #"28000"
  | AuthFailed => #"28P01"
  | TlsRequired | TlsAlreadyDone | GssAlreadyDone | InvalidData | InvalidState => #"08P01"
  end.

Definition connection_error_message (e : ConnectionErrorInner) : bytes :=
  match e with
  | TooManyRequest => #"sorry, too many clients already"
  | AuthTimeout => #"canceling authentication due to timeout"
  | StatementCanceled => #"canceling statement due to user request"
  | FirstMessageTooBig | InvalidStartupLayout => #"invalid startup packet layout"
  | EmptyMessageBody => #"empty message body"
  | InvalidMessageLength => #"invalid message length"
  | MessageTooLarge => #"message length exceeds the buffer pool capacity"
  | MissingUser => #"no PostgreSQL user name specified in startup packet"
  | AuthFailed => #"password authentication failed"
  | TlsRequired => #"TLS is required but the client did not request it"
  | TlsAlreadyDone => #"SSLRequest was already answered on this connection"
  | GssAlreadyDone => #"GSSENCRequest was already answered on this connection"
  | InvalidData => #"invalid data"
  | InvalidState => #"invalid session state"
  end.

Record ProtocolError := mkProtocolError { pe_code : bytes; pe_message : bytes }.

(** ** Backend errors *)

Inductive BackendErrorClass := Generalised | PassThrough.

Definition classify_backend_error (sqlstate : bytes) : BackendErrorClass :=
  if bool_decide (sqlstate = #"3D000" \/ sqlstate = #"53300" \/ sqlstate = #"57P03")
  then PassThrough else Generalised.

Inductive PgError :=
| ConnectTimeout
| TlsTimeout
| StartupTimeout
| PgIo (e : IoError)
| PgTls (m : bytes)
| PgProtocol (m : bytes)
| PgAuth (m : bytes)
| UnsupportedAuth (m : bytes)
| SaltMismatch
| ChannelBindingRequired (m : bytes)
| PgBackend (severity code message : bytes).

Definition generalised_message (e : PgError) : bytes :=
  match e with
  | PgAuth _ | SaltMismatch => #"backend authentication failed"
  | ConnectTimeout | TlsTimeout | PgIo _ | PgTls _ =>
      #"could not connect to the backend database"
  | StartupTimeout => #"backend did not finish starting up"
  | PgProtocol _ => #"backend sent an invalid protocol message"
  | UnsupportedAuth message | ChannelBindingRequired message => message
  | PgBackend _ code _ =>
      if starts_with #"28" code then #"backend authentication failed"
      else if starts_with #"08" code then #"could not connect to the backend database"
      else #"backend failed during startup"
  end.

Definition pg_error_code (e : PgError) : bytes :=
  match e with
  | PgAuth _ | UnsupportedAuth _ | SaltMismatch | ChannelBindingRequired _ => #"28P01"
  | PgProtocol _ => #"08P01"
  | PgBackend _ code _ => code
  | ConnectTimeout | TlsTimeout | PgIo _ | PgTls _ => #"08006"
  | StartupTimeout => #"08006"
  end.

Definition pg_error_message (e : PgError) : bytes :=
  match e with
  | PgBackend _ code message =>
      match classify_backend_error code with
      | PassThrough => message
      | Generalised => generalised_message e
      end
  | other => generalised_message other
  end.

(** [Display], for the operator's log: every detail the error carries. *)
Definition pg_error_display (io_display : IoError -> bytes) (e : PgError) : bytes :=
  match e with
  | ConnectTimeout => #"backend connect timed out"
  | TlsTimeout => #"backend TLS handshake timed out"
  | StartupTimeout => #"backend did not finish starting up"
  | PgIo e => #"I/O error: " ++ io_display e
  | PgTls m => #"TLS error: " ++ m
  | PgProtocol m => #"protocol error: " ++ m
  | PgAuth m => #"backend authentication failed: " ++ m
  | UnsupportedAuth m => m
  | SaltMismatch =>
      #"salt mismatch: the backend's SCRAM salt differs from the salt used for the client"
  | ChannelBindingRequired m => #"channel binding required, but " ++ m
  | PgBackend severity code message =>
      #"backend error " ++ code ++ #" (" ++ severity ++ #"): " ++ message
  end.

(** ** [ProxyError] *)

(** [Box<dyn ClientAwareError>]. *)
Inductive ClientAwareError :=
| CaInner (e : ConnectionErrorInner)
| CaProtocol (e : ProtocolError)
| CaPg (e : PgError).

Definition client_code (e : ClientAwareError) : bytes :=
  match e with
  | CaInner e => connection_error_code e
  | CaProtocol e => pe_code e
  | CaPg e => pg_error_code e
  end.

Definition client_message (e : ClientAwareError) : bytes :=
  match e with
  | CaInner e => connection_error_message e
  | CaProtocol e => pe_message e
  | CaPg e => pg_error_message e
  end.

Inductive ProxyError :=
| Internal (e : InternalError)
| ConnectionError (e : ClientAwareError).

Definition connection_error (e : ConnectionErrorInner) : ProxyError :=
  ConnectionError (CaInner e).

Definition protocol_error (code message : bytes) : ProxyError :=
  ConnectionError (CaProtocol (mkProtocolError code message)).

Definition proxy_error_from_pg (e : PgError) : ProxyError := ConnectionError (CaPg e).

(** [Error::source] of a [ProxyError]: always there. *)
Definition proxy_error_source (e : ProxyError) : option (InternalError + ClientAwareError) :=
  match e with
  | Internal e => Some (inl e)
  | ConnectionError e => Some (inr e)
  end.

(** [ProxyError::internal] and the conversion [?] applies. *)
Definition proxy_error_internal (e : InternalError) : ProxyError := Internal e.

(** [Display]; [internal_display] is that of the type behind the box. *)
Definition proxy_error_display (internal_display : InternalError -> bytes) (e : ProxyError)
    : bytes :=
  match e with
  | Internal error => internal_display error
  | ConnectionError error => client_message error
  end.

Definition connection_error_display (e : ConnectionErrorInner) : bytes := connection_error_message e.

Definition protocol_error_display (e : ProtocolError) : bytes := pe_message e.

(** ** Authentication errors *)

Definition scram_error_code (e : ScramError) : bytes :=
  match e with
  | AuthenticationFailed _ | ChannelBindingMismatch => #"28P01"
  | Protocol _ | ChannelBindingDowngrade => #"08P01"
  end.

Definition scram_error_message (e : ScramError) : bytes :=
  match e with
  | AuthenticationFailed m | Protocol m => m
  | ChannelBindingMismatch => #"SCRAM channel binding check failed"
  | ChannelBindingDowngrade =>
      #"client supports SCRAM channel binding but thinks the server does not. However, this server does support channel binding."
  end.

(** [Display]. *)
Definition scram_error_display (e : ScramError) : bytes :=
  match e with
  | AuthenticationFailed message => message
  | Protocol error => #"scram_authenticator protocol violation: " ++ error
  | ChannelBindingMismatch | ChannelBindingDowngrade => scram_error_message e
  end.

Definition auth_error_code (e : AuthError) : bytes :=
  match e with
  | AeScram e => scram_error_code e
  | AeProvider _ => #"08006"
  end.

Definition auth_error_message (e : AuthError) : bytes :=
  match e with
  | AeScram e => scram_error_message e
  | AeProvider _ => #"credential store temporarily unavailable"
  end.

Inductive AuthFailure :=
| Rejected (e : AuthError)
| AuthInternal (e : InternalError).

Definition rejected (e : ScramError) : AuthFailure := Rejected (AeScram e).

(** [AuthFailure::internal] of an [AuthFailure], which is itself an [Error]. *)
Definition internal_failure (e : AuthFailure) : AuthFailure :=
  AuthInternal (match e with
                | Rejected e => BoxedRejected e
                | AuthInternal e => BoxedAuth e
                end).

(** [Display] of a boxed [AuthError]. *)
Definition auth_error_display (e : AuthError) : bytes :=
  match e with
  | AeScram e => scram_error_display e
  | AeProvider _ => #"credential store unavailable"
  end.

(** [AuthFailure] as an [Error] of its own: what the operator's log shows of a
    failure. The [Display] of a boxed internal error is that of the type behind
    the box, whichever it is. *)
Section AuthFailureText.
Context (internal_display : InternalError -> bytes).

Definition auth_failure_display (e : AuthFailure) : bytes :=
  match e with
  | Rejected error => auth_error_display error
  | AuthInternal error => internal_display error
  end.

Definition auth_failure_debug (e : AuthFailure) : bytes :=
  match e with
  | Rejected error => #"Rejected(" ++ auth_error_display error ++ #")"
  | AuthInternal error => #"Internal(" ++ internal_display error ++ #")"
  end.

(** [Error::source]: the error behind the failure, always there. *)
Definition auth_failure_source (e : AuthFailure) : option (AuthError + InternalError) :=
  match e with
  | Rejected error => Some (inl error)
  | AuthInternal error => Some (inr error)
  end.

(** The texts tell a rejection from an internal error, and the display is that
    of the source. *)
Lemma auth_failure_display_is_source e :
  Some (auth_failure_display e) =
  (λ s, match s with inl a => auth_error_display a | inr i => internal_display i end)
    <$> auth_failure_source e.
Proof. by destruct e. Qed.

Lemma auth_failure_debug_tells e e' :
  auth_failure_debug e = auth_failure_debug e' ->
  auth_failure_display e = auth_failure_display e'.
Proof. destruct e, e'; simpl; intros [= H]; by simplify_list_eq. Qed.
End AuthFailureText.

Definition map_proxy_error_auth_error (e : ProxyError) : AuthFailure :=
  match e with
  | Internal e => AuthInternal e
  | ConnectionError e => AuthInternal (BoxedIo (InvalidDataMsg (client_message e)))
  end.

(** ** What reaches the client *)

(** The errors whose text is meant for the client: the operator-facing
    explanations the proxy writes itself, and the three SQLSTATEs a client can
    act on. *)
Definition client_visible (e : PgError) : bool :=
  match e with
  | UnsupportedAuth _ | ChannelBindingRequired _ => true
  | PgBackend _ code _ =>
      bool_decide (code ∈ [ #"3D000"; #"53300"; #"57P03"])
  | _ => false
  end.

(** The fixed texts every other backend failure is reduced to. *)
Definition generic_texts : list bytes :=
  [ #"backend authentication failed"; #"could not connect to the backend database";
   #"backend did not finish starting up"; #"backend sent an invalid protocol message";
   #"backend failed during startup"].

(** C40: The text of a backend failure that is not meant for the client never
    reaches it: unless it is one of the proxy's own two explanations, or the
    backend reported SQLSTATE 3D000, 53300 or 57P03, the message is one of five
    fixed texts, whatever detail the error carries. *)
Theorem pg_error_discloses_no_detail e :
  client_visible e = false -> pg_error_message e ∈ generic_texts.
Proof.
  unfold generic_texts. rewrite !elem_of_cons.
  destruct e; simpl; try discriminate; try tauto.
  intros Hv%bool_decide_eq_false. unfold classify_backend_error.
  rewrite bool_decide_eq_false_2 by set_solver. simpl. repeat case_match; tauto.
Qed.

Lemma pg_error_discloses_no_detail_witness :
  pg_error_message (PgBackend #"FATAL" #"28P01" #"role alice has no password") ∈ generic_texts.
Proof. apply (pg_error_discloses_no_detail (PgBackend _ _ _)). vm_compute. reflexivity. Defined.
