(* ===== verification/BufferPool.v ===== *)
(** The buffer pool of [proxy/buffer_pool.rs]: buckets of reusable allocations,
    renting by the smallest bucket that fits, and returning on drop.

    Sizes are [usize] values; [current_size *= 2] wraps at 64 bits, as a release
    build does.  A [BytesMut] is its allocation, its length and how much of the
    allocation has ever been written; the allocation of [BytesMut::with_capacity]
    holds unspecified bytes.  The lock of a bucket makes each operation atomic.

    The [unsafe] blocks call [BytesMut::set_len], whose contract is
    [set_len_contract]: the length stays within the allocation, and what it
    exposes has been written.  The first half is kept by every call, the second
    is not ([get_exposes_unwritten]); what is proved in its place is that a
    holder who has read its message into the buffer sees written bytes only. *)
From S2P Require Import Prelude Words.
Local Open Scope Z_scope.

(** What the allocator gives: [BytesMut::with_capacity(n)] an allocation of at
    least [n] bytes with unspecified contents, [Vec::with_capacity(n)] room for
    at least [n] elements. *)
Class Alloc := {
  fresh_mem : Z -> bytes;
  vec_capacity : nat -> nat }.

Class AllocOk (A : Alloc) : Prop := {
  fresh_mem_fits : forall n, n <= Z.of_nat (length (fresh_mem n));
  vec_capacity_fits : forall n, (n <= vec_capacity n)%nat }.

(** The allocation, the length, and the length of the written prefix. *)
Record BytesMut := mkBytesMut { bm_mem : bytes; bm_len : Z; bm_init : Z }.

(** [capacity] and [buffers]; [Vec::capacity] of [buffers] is the bucket's
    ceiling. The vector is kept with its last element (the next to be popped)
    at the head. *)
Record BufferBucket := mkBucket {
  bk_capacity : Z;
  bk_buffers : list BytesMut;
  bk_vec_capacity : nat }.

Record MultiBufferPool := mkPool { buckets : list BufferBucket }.

Record PooledBytes := mkPooled {
  pb_buf : BytesMut;
  pb_original_capacity : Z;
  pb_bucket_index : nat }.

Definition bm_capacity (b : BytesMut) : Z := Z.of_nat (length (bm_mem b)).

(** The safety contract of [BytesMut::set_len], as the library documents it. *)
Definition set_len_contract (b : BytesMut) (n : Z) : Prop :=
  n <= bm_capacity b /\ n <= bm_init b.

(** [BytesMut::set_len]: it moves the length and writes nothing.  Beyond the
    allocation it is an access out of bounds to come, which is a crash here; a
    length beyond what was written breaks the contract without an effect of its
    own, which [bm_init] records. *)
Definition set_len (b : BytesMut) (n : Z) : exec BytesMut :=
  if n <=? bm_capacity b then Val (mkBytesMut (bm_mem b) n (bm_init b))
  else Crash UndefinedBehaviour.

(** [deref]: the exposed bytes. *)
Definition pb_slice (pb : PooledBytes) : bytes :=
  take (Z.to_nat (bm_len (pb_buf pb))) (bm_mem (pb_buf pb)).

(** Every byte the holder of the buffer can see has been written. *)
Definition pb_written (pb : PooledBytes) : Prop := bm_len (pb_buf pb) <= bm_init (pb_buf pb).

(** [read_exact(&mut buf)]: the bytes read overwrite the exposed slice. *)
Definition pb_fill (pb : PooledBytes) (data : bytes) : PooledBytes :=
  mkPooled (mkBytesMut (data ++ drop (length data) (bm_mem (pb_buf pb))) (bm_len (pb_buf pb))
              (Z.max (bm_init (pb_buf pb)) (Z.of_nat (length data))))
           (pb_original_capacity pb) (pb_bucket_index pb).

Section pool.
Context {A : Alloc}.

Definition with_capacity (n : Z) : BytesMut := mkBytesMut (fresh_mem n) 0 0.

Definition new_bucket (size : Z) (pre_allocation : nat) : BufferBucket :=
  mkBucket size (replicate pre_allocation (with_capacity size)) (vec_capacity pre_allocation).

(** The [while current_size <= max_len] loop; [None] is a loop that has not
    ended within the fuel. *)
Fixpoint new_buckets (fuel : nat) (current_size max_len : Z) (pre_allocation : nat)
    : option (list BufferBucket) :=
  match fuel with
  | O => None
  | S f =>
      if current_size <=? max_len then
        rest ← new_buckets f (as_usize (current_size * 2)) max_len pre_allocation;
        Some (new_bucket current_size pre_allocation :: rest)
      else Some []
  end.

Definition pool_new (fuel : nat) (min_len max_len : Z) (pre_allocation_per_bucket : nat)
    : option MultiBufferPool :=
  mkPool <$> new_buckets fuel min_len max_len pre_allocation_per_bucket.

(** The largest allocation this pool can serve. *)
Definition max_capacity (p : MultiBufferPool) : Z :=
  match last (buckets p) with Some b => bk_capacity b | None => 0 end.

Definition pool_get (p : MultiBufferPool) (requested_size : Z)
    : exec (PooledBytes * MultiBufferPool) :=
  match list_find (fun b => requested_size <= bk_capacity b) (buckets p) with
  | None => Crash Panic
  | Some (bucket_index, bucket) =>
      let '(buf, rest) :=
        match bk_buffers bucket with
        | b :: bs => (b, bs)
        | [] => (with_capacity (bk_capacity bucket), [])
        end in
      let bucket' := mkBucket (bk_capacity bucket) rest (bk_vec_capacity bucket) in
      buf ← set_len buf requested_size;
      Val (mkPooled buf (bk_capacity bucket) bucket_index,
           mkPool (<[bucket_index := bucket']> (buckets p)))
  end.

Definition return_buffer (p : MultiBufferPool) (bucket_index : nat) (buffer : BytesMut)
    : exec MultiBufferPool :=
  match buckets p !! bucket_index with
  | None => Crash Panic
  | Some bucket =>
      if (length (bk_buffers bucket) <? bk_vec_capacity bucket)%nat then
        Val (mkPool (<[bucket_index :=
               mkBucket (bk_capacity bucket) (buffer :: bk_buffers bucket)
                        (bk_vec_capacity bucket)]> (buckets p)))
      else Val p
  end.

(** [impl Drop for PooledBytes]. *)
Definition pooled_drop (pb : PooledBytes) (p : MultiBufferPool) : exec MultiBufferPool :=
  buf ← set_len (pb_buf pb) (pb_original_capacity pb);
  return_buffer p (pb_bucket_index pb) buf.

End pool.

(** ** Invariant *)

Record bucket_wf (b : BufferBucket) : Prop := {
  bw_mem : Forall (fun m => bk_capacity b <= bm_capacity m) (bk_buffers b);
  bw_vec : (length (bk_buffers b) <= bk_vec_capacity b)%nat }.

(** Every retained buffer can hold its bucket's size, no bucket holds more than
    its ceiling, and buckets are sorted by size. *)
Record pool_wf (p : MultiBufferPool) : Prop := {
  pw_buckets : Forall bucket_wf (buckets p);
  pw_sorted : forall i j b c, (i < j)%nat ->
    buckets p !! i = Some b -> buckets p !! j = Some c -> bk_capacity b < bk_capacity c }.

(** A rented buffer still fits the bucket it came from. *)
Definition pooled_wf (p : MultiBufferPool) (pb : PooledBytes) : Prop :=
  0 <= bm_len (pb_buf pb) <= pb_original_capacity pb /\
  pb_original_capacity pb <= bm_capacity (pb_buf pb) /\
  exists b, buckets p !! pb_bucket_index pb = Some b /\
            bk_capacity b = pb_original_capacity pb.

(** The sizes the pool serves; renting and returning never change them. *)
Definition sizes (p : MultiBufferPool) : list Z := bk_capacity <$> buckets p.

(** A pool that has at least one bucket, as [MultiBufferPool::new] gives when
    [min_len <= max_len]. *)
Definition pool_ok (p : MultiBufferPool) : Prop := pool_wf p /\ buckets p <> [].

Section pool_facts.
Context {A : Alloc} {Hok : AllocOk A}.

Lemma max_capacity_sizes p : max_capacity p = default 0 (last (sizes p)).
Proof. unfold max_capacity, sizes. rewrite fmap_last. by destruct (last (buckets p)). Qed.

Lemma sizes_insert p i b rest cap :
  buckets p !! i = Some b ->
  sizes (mkPool (<[i := mkBucket (bk_capacity b) rest cap]> (buckets p))) = sizes p.
Proof.
  intros Hb. unfold sizes. simpl. rewrite list_fmap_insert. simpl.
  apply list_insert_id. by rewrite list_lookup_fmap, Hb.
Qed.

Lemma pool_wf_sizes p q :
  sizes q = sizes p -> pool_wf p -> Forall bucket_wf (buckets q) -> pool_wf q.
Proof.
  intros Hs [_ Hlt] Hq. split; [done|]. intros i j b c Hij Hi Hj.
  assert (Hl : forall k d, buckets q !! k = Some d ->
             exists e, buckets p !! k = Some e /\ bk_capacity e = bk_capacity d).
  { intros k d Hk. apply (f_equal (fun l => l !! k)) in Hs.
    unfold sizes in Hs. rewrite !list_lookup_fmap, Hk in Hs. simpl in Hs.
    destruct (buckets p !! k) as [e|]; simpl in Hs; simplify_eq. eauto. }
  destruct (Hl _ _ Hi) as (b' & Hb' & <-), (Hl _ _ Hj) as (c' & Hc' & <-). eauto.
Qed.

Lemma list_find_max p n :
  pool_ok p -> n <= max_capacity p ->
  exists i b, list_find (fun b => n <= bk_capacity b) (buckets p) = Some (i, b).
Proof.
  intros [_ Hne] Hn. unfold max_capacity in Hn.
  destruct (last (buckets p)) as [b|] eqn:Hl; [|by apply last_None in Hl].
  apply last_Some in Hl as [l' Hl].
  destruct (list_find_elem_of (fun b => n <= bk_capacity b) (buckets p) b) as [[i c] H];
    [rewrite Hl; set_solver|done|eauto].
Qed.

Lemma list_find_over p n :
  pool_wf p -> max_capacity p < n -> list_find (fun b => n <= bk_capacity b) (buckets p) = None.
Proof.
  intros Hwf Hn. apply list_find_None, Forall_forall. intros b [i Hi]%list_elem_of_lookup.
  unfold max_capacity in Hn. rewrite last_lookup in Hn.
  pose proof (lookup_lt_Some _ _ _ Hi) as Hlt.
  destruct (buckets p !! pred (length (buckets p))) as [c|] eqn:Hc.
  2: { apply lookup_ge_None in Hc. lia. }
  destruct (decide (i = pred (length (buckets p)))) as [->|Hij].
  - simpl in *. simplify_eq. lia.
  - assert (bk_capacity b < bk_capacity c); [|simpl in *; lia].
    eapply pw_sorted; [done| |exact Hi|exact Hc]. lia.
Qed.

(** Renting: the caller sees exactly the bytes it asked for, they come from the
    smallest bucket that fits, nothing else changes, and the length set is within
    the allocation. *)
Lemma pool_get_spec p n :
  pool_ok p -> 0 <= n <= max_capacity p ->
  exists pb p',
    pool_get p n = Val (pb, p') /\ bm_len (pb_buf pb) = n /\
    pool_ok p' /\ sizes p' = sizes p /\ pooled_wf p' pb /\
    (forall j b, (j < pb_bucket_index pb)%nat -> buckets p !! j = Some b -> bk_capacity b < n).
Proof.
  intros Hp Hn. destruct (list_find_max p n Hp ltac:(lia)) as (i & b & Hf).
  unfold pool_get. rewrite Hf. apply list_find_Some in Hf as (Hb & Hcap & Hmin).
  destruct Hp as [Hwf Hne].
  pose proof (Forall_lookup_1 _ _ _ _ (pw_buckets _ Hwf) Hb) as [Hmem Hvec].
  set (br := match bk_buffers b with
             | b :: bs => (b, bs) | [] => (with_capacity (bk_capacity b), []) end).
  assert (Hbr : bk_capacity b <= bm_capacity br.1 /\
                Forall (fun m => bk_capacity b <= bm_capacity m) br.2 /\
                (length br.2 <= bk_vec_capacity b)%nat).
  { unfold br. destruct (bk_buffers b) as [|m ms]; simpl.
    - repeat split; [apply fresh_mem_fits|constructor|lia].
    - inversion Hmem; subst. simpl in *. repeat split; [done|done|lia]. }
  destruct br as [m rest]. destruct Hbr as (Hm & Hrest & Hlen). simpl in *.
  unfold set_len. rewrite (proj2 (Z.leb_le _ _)) by lia.
  eexists _, _. split; [reflexivity|]. simpl. split; [done|].
  pose proof (sizes_insert p i b rest (bk_vec_capacity b) Hb) as Hs.
  split; [split|split; [exact Hs|split]].
  - eapply pool_wf_sizes; [exact Hs|done|]. simpl. apply Forall_insert; [apply Hwf|by split].
  - simpl. intros H. apply (f_equal length) in H. rewrite length_insert in H.
    destruct (buckets p); simpl in H; [done|lia].
  - split; [simpl; lia|]. split; [done|]. eexists. simpl.
    rewrite list_lookup_insert_eq; [done|]. by eapply lookup_lt_Some.
  - intros j c Hj Hc. destruct (decide (n <= bk_capacity c)); [|lia].
    exfalso. eapply (Hmin j c); eauto.
Qed.

(** A request beyond the largest bucket panics, as documented. *)
Lemma pool_get_too_large p n : pool_wf p -> max_capacity p < n -> pool_get p n = Crash Panic.
Proof. intros Hwf Hn. unfold pool_get. by rewrite list_find_over. Qed.

(** Returning: never a crash, and the pool stays well formed. *)
Lemma pooled_drop_spec p pb :
  pool_ok p -> pooled_wf p pb ->
  exists p', pooled_drop pb p = Val p' /\ pool_ok p' /\ sizes p' = sizes p.
Proof.
  intros [Hwf Hne] (Hlen & Hcap & b & Hb & Hbc). unfold pooled_drop, set_len.
  rewrite (proj2 (Z.leb_le _ _)) by lia. simpl. unfold return_buffer. rewrite Hb.
  pose proof (Forall_lookup_1 _ _ _ _ (pw_buckets _ Hwf) Hb) as [Hmem Hvec].
  destruct (Nat.ltb_spec (length (bk_buffers b)) (bk_vec_capacity b)).
  - eexists. split; [reflexivity|].
    pose proof (sizes_insert p (pb_bucket_index pb) b
      (mkBytesMut (bm_mem (pb_buf pb)) (pb_original_capacity pb) (bm_init (pb_buf pb)) :: bk_buffers b)
      (bk_vec_capacity b) Hb) as Hs.
    split; [split|exact Hs].
    + eapply pool_wf_sizes; [exact Hs|done|]. simpl. apply Forall_insert; [apply Hwf|].
      split; simpl; [constructor; [unfold bm_capacity in *; simpl; lia|done]|lia].
    + simpl. intros Hn. apply (f_equal length) in Hn. rewrite length_insert in Hn.
      destruct (buckets p); simpl in Hn; [done|lia].
  - exists p. done.
Qed.

(** What is read into a rented buffer is what its holder sees, whatever the
    previous renters left in the allocation. *)
Lemma pb_slice_fill pb data :
  Z.of_nat (length data) = bm_len (pb_buf pb) -> pb_slice (pb_fill pb data) = data.
Proof.
  intros H. unfold pb_slice, pb_fill. simpl. rewrite <- H, Nat2Z.id. by rewrite take_app_length.
Qed.

Lemma pb_written_fill pb data :
  Z.of_nat (length data) = bm_len (pb_buf pb) -> pb_written (pb_fill pb data).
Proof. intros H. unfold pb_written, pb_fill. simpl. lia. Qed.

Lemma pooled_wf_fill p pb data :
  Z.of_nat (length data) = bm_len (pb_buf pb) -> pooled_wf p pb -> pooled_wf p (pb_fill pb data).
Proof.
  intros Hd (? & Hc & ?). split; [done|]. split; [|done]. unfold bm_capacity in *. simpl.
  rewrite length_app, length_drop. lia.
Qed.

Lemma pooled_wf_sizes p q pb : sizes q = sizes p -> pooled_wf p pb -> pooled_wf q pb.
Proof.
  intros Hs (? & ? & b & Hb & Hc). split; [done|]. split; [done|].
  apply (f_equal (fun l => l !! pb_bucket_index pb)) in Hs. unfold sizes in Hs.
  rewrite !list_lookup_fmap, Hb in Hs. simpl in Hs.
  destruct (buckets q !! _) as [d|]; simpl in Hs; simplify_eq. exists d. split; congruence.
Qed.

End pool_facts.

(** ** The moves of one session

    The pool and the buffers a session has rented, innermost first. *)
Inductive pool_move {A : Alloc} :
    MultiBufferPool * list PooledBytes -> MultiBufferPool * list PooledBytes -> Prop :=
| move_rent p bs len pb p' :
    0 <= len <= max_capacity p -> pool_get p len = Val (pb, p') -> pool_move (p, bs) (p', pb :: bs)
| move_fill p pb bs data :
    Z.of_nat (length data) = bm_len (pb_buf pb) -> pool_move (p, pb :: bs) (p, pb_fill pb data :: bs)
| move_return p pb bs p' :
    pooled_drop pb p = Val p' -> pool_move (p, pb :: bs) (p', bs).

(** Moves that leave the session with the buffers it had before. *)
Definition pool_moves {A : Alloc} (p p' : MultiBufferPool) : Prop :=
  forall bs, rtc pool_move (p, bs) (p', bs).

#[export] Instance pool_moves_preorder {A : Alloc} : PreOrder pool_moves.
Proof. split; [intros p bs; reflexivity|]. intros p q r H1 H2 bs. etrans; [apply H1|apply H2]. Qed.

Lemma pool_get_sizes {A : Alloc} p n pb p' : pool_get p n = Val (pb, p') -> sizes p' = sizes p.
Proof.
  unfold pool_get, set_len. destruct (list_find _ _) as [[i b]|] eqn:Hf; [|done].
  apply list_find_Some in Hf as (Hb & _ & _).
  destruct (bk_buffers b); simpl; destruct (_ <=? _); simpl; intros [= _ <-]; by apply sizes_insert.
Qed.

Lemma pooled_drop_sizes pb p p' : pooled_drop pb p = Val p' -> sizes p' = sizes p.
Proof.
  unfold pooled_drop, set_len, return_buffer. destruct (_ <=? _); simpl; [|done].
  destruct (buckets p !! pb_bucket_index pb) as [b|] eqn:Hb; [|done].
  destruct (_ <? _)%nat; intros [= <-]; [by apply sizes_insert|done].
Qed.

Lemma pool_move_sizes {A : Alloc} x y : pool_move x y -> sizes y.1 = sizes x.1.
Proof. intros []; simpl; [by eapply pool_get_sizes|done|by eapply pooled_drop_sizes]. Qed.

Lemma pool_moves_sizes {A : Alloc} p p' : pool_moves p p' -> sizes p' = sizes p.
Proof.
  intros H. specialize (H []). change p with (p, @nil PooledBytes).1.
  change p' with (p', @nil PooledBytes).1. induction H as [|x y z Hm _ IH]; [done|].
  by rewrite IH, (pool_move_sizes x y).
Qed.

(** A move is never one that breaks the pool for the others. *)
Lemma pool_move_ok {A : Alloc} {AOk : AllocOk A} p bs p' bs' :
  pool_move (p, bs) (p', bs') -> pool_ok p -> Forall (pooled_wf p) bs ->
  pool_ok p' /\ sizes p' = sizes p /\ Forall (pooled_wf p') bs'.
Proof.
  intros Hm Hp Hbs.
  assert (Hmono : forall q bs, sizes q = sizes p -> Forall (pooled_wf p) bs -> Forall (pooled_wf q) bs).
  { intros q l Hs Hl. eapply Forall_impl; [exact Hl|]. intros pb. by apply pooled_wf_sizes. }
  inversion Hm as [? ? len pb ? Hlen Hg|? pb ? data Hd|? pb ? ? Hd]; subst.
  - destruct (pool_get_spec p len Hp Hlen) as (pb' & q & Hg' & _ & Hq & Hs & Hpb & _).
    rewrite Hg in Hg'. injection Hg' as <- <-. split; [done|]. split; [done|].
    constructor; [done|by apply Hmono].
  - apply Forall_cons in Hbs as [Hpb Hbs]. split; [done|]. split; [done|].
    constructor; [by apply pooled_wf_fill|done].
  - apply Forall_cons in Hbs as [Hpb Hbs].
    destruct (pooled_drop_spec p pb Hp Hpb) as (q & Hd' & Hq & Hs).
    rewrite Hd in Hd'. injection Hd' as <-. split; [done|]. split; [done|by apply Hmono].
Qed.

(** ** Where the buffers are *)

(** How many of the rented buffers belong to bucket [i]. *)
Definition rented_from (i : nat) (bs : list PooledBytes) : nat :=
  length (filter (fun pb => pb_bucket_index pb = i) bs).

#[export] Instance rented_from_proper i : Proper ((≡ₚ) ==> (=)) (rented_from i).
Proof. intros bs bs' H. unfold rented_from. by rewrite H. Qed.

Lemma rented_from_cons i pb bs :
  rented_from i (pb :: bs) = (rented_from i [pb] + rented_from i bs)%nat.
Proof. unfold rented_from. rewrite !filter_cons, filter_nil. by destruct (decide _). Qed.

Lemma rented_from_app i bs bs' :
  rented_from i (bs ++ bs') = (rented_from i bs + rented_from i bs')%nat.
Proof. unfold rented_from. by rewrite filter_app, length_app. Qed.

Lemma rented_from_own pb : rented_from (pb_bucket_index pb) [pb] = 1%nat.
Proof. unfold rented_from. by rewrite filter_cons_True. Qed.

Lemma rented_from_fill i pb data bs :
  rented_from i (pb_fill pb data :: bs) = rented_from i (pb :: bs).
Proof.
  unfold rented_from. rewrite !filter_cons.
  change (pb_bucket_index (pb_fill pb data)) with (pb_bucket_index pb). by destruct (decide _).
Qed.

Lemma rented_from_insert i k pb data bs :
  bs !! k = Some pb -> rented_from i (<[k := pb_fill pb data]> bs) = rented_from i bs.
Proof.
  intros H. rewrite insert_take_drop by (by eapply lookup_lt_Some).
  rewrite <- (take_drop_middle bs k pb H) at 3. by rewrite !rented_from_app, rented_from_fill.
Qed.

(** Every buffer that [p0] keeps is in its bucket of [p], or one of the [out i]
    that are out of that bucket. *)
Definition covers (p0 p : MultiBufferPool) (out : nat -> nat) : Prop :=
  forall i b0, buckets p0 !! i = Some b0 ->
  exists b, buckets p !! i = Some b /\ bk_vec_capacity b = bk_vec_capacity b0 /\
    (length (bk_buffers b0) <= length (bk_buffers b) + out i)%nat.

(** No bucket of [p] keeps fewer buffers than it did in [p0]. *)
Definition nothing_lost (p0 p : MultiBufferPool) : Prop := covers p0 p (fun _ => 0%nat).

#[export] Instance covers_proper p0 p :
  Proper (pointwise_relation nat le ==> impl) (covers p0 p).
Proof.
  intros out out' Ho H i b0 H0. destruct (H i b0 H0) as (b & Hb & Hv & Hl).
  exists b. split; [done|]. split; [done|]. specialize (Ho i). lia.
Qed.

#[export] Instance nothing_lost_preorder : PreOrder nothing_lost.
Proof.
  split; [intros p i b H; exists b; split; [done|]; split; [done|lia]|].
  intros p q r H1 H2 i b0 H0. destruct (H1 i b0 H0) as (b & Hb & Hv & Hl).
  destruct (H2 i b Hb) as (c & Hc & Hv' & Hl'). exists c. split; [done|]. split; [congruence|lia].
Qed.

Lemma nothing_lost_covers p0 p out : nothing_lost p0 p -> covers p0 p out.
Proof. apply covers_proper. intros i. lia. Qed.

(** An operation that puts another list of buffers in bucket [k]. *)
Lemma covers_insert p0 p out out' k b l :
  covers p0 p out -> buckets p !! k = Some b -> (forall i, i <> k -> out i <= out' i)%nat ->
  (forall b0, buckets p0 !! k = Some b0 -> bk_vec_capacity b = bk_vec_capacity b0 ->
     length (bk_buffers b0) <= length (bk_buffers b) + out k ->
     length (bk_buffers b0) <= length l + out' k)%nat ->
  covers p0 (mkPool (<[k := mkBucket (bk_capacity b) l (bk_vec_capacity b)]> (buckets p))) out'.
Proof.
  intros H Hb Ho Hk i b0 H0. destruct (H i b0 H0) as (c & Hc & Hv & Hl). simpl.
  destruct (decide (i = k)) as [->|Hne].
  - simplify_eq. eexists. rewrite list_lookup_insert_eq by (by eapply lookup_lt_Some).
    split; [done|]. split; [done|]. by apply Hk.
  - exists c. rewrite list_lookup_insert_ne by done. split; [done|]. split; [done|].
    specialize (Ho i Hne). lia.
Qed.

Lemma pool_get_covers {A : Alloc} p0 p out n pb p' :
  pool_get p n = Val (pb, p') -> covers p0 p out ->
  covers p0 p' (fun i => rented_from i [pb] + out i)%nat.
Proof.
  unfold pool_get, set_len. destruct (list_find _ _) as [[k b]|] eqn:Hf; [|done].
  apply list_find_Some in Hf as (Hb & _ & _). intros Hg H.
  assert (Hp : exists l, pb_bucket_index pb = k /\ (length (bk_buffers b) <= S (length l))%nat /\
    p' = mkPool (<[k := mkBucket (bk_capacity b) l (bk_vec_capacity b)]> (buckets p))).
  { destruct (bk_buffers b); simpl in Hg; destruct (_ <=? _); simpl in Hg; simplify_eq; eexists;
      (split; [reflexivity|]); (split; [|reflexivity]); simpl; lia. }
  destruct Hp as (l & <- & Hl & ->). eapply covers_insert; [exact H|exact Hb|lia|].
  intros b0 _ _ H0. rewrite rented_from_own. lia.
Qed.

Lemma pooled_drop_covers p0 p out pb p' :
  pool_wf p0 -> pooled_drop pb p = Val p' ->
  covers p0 p (fun i => rented_from i [pb] + out i)%nat -> covers p0 p' out.
Proof.
  unfold pooled_drop, set_len, return_buffer. intros Hwf Hd H.
  destruct (_ <=? _); simpl in Hd; [|done].
  destruct (buckets p !! pb_bucket_index pb) as [b|] eqn:Hb; [|done].
  assert (Hp : exists l, (length l = S (length (bk_buffers b)) \/
                          l = bk_buffers b /\ bk_vec_capacity b <= length l)%nat /\
    p' = mkPool (<[pb_bucket_index pb := mkBucket (bk_capacity b) l (bk_vec_capacity b)]> (buckets p))).
  { destruct (Nat.ltb_spec (length (bk_buffers b)) (bk_vec_capacity b)); injection Hd as <-.
    - eexists. split; [|reflexivity]. by left.
    - exists (bk_buffers b). split; [by right|]. rewrite list_insert_id; [by destruct p|].
      by rewrite Hb; destruct b. }
  destruct Hp as (l & Hl & ->). eapply covers_insert; [exact H|exact Hb| |].
  - intros i Hi. unfold rented_from. rewrite filter_cons_False by congruence. done.
  - intros b0 H0 Hv Hle. cbv beta in Hle. rewrite rented_from_own in Hle.
    pose proof (bw_vec _ (Forall_lookup_1 _ _ _ _ (pw_buckets _ Hwf) H0)). lia.
Qed.

(** No move loses a buffer: what leaves a bucket is in a session's hands. *)
Lemma pool_move_covers {A : Alloc} p0 p bs p' bs' out :
  pool_wf p0 -> pool_move (p, bs) (p', bs') ->
  covers p0 p (fun i => rented_from i bs + out i)%nat ->
  covers p0 p' (fun i => rented_from i bs' + out i)%nat.
Proof.
  intros Hwf Hm H.
  inversion Hm as [? ? len pb ? Hlen Hg|? pb ? data Hd|? pb ? ? Hd]; subst.
  - eapply covers_proper; [|exact (pool_get_covers _ _ _ _ _ _ Hg H)]. intros i. simpl.
    rewrite (rented_from_cons i pb bs). lia.
  - eapply covers_proper; [|exact H]. intros i. by rewrite rented_from_fill.
  - eapply (pooled_drop_covers _ p); [done|exact Hd|]. eapply covers_proper; [|exact H].
    intros i. simpl. rewrite (rented_from_cons i pb bs'). lia.
Qed.

Lemma pool_moves_lose_nothing {A : Alloc} p p' :
  pool_ok p -> pool_moves p p' -> nothing_lost p p'.
Proof.
  intros [Hwf _] H.
  assert (Hr : forall x y, rtc pool_move x y ->
    covers p x.1 (fun i => rented_from i x.2 + 0)%nat -> covers p y.1 (fun i => rented_from i y.2 + 0)%nat).
  { induction 1 as [x|[p1 b1] [p2 b2] z Hm _ IH]; [done|]. intros Hc. apply IH.
    by eapply pool_move_covers. }
  apply (Hr _ _ (H [])). change (nothing_lost p p). reflexivity.
Qed.

(** ** Sessions sharing the pool

    Any interleaving of rents, reads and returns by the sessions that share the
    pool: the state is the pool and the buffers rented out, each with what its
    holder has read into it. *)
Inductive pool_op :=
| Rent (requested_size : Z)
| Read (i : nat) (data : bytes)
| Return (i : nat).

Section pool_sharing.
Context {A : Alloc}.

Definition Sharing : Type := MultiBufferPool * list (PooledBytes * option bytes).

Definition pool_step (st : Sharing) (op : pool_op) : exec Sharing :=
  let '(p, out) := st in
  match op with
  | Rent n =>
      '(pb, p') ← pool_get p n;
      Val (p', out ++ [(pb, None)])
  | Read i data =>
      match out !! i with
      | Some (pb, _) =>
          if Z.of_nat (length data) =? bm_len (pb_buf pb)
          then Val (p, <[i := (pb_fill pb data, Some data)]> out)
          else Val (p, out)
      | None => Val (p, out)
      end
  | Return i =>
      match out !! i with
      | Some (pb, _) => p' ← pooled_drop pb p; Val (p', delete i out)
      | None => Val (p, out)
      end
  end.

Fixpoint pool_run (ops : list pool_op) (st : Sharing) : exec Sharing :=
  match ops with
  | [] => Val st
  | op :: ops' => st' ← pool_step st op; pool_run ops' st'
  end.

(** The caller's obligation documented on [get]. *)
Definition op_fits (limit : Z) (op : pool_op) : Prop :=
  match op with Rent n => 0 <= n <= limit | _ => True end.

(** A buffer fits its bucket; once it has been read into, its holder sees what
    was read, and no byte that was never written. *)
Definition held_ok (p : MultiBufferPool) (h : PooledBytes * option bytes) : Prop :=
  pooled_wf p h.1 /\
  match h.2 with Some data => pb_slice h.1 = data /\ pb_written h.1 | None => True end.

Definition sharing_ok (st : Sharing) : Prop := pool_ok st.1 /\ Forall (held_ok st.1) st.2.

(** How many buffers of bucket [i] are out. *)
Definition out_of (st : Sharing) (i : nat) : nat := rented_from i (fst <$> st.2).

Context {Hok : AllocOk A}.

Lemma held_ok_sizes p q out :
  sizes q = sizes p -> Forall (held_ok p) out -> Forall (held_ok q) out.
Proof.
  intros Hs H. eapply Forall_impl; [exact H|]. intros h [Hw ?].
  split; [by eapply pooled_wf_sizes|done].
Qed.

Lemma pool_step_ok p0 st op :
  pool_wf p0 -> sharing_ok st -> covers p0 st.1 (out_of st) -> op_fits (max_capacity st.1) op ->
  exists st', pool_step st op = Val st' /\ sharing_ok st' /\ sizes st'.1 = sizes st.1 /\
    covers p0 st'.1 (out_of st').
Proof.
  unfold out_of. destruct st as [p out], op as [n|i data|i]; intros H0 [Hp Hout] Hc Hfit; simpl in *.
  - destruct (pool_get_spec p n Hp Hfit) as (pb & p' & Hget & _ & Hp' & Hs & Hpb & _).
    rewrite Hget. simpl. eexists. split; [reflexivity|]. split; [split; [done|]|split; [done|]].
    + apply Forall_app. split; [by eapply held_ok_sizes|].
      constructor; [by split|constructor].
    + eapply covers_proper; [|exact (pool_get_covers _ _ _ _ _ _ Hget Hc)]. intros j. simpl.
      rewrite fmap_app, rented_from_app. simpl. lia.
  - destruct (out !! i) as [[pb got]|] eqn:Hi; [|by eexists]. simpl.
    destruct (Z.eqb_spec (Z.of_nat (length data)) (bm_len (pb_buf pb))) as [Hd|]; [|by eexists].
    eexists. split; [reflexivity|]. split; [split; [done|]|split; [done|]].
    + apply Forall_insert; [done|]. destruct (Forall_lookup_1 _ _ _ _ Hout Hi) as [Hw _].
      split; [by apply pooled_wf_fill|]. split; [by apply pb_slice_fill|by apply pb_written_fill].
    + eapply covers_proper; [|exact Hc]. intros j. simpl. rewrite list_fmap_insert. simpl.
      by rewrite rented_from_insert by (by rewrite list_lookup_fmap, Hi).
  - destruct (out !! i) as [[pb got]|] eqn:Hi; [|by eexists]. simpl.
    destruct (Forall_lookup_1 _ _ _ _ Hout Hi) as [Hw _].
    destruct (pooled_drop_spec p pb Hp Hw) as (p' & Hd & Hp' & Hs).
    rewrite Hd. simpl. eexists. split; [reflexivity|]. split; [split; [done|]|split; [done|]].
    + by apply Forall_delete, (held_ok_sizes p).
    + eapply (pooled_drop_covers _ p); [done|exact Hd|]. eapply covers_proper; [|exact Hc].
      intros j. simpl. rewrite (delete_Permutation out i (pb, got) Hi) at 1. simpl.
      by rewrite rented_from_cons.
Qed.

Lemma pool_run_ok p0 ops st :
  pool_wf p0 -> sharing_ok st -> covers p0 st.1 (out_of st) ->
  Forall (op_fits (max_capacity st.1)) ops ->
  exists st', pool_run ops st = Val st' /\ sharing_ok st' /\ sizes st'.1 = sizes st.1 /\
    covers p0 st'.1 (out_of st').
Proof.
  intros H0. revert st. induction ops as [|op ops IH]; intros st Hst Hc Hfit; simpl; [by exists st|].
  apply Forall_cons in Hfit as [Hop Hops].
  destruct (pool_step_ok p0 st op H0 Hst Hc Hop) as (st1 & -> & Hst1 & Hs1 & Hc1). simpl.
  destruct (IH st1 Hst1 Hc1) as (st2 & -> & Hst2 & Hs2 & Hc2).
  { by rewrite max_capacity_sizes, Hs1, <- max_capacity_sizes. }
  exists st2. split; [done|]. split; [done|]. split; [congruence|done].
Qed.

(** C16: Whatever sessions rent from, read into and return to the shared pool, in
    whatever order, as long as no request exceeds the largest bucket: no
    operation panics, and no length is set beyond its allocation; a session that
    has read its message sees exactly that message, and no byte that was never
    written, whatever the others do; the bucket sizes never change, every kept
    buffer has its bucket's capacity, and every buffer the pool kept is in its
    bucket or still rented.  (The other half of the contract of [set_len], that
    the exposed bytes are written when it is called, does not hold:
    [get_exposes_unwritten].) *)
Theorem pool_sharing_safe ops st :
  sharing_ok st -> Forall (op_fits (max_capacity st.1)) ops ->
  exists st', pool_run ops st = Val st' /\ sharing_ok st' /\ sizes st'.1 = sizes st.1 /\
    covers st.1 st'.1 (out_of st').
Proof.
  intros Hst. apply pool_run_ok; [apply Hst|done|]. apply nothing_lost_covers. reflexivity.
Qed.

(** A buffer rented for a message holds exactly the message once it is read,
    whatever earlier messages left in the allocation, and comes from the
    smallest bucket that fits. *)
Theorem rented_buffer_is_the_message p data :
  pool_ok p -> Z.of_nat (length data) <= max_capacity p ->
  exists pb p', pool_get p (Z.of_nat (length data)) = Val (pb, p') /\
    pb_slice (pb_fill pb data) = data /\
    Z.of_nat (length data) <= pb_original_capacity pb /\
    (forall j b, (j < pb_bucket_index pb)%nat -> buckets p !! j = Some b ->
                 bk_capacity b < Z.of_nat (length data)).
Proof.
  intros Hp Hn. destruct (pool_get_spec p (Z.of_nat (length data)) Hp ltac:(lia))
    as (pb & p' & Hget & Hlen & _ & _ & Hpb & Hmin).
  exists pb, p'. split; [done|]. split; [by apply pb_slice_fill|]. split; [|done].
  destruct Hpb. lia.
Qed.

Lemma new_bucket_wf size n : bucket_wf (new_bucket size n).
Proof.
  split; simpl.
  - apply Forall_replicate. unfold bm_capacity. simpl. apply fresh_mem_fits.
  - rewrite length_replicate. apply vec_capacity_fits.
Qed.

Lemma new_buckets_spec f cur hi n :
  1 <= cur -> hi < 2 ^ 63 -> hi < cur * 2 ^ Z.of_nat f ->
  exists bs, new_buckets (S f) cur hi n = Some bs /\ Forall bucket_wf bs /\
    forall i c, (bk_capacity <$> bs) !! i = Some c <-> c = cur * 2 ^ Z.of_nat i /\ c <= hi.
Proof.
  revert cur. induction f as [|f IH]; intros cur Hcur Hhi Hf;
    change (new_buckets (S ?g)) with (fun c h m => if c <=? h then
      rest ← new_buckets g (as_usize (c * 2)) h m; Some (new_bucket c m :: rest) else Some []);
    cbv beta.
  - rewrite (proj2 (Z.leb_gt _ _)) by (simpl in Hf; lia). exists []. split; [done|].
    split; [constructor|]. intros i c. simpl. rewrite lookup_nil. split; [done|].
    intros [-> Hc]. pose proof (Z.pow_pos_nonneg 2 (Z.of_nat i)). simpl in Hf. nia.
  - destruct (Z.leb_spec cur hi).
    + rewrite Nat2Z.inj_succ, Z.pow_succ_r in Hf by lia.
      unfold as_usize. rewrite Z.mod_small by lia.
      destruct (IH (cur * 2)) as (bs & -> & Hbs & Hc); [lia|lia|lia|]. simpl.
      eexists. split; [reflexivity|]. split; [constructor; [apply new_bucket_wf|done]|].
      intros [|i] c; simpl.
      * rewrite Z.mul_1_r. split; [intros; simplify_eq; lia|]. intros [-> _]. done.
      * rewrite Hc. change (Z.pos (Pos.of_succ_nat i)) with (Z.of_nat (S i)).
        rewrite Nat2Z.inj_succ, Z.pow_succ_r by lia.
        replace (cur * (2 * 2 ^ Z.of_nat i)) with (cur * 2 * 2 ^ Z.of_nat i) by lia. done.
    + exists []. split; [done|]. split; [constructor|]. intros i c. simpl. rewrite lookup_nil.
      split; [done|]. intros [-> Hc]. pose proof (Z.pow_pos_nonneg 2 (Z.of_nat i)). nia.
Qed.

Lemma pool_new_spec min_len max_len n :
  1 <= min_len -> max_len < 2 ^ 63 ->
  exists p, pool_new 64 min_len max_len n = Some p /\ pool_wf p /\
    (forall i c, sizes p !! i = Some c <-> c = min_len * 2 ^ Z.of_nat i /\ c <= max_len).
Proof.
  intros Hmin Hmax. unfold pool_new.
  destruct (new_buckets_spec 63 min_len max_len n) as (bs & -> & Hbs & Hc); [done..| |].
  { change (Z.of_nat 63) with 63. nia. }
  simpl. eexists. split; [reflexivity|]. split; [split; [done|]|exact Hc]. simpl.
  intros i j b c Hij Hi Hj.
  destruct (proj1 (Hc i (bk_capacity b))) as [-> _]; [by rewrite list_lookup_fmap, Hi|].
  destruct (proj1 (Hc j (bk_capacity c))) as [-> _]; [by rewrite list_lookup_fmap, Hj|].
  apply Z.mul_lt_mono_pos_l; [lia|]. apply Z.pow_lt_mono_r; lia.
Qed.

(** [MultiBufferPool::new] terminates for every positive minimum and every
    maximum below half the address range, and builds one bucket per doubling of
    the minimum that does not exceed the maximum. *)
Theorem pool_new_terminates min_len max_len n :
  1 <= min_len -> max_len < 2 ^ 63 ->
  exists p, pool_new 64 min_len max_len n = Some p /\ pool_wf p /\
    (forall i c, sizes p !! i = Some c <-> c = min_len * 2 ^ Z.of_nat i /\ c <= max_len).
Proof. apply pool_new_spec. Qed.

Lemma new_buckets_unwritten f cur hi k bs :
  new_buckets f cur hi k = Some bs ->
  Forall (fun b => Forall (fun m => bm_init m = 0) (bk_buffers b)) bs.
Proof.
  revert cur bs. induction f as [|f IH]; intros cur bs; cbn [new_buckets]; [done|].
  destruct (cur <=? hi); [|intros [= <-]; constructor].
  destruct (new_buckets f _ hi k) as [rest|] eqn:Hr; [|done]. intros [= <-].
  constructor; [by apply Forall_replicate|by eapply IH].
Qed.

(** The half of the contract of [set_len] that is not kept: on a new pool, [get]
    sets a length over bytes that were never written, and hands them out. *)
Lemma get_exposes_unwritten fuel min_len max_len k p n pb p' :
  pool_new fuel min_len max_len k = Some p -> 0 < n -> pool_get p n = Val (pb, p') ->
  exists buf, set_len buf n = Val (pb_buf pb) /\ ~ set_len_contract buf n /\ ~ pb_written pb.
Proof.
  unfold pool_new, pool_get. destruct (new_buckets _ _ _ _) as [bs|] eqn:Hb; [|done].
  intros [= <-] Hn. simpl. destruct (list_find _ bs) as [[i b]|] eqn:Hf; [|done].
  apply list_find_Some in Hf as (Hi & _ & _).
  pose proof (Forall_lookup_1 _ _ _ _ (new_buckets_unwritten _ _ _ _ _ Hb) Hi) as Hu. simpl in Hu.
  set (br := match bk_buffers b with
             | m :: ms => (m, ms) | [] => (with_capacity (bk_capacity b), []) end).
  assert (Hbr : bm_init br.1 = 0) by (unfold br; by inversion Hu).
  destruct br as [buf rest]. simpl in Hbr. destruct (set_len buf n) as [buf'|] eqn:Hs; [|done].
  simpl. intros [= <- _]. exists buf. split; [done|].
  unfold set_len in Hs. destruct (_ <=? _); [|done]. injection Hs as <-.
  unfold set_len_contract, pb_written. simpl. lia.
Qed.

(** With a zero minimum the loop never ends: the doubling stays at zero. *)
Lemma pool_new_zero_diverges fuel max_len n :
  0 <= max_len -> pool_new fuel 0 max_len n = None.
Proof.
  intros Hmax. unfold pool_new. induction fuel as [|f IH]; [done|]. cbn [new_buckets].
  rewrite (proj2 (Z.leb_le _ _)) by lia. change (as_usize (0 * 2)) with 0.
  by destruct (new_buckets f 0 max_len n).
Qed.

End pool_sharing.

(** ** Concrete instance *)

Definition plain_alloc : Alloc :=
  {| fresh_mem := fun n => replicate (Z.to_nat n) xcd; vec_capacity := fun n => n |}.

Lemma plain_alloc_ok : AllocOk plain_alloc.
Proof. split; intros n; simpl; [rewrite length_replicate|]; lia. Qed.

Definition small_pool : MultiBufferPool :=
  default (mkPool []) (pool_new (A := plain_alloc) 64 4 64 1).

Lemma small_pool_ok : pool_ok small_pool.
Proof.
  split; [split|discriminate].
  - repeat constructor; simpl; done.
  - let x := eval vm_compute in (buckets small_pool) in change (buckets small_pool) with x.
    intros i j b c Hij Hi Hj.
    destruct i as [|[|[|[|[|i]]]]], j as [|[|[|[|[|j]]]]]; try lia;
      simpl in Hi, Hj; simplify_eq; simpl; lia.
Qed.

Lemma pool_sharing_safe_witness :
  exists st', pool_run (A := plain_alloc)
      [Rent 6; Read 0 #"a body"; Rent 2; Return 0; Read 0 #"ab"; Rent 2] (small_pool, []) = Val st' /\
    sharing_ok st' /\ sizes st'.1 = sizes small_pool /\ covers small_pool st'.1 (out_of st').
Proof.
  apply (pool_sharing_safe (Hok := plain_alloc_ok)
    [Rent 6; Read 0 #"a body"; Rent 2; Return 0; Read 0 #"ab"; Rent 2] (small_pool, [])).
  - split; [apply small_pool_ok|constructor].
  - repeat constructor; vm_compute; discriminate.
Defined.

Lemma rented_buffer_is_the_message_witness :
  exists pb p', pool_get (A := plain_alloc) small_pool 9 = Val (pb, p') /\
    pb_slice (pb_fill pb #"123456789") = #"123456789" /\ 9 <= pb_original_capacity pb /\
    (forall j b, (j < pb_bucket_index pb)%nat -> buckets small_pool !! j = Some b ->
                 bk_capacity b < 9).
Proof.
  apply (rented_buffer_is_the_message (Hok := plain_alloc_ok) small_pool #"123456789");
    [apply small_pool_ok|vm_compute; discriminate].
Defined.

Lemma pool_new_terminates_witness :
  exists p, pool_new (A := plain_alloc) 64 4 100 1 = Some p /\ pool_wf p /\
    (forall i c, sizes p !! i = Some c <-> c = 4 * 2 ^ Z.of_nat i /\ c <= 100).
Proof. apply (pool_new_terminates (Hok := plain_alloc_ok)); lia. Defined.
