(* ===== verification/Packet.v ===== *)
(** Message bodies: the cursor of [proxy/packet.rs] over a message body, and the
    writers of [proxy/wire_util.rs] and [proxy/conn.rs].

    Indexing and slicing panic out of range, and [remaining] is the 64-bit
    difference of two [usize]; that neither ever goes wrong is a theorem. *)
From S2P Require Import Prelude Words RustStr Errors.
Local Open Scope Z_scope.

(** ** Writers *)

Definition put_cstr (buf value : bytes) : bytes := buf ++ value ++ [x00].

Definition prepare_error_buf (severity code message : bytes) : bytes :=
  let body := put_cstr [x53] severity in
  let body := put_cstr (body ++ [x56]) severity in
  let body := put_cstr (body ++ [x43]) code in
  let body := put_cstr (body ++ [x4d]) message in
  body ++ [x00].

(** ** [MessageReader] *)

Record MessageReader := mkReader { mr_buf : bytes; mr_pos : nat }.

Definition reader_new (buf : bytes) : MessageReader := mkReader buf 0.

Definition remaining (r : MessageReader) : Z :=
  as_usize (Z.of_nat (length (mr_buf r)) - Z.of_nat (mr_pos r)).

Definition set_pos (n : nat) (r : MessageReader) : MessageReader := mkReader (mr_buf r) n.

(** [self.buf[i]] and [self.buf[a..b]]. *)
Definition buf_index {E} (i : nat) : IO MessageReader E byte :=
  fun r => match mr_buf r !! i with
           | Some b => (Ready (Ok b), r)
           | None => (Crashed Panic, r)
           end.

Definition buf_slice {E} (a b : nat) : IO MessageReader E bytes :=
  fun r => if (a <=? b)%nat && (b <=? length (mr_buf r))%nat
           then (Ready (Ok (take (b - a) (drop a (mr_buf r)))), r)
           else (Crashed Panic, r).

Definition read_byte : IO MessageReader InternalError byte :=
  r ← io_get;
  if remaining r =? 0 then io_fail (BoxedIo UnexpectedEof)
  else
    b ← buf_index (mr_pos r);
    io_modify (set_pos (mr_pos r + 1));;
    mret b.

Definition read_u16 : IO MessageReader InternalError Z :=
  r ← io_get;
  if remaining r <? 2 then io_fail (BoxedIo UnexpectedEof)
  else
    b0 ← buf_index (mr_pos r);
    b1 ← buf_index (mr_pos r + 1);
    io_modify (set_pos (mr_pos r + 2));;
    mret (u16_from_be b0 b1).

Definition read_u32 : IO MessageReader ProxyError Z :=
  r ← io_get;
  if remaining r <? 4 then io_fail (connection_error InvalidMessageLength)
  else
    b0 ← buf_index (mr_pos r);
    b1 ← buf_index (mr_pos r + 1);
    b2 ← buf_index (mr_pos r + 2);
    b3 ← buf_index (mr_pos r + 3);
    io_modify (set_pos (mr_pos r + 4));;
    mret (u32_from_be b0 b1 b2 b3).

(** Steps of [while self.pos < self.buf.len()]: the bytes from the cursor to
    the NUL, when there is one. *)
Fixpoint find_nul (s : bytes) : option nat :=
  match s with
  | [] => None
  | c :: s' => if bool_decide (c = x00) then Some 0%nat else S <$> find_nul s'
  end.

Definition read_string : IO MessageReader ProxyError bytes :=
  r ← io_get;
  let start := mr_pos r in
  match find_nul (drop start (mr_buf r)) with
  | Some n =>
      io_modify (set_pos (start + n));;
      raw ← buf_slice start (start + n);
      message ← io_lift (ok_or (from_utf8 raw) (Internal BoxedUtf8));
      io_modify (set_pos (start + n + 1));;
      mret message
  | None =>
      io_modify (set_pos (Nat.max start (length (mr_buf r))));;
      io_fail (connection_error InvalidMessageLength)
  end.

Definition read_string_fixed_size (size : Z) : IO MessageReader ProxyError bytes :=
  r ← io_get;
  if remaining r <? as_usize size then io_fail (connection_error InvalidMessageLength)
  else
    let start := mr_pos r in
    let stop := (mr_pos r + Z.to_nat (as_usize size))%nat in
    io_modify (set_pos stop);;
    raw ← buf_slice start stop;
    io_lift (ok_or (from_utf8 raw) (Internal BoxedUtf8)).

(** One read of a body, with its result forgotten. *)
Inductive read_op := RByte | RU16 | RU32 | RString | RFixed (size : Z).

Definition run_read (op : read_op) : MessageReader -> poll bool * MessageReader :=
  let done {E A} (m : IO MessageReader E A) (r : MessageReader) : poll bool * MessageReader :=
    match m r with
    | (Ready v, r') => (Ready (is_ok v), r')
    | (Pending, r') => (Pending, r')
    | (Crashed c, r') => (Crashed c, r')
    end in
  match op with
  | RByte => done read_byte
  | RU16 => done read_u16
  | RU32 => done read_u32
  | RString => done read_string
  | RFixed size => done (read_string_fixed_size size)
  end.

Fixpoint run_reads (ops : list read_op) (r : MessageReader) : poll unit * MessageReader :=
  match ops with
  | [] => (Ready tt, r)
  | op :: ops' =>
      match run_read op r with
      | (Ready _, r') => run_reads ops' r'
      | (Pending, r') => (Pending, r')
      | (Crashed c, r') => (Crashed c, r')
      end
  end.

(** The cursor is inside the body, and the body is one a [usize] can index. *)
Definition reader_ok (r : MessageReader) : Prop :=
  (mr_pos r <= length (mr_buf r))%nat /\ Z.of_nat (length (mr_buf r)) < 2 ^ 63.

(** ** Lemmas *)

Lemma remaining_ok r :
  reader_ok r -> remaining r = Z.of_nat (length (mr_buf r) - mr_pos r).
Proof. intros [? ?]. unfold remaining, as_usize. rewrite Z.mod_small; lia. Qed.

Lemma find_nul_Some s n : find_nul s = Some n -> (n < length s)%nat.
Proof.
  revert n. induction s as [|c s IH]; intros n; simpl; [done|].
  case_bool_decide; [intros; simplify_eq; lia|].
  destruct (find_nul s) as [m|]; simpl; [|done]. intros; simplify_eq.
  specialize (IH m eq_refl). lia.
Qed.

Lemma find_nul_app s t : x00 ∉ s -> find_nul (s ++ x00 :: t) = Some (length s).
Proof.
  induction s as [|c s IH]; simpl; intros Hs; [done|].
  apply not_elem_of_cons in Hs as [? ?]. rewrite bool_decide_eq_false_2 by congruence.
  by rewrite IH.
Qed.

Lemma buf_index_ok {E} (r : MessageReader) i :
  (i < length (mr_buf r))%nat ->
  exists b, mr_buf r !! i = Some b /\ buf_index (E := E) i r = (Ready (Ok b), r).
Proof.
  intros Hi. destruct (lookup_lt_is_Some_2 _ _ Hi) as [b Hb].
  exists b. unfold buf_index. by rewrite Hb.
Qed.

Lemma buf_slice_ok {E} (r : MessageReader) a b :
  (a <= b)%nat -> (b <= length (mr_buf r))%nat ->
  buf_slice (E := E) a b r = (Ready (Ok (take (b - a) (drop a (mr_buf r)))), r).
Proof.
  intros Ha Hb. unfold buf_slice.
  by rewrite (proj2 (Nat.leb_le _ _) Ha), (proj2 (Nat.leb_le _ _) Hb).
Qed.

(** Every read ends, keeps the cursor in the body and never moves it back. *)
Ltac read_step :=
  match goal with
  | |- context [@buf_index ?E ?i ?r] =>
      let b := fresh "b" in let Hb := fresh "Hb" in let H := fresh "H" in
      edestruct (buf_index_ok (E := E) r i) as (b & Hb & H); [simpl; lia|rewrite H; clear H]
  end.

Ltac read_done :=
  simpl; eexists _, _; split; [reflexivity|]; unfold reader_ok; simpl;
  repeat split; first [done | lia].

Lemma run_read_ok op r :
  reader_ok r ->
  exists ok r', run_read op r = (Ready ok, r') /\ reader_ok r' /\
    mr_buf r' = mr_buf r /\ (mr_pos r <= mr_pos r')%nat.
Proof.
  intros Hr. pose proof (remaining_ok r Hr) as Hrem. destruct Hr as [Hpos Hlen].
  destruct op as [| | | |size]; unfold run_read, read_byte, read_u16, read_u32,
    read_string, read_string_fixed_size, mbind, io_bind, io_get, io_modify, io_fail, io_lift;
    rewrite ?Hrem.
  - destruct (Z.eqb_spec (Z.of_nat (length (mr_buf r) - mr_pos r)) 0).
    + read_done.
    + read_step. read_done.
  - destruct (Z.ltb_spec (Z.of_nat (length (mr_buf r) - mr_pos r)) 2).
    + read_done.
    + do 2 read_step. read_done.
  - destruct (Z.ltb_spec (Z.of_nat (length (mr_buf r) - mr_pos r)) 4).
    + read_done.
    + do 4 read_step. read_done.
  - destruct (find_nul _) as [n|] eqn:Hn.
    + apply find_nul_Some in Hn. rewrite length_drop in Hn.
      rewrite buf_slice_ok by (simpl; lia). destruct (from_utf8 _); read_done.
    + read_done.
  - destruct (Z.ltb_spec (Z.of_nat (length (mr_buf r) - mr_pos r)) (as_usize size)).
    + read_done.
    + assert (0 <= as_usize size) by (apply Z.mod_pos_bound; lia).
      rewrite buf_slice_ok by (simpl; lia). destruct (from_utf8 _); read_done.
Qed.

(** C38: Reading a message body never panics: from a cursor inside the body, any
    sequence of reads with any sizes, successful or not, keeps the cursor inside
    the body, so no index is ever out of range and [remaining] never wraps. *)
Theorem reads_never_panic ops r :
  reader_ok r ->
  exists r', run_reads ops r = (Ready tt, r') /\ reader_ok r' /\ mr_buf r' = mr_buf r /\
    (mr_pos r <= mr_pos r')%nat.
Proof.
  revert r. induction ops as [|op ops IH]; intros r Hr; simpl; [eauto 10|].
  destruct (run_read_ok op r Hr) as (ok & r1 & -> & Hr1 & Hb1 & Hp1).
  destruct (IH r1 Hr1) as (r2 & -> & Hr2 & Hb2 & Hp2).
  exists r2. repeat split; [apply Hr2|apply Hr2|congruence|lia].
Qed.

Lemma reads_never_panic_witness :
  exists r', run_reads [RU32; RString; RFixed (-1); RFixed 3; RByte]
               (reader_new #"abcdef") = (Ready tt, r') /\
    reader_ok r' /\ mr_buf r' = #"abcdef" /\ (0 <= mr_pos r')%nat.
Proof. apply (reads_never_panic _ (reader_new #"abcdef")). vm_compute. split; [lia|done]. Defined.

Lemma drop_app_at {A} (pre post : list A) n : length pre = n -> drop n (pre ++ post) = post.
Proof. intros <-. apply drop_app_length. Qed.

(** A C string written by [put_cstr] is what [read_string] returns, and the
    cursor stops right behind it. *)
Lemma read_string_put_cstr pre s post :
  x00 ∉ s -> is_utf8 s = true ->
  read_string (mkReader (pre ++ put_cstr [] s ++ post) (length pre)) =
  (Ready (Ok s), mkReader (pre ++ put_cstr [] s ++ post) (length pre + length s + 1)).
Proof.
  intros Hs Hu. unfold read_string, put_cstr, mbind, io_bind, io_get, io_modify, io_lift. simpl.
  rewrite drop_app_at, <- app_assoc by done. simpl. rewrite find_nul_app by done. simpl.
  rewrite buf_slice_ok; [|lia|simpl; rewrite !length_app; simpl; lia]. simpl.
  rewrite drop_app_at by done.
  replace (length pre + length s - length pre)%nat with (length s) by lia.
  rewrite take_app_length, from_utf8_valid by done. done.
Qed.

Lemma buf_index_mid {E} pre mid post pos k i b :
  mid !! k = Some b -> i = (length pre + k)%nat ->
  buf_index (E := E) i (mkReader (pre ++ mid ++ post) pos) =
  (Ready (Ok b), mkReader (pre ++ mid ++ post) pos).
Proof.
  intros Hb ->. unfold buf_index. cbn [mr_buf]. rewrite lookup_app_r by lia.
  rewrite Nat.add_comm, Nat.add_sub. by rewrite (lookup_app_l_Some _ _ _ _ Hb).
Qed.

(** A big-endian [u32] reads back, reduced to its width. *)
Lemma read_u32_to_be pre z post :
  Z.of_nat (length (pre ++ u32_to_be z ++ post)) < 2 ^ 63 ->
  read_u32 (mkReader (pre ++ u32_to_be z ++ post) (length pre)) =
  (Ready (Ok (as_u32 z)), mkReader (pre ++ u32_to_be z ++ post) (length pre + 4)).
Proof.
  intros Hlen. unfold read_u32, mbind, io_bind, io_get, io_modify, io_lift. cbn beta iota.
  rewrite remaining_ok by (split; simpl; [rewrite length_app; lia|done]).
  cbn [mr_buf mr_pos]. rewrite !length_app, u32_be_length.
  rewrite (proj2 (Z.ltb_ge _ _)) by lia.
  rewrite (buf_index_mid _ (u32_to_be z) _ _ 0 _ (z2b (Z.shiftr z 24))) by (done || lia).
  rewrite (buf_index_mid _ (u32_to_be z) _ _ 1 _ (z2b (Z.shiftr z 16))) by (done || lia).
  rewrite (buf_index_mid _ (u32_to_be z) _ _ 2 _ (z2b (Z.shiftr z 8))) by (done || lia).
  rewrite (buf_index_mid _ (u32_to_be z) _ _ 3 _ (z2b z)) by (done || lia).
  by rewrite u32_from_to_be.
Qed.

Lemma read_string_fixed_app pre s post :
  Z.of_nat (length (pre ++ s ++ post)) < 2 ^ 31 -> is_utf8 s = true ->
  read_string_fixed_size (Z.of_nat (length s)) (mkReader (pre ++ s ++ post) (length pre)) =
  (Ready (Ok s), mkReader (pre ++ s ++ post) (length pre + length s)).
Proof.
  intros Hlen Hu. rewrite !length_app in Hlen.
  unfold read_string_fixed_size, mbind, io_bind, io_get, io_modify, io_lift. cbn beta iota.
  rewrite remaining_ok by (split; simpl; rewrite ?length_app; lia).
  cbn [mr_buf mr_pos]. unfold as_usize. rewrite Z.mod_small by lia.
  rewrite (proj2 (Z.ltb_ge _ _)) by (rewrite !length_app; lia). rewrite Nat2Z.id.
  rewrite buf_slice_ok; [|lia|simpl; rewrite !length_app; lia]. simpl.
  rewrite drop_app_at by done.
  replace (length pre + length s - length pre)%nat with (length s) by lia.
  rewrite take_app_length, from_utf8_valid by done. done.
Qed.
