(* ===== verification/StartupOptions.v ===== *)
(** The [options] and [replication] startup parameters:
    [proxy/startup_config_parse_util.rs] and [proxy/replication_mode.rs].

    The tokenizer walks the characters of the string; its separators and its
    escape are ASCII, so walking the bytes gives the same tokens. *)
From S2P Require Import Prelude Words RustStr Errors.

Inductive ReplicationMode := Off | Physical | Logical.

#[export] Instance replication_mode_eq_dec : EqDecision ReplicationMode.
Proof. solve_decision. Defined.

Definition chr_backslash : byte := x5c.
Definition chr_space : byte := x20.
Definition chr_tab : byte := x09.
Definition chr_eq : byte := x3d.
Definition chr_dash : byte := x2d.
Definition chr_underscore : byte := x5f.

(** [tokens], [curr] and [escaped], the variables of the loop. *)
Record TokState := mkTok { tk_tokens : list bytes; tk_curr : bytes; tk_escaped : bool }.

(** [if !curr.is_empty() { tokens.push(curr); curr = String::new(); }]. *)
Definition flush_token (st : TokState) : TokState :=
  match tk_curr st with
  | [] => st
  | curr => mkTok (tk_tokens st ++ [curr]) [] (tk_escaped st)
  end.

Definition tok_step (st : TokState) (c : byte) : TokState :=
  if tk_escaped st then mkTok (tk_tokens st) (tk_curr st ++ [c]) false
  else if bool_decide (c = chr_backslash) then mkTok (tk_tokens st) (tk_curr st) true
  else if bool_decide (c = chr_space) || bool_decide (c = chr_tab) then flush_token st
  else mkTok (tk_tokens st) (tk_curr st ++ [c]) false.

Definition split_option_tokens (s : bytes) : list bytes :=
  tk_tokens (flush_token (foldl tok_step (mkTok [] [] false) s)).

Definition split_key_value (token : bytes) : result ProxyError (bytes * bytes) :=
  '(key, value) ← ok_or (split_once chr_eq token) (connection_error InvalidData);
  match key, value with
  | [], _ | _, [] => Err (connection_error InvalidData)
  | _, _ => Ok (key, value)
  end.

(** The [while let Some(token) = tokens.get(i)] loop, from the current token. *)
Fixpoint parse_option_tokens (tokens : list bytes) (parsed : gmap bytes bytes)
    : result ProxyError (gmap bytes bytes) :=
  match tokens with
  | [] => Ok parsed
  | token :: rest =>
      if bool_decide (token = #"-c") then
        match rest with
        | [] => Err (connection_error InvalidData)
        | value_token :: rest' =>
            '(key, value) ← split_key_value value_token;
            parse_option_tokens rest' (<[key := value]> parsed)
        end
      else if starts_with #"-c" token then
        '(key, value) ← split_key_value (drop 2 token);
        parse_option_tokens rest (<[key := value]> parsed)
      else if starts_with #"--" token then
        '(key, value) ← split_key_value (drop 2 token);
        parse_option_tokens rest (<[replace_char chr_dash chr_underscore key := value]> parsed)
      else Err (connection_error InvalidData)
  end.

Definition parse_options (options : bytes) : result ProxyError (gmap bytes bytes) :=
  parse_option_tokens (split_option_tokens options) ∅.

Definition parse_replication_mode (value : bytes) : result ProxyError ReplicationMode :=
  let v := to_lowercase value in
  if bool_decide (v ∈ [[]; #"false"; #"off"; #"no"; #"0"; #"f"; #"n"]) then Ok Off
  else if bool_decide (v ∈ [ #"true"; #"on"; #"yes"; #"1"; #"t"; #"y"]) then Ok Physical
  else if bool_decide (v = #"database") then Ok Logical
  else Err (connection_error InvalidData).

(** ** The syntax the tokenizer reads

    How a client writes tokens and settings into the [options] parameter. *)

Definition escape_byte (c : byte) : bytes :=
  if bool_decide (c = chr_backslash) || bool_decide (c = chr_space) || bool_decide (c = chr_tab)
  then [chr_backslash; c] else [c].

Definition escape_token (t : bytes) : bytes := concat (map escape_byte t).

Definition render_tokens (ts : list bytes) : bytes :=
  concat (map (fun t => chr_space :: escape_token t) ts).

(** [-c key=value], as two tokens. *)
Definition setting_tokens (kv : bytes * bytes) : list bytes :=
  [ #"-c"; kv.1 ++ chr_eq :: kv.2].

Definition render_options (kvs : list (bytes * bytes)) : bytes :=
  render_tokens (concat (map setting_tokens kvs)).

Definition setting_ok (kv : bytes * bytes) : Prop :=
  kv.1 <> [] /\ kv.2 <> [] /\ chr_eq ∉ kv.1.

(** ** Lemmas *)

Lemma tok_escape_byte ts curr c :
  foldl tok_step (mkTok ts curr false) (escape_byte c) = mkTok ts (curr ++ [c]) false.
Proof.
  unfold escape_byte. destruct (_ || _) eqn:H; simpl.
  - unfold tok_step. simpl. done.
  - apply orb_false_iff in H as [[H1 H2]%orb_false_iff H3].
    unfold tok_step. simpl. by rewrite H1, H2, H3.
Qed.

Lemma tok_escape_token ts curr t :
  foldl tok_step (mkTok ts curr false) (escape_token t) = mkTok ts (curr ++ t) false.
Proof.
  revert curr. induction t as [|c t IH]; intros curr; simpl; [by rewrite app_nil_r|].
  change (escape_token (c :: t)) with (escape_byte c ++ escape_token t).
  rewrite foldl_app, tok_escape_byte, IH. by rewrite <- app_assoc.
Qed.

Lemma flush_token_flush ts curr :
  flush_token (mkTok ts curr false) =
  mkTok (ts ++ if decide (curr = []) then [] else [curr]) [] false.
Proof. destruct curr; simpl; [by rewrite app_nil_r|done]. Qed.

Lemma split_render_from ts curr rest :
  Forall (fun t => t <> []) ts ->
  tk_tokens (flush_token (foldl tok_step (mkTok rest curr false) (render_tokens ts))) =
  rest ++ (if decide (curr = []) then [] else [curr]) ++ ts.
Proof.
  intros Hts. revert curr rest. induction Hts as [|t ts Ht Hts IH]; intros curr rest.
  - simpl. rewrite flush_token_flush. simpl. by rewrite app_nil_r.
  - change (render_tokens (t :: ts)) with ((chr_space :: escape_token t) ++ render_tokens ts).
    rewrite foldl_app. cbn [foldl].
    change (tok_step (mkTok rest curr false) chr_space) with (flush_token (mkTok rest curr false)).
    rewrite flush_token_flush, tok_escape_token. simpl.
    rewrite IH. destruct (decide (t = [])); [done|]. by rewrite <- !app_assoc.
Qed.

(** Tokens written with escapes are read back unchanged. *)
Lemma split_render_tokens ts :
  Forall (fun t => t <> []) ts -> split_option_tokens (render_tokens ts) = ts.
Proof. intros H. unfold split_option_tokens. by rewrite split_render_from. Qed.

Lemma split_key_value_setting kv :
  setting_ok kv -> split_key_value (kv.1 ++ chr_eq :: kv.2) = Ok kv.
Proof.
  destruct kv as [k v]. intros (Hk & Hv & Heq). simpl in *.
  unfold split_key_value. rewrite split_once_app by done. simpl. by destruct k, v.
Qed.

Lemma parse_setting_tokens kvs parsed :
  Forall setting_ok kvs ->
  parse_option_tokens (concat (map setting_tokens kvs)) parsed =
  Ok (foldl (fun m kv => <[kv.1 := kv.2]> m) parsed kvs).
Proof.
  intros H. revert parsed. induction H as [|kv kvs Hkv Hkvs IH]; intros parsed; [done|].
  cbn [map concat app setting_tokens parse_option_tokens].
  rewrite bool_decide_eq_true_2 by done. rewrite split_key_value_setting by done.
  destruct kv as [k v]. apply IH.
Qed.

(** C39: Settings written as [-c key=value], with spaces, tabs and backslashes
    escaped, are parsed back exactly, the last setting of a key winning. *)
Theorem parse_options_roundtrip kvs :
  Forall setting_ok kvs ->
  parse_options (render_options kvs) = Ok (foldl (fun m kv => <[kv.1 := kv.2]> m) ∅ kvs).
Proof.
  intros H. unfold parse_options, render_options. rewrite split_render_tokens.
  - by apply parse_setting_tokens.
  - induction H as [|kv kvs Hkv _ IH]; [constructor|]. simpl.
    constructor; [done|]. constructor; [|exact IH]. intros [_ H]%app_nil. done.
Qed.

Lemma parse_options_roundtrip_witness :
  parse_options (render_options [( #"search_path", #"a b"); ( #"k", #"x=\y")]) =
  Ok (<[ #"k" := #"x=\y"]> (<[ #"search_path" := #"a b"]> ∅)).
Proof.
  apply (parse_options_roundtrip [( #"search_path", #"a b"); ( #"k", #"x=\y")]).
  repeat constructor; simpl; (discriminate || (vm_compute; set_solver)).
Defined.

Lemma split_key_value_Ok token k v :
  split_key_value token = Ok (k, v) -> k <> [] /\ v <> [].
Proof.
  unfold split_key_value. destruct (split_once _ _) as [[a b]|]; simpl; [|done].
  destruct a, b; intros; simplify_eq; done.
Qed.

Lemma split_key_value_Err token e :
  split_key_value token = Err e -> e = connection_error InvalidData.
Proof.
  unfold split_key_value. destruct (split_once _ _) as [[[|] [|]]|]; simpl; congruence.
Qed.

Lemma replace_char_nonempty a b s : s <> [] -> replace_char a b s <> [].
Proof. by destruct s. Qed.

Definition named_setting (k v : bytes) : Prop := k <> [] /\ v <> [].

(** Parsing the [options] parameter always ends, with a map whose keys and
    values are all non-empty, or with the single client-visible error
    "invalid data". *)
Theorem parse_options_outcome s :
  match parse_options s with
  | Ok parsed => map_Forall named_setting parsed
  | Err e => e = connection_error InvalidData
  end.
Proof.
  unfold parse_options. generalize (split_option_tokens s). intros ts.
  assert (H : forall n ts m, (length ts <= n)%nat -> map_Forall named_setting m ->
             match parse_option_tokens ts m with
             | Ok parsed => map_Forall named_setting parsed
             | Err e => e = connection_error InvalidData
             end); [|apply (H (length ts)); [lia|apply map_Forall_empty]].
  clear ts. induction n as [|n IH]; intros [|t ts] m Hlen Hm; simpl in *; try done; try lia.
  assert (Hrec : forall token rest f, (length rest <= n)%nat ->
             (forall k, k <> [] -> f k <> []) ->
             match ('(k, v) ← split_key_value token; parse_option_tokens rest (<[f k := v]> m))
             with Ok parsed => map_Forall named_setting parsed
                | Err e => e = connection_error InvalidData end).
  { intros token rest f Hr Hf. destruct (split_key_value token) as [[k v]|e] eqn:Hkv; simpl.
    - apply split_key_value_Ok in Hkv as [Hk Hv]. apply IH; [done|].
      apply map_Forall_insert_2; [split; [by apply Hf|done]|done].
    - by eapply split_key_value_Err. }
  case_bool_decide; [destruct ts as [|vt ts]; [done|]; apply (Hrec _ _ id); simpl in *; [lia|done]|].
  destruct (starts_with #"-c" t); [apply (Hrec _ _ id); [lia|done]|].
  destruct (starts_with #"--" t); [|done].
  apply (Hrec _ _ (replace_char _ _)); [lia|]. intros. by apply replace_char_nonempty.
Qed.

(** The source's own test cases. *)
Example split_escaped_space : split_option_tokens #"a\ b" = [ #"a b"].
Proof. reflexivity. Qed.

Example parse_double_dash :
  (fun parsed => parsed !! #"connection_limit") <$> parse_options #"--connection-limit=5"
  = Ok (Some #"5").
Proof. vm_compute. reflexivity. Qed.

Example parse_rejects_empty_value : parse_options #"-ck=" = Err (connection_error InvalidData).
Proof. vm_compute. reflexivity. Qed.
