(* ===== verification/Crypto.v ===== *)
(** The third-party code the authentication relies on, as parameters: the
    [sha2], [hmac], [pbkdf2] and [md5] digests, the [base64] engines,
    [stringprep::saslprep] and the certificate parser.  [PrimitivesOk] states
    their documented behaviour; [ToyCrypto] has a concrete instance. *)
From S2P Require Import Prelude Words RustStr.
Local Open Scope Z_scope.

Class Primitives := {
  (** [Sha256::digest], [Sha384::digest], [Sha512::digest]. *)
  sha2_256 : bytes -> bytes;
  sha2_384 : bytes -> bytes;
  sha2_512 : bytes -> bytes;
  (** [Hmac<Sha256>] of a key and a message. *)
  hmac_sha2_256 : bytes -> bytes -> bytes;
  (** [pbkdf2_hmac::<Sha256>] of a password, a salt and a round count, into 32 bytes. *)
  pbkdf2_hmac_sha2_256 : bytes -> bytes -> Z -> bytes;
  (** [md5::compute]. *)
  md5_compute : bytes -> bytes;
  (** The [STANDARD], [STANDARD_NO_PAD] and [URL_SAFE_NO_PAD] base64 engines. *)
  b64_encode : bytes -> bytes;
  b64_decode : bytes -> option bytes;
  b64_no_pad_decode : bytes -> option bytes;
  b64_url_encode : bytes -> bytes;
  (** [stringprep::saslprep]; [None] when preparation fails. *)
  saslprep : bytes -> option bytes;
  (** [X509Certificate::from_der] and the dotted OID of the certificate's
      signature algorithm; [None] when the DER does not parse. *)
  x509_signature_oid : bytes -> option bytes }.

(** The bytes [STANDARD] writes: letters, digits, [+], [/] and the padding [=]. *)
Definition b64_symbol (b : byte) : bool :=
  in_range 65 90 b || in_range 97 122 b || in_range 48 57 b
  || bool_decide (b ∈ [x2b; x2f; x3d]).

(** The bytes [URL_SAFE_NO_PAD] writes. *)
Definition b64_url_symbol (b : byte) : bool :=
  in_range 65 90 b || in_range 97 122 b || in_range 48 57 b || bool_decide (b ∈ [x2d; x5f]).

Class PrimitivesOk (P : Primitives) : Prop := {
  sha2_256_length : forall m, length (sha2_256 m) = 32%nat;
  hmac_length : forall k m, length (hmac_sha2_256 k m) = 32%nat;
  pbkdf2_length : forall p s n, length (pbkdf2_hmac_sha2_256 p s n) = 32%nat;
  md5_length : forall m, length (md5_compute m) = 16%nat;
  b64_roundtrip : forall m, b64_decode (b64_encode m) = Some m;
  b64_alphabet : forall m, Forall (fun b => b64_symbol b = true) (b64_encode m);
  b64_url_alphabet : forall m, Forall (fun b => b64_url_symbol b = true) (b64_url_encode m);
  b64_url_nonempty : forall m, m <> [] -> b64_url_encode m <> [] }.

(** [ConstantTimeEq::ct_eq] of two slices: equality, whatever the lengths. *)
Definition ct_eq (a b : bytes) : bool := bool_decide (a = b).

Section facts.
Context {P : Primitives} {HP : PrimitivesOk P}.

Lemma not_in_b64 c m : b64_symbol c = false -> c ∉ b64_encode m.
Proof.
  intros Hc Hin. pose proof (b64_alphabet m) as H. rewrite Forall_forall in H.
  apply H in Hin. congruence.
Qed.

Lemma not_in_b64_url c m : b64_url_symbol c = false -> c ∉ b64_url_encode m.
Proof.
  intros Hc Hin. pose proof (b64_url_alphabet m) as H. rewrite Forall_forall in H.
  apply H in Hin. congruence.
Qed.

End facts.

(** ASCII text is valid UTF-8. *)
Lemma ascii_is_utf8 s : Forall (fun b => b2z b < 0x80) s -> is_utf8 s = true.
Proof.
  unfold is_utf8. induction 1 as [|b s Hb _ IH]; [done|]. cbn [utf8_chunks].
  rewrite (proj2 (Z.ltb_lt _ _)) by done. done.
Qed.

Lemma is_utf8_ascii_app s t :
  Forall (fun b => b2z b < 0x80) s -> is_utf8 (s ++ t) = is_utf8 t.
Proof.
  unfold is_utf8. induction 1 as [|b s Hb _ IH]; [done|]. cbn [utf8_chunks app].
  rewrite (proj2 (Z.ltb_lt _ _)) by done. done.
Qed.

Lemma is_utf8_ascii s t : Forall (fun b => b2z b < 0x80) s -> is_utf8 t = true -> is_utf8 (s ++ t) = true.
Proof. intros Hs Ht. by rewrite is_utf8_ascii_app. Qed.

Lemma show_uint_ascii z : 0 <= z -> Forall (fun b => b2z b < 0x80) (show_uint z).
Proof.
  intros Hz. eapply Forall_impl; [by apply show_digits_all_digits|].
  intros b. by destruct b; vm_compute.
Qed.

Section base64.
Context {P : Primitives} {HP : PrimitivesOk P}.

Lemma b64_ascii m : Forall (fun b => b2z b < 0x80) (b64_encode m).
Proof. eapply Forall_impl; [apply b64_alphabet|]. intros b. by destruct b; vm_compute. Qed.

Lemma b64_url_ascii m : Forall (fun b => b2z b < 0x80) (b64_url_encode m).
Proof. eapply Forall_impl; [apply b64_url_alphabet|]. intros b. by destruct b; vm_compute. Qed.

End base64.

(** Text put together of literals, numbers and base64. *)
Ltac solve_ascii :=
  repeat
    (idtac; lazymatch goal with
     | |- Forall _ (_ ++ _) => apply Forall_app; split
     | |- Forall _ (b64_encode _) => apply b64_ascii
     | |- Forall _ (b64_url_encode _) => apply b64_url_ascii
     | |- Forall _ (show_uint _) => apply show_uint_ascii; lia
     | |- Forall ?Q ?l => apply (bool_decide_unpack (Forall Q l)); vm_compute; exact I
     end).
