(* ===== verification/ToyCrypto.v ===== *)
(** A concrete instance of the primitives, with which the theorems' hypotheses
    are shown to hold together: a small digest in place of SHA-256, and base64
    with the standard alphabet and padding. *)
From S2P Require Import Prelude Words RustStr Crypto.
Local Open Scope Z_scope.

Definition toy_digest (n : nat) (m : bytes) : bytes :=
  map (fun i => z2b (fold_left (fun acc b => (acc * 31 + b2z b + Z.of_nat i) mod 65536) m
                       (Z.of_nat i * 7 + 1)))
      (seq 0 n).

Definition alphabet : bytes :=
  #"ABCDEFGHIJKLMNOPQRSTUVWXYZabcdefghijklmnopqrstuvwxyz0123456789+/".

Definition sextet (n : Z) : byte := nth (Z.to_nat (n mod 64)) alphabet x41.

Fixpoint index_of (c : byte) (l : bytes) (i : Z) : option Z :=
  match l with
  | [] => None
  | a :: l' => if bool_decide (a = c) then Some i else index_of c l' (i + 1)
  end.

Definition unsextet (c : byte) : option Z := index_of c alphabet 0.

Fixpoint toy_encode (m : bytes) : bytes :=
  match m with
  | [] => []
  | [a] => [sextet (b2z a / 4); sextet (b2z a * 16); x3d; x3d]
  | [a; b] => [sextet (b2z a / 4); sextet (b2z a * 16 + b2z b / 16); sextet (b2z b * 4); x3d]
  | a :: b :: c :: m' =>
      sextet (b2z a / 4) :: sextet (b2z a * 16 + b2z b / 16)
      :: sextet (b2z b * 4 + b2z c / 64) :: sextet (b2z c) :: toy_encode m'
  end.

Definition decode_quad (w x y z : byte) : option bytes :=
  p ← unsextet w; q ← unsextet x;
  let a := z2b (p * 4 + q / 16) in
  if bool_decide (z = x3d) then
    if bool_decide (y = x3d) then
      if q mod 16 =? 0 then Some [a] else None
    else
      r ← unsextet y;
      if r mod 4 =? 0 then Some [a; z2b (q * 16 + r / 4)] else None
  else
    r ← unsextet y; s ← unsextet z;
    Some [a; z2b (q * 16 + r / 4); z2b (r * 64 + s)].

Fixpoint toy_decode (s : bytes) : option bytes :=
  match s with
  | [] => Some []
  | w :: x :: y :: z :: [] => decode_quad w x y z
  | w :: x :: y :: z :: s' =>
      if bool_decide (z = x3d) then None
      else hd ← decode_quad w x y z; tl ← toy_decode s'; Some (hd ++ tl)
  | _ => None
  end.

Definition url_symbol (b : byte) : byte :=
  if in_range 65 90 b || in_range 97 122 b || in_range 48 57 b then b else x5f.

Definition toy_crypto : Primitives := {|
  sha2_256 := toy_digest 32;
  sha2_384 := toy_digest 48;
  sha2_512 := toy_digest 64;
  hmac_sha2_256 := fun k m => toy_digest 32 (k ++ x5c :: m);
  pbkdf2_hmac_sha2_256 := fun p s n => toy_digest 32 (p ++ x36 :: s ++ show_uint n);
  md5_compute := toy_digest 16;
  b64_encode := toy_encode;
  b64_decode := toy_decode;
  b64_no_pad_decode := fun _ => None;
  b64_url_encode := map url_symbol;
  saslprep := fun p => if forallb (fun b => in_range 32 126 b) p then Some p else None;
  x509_signature_oid := fun der => strip_prefix #"DER:" der |}.

Lemma sextet_range n : 0 <= n mod 64 < 64.
Proof. apply Z.mod_pos_bound. lia. Qed.

Lemma unsextet_sextet n : unsextet (sextet n) = Some (n mod 64).
Proof.
  assert (H : Forall (fun i => unsextet (sextet (Z.of_nat i)) = Some (Z.of_nat i mod 64)) (seq 0 64))
    by (apply (bool_decide_unpack _); vm_compute; exact I).
  rewrite Forall_forall in H. pose proof (sextet_range n).
  specialize (H (Z.to_nat (n mod 64))). rewrite Z2Nat.id in H by lia.
  rewrite Z.mod_mod in H by lia. rewrite <- H by (apply elem_of_seq; lia).
  unfold sextet. by rewrite Z.mod_mod by lia.
Qed.

Lemma sextet_not_pad n : bool_decide (sextet n = x3d) = false.
Proof.
  apply bool_decide_eq_false_2. intros H. pose proof (unsextet_sextet n) as Hu.
  rewrite H in Hu. done.
Qed.

Lemma b64_symbol_sextet n : b64_symbol (sextet n) = true.
Proof.
  assert (H : Forall (fun i => b64_symbol (sextet (Z.of_nat i)) = true) (seq 0 64))
    by (apply (bool_decide_unpack _); vm_compute; exact I).
  rewrite Forall_forall in H. pose proof (sextet_range n).
  specialize (H (Z.to_nat (n mod 64)) ltac:(apply elem_of_seq; lia)).
  unfold sextet in *. rewrite Z2Nat.id in H by lia. by rewrite Z.mod_mod in H by lia.
Qed.

Ltac sextet_arith :=
  repeat match goal with
  | |- context [b2z ?a] =>
      lazymatch goal with
      | _ : 0 <= b2z a < 256 |- _ => fail
      | _ => pose proof (b2z_range a)
      end
  end;
  Z.to_euclidean_division_equations; lia.

Lemma first_byte a q : q / 16 = b2z a * 16 mod 64 / 16 -> z2b ((b2z a / 4) mod 64 * 4 + q / 16) = a.
Proof.
  intros ->. apply b2z_inj. rewrite b2z_z2b. pose proof (b2z_range a).
  Z.to_euclidean_division_equations; lia.
Qed.

Lemma decode_full a b c :
  decode_quad (sextet (b2z a / 4)) (sextet (b2z a * 16 + b2z b / 16))
              (sextet (b2z b * 4 + b2z c / 64)) (sextet (b2z c)) = Some [a; b; c].
Proof.
  unfold decode_quad. rewrite !unsextet_sextet, sextet_not_pad. simpl.
  pose proof (b2z_range a). pose proof (b2z_range b). pose proof (b2z_range c).
  repeat f_equal; apply b2z_inj; rewrite b2z_z2b; Z.to_euclidean_division_equations; lia.
Qed.

Lemma decode_two a b :
  decode_quad (sextet (b2z a / 4)) (sextet (b2z a * 16 + b2z b / 16))
              (sextet (b2z b * 4)) x3d = Some [a; b].
Proof.
  unfold decode_quad. rewrite !unsextet_sextet. rewrite bool_decide_eq_true_2, sextet_not_pad by done.
  simpl. pose proof (b2z_range a). pose proof (b2z_range b).
  rewrite (proj2 (Z.eqb_eq _ _)) by (Z.to_euclidean_division_equations; lia).
  repeat f_equal; apply b2z_inj; rewrite b2z_z2b; Z.to_euclidean_division_equations; lia.
Qed.

Lemma decode_one a :
  decode_quad (sextet (b2z a / 4)) (sextet (b2z a * 16)) x3d x3d = Some [a].
Proof.
  unfold decode_quad. rewrite !unsextet_sextet, bool_decide_eq_true_2 by done. simpl.
  pose proof (b2z_range a).
  rewrite (proj2 (Z.eqb_eq _ _)) by (Z.to_euclidean_division_equations; lia).
  repeat f_equal; apply b2z_inj; rewrite b2z_z2b; Z.to_euclidean_division_equations; lia.
Qed.

Lemma triple_ind (Q : bytes -> Prop) :
  Q [] -> (forall a, Q [a]) -> (forall a b, Q [a; b]) ->
  (forall a b c m, Q m -> Q (a :: b :: c :: m)) -> forall m, Q m.
Proof.
  intros H0 H1 H2 H3. fix IH 1. intros [|a [|b [|c m]]]; [done|apply H1|apply H2|].
  apply H3, IH.
Qed.

Lemma toy_roundtrip m : toy_decode (toy_encode m) = Some m.
Proof.
  induction m as [|a|a b|a b c m IH] using triple_ind; [done| | |].
  - apply decode_one.
  - apply decode_two.
  - cbn [toy_encode toy_decode]. destruct (toy_encode m) as [|w s] eqn:E.
    + assert (m = []) as -> by (by destruct m as [|? [|? [|? ?]]]). apply decode_full.
    + rewrite sextet_not_pad, decode_full. cbn [mbind option_bind]. by rewrite IH.
Qed.

Lemma toy_alphabet m : Forall (fun b => b64_symbol b = true) (toy_encode m).
Proof.
  induction m as [|a|a b|a b c m IH] using triple_ind; simpl;
    repeat constructor; try apply b64_symbol_sextet; done.
Qed.

Lemma toy_crypto_ok : PrimitivesOk toy_crypto.
Proof.
  split; simpl; intros; unfold toy_digest; rewrite ?length_map, ?length_seq; try done.
  - apply toy_roundtrip.
  - apply toy_alphabet.
  - apply Forall_map, Forall_true. intros b. revert b. apply (byte_forall (fun b => _)).
    vm_compute. reflexivity.
  - by destruct m.
Qed.

(** The source's [biws] and the RFC 4648 vectors. *)
Example encode_gs2 : toy_encode #"n,," = #"biws".
Proof. reflexivity. Qed.

Example encode_foobar :
  map toy_encode [ #"f"; #"fo"; #"foo"; #"foobar"] =
  [ #"Zg=="; #"Zm8="; #"Zm9v"; #"Zm9vYmFy"].
Proof. reflexivity. Qed.
