(* ===== verification/Digests.v ===== *)
(** The published algorithms behind the class [Primitives]: the SHA-2 family
    (FIPS 180-4), HMAC (RFC 2104), PBKDF2 (RFC 8018), MD5 (RFC 1321) and the three
    base64 alphabets (RFC 4648).

    They are not code of the repository.  The theorems are proved for every
    instance that satisfies [PrimitivesOk]; this one makes the definitions produce
    the bytes the program produces, so that published vectors and the assertions
    of the repository's own tests can be run against them.  Every constant is
    computed from its definition (roots of primes, sines), none is a table. *)
From S2P Require Import Prelude Words RustStr Crypto ToyCrypto.
Local Open Scope Z_scope.

(** ** Arithmetic the constants are made of *)

(** The largest [r < 2^n] with [r^k <= x], bit by bit. *)
Fixpoint root_below (n : nat) (k x r : Z) : Z :=
  match n with
  | O => r
  | S n => let r' := r + 2 ^ Z.of_nat n in root_below n k x (if r' ^ k <=? x then r' else r)
  end.

Definition is_prime (n : nat) : bool :=
  forallb (fun d => negb (n mod d =? 0)%nat) (seq 2 (n - 2)).

(** The first 80 primes: 409 is the 80th. *)
Definition primes : list Z :=
  Eval vm_compute in map Z.of_nat (List.filter is_prime (seq 2 408)).

(** The first [w] bits of the fractional part of the [k]-th root of [p]. *)
Definition root_bits (w k p : Z) : Z := root_below (Z.to_nat (w + 9)) k (p * 2 ^ (k * w)) 0 mod 2 ^ w.

(** ** SHA-2 *)

(** What SHA-256 and SHA-512 differ in: the word size, the round constants and
    the amounts of the rotations, the last of a small sigma being a shift. *)
Record sha2_params := {
  word_bits : Z;
  round_constants : list Z;
  big_sigma0 : Z * Z * Z;
  big_sigma1 : Z * Z * Z;
  small_sigma0 : Z * Z * Z;
  small_sigma1 : Z * Z * Z }.

Section sha2.
Context (S : sha2_params).

Definition word (z : Z) : Z := Z.land z (Z.ones (word_bits S)).

Definition rotr (n x : Z) : Z := word (Z.lor (Z.shiftr x n) (Z.shiftl x (word_bits S - n))).

Definition rotations (r : Z * Z * Z) (x : Z) : Z :=
  let '(a, b, c) := r in Z.lxor (rotr a x) (Z.lxor (rotr b x) (rotr c x)).

Definition rotations_shift (r : Z * Z * Z) (x : Z) : Z :=
  let '(a, b, c) := r in Z.lxor (rotr a x) (Z.lxor (rotr b x) (Z.shiftr x c)).

(** [window] is the sixteen schedule words from the current round on. *)
Definition next_word (window : list Z) : Z :=
  match window with
  | [w0; w1; _; _; _; _; _; _; _; w9; _; _; _; _; w14; _] =>
      word (rotations_shift (small_sigma1 S) w14 + w9
            + rotations_shift (small_sigma0 S) w1 + w0)
  | _ => 0
  end.

(** One round consumes the first word of the window. *)
Definition sha2_round (st : list Z * list Z) (k : Z) : list Z * list Z :=
  match st with
  | ([a; b; c; d; e; f; g; h], w0 :: window) =>
      let choice := Z.lxor (Z.land e f) (Z.land (word (Z.lnot e)) g) in
      let majority := Z.lxor (Z.land a b) (Z.lxor (Z.land a c) (Z.land b c)) in
      let t1 := h + rotations (big_sigma1 S) e + choice + k + w0 in
      let t2 := rotations (big_sigma0 S) a + majority in
      ([word (t1 + t2); a; b; c; word (d + t1); e; f; g],
       window ++ [next_word (w0 :: window)])
  | other => other
  end.

Definition sha2_block (h : list Z) (block : list Z) : list Z :=
  zip_with (fun x y => word (x + y)) h (fold_left sha2_round (round_constants S) (h, block)).1.

Definition word_bytes : nat := Z.to_nat (word_bits S / 8).

(** Big-endian words: [n] bytes of a number, and the number of some bytes. *)
Definition be_bytes (n : nat) (z : Z) : bytes :=
  map (fun i => z2b (Z.shiftr z (8 * Z.of_nat i))) (rev (seq 0 n)).

Definition be_number (bs : bytes) : Z := fold_left (fun acc b => acc * 256 + b2z b) bs 0.

(** The message, the bit 1, zeros, and the bit length in two words. *)
Definition sha2_pad (m : bytes) : bytes :=
  let block := (16 * word_bytes)%nat in
  let filled := (length m + 1 + 2 * word_bytes)%nat in
  m ++ x80 :: replicate (Z.to_nat (- Z.of_nat filled mod Z.of_nat block)) x00
  ++ be_bytes (2 * word_bytes) (8 * Z.of_nat (length m)).

Fixpoint chunks (fuel n : nat) {A} (l : list A) : list (list A) :=
  match fuel, l with
  | O, _ | _, [] => []
  | Datatypes.S fuel, _ => take n l :: chunks fuel n (drop n l)
  end.

(** The hash words after a message; [h] is where the hash starts. *)
Definition sha2_words (h : list Z) (m : bytes) : list Z :=
  let padded := sha2_pad m in
  let words := map be_number (chunks (length padded) word_bytes padded) in
  fold_left sha2_block (chunks (length words) 16 words) h.

(** The digest: the first [n] bytes of the hash words. *)
Definition sha2_digest (h : list Z) (n : nat) (m : bytes) : bytes :=
  take n (concat (map (be_bytes word_bytes) (sha2_words h m))).

End sha2.

Definition sha256_constants : list Z :=
  Eval vm_compute in map (root_bits 32 3) (take 64 primes).

Definition sha512_constants : list Z := Eval vm_compute in map (root_bits 64 3) primes.

Definition sha256_params : sha2_params := {|
  word_bits := 32;
  round_constants := sha256_constants;
  big_sigma0 := (2, 13, 22);
  big_sigma1 := (6, 11, 25);
  small_sigma0 := (7, 18, 3);
  small_sigma1 := (17, 19, 10) |}.

Definition sha512_params : sha2_params := {|
  word_bits := 64;
  round_constants := sha512_constants;
  big_sigma0 := (28, 34, 39);
  big_sigma1 := (14, 18, 41);
  small_sigma0 := (1, 8, 7);
  small_sigma1 := (19, 61, 6) |}.

Definition sha256_start : list Z := Eval vm_compute in map (root_bits 32 2) (take 8 primes).
Definition sha512_start : list Z := Eval vm_compute in map (root_bits 64 2) (take 8 primes).
Definition sha384_start : list Z :=
  Eval vm_compute in map (root_bits 64 2) (take 8 (drop 8 primes)).

Definition sha256_digest : bytes -> bytes := sha2_digest sha256_params sha256_start 32.
Definition sha384_digest : bytes -> bytes := sha2_digest sha512_params sha384_start 48.
Definition sha512_digest : bytes -> bytes := sha2_digest sha512_params sha512_start 64.

(** ** HMAC and PBKDF2, over SHA-256 *)

Definition hmac_key (key : bytes) : bytes :=
  let key := if (64 <? length key)%nat then sha256_digest key else key in
  key ++ replicate (64 - length key) x00.

Definition hmac_digest (key m : bytes) : bytes :=
  let key := hmac_key key in
  sha256_digest (map (bxor x5c) key ++ sha256_digest (map (bxor x36) key ++ m)).

(** One block of 32 bytes: the exclusive or of the chain of HMACs. *)
Fixpoint pbkdf2_chain (rounds : nat) (password u acc : bytes) : bytes :=
  match rounds with
  | O => acc
  | S rounds => let u := hmac_digest password u in pbkdf2_chain rounds password u (xor_bytes acc u)
  end.

Definition pbkdf2_block (password salt : bytes) (iterations : Z) : bytes :=
  let u := hmac_digest password (salt ++ be_bytes 4 1) in
  pbkdf2_chain (Z.to_nat (iterations - 1)) password u u.

(** ** MD5 *)

(** The sine of [x] radians scaled by [2^200], by its power series: [term] is the
    next term, of which [n] is the exponent. *)
Fixpoint sine_series (fuel : nat) (x n term sum : Z) : Z :=
  match fuel with
  | O => sum
  | S fuel => sine_series fuel x (n + 2) (- (term * x * x / ((n + 1) * (n + 2)))) (sum + term)
  end.

Definition sine_bits (i : nat) : Z :=
  let x := Z.of_nat i in
  Z.abs (sine_series 250 x 1 (x * 2 ^ 200) 0) / 2 ^ 168.

Definition md5_constants : list Z := Eval vm_compute in map sine_bits (seq 1 64).

Definition md5_start : list Z := [0x67452301; 0xefcdab89; 0x98badcfe; 0x10325476].

Definition md5_shifts : list (list Z) :=
  [[7; 12; 17; 22]; [5; 9; 14; 20]; [4; 11; 16; 23]; [6; 10; 15; 21]].

Definition u32 (z : Z) : Z := Z.land z (Z.ones 32).

Definition rotl32 (n x : Z) : Z := u32 (Z.lor (Z.shiftl x n) (Z.shiftr x (32 - n))).

(** Step [i] of the 64: a mixing function, a word of the block and a rotation,
    by the quarter [i] is in. *)
Definition md5_mix (q i b c d : Z) : Z * Z :=
  if q =? 0 then (Z.lor (Z.land b c) (Z.land (u32 (Z.lnot b)) d), i)
  else if q =? 1 then (Z.lor (Z.land d b) (Z.land (u32 (Z.lnot d)) c), 5 * i + 1)
  else if q =? 2 then (Z.lxor b (Z.lxor c d), 3 * i + 5)
  else (Z.lxor c (Z.lor b (u32 (Z.lnot d))), 7 * i).

Definition md5_step (block : list Z) (st : list Z) (ik : Z * Z) : list Z :=
  match st with
  | [a; b; c; d] =>
      let i := ik.1 in
      let '(f, g) := md5_mix (i / 16) i b c d in
      let shift := nth (Z.to_nat (i mod 4)) (nth (Z.to_nat (i / 16)) md5_shifts []) 0 in
      let w := nth (Z.to_nat (g mod 16)) block 0 in
      [d; u32 (b + rotl32 shift (u32 (a + f + ik.2 + w))); b; c]
  | other => other
  end.

Definition md5_block (h block : list Z) : list Z :=
  zip_with (fun x y => u32 (x + y)) h
    (fold_left (md5_step block) (combine (map Z.of_nat (seq 0 64)) md5_constants) h).

(** MD5 is little-endian. *)
Definition md5_pad (m : bytes) : bytes :=
  m ++ x80 :: replicate (Z.to_nat (- (Z.of_nat (length m) + 9) mod 64)) x00
  ++ rev (be_bytes 8 (8 * Z.of_nat (length m))).

Definition md5_digest (m : bytes) : bytes :=
  let padded := md5_pad m in
  let words := map (fun w => be_number (rev w)) (chunks (length padded) 4 padded) in
  let h := fold_left md5_block (chunks (length words) 16 words) md5_start in
  take 16 (concat (map (fun z => rev (be_bytes 4 z)) h)).

(** ** The other base64 engines *)

(** The URL-safe alphabet without padding. *)
Definition url_byte (b : byte) : byte :=
  if bool_decide (b = x2b) then x2d else if bool_decide (b = x2f) then x5f else b.

Definition base64_url (m : bytes) : bytes :=
  map url_byte (List.filter (fun b => negb (bool_decide (b = x3d))) (toy_encode m)).

(** The standard alphabet without padding: padding is refused, and the missing
    one is put back. *)
Definition base64_no_pad (s : bytes) : option bytes :=
  if bool_decide (x3d ∈ s) then None
  else toy_decode (s ++ replicate ((4 - length s mod 4) mod 4) x3d).

(** The instance.  Of SASLprep it has the part that leaves printable ASCII as it
    is; a certificate is the text [DER:] and the OID, since no theorem or test
    here reads a real one. *)
Definition published : Primitives := {|
  sha2_256 := sha256_digest;
  sha2_384 := sha384_digest;
  sha2_512 := sha512_digest;
  hmac_sha2_256 := hmac_digest;
  pbkdf2_hmac_sha2_256 := pbkdf2_block;
  md5_compute := md5_digest;
  b64_encode := toy_encode;
  b64_decode := toy_decode;
  b64_no_pad_decode := base64_no_pad;
  b64_url_encode := base64_url;
  saslprep := fun p => if forallb (fun b => in_range 32 126 b) p then Some p else None;
  x509_signature_oid := fun der => strip_prefix #"DER:" der |}.

(** ** The laws *)

Lemma fold_left_keeps {A B} (Q : A -> Prop) (f : A -> B -> A) l x :
  Q x -> (forall y b, Q y -> Q (f y b)) -> Q (fold_left f l x).
Proof. intros Hx Hf. revert x Hx. induction l; simpl; auto. Qed.

Lemma concat_const_length {A B} (f : A -> list B) n l :
  (forall x, length (f x) = n) -> length (concat (map f l)) = (length l * n)%nat.
Proof. intros Hf. induction l; simpl; [done|]. rewrite length_app, Hf. lia. Qed.

Lemma be_bytes_length n z : length (be_bytes n z) = n.
Proof. unfold be_bytes. by rewrite length_map, length_rev, length_seq. Qed.

(** A round keeps the number of hash words. *)
Lemma sha2_round_length S st k : length (sha2_round S st k).1 = length st.1.
Proof. destruct st as [h w]. simpl. by repeat (case_match; try done). Qed.

Lemma sha2_words_length S h m : length (sha2_words S h m) = length h.
Proof.
  apply (fold_left_keeps (fun h' => length h' = length h)); [done|]. intros h' b Hh.
  unfold sha2_block. rewrite length_zip_with.
  rewrite (fold_left_keeps (fun st => length st.1 = length h')); [lia|done|].
  intros st k. by rewrite sha2_round_length.
Qed.

Lemma sha2_digest_length S h n m :
  (n <= length h * word_bytes S)%nat -> length (sha2_digest S h n m) = n.
Proof.
  intros Hn. unfold sha2_digest. rewrite length_take.
  rewrite (concat_const_length _ (word_bytes S)) by apply be_bytes_length.
  rewrite sha2_words_length. lia.
Qed.

Lemma sha256_digest_length m : length (sha256_digest m) = 32%nat.
Proof. apply sha2_digest_length. vm_compute. lia. Qed.

Lemma md5_step_length block st ik : length (md5_step block st ik) = length st.
Proof. unfold md5_step. repeat (case_match; try done). Qed.

Lemma md5_block_length h block : length (md5_block h block) = length h.
Proof.
  unfold md5_block. rewrite length_zip_with.
  rewrite (fold_left_keeps (fun st => length st = length h)); [lia|done|].
  intros st ik. by rewrite md5_step_length.
Qed.

Lemma md5_digest_length m : length (md5_digest m) = 16%nat.
Proof.
  unfold md5_digest. rewrite length_take, (concat_const_length _ 4).
  - rewrite (fold_left_keeps (fun h => length h = 4%nat)); [done|done|].
    intros h b. by rewrite md5_block_length.
  - intros z. by rewrite length_rev, be_bytes_length.
Qed.

Lemma pbkdf2_chain_length rounds p u acc :
  length u = 32%nat -> length acc = 32%nat -> length (pbkdf2_chain rounds p u acc) = 32%nat.
Proof.
  revert u acc. induction rounds as [|n IH]; intros u acc Hu Ha; [done|].
  simpl. apply IH; [apply sha256_digest_length|].
  rewrite xor_bytes_length; [done|]. unfold hmac_digest. by rewrite sha256_digest_length.
Qed.

Lemma pbkdf2_block_length p s n : length (pbkdf2_block p s n) = 32%nat.
Proof. apply pbkdf2_chain_length; apply sha256_digest_length. Qed.

(** What the standard alphabet becomes in the URL-safe one. *)
Lemma url_byte_symbol b :
  b64_symbol b && negb (bool_decide (b = x3d)) = true -> b64_url_symbol (url_byte b) = true.
Proof. by destruct b; vm_compute. Qed.

Lemma base64_url_alphabet m : Forall (fun b => b64_url_symbol b = true) (base64_url m).
Proof.
  unfold base64_url. apply Forall_map. pose proof (toy_alphabet m) as H.
  induction H as [|b l Hb _ IH]; simpl; [done|]. destruct (bool_decide (b = x3d)) eqn:E; [done|].
  constructor; [|done]. apply url_byte_symbol. by rewrite Hb, E.
Qed.

Lemma base64_url_nonempty m : m <> [] -> base64_url m <> [].
Proof.
  intros Hm. unfold base64_url.
  assert (exists n l, toy_encode m = sextet n :: l) as (n & l & ->)
    by (destruct m as [|a [|b [|c m]]]; [done| | |]; simpl; eauto).
  simpl. by rewrite sextet_not_pad.
Qed.

Lemma published_ok : PrimitivesOk published.
Proof.
  split; simpl; intros.
  - apply sha256_digest_length.
  - apply sha256_digest_length.
  - apply pbkdf2_block_length.
  - apply md5_digest_length.
  - apply toy_roundtrip.
  - apply toy_alphabet.
  - apply base64_url_alphabet.
  - by apply base64_url_nonempty.
Qed.

(** ** Published vectors *)

Definition hex_byte (b : byte) : bytes :=
  map (fun n => nth (Z.to_nat n) #"0123456789abcdef" x30) [b2z b / 16; b2z b mod 16].

Definition hex (m : bytes) : bytes := concat (map hex_byte m).

(** FIPS 180-4, RFC 4231, RFC 7914 and RFC 1321. *)
Example sha2_vectors :
  hex (sha256_digest #"abc") =
    #"ba7816bf8f01cfea414140de5dae2223b00361a396177a9cb410ff61f20015ad" /\
  hex (sha256_digest []) =
    #"e3b0c44298fc1c149afbf4c8996fb92427ae41e4649b934ca495991b7852b855" /\
  hex (sha384_digest #"abc") =
    #"cb00753f45a35e8bb5a03d699ac65007272c32ab0eded1631a8b605a43ff5bed8086072ba1e7cc2358baeca134c825a7" /\
  hex (sha512_digest #"abc") =
    #"ddaf35a193617abacc417349ae20413112e6fa4e89a97ea20a9eeee64b55d39a2192992a274fc1a836ba3c23a3feebbd454d4423643ce80e2a9ac94fa54ca49f".
Proof. vm_compute. tauto. Qed.

(** Two blocks of message. *)
Example sha256_two_blocks :
  hex (sha256_digest #"abcdbcdecdefdefgefghfghighijhijkijkljklmklmnlmnomnopnopq") =
  #"248d6a61d20638b8e5c026930c3e6039a33ce45964ff2167f6ecedd419db06c1".
Proof. vm_compute. reflexivity. Qed.

Example hmac_vector :
  hex (hmac_digest #"Jefe" #"what do ya want for nothing?") =
  #"5bdcc146bf60754e6a042426089575c75a003f089d2739839dec58b964ec3843".
Proof. vm_compute. reflexivity. Qed.

Example pbkdf2_vector :
  hex (take 16 (pbkdf2_block #"passwd" #"salt" 1)) = #"55ac046e56e3089fec1691c22544b605".
Proof. vm_compute. reflexivity. Qed.

Example md5_vectors :
  map (fun m => hex (md5_digest m)) [ []; #"abc"; #"message digest"] =
  [ #"d41d8cd98f00b204e9800998ecf8427e"; #"900150983cd24fb0d6963f7d28e17f72";
    #"f96b697d7cb7938d525a2f31aaf161d0"].
Proof. vm_compute. reflexivity. Qed.
