(* ===== verification/Tls.v ===== *)
(** Channel binding data and certificate hashes: [proxy/tls.rs]. *)
From S2P Require Import Prelude Words RustStr Crypto.

Inductive HashAlgorithm := Sha256 | Sha384 | Sha512.

Record CertHash := mkCertHash { ch_algorithm : HashAlgorithm; ch_digest : bytes }.

Inductive CertHashError := Malformed.

(** The certificate side of [FrontendTls]; the acceptor is the handshake the
    session's environment performs. *)
Record FrontendTls := mkFrontendTls { ft_cert_hash : option CertHash }.

Definition TLS_SERVER_END_POINT_HEADER : bytes := #"p=tls-server-end-point,,".

Definition sha256_oids : list bytes :=
  [ #"1.2.840.113549.1.1.4"; #"1.2.840.113549.1.1.5"; #"1.2.840.10045.4.1";
    #"1.2.840.10040.4.3"; #"1.2.840.113549.1.1.11"; #"1.2.840.10045.4.3.2";
    #"2.16.840.1.101.3.4.3.2"].

Definition sha384_oids : list bytes := [ #"1.2.840.113549.1.1.12"; #"1.2.840.10045.4.3.3"].

Definition sha512_oids : list bytes := [ #"1.2.840.113549.1.1.13"; #"1.2.840.10045.4.3.4"].

Definition hash_algorithm_for_oid_str (oid : bytes) : option HashAlgorithm :=
  if bool_decide (oid ∈ sha256_oids) then Some Sha256
  else if bool_decide (oid ∈ sha384_oids) then Some Sha384
  else if bool_decide (oid ∈ sha512_oids) then Some Sha512
  else None.

Section tls.
Context {P : Primitives}.

Definition cert_hash_new (der : bytes) : result CertHashError (option CertHash) :=
  oid ← ok_or (x509_signature_oid der) Malformed;
  match hash_algorithm_for_oid_str oid with
  | None => Ok None
  | Some algorithm =>
      let digest := match algorithm with
                    | Sha256 => sha2_256 der
                    | Sha384 => sha2_384 der
                    | Sha512 => sha2_512 der
                    end in
      Ok (Some (mkCertHash algorithm digest))
  end.

(** GS2 header followed by the raw certificate hash. *)
Definition cbind_input (h : CertHash) : bytes := TLS_SERVER_END_POINT_HEADER ++ ch_digest h.

(** The value the client must send in its [c=] attribute. *)
Definition expected_c (h : CertHash) : bytes := b64_encode (cbind_input h).

End tls.

(** The RFC 5929 selection: an algorithm is chosen for exactly the listed OIDs,
    and for each by its own list. *)
Lemma hash_algorithm_for_oid_spec oid a :
  hash_algorithm_for_oid_str oid = Some a <->
  oid ∈ match a with Sha256 => sha256_oids | Sha384 => sha384_oids | Sha512 => sha512_oids end.
Proof.
  assert (Hd : Forall (fun o => (o ∉ sha384_oids) /\ (o ∉ sha512_oids)) sha256_oids)
    by (apply (bool_decide_unpack _); vm_compute; exact I).
  assert (He : Forall (fun o => o ∉ sha512_oids) sha384_oids)
    by (apply (bool_decide_unpack _); vm_compute; exact I).
  rewrite Forall_forall in Hd, He.
  unfold hash_algorithm_for_oid_str. repeat case_bool_decide; destruct a; naive_solver.
Qed.
