(* ===== verification/Verifier.v ===== *)
(** Verifiers and PostgreSQL secrets: [auth/verifier.rs],
    [auth/credentials/secret.rs], and [hash_password] of
    [auth/credentials/mod.rs]. *)
From S2P Require Import Prelude Words RustStr Crypto ToyCrypto.
Local Open Scope Z_scope.

Inductive SecretFormatError :=
| UnsupportedScheme
| Md5
| Syntax
| Iterations
| IterationsTooLow
| Base64 (field : bytes)
| KeyLength (field : bytes)
| SaltTooShort.

Record Verifier := mkVerifier {
  v_iterations : Z;
  v_salt : bytes;
  v_stored_key : bytes;
  v_server_key : bytes;
  v_password : option bytes;
  v_dummy : bool }.

Definition MIN_ITERATIONS : Z := 4096.
Definition DEFAULT_ITERATIONS : Z := 4096.

Definition chr_dollar : byte := x24.
Definition chr_colon : byte := x3a.
Definition chr_comma : byte := x2c.

Section verifier.
Context {P : Primitives}.

Definition pbkdf2_sha256 (password salt : bytes) (iterations : Z) : bytes :=
  pbkdf2_hmac_sha2_256 password salt iterations.

Definition hmac_sha256 (key message : bytes) : bytes := hmac_sha2_256 key message.

Definition sha256 (input : bytes) : bytes := sha2_256 input.

(** The SCRAM keys of a salted password. *)
Definition verifier_from_password (password salt : bytes) (iterations : Z) : Verifier :=
  let salted := pbkdf2_sha256 password salt iterations in
  let client_key := hmac_sha256 salted #"Client Key" in
  let server_key := hmac_sha256 salted #"Server Key" in
  mkVerifier iterations salt (sha256 client_key) server_key (Some password) false.

Definition verifier_dummy (username cluster_nonce : bytes) : Verifier :=
  let digest := sha2_256 (username ++ cluster_nonce) in
  mkVerifier 4096 (take 16 digest) (replicate 32 x00) (replicate 32 x00) None true.

(** [STANDARD], and [STANDARD_NO_PAD] when that fails. *)
Definition decode_b64 (input : bytes) : option bytes :=
  match b64_decode input with
  | Some m => Some m
  | None => b64_no_pad_decode input
  end.

Definition decode_key (b64 field : bytes) : result SecretFormatError bytes :=
  key ← ok_or (decode_b64 b64) (Base64 field);
  if (length key =? 32)%nat then Ok key else Err (KeyLength field).

Definition from_pg_secret (secret : bytes) : result SecretFormatError Verifier :=
  if starts_with #"md5" secret then Err Md5
  else
    rest ← ok_or (strip_prefix #"SCRAM-SHA-256$" secret) UnsupportedScheme;
    '(iters_and_salt, keys) ← ok_or (split_once chr_dollar rest) Syntax;
    '(iterations, salt) ← ok_or (split_once chr_colon iters_and_salt) Syntax;
    '(stored_key, server_key) ← ok_or (split_once chr_colon keys) Syntax;
    iterations ← ok_or (parse_u32 iterations) Iterations;
    if iterations <? MIN_ITERATIONS then Err IterationsTooLow
    else
      salt ← ok_or (decode_b64 salt) (Base64 #"salt");
      stored_key ← decode_key stored_key #"StoredKey";
      server_key ← decode_key server_key #"ServerKey";
      if (length salt <? 8)%nat then Err SaltTooShort
      else Ok (mkVerifier iterations salt stored_key server_key None false).

Definition to_pg_secret (v : Verifier) : bytes :=
  #"SCRAM-SHA-256$" ++ show_uint (v_iterations v) ++ chr_colon :: b64_encode (v_salt v)
  ++ chr_dollar :: b64_encode (v_stored_key v) ++ chr_colon :: b64_encode (v_server_key v).

(** SASLprep, and the raw password when preparation fails. *)
Definition prepare_password (password : bytes) : bytes :=
  match saslprep password with Some prepared => prepared | None => password end.

Definition derive_verifier (password salt : bytes) (iterations : Z) : Verifier :=
  verifier_from_password (prepare_password password) salt iterations.

(** The body of [wirechaos hash-password]; [salt] is the random salt it draws. *)
Definition hash_password (salt password : bytes) (iterations : Z) : bytes :=
  to_pg_secret (derive_verifier password salt iterations).

(** What every verifier read from a secret satisfies. *)
Definition verifier_wf (v : Verifier) : Prop :=
  MIN_ITERATIONS <= v_iterations v < 2 ^ 32 /\ (8 <= length (v_salt v))%nat /\
  length (v_stored_key v) = 32%nat /\ length (v_server_key v) = 32%nat.

Context {HP : PrimitivesOk P}.

Lemma decode_b64_encode m : decode_b64 (b64_encode m) = Some m.
Proof. unfold decode_b64. by rewrite b64_roundtrip. Qed.

Lemma decode_key_encode key field :
  length key = 32%nat -> decode_key (b64_encode key) field = Ok key.
Proof. intros H. unfold decode_key. rewrite decode_b64_encode. simpl. by rewrite H. Qed.

Lemma decode_key_Ok b64 field key :
  decode_key b64 field = Ok key -> length key = 32%nat.
Proof.
  unfold decode_key. destruct (decode_b64 b64) as [m|]; simpl; [|done].
  destruct (Nat.eqb_spec (length m) 32); intros; simplify_eq; done.
Qed.

Lemma from_to_pg_secret v :
  verifier_wf v ->
  from_pg_secret (to_pg_secret v) =
  Ok (mkVerifier (v_iterations v) (v_salt v) (v_stored_key v) (v_server_key v) None false).
Proof.
  intros (Hit & Hsalt & Hst & Hsk). unfold from_pg_secret, to_pg_secret.
  change (starts_with #"md5" (#"SCRAM-SHA-256$" ++ ?x)) with false. cbv iota.
  rewrite strip_prefix_app. cbn [ok_or mbind result_bind].
  replace (show_uint (v_iterations v) ++ chr_colon :: b64_encode (v_salt v) ++
    chr_dollar :: b64_encode (v_stored_key v) ++ chr_colon :: b64_encode (v_server_key v))
    with ((show_uint (v_iterations v) ++ chr_colon :: b64_encode (v_salt v)) ++
    chr_dollar :: (b64_encode (v_stored_key v) ++ chr_colon :: b64_encode (v_server_key v)))
    by (by rewrite <- app_assoc).
  unfold MIN_ITERATIONS in Hit.
  rewrite split_once_app.
  2: { rewrite not_elem_of_app, not_elem_of_cons.
       repeat split; [by apply not_digit_not_in_show; [lia|]|done|by apply not_in_b64]. }
  cbn [ok_or mbind result_bind].
  rewrite (split_once_app chr_colon (show_uint (v_iterations v)))
    by (apply not_digit_not_in_show; [lia|done]).
  cbn [ok_or mbind result_bind].
  rewrite (split_once_app chr_colon (b64_encode (v_stored_key v))) by by apply not_in_b64.
  cbn [ok_or mbind result_bind]. unfold parse_u32. rewrite parse_show_uint by lia.
  cbn [ok_or mbind result_bind]. unfold MIN_ITERATIONS.
  rewrite (proj2 (Z.ltb_ge _ _)) by lia. rewrite decode_b64_encode.
  cbn [ok_or mbind result_bind]. rewrite !decode_key_encode by done.
  cbn [ok_or mbind result_bind]. by rewrite (proj2 (Nat.ltb_ge _ _)) by lia.
Qed.

(** C32: A verifier written as a PostgreSQL secret and parsed back is the same
    verifier, without the password, which a secret does not carry. *)
Theorem pg_secret_roundtrip v :
  verifier_wf v ->
  from_pg_secret (to_pg_secret v) =
  Ok (mkVerifier (v_iterations v) (v_salt v) (v_stored_key v) (v_server_key v) None false).
Proof. apply from_to_pg_secret. Qed.

(** Every secret the parser accepts meets the documented bounds: at least
    4096 iterations, a salt of at least 8 bytes, 32-byte keys; and it never
    yields a plaintext password or a dummy verifier. *)
Theorem accepted_secret_is_bounded secret v :
  from_pg_secret secret = Ok v ->
  MIN_ITERATIONS <= v_iterations v /\ (8 <= length (v_salt v))%nat /\
  length (v_stored_key v) = 32%nat /\ length (v_server_key v) = 32%nat /\
  v_password v = None /\ v_dummy v = false.
Proof.
  unfold from_pg_secret. destruct (starts_with _ _); [done|].
  destruct (strip_prefix _ _) as [rest|]; simpl; [|done].
  destruct (split_once chr_dollar rest) as [[iters keys]|]; simpl; [|done].
  destruct (split_once chr_colon iters) as [[i s]|]; simpl; [|done].
  destruct (split_once chr_colon keys) as [[st sk]|]; simpl; [|done].
  destruct (parse_u32 i) as [n|]; simpl; [|done].
  destruct (Z.ltb_spec n MIN_ITERATIONS); [done|].
  destruct (decode_b64 s) as [salt|]; simpl; [|done].
  destruct (decode_key st _) as [stk|] eqn:Hst; simpl; [|done].
  destruct (decode_key sk _) as [svk|] eqn:Hsk; simpl; [|done].
  destruct (Nat.ltb_spec (length salt) 8); [done|]. intros [= <-]. simpl.
  repeat split; [done|done|by eapply decode_key_Ok|by eapply decode_key_Ok].
Qed.

Lemma from_password_lengths password salt iterations :
  length (v_stored_key (verifier_from_password password salt iterations)) = 32%nat /\
  length (v_server_key (verifier_from_password password salt iterations)) = 32%nat.
Proof. split; simpl; [apply sha2_256_length|apply hmac_length]. Qed.

End verifier.

#[local] Existing Instance toy_crypto.

(** The verifier of password [secret], salt [saltsalt], 4096 rounds. *)
Definition sample_verifier : Verifier :=
  verifier_from_password #"secret" #"saltsalt" 4096.

Lemma pg_secret_roundtrip_witness :
  verifier_wf sample_verifier /\
  from_pg_secret (to_pg_secret sample_verifier) =
  Ok (mkVerifier 4096 #"saltsalt" (v_stored_key sample_verifier)
        (v_server_key sample_verifier) None false).
Proof.
  assert (H : verifier_wf sample_verifier) by (vm_compute; repeat split; lia || done).
  split; [exact H|]. exact (@pg_secret_roundtrip _ toy_crypto_ok _ H).
Defined.

Lemma accepted_secret_is_bounded_witness :
  MIN_ITERATIONS <= 4096 /\ (8 <= length #"saltsalt")%nat /\
  length (v_stored_key sample_verifier) = 32%nat /\
  length (v_server_key sample_verifier) = 32%nat /\ @None bytes = None /\ false = false.
Proof.
  apply (accepted_secret_is_bounded (to_pg_secret sample_verifier)
    (mkVerifier 4096 #"saltsalt" (v_stored_key sample_verifier)
        (v_server_key sample_verifier) None false)).
  vm_compute. reflexivity.
Defined.
