(* ===== verification/ScramServer.v ===== *)
(** The server side of the SCRAM-SHA-256 exchange:
    [auth/scram/scram_authenticator.rs].

    The methods are computations over the authenticator, which keeps its state
    on every path, errors included.  The 32 bytes drawn from the random
    generator are an argument of [handle_client_first]. *)
From S2P Require Import Prelude Words RustStr Errors Crypto ToyCrypto Tls Verifier.
Local Open Scope Z_scope.

Inductive State := Started | ClientFirstReceived | Done.

#[export] Instance state_eq_dec : EqDecision State.
Proof. solve_decision. Defined.

Definition malformed : ScramError := Protocol #"malformed SCRAM message".

Definition SCRAM_SHA_256 : bytes := #"SCRAM-SHA-256".
Definition PLUS : bytes := #"-PLUS".
Definition SERVER_NONCE_LENGTH : nat := 32.

Record ScramAuthenticator := mkAuthenticator {
  sa_verifier : Verifier;
  sa_state : State;
  sa_client_nonce : bytes;
  sa_combined_nonce : bytes;
  sa_client_first_bare : bytes;
  sa_server_first : bytes;
  sa_gs2_header : bytes;
  sa_extracted_client_key : option bytes;
  sa_choosed_mechanism : bytes;
  sa_cert_hash : option CertHash }.

Definition authenticator_new (v : Verifier) (cert_hash : option CertHash) : ScramAuthenticator :=
  mkAuthenticator v Started [] [] [] [] [] None [] cert_hash.

(** Field assignments [self.f = x]. *)
Definition set_state (s : State) (a : ScramAuthenticator) : ScramAuthenticator :=
  mkAuthenticator (sa_verifier a) s (sa_client_nonce a) (sa_combined_nonce a)
    (sa_client_first_bare a) (sa_server_first a) (sa_gs2_header a)
    (sa_extracted_client_key a) (sa_choosed_mechanism a) (sa_cert_hash a).

Definition set_gs2_header (h : bytes) (a : ScramAuthenticator) : ScramAuthenticator :=
  mkAuthenticator (sa_verifier a) (sa_state a) (sa_client_nonce a) (sa_combined_nonce a)
    (sa_client_first_bare a) (sa_server_first a) h
    (sa_extracted_client_key a) (sa_choosed_mechanism a) (sa_cert_hash a).

Definition set_client_key (k : bytes) (a : ScramAuthenticator) : ScramAuthenticator :=
  mkAuthenticator (sa_verifier a) (sa_state a) (sa_client_nonce a) (sa_combined_nonce a)
    (sa_client_first_bare a) (sa_server_first a) (sa_gs2_header a)
    (Some k) (sa_choosed_mechanism a) (sa_cert_hash a).

(** The assignments that end [handle_client_first]. *)
Definition set_client_first (client_nonce combined bare server_first mechanism : bytes)
    (a : ScramAuthenticator) : ScramAuthenticator :=
  mkAuthenticator (sa_verifier a) ClientFirstReceived client_nonce combined bare server_first
    (sa_gs2_header a) (sa_extracted_client_key a) mechanism (sa_cert_hash a).

Definition is_some {A} (o : option A) : bool := match o with Some _ => true | None => false end.

Definition mechanisms (a : ScramAuthenticator) : list bytes :=
  if is_some (sa_cert_hash a) then [PLUS; SCRAM_SHA_256] else [SCRAM_SHA_256].

(** ** Validation of the client's first message *)

Definition validate_params (a : ScramAuthenticator) (mechanism startup_user : bytes)
    : result ScramError unit :=
  if bool_decide (sa_state a <> Started) then Err malformed
  else if bool_decide (startup_user = []) then
    Err (Protocol #"startup user must not be empty")
  else if negb (bool_decide (mechanism ∈ mechanisms a)) then
    Err (Protocol (#"unsupported SASL mechanism: " ++ mechanism))
  else Ok tt.

Definition extract_data_from_client_first (client_first : bytes)
    : result ScramError (bytes * bytes * bytes) :=
  match splitn 3 chr_comma client_first with
  | [flag; authzid_part; bare] => Ok (flag, authzid_part, bare)
  | _ => Err malformed
  end.

Definition validate_gs2_flag_for_scram (a : ScramAuthenticator) (flag : bytes)
    : result ScramError unit :=
  if bool_decide (flag = #"n") then Ok tt
  else if bool_decide (flag = #"y") then
    if is_some (sa_cert_hash a) then Err ChannelBindingDowngrade else Ok tt
  else if starts_with #"p=" flag then
    Err (Protocol
      #"client requested channel binding, but SCRAM-SHA-256-PLUS was not offered")
  else Err malformed.

Definition validate_gs2_flag_for_plus (flag : bytes) : result ScramError unit :=
  if bool_decide (flag = #"p=tls-server-end-point") then Ok tt
  else if bool_decide (flag = #"n") || bool_decide (flag = #"y") then
    Err (Protocol #"SCRAM-SHA-256-PLUS selected without channel binding data")
  else if starts_with #"p=" flag then Err (Protocol #"unsupported channel binding type")
  else Err malformed.

Definition validate_gs2_flag (a : ScramAuthenticator) (mechanism flag : bytes)
    : result ScramError unit :=
  if bool_decide (mechanism = SCRAM_SHA_256) then validate_gs2_flag_for_scram a flag
  else if bool_decide (mechanism = PLUS) then validate_gs2_flag_for_plus flag
  else Err malformed.

Definition validate_authzid_part (authzid_part : bytes) : result ScramError unit :=
  if starts_with #"a=" authzid_part && (2 <? length authzid_part)%nat then
    Err (Protocol #"client uses authorization identity, but it is not supported ")
  else if negb (bool_decide (authzid_part = [])) && negb (starts_with #"a=" authzid_part) then
    Err malformed
  else Ok tt.

(** The loop over [bare.split(',')]: the last [r=] wins. *)
Definition client_nonce_of (bare : bytes) : bytes :=
  fold_left (fun nonce attr => match strip_prefix #"r=" attr with
                               | Some v => v
                               | None => nonce
                               end)
            (split chr_comma bare) [].

(** [password authentication failed for user "user"]. *)
Definition auth_failed (user : bytes) : ScramError :=
  AuthenticationFailed (#"password authentication failed for user " ++ x22 :: user ++ [x22]).

(** ** The loop over the attributes of the client's final message *)

Record FinalAttrs := mkFinalAttrs {
  fa_cbind : option bytes;
  fa_nonce : option bytes;
  fa_proof : option bytes }.

(** [if let Some(v) = attr.strip_prefix(k) { if slot.is_some() { return Err }; slot = Some(v) }]. *)
Definition take_attr (prefix attr : bytes) (slot : option bytes)
    : result ScramError (option bytes) :=
  match strip_prefix prefix attr with
  | Some v => if is_some slot then Err malformed else Ok (Some v)
  | None => Ok slot
  end.

Fixpoint scan_attrs (attrs : list bytes) (fa : FinalAttrs) : result ScramError FinalAttrs :=
  match attrs with
  | [] => Ok fa
  | attr :: attrs' =>
      cbind ← take_attr #"c=" attr (fa_cbind fa);
      nonce ← take_attr #"r=" attr (fa_nonce fa);
      proof ← take_attr #"p=" attr (fa_proof fa);
      scan_attrs attrs' (mkFinalAttrs cbind nonce proof)
  end.

Section authenticator.
Context {P : Primitives}.

Definition handle_client_first (server_nonce_bytes mechanism client_first startup_user : bytes)
    : IO ScramAuthenticator ScramError bytes :=
  a ← io_get;
  io_lift (validate_params a mechanism startup_user);;
  '(flag, authzid_part, bare) ← io_lift (extract_data_from_client_first client_first);
  io_lift (validate_gs2_flag a mechanism flag);;
  io_lift (validate_authzid_part authzid_part);;
  io_modify (set_gs2_header (flag ++ chr_comma :: authzid_part ++ [chr_comma]));;
  let client_nonce := client_nonce_of bare in
  if bool_decide (client_nonce = []) then io_fail malformed
  else
    let server_nonce := b64_encode server_nonce_bytes in
    let combined_nonce := client_nonce ++ #"-" ++ server_nonce in
    let server_first := #"r=" ++ combined_nonce
                        ++ #",s=" ++ b64_encode (v_salt (sa_verifier a))
                        ++ #",i=" ++ show_uint (v_iterations (sa_verifier a)) in
    io_modify (set_client_first client_nonce combined_nonce bare server_first mechanism);;
    mret server_first.

Definition expected_cbind (a : ScramAuthenticator) : bytes :=
  if bool_decide (sa_choosed_mechanism a = PLUS) then
    match sa_cert_hash a with
    | Some h => expected_c h
    | None => b64_encode (sa_gs2_header a)
    end
  else b64_encode (sa_gs2_header a).

Definition channel_binding_error (a : ScramAuthenticator) : ScramError :=
  if bool_decide (sa_choosed_mechanism a = PLUS) then ChannelBindingMismatch else malformed.

Definition handle_client_final (client_final user : bytes)
    : IO ScramAuthenticator ScramError bytes :=
  a ← io_get;
  if bool_decide (sa_state a <> ClientFirstReceived) then io_fail malformed
  else
    io_modify (set_state Done);;
    fa ← io_lift (scan_attrs (split chr_comma client_final) (mkFinalAttrs None None None));
    cbind ← io_lift (ok_or (fa_cbind fa) malformed);
    nonce ← io_lift (ok_or (fa_nonce fa) malformed);
    proof_b64 ← io_lift (ok_or (fa_proof fa) malformed);
    if negb (ct_eq cbind (expected_cbind a)) then io_fail (channel_binding_error a)
    else if negb (bool_decide (nonce = sa_combined_nonce a)) then io_fail malformed
    else if negb (starts_with (sa_client_nonce a) nonce) then io_fail malformed
    else
      proof_start ← io_lift (ok_or (rfind #",p=" client_final) malformed);
      let without_proof := take proof_start client_final in
      let auth_message := sa_client_first_bare a ++ #"," ++ sa_server_first a
                          ++ #"," ++ without_proof in
      proof ← io_lift (ok_or (b64_decode proof_b64) malformed);
      if negb (length proof =? 32)%nat then io_fail malformed
      else
        let client_sig := hmac_sha256 (v_stored_key (sa_verifier a)) auth_message in
        let recovered_client_key := xor_bytes proof client_sig in
        let recovered_stored_key := sha256 recovered_client_key in
        if negb (ct_eq recovered_stored_key (v_stored_key (sa_verifier a))) then
          io_fail (auth_failed user)
        else if v_dummy (sa_verifier a) then io_fail (auth_failed user)
        else
          io_modify (set_client_key recovered_client_key);;
          let server_sig := hmac_sha256 (v_server_key (sa_verifier a)) auth_message in
          mret (#"v=" ++ b64_encode server_sig).

End authenticator.

(** ** Lemmas *)

(** The values of the attributes named by a prefix, in order. *)
Definition attr_values (prefix : bytes) (attrs : list bytes) : list bytes :=
  omap (strip_prefix prefix) attrs.

Lemma take_attr_Ok prefix attr slot slot' :
  take_attr prefix attr slot = Ok slot' <->
  option_list slot ++ option_list (strip_prefix prefix attr) = option_list slot'.
Proof.
  unfold take_attr. destruct (strip_prefix prefix attr), slot, slot'; simpl; naive_solver.
Qed.

(** The loop succeeds exactly when each attribute occurs at most once. *)
Lemma scan_attrs_Ok attrs fa fa' :
  scan_attrs attrs fa = Ok fa' <->
  option_list (fa_cbind fa) ++ attr_values #"c=" attrs = option_list (fa_cbind fa') /\
  option_list (fa_nonce fa) ++ attr_values #"r=" attrs = option_list (fa_nonce fa') /\
  option_list (fa_proof fa) ++ attr_values #"p=" attrs = option_list (fa_proof fa').
Proof.
  revert fa. induction attrs as [|attr attrs IH]; intros [c r p]; cbn [scan_attrs].
  - destruct fa' as [c' r' p']. simpl. rewrite !app_nil_r.
    destruct c, c', r, r', p, p'; simpl; naive_solver.
  - assert (Hv : forall k slot, option_list slot ++ attr_values k (attr :: attrs) =
        (option_list slot ++ option_list (strip_prefix k attr)) ++ attr_values k attrs).
    { intros k slot. unfold attr_values. rewrite <- app_assoc. f_equal. simpl.
      by destruct (strip_prefix k attr). }
    rewrite !Hv. cbn [fa_cbind fa_nonce fa_proof].
    assert (He : forall k slot e, take_attr k attr slot = Err e ->
              (2 <= length (option_list slot ++ option_list (strip_prefix k attr)))%nat).
    { intros k slot e. unfold take_attr.
      destruct (strip_prefix k attr), slot; simpl; intros; simplify_eq; lia. }
    assert (Hl : forall (l l' : list bytes) (o : option bytes), (2 <= length l)%nat ->
              l ++ l' <> option_list o).
    { intros l l' o Hl Heq%(f_equal length). rewrite length_app in Heq.
      destruct o; simpl in *; lia. }
    destruct (take_attr #"c=" attr c) as [c1|] eqn:H1; cbn [mbind result_bind].
    2: { split; [done|]. intros (? & _). exfalso. eapply Hl; eauto. }
    destruct (take_attr #"r=" attr r) as [r1|] eqn:H2; cbn [mbind result_bind].
    2: { split; [done|]. intros (_ & ? & _). exfalso. eapply Hl; eauto. }
    destruct (take_attr #"p=" attr p) as [p1|] eqn:H3; cbn [mbind result_bind].
    2: { split; [done|]. intros (_ & _ & ?). exfalso. eapply Hl; eauto. }
    apply take_attr_Ok in H1 as ->, H2 as ->, H3 as ->. apply IH.
Qed.

Section facts.
Context {P : Primitives}.

(** The pure part of [handle_client_final]: the recovered key and the answer. *)
Definition final_check (a : ScramAuthenticator) (client_final user : bytes)
    : result ScramError (bytes * bytes) :=
  fa ← scan_attrs (split chr_comma client_final) (mkFinalAttrs None None None);
  cbind ← ok_or (fa_cbind fa) malformed;
  nonce ← ok_or (fa_nonce fa) malformed;
  proof_b64 ← ok_or (fa_proof fa) malformed;
  if negb (ct_eq cbind (expected_cbind a)) then Err (channel_binding_error a)
  else if negb (bool_decide (nonce = sa_combined_nonce a)) then Err malformed
  else if negb (starts_with (sa_client_nonce a) nonce) then Err malformed
  else
    n ← ok_or (rfind #",p=" client_final) malformed;
    let m := sa_client_first_bare a ++ #"," ++ sa_server_first a ++ #"," ++ take n client_final in
    proof ← ok_or (b64_decode proof_b64) malformed;
    if negb (length proof =? 32)%nat then Err malformed
    else
      let key := xor_bytes proof (hmac_sha256 (v_stored_key (sa_verifier a)) m) in
      if negb (ct_eq (sha256 key) (v_stored_key (sa_verifier a))) then Err (auth_failed user)
      else if v_dummy (sa_verifier a) then Err (auth_failed user)
      else Ok (key, #"v=" ++ b64_encode (hmac_sha256 (v_server_key (sa_verifier a)) m)).

Lemma handle_client_final_eq a client_final user :
  handle_client_final client_final user a =
  if bool_decide (sa_state a = ClientFirstReceived) then
    match final_check a client_final user with
    | Ok (key, out) => (Ready (Ok out), set_client_key key (set_state Done a))
    | Err e => (Ready (Err e), set_state Done a)
    end
  else (Ready (Err malformed), a).
Proof.
  unfold handle_client_final, final_check, mbind, io_bind, io_get. cbn beta iota.
  destruct (sa_state a) eqn:Hs; simpl; try done.
  unfold io_modify, io_lift, io_fail, result_bind. cbn beta iota.
  repeat (split_match; simpl in *; simplify_eq/=; try done).
Qed.

(** What the checks establish of the message and of the recovered key. *)
Lemma final_check_Ok a client_final user key out :
  final_check a client_final user = Ok (key, out) ->
  exists without_proof rest proof_b64 proof m,
    client_final = without_proof ++ #",p=" ++ rest /\
    attr_values #"c=" (split chr_comma client_final) = [expected_cbind a] /\
    attr_values #"r=" (split chr_comma client_final) = [sa_combined_nonce a] /\
    attr_values #"p=" (split chr_comma client_final) = [proof_b64] /\
    b64_decode proof_b64 = Some proof /\ length proof = 32%nat /\
    m = sa_client_first_bare a ++ #"," ++ sa_server_first a ++ #"," ++ without_proof /\
    key = xor_bytes proof (hmac_sha256 (v_stored_key (sa_verifier a)) m) /\
    sha256 key = v_stored_key (sa_verifier a) /\ v_dummy (sa_verifier a) = false /\
    out = #"v=" ++ b64_encode (hmac_sha256 (v_server_key (sa_verifier a)) m).
Proof.
  unfold final_check. destruct (scan_attrs _ _) as [[c r p]|] eqn:Hscan; [|done].
  apply scan_attrs_Ok in Hscan as (Hc & Hr & Hp). simpl in Hc, Hr, Hp.
  cbn [mbind result_bind fa_cbind fa_nonce fa_proof].
  destruct c as [c|]; [|done]. destruct r as [r|]; [|done]. destruct p as [p|]; [|done].
  cbn [ok_or mbind result_bind]. unfold ct_eq.
  case_bool_decide; [|done]. case_bool_decide; [|done]. destruct (starts_with _ _); [|done].
  cbn [negb]. destruct (rfind _ _) as [n|] eqn:Hn; [|done].
  cbn [ok_or mbind result_bind]. destruct (b64_decode p) as [proof|] eqn:Hd; [|done].
  cbn [ok_or mbind result_bind]. destruct (Nat.eqb_spec (length proof) 32); [|done]. cbn [negb].
  case_bool_decide; [|done]. cbn [negb]. destruct (v_dummy _) eqn:?; [done|]. intros [= <- <-].
  apply rfind_Some in Hn as [Hle (rest & Hrest)%starts_with_true].
  exists (take n client_final), rest, p, proof. eexists.
  split; [by rewrite <- Hrest, take_drop|]. simpl in *. subst. repeat split; try done.
Qed.

End facts.

(** ** Sequences of calls *)

Inductive scram_call :=
| CallFirst (server_nonce_bytes mechanism client_first startup_user : bytes)
| CallFinal (client_final user : bytes).

Section sessions.
Context {P : Primitives}.

Definition run_call (c : scram_call) : IO ScramAuthenticator ScramError bytes :=
  match c with
  | CallFirst nb mechanism client_first user =>
      handle_client_first nb mechanism client_first user
  | CallFinal client_final user => handle_client_final client_final user
  end.

(** The answers to a sequence of calls, and the authenticator they leave. *)
Fixpoint run_calls (cs : list scram_call) (a : ScramAuthenticator)
    : list (scram_call * poll (result ScramError bytes)) * ScramAuthenticator :=
  match cs with
  | [] => ([], a)
  | c :: cs' => let '(r, a1) := run_call c a in
                let '(t, a2) := run_calls cs' a1 in
                ((c, r) :: t, a2)
  end.

(** A login is a [CallFinal] that was answered with a server signature. *)
Definition is_login (e : scram_call * poll (result ScramError bytes)) : bool :=
  match e with
  | (CallFinal _ _, Ready (Ok _)) => true
  | _ => false
  end.

Definition logins (t : list (scram_call * poll (result ScramError bytes))) : nat :=
  length (filter (fun e => is_login e = true) t).

Lemma logins_cons e t : logins (e :: t) = ((if is_login e then 1 else 0) + logins t)%nat.
Proof.
  unfold logins. rewrite filter_cons. destruct (is_login e) eqn:H; by case_decide.
Qed.

Lemma handle_client_first_Ok nb mechanism client_first user a sf a' :
  handle_client_first nb mechanism client_first user a = (Ready (Ok sf), a') ->
  exists flag authzid bare,
    sa_state a = Started /\ user <> [] /\ mechanism ∈ mechanisms a /\
    splitn 3 chr_comma client_first = [flag; authzid; bare] /\
    validate_gs2_flag a mechanism flag = Ok tt /\
    validate_authzid_part authzid = Ok tt /\ client_nonce_of bare <> [] /\
    sf = #"r=" ++ (client_nonce_of bare ++ #"-" ++ b64_encode nb)
         ++ #",s=" ++ b64_encode (v_salt (sa_verifier a))
         ++ #",i=" ++ show_uint (v_iterations (sa_verifier a)) /\
    a' = set_client_first (client_nonce_of bare) (client_nonce_of bare ++ #"-" ++ b64_encode nb)
           bare sf mechanism (set_gs2_header (flag ++ chr_comma :: authzid ++ [chr_comma]) a).
Proof.
  unfold handle_client_first, mbind, io_bind, io_get, io_lift, io_modify, io_fail. cbn beta iota.
  destruct (validate_params a mechanism user) as [[]|] eqn:Hp; [|done]. cbn beta iota.
  unfold extract_data_from_client_first.
  destruct (splitn 3 chr_comma client_first) as [|flag [|authzid [|bare [|? ?]]]] eqn:Hs; try done.
  destruct (validate_gs2_flag a mechanism flag) as [[]|] eqn:Hg; [|done]. cbn beta iota.
  destruct (validate_authzid_part authzid) as [[]|] eqn:Hz; [|done]. cbn beta iota.
  case_bool_decide as Hn; [done|]. intros [= <- <-]. exists flag, authzid, bare.
  unfold validate_params in Hp. case_bool_decide as H1; [done|]. case_bool_decide as H2; [done|].
  case_bool_decide as H3; [|done]. destruct (decide (sa_state a = Started)); [|done].
  repeat split; done.
Qed.

(** A refused first message changes at most the recorded GS2 header. *)
Lemma handle_client_first_other nb mechanism client_first user a r a' :
  handle_client_first nb mechanism client_first user a = (r, a') ->
  (exists sf, r = Ready (Ok sf)) \/
  (exists e, r = Ready (Err e)) /\ (a' = a \/ exists h, a' = set_gs2_header h a).
Proof.
  unfold handle_client_first, mbind, io_bind, io_get, io_lift, io_modify, io_fail. cbn beta iota.
  destruct (validate_params a mechanism user) as [[]|]; [|intros [= <- <-]; eauto 6].
  destruct (extract_data_from_client_first client_first) as [[[flag authzid] bare]|];
    [|intros [= <- <-]; eauto 6]. cbn beta iota.
  destruct (validate_gs2_flag a mechanism flag) as [[]|]; [|intros [= <- <-]; eauto 6].
  destruct (validate_authzid_part authzid) as [[]|]; [|intros [= <- <-]; eauto 6].
  cbn beta iota. case_bool_decide; intros [= <- <-]; eauto 8.
Qed.

(** What holds of an authenticator that has answered [n] logins. *)
Definition authenticator_inv (v : Verifier) (n : nat) (a : ScramAuthenticator) : Prop :=
  sa_verifier a = v /\
  match sa_extracted_client_key a with
  | None => n = 0%nat
  | Some key => n = 1%nat /\ sa_state a = Done /\ sha256 key = v_stored_key v /\ v_dummy v = false
  end.

Lemma run_call_inv v n c a :
  authenticator_inv v n a ->
  let '(r, a') := run_call c a in
  authenticator_inv v (n + if is_login (c, r) then 1 else 0) a'.
Proof.
  intros [Hv Hk]. destruct c as [nb mechanism client_first user|client_final user]; simpl.
  - destruct (handle_client_first _ _ _ _ a) as [r a'] eqn:H. rewrite Nat.add_0_r.
    destruct (handle_client_first_other _ _ _ _ _ _ _ H) as [[sf ->]|[[e ->] [->|[h ->]]]].
    + apply handle_client_first_Ok in H as (fl & az & ba & Hst & _ & _ & _ & _ & _ & _ & _ & ->).
      split; [done|]. simpl. destruct (sa_extracted_client_key a); [|done].
      destruct Hk as (_ & ? & _). congruence.
    + done.
    + done.
  - rewrite handle_client_final_eq. case_bool_decide as Hst.
    + destruct (final_check a client_final user) as [[key out]|e] eqn:Hf.
      * apply final_check_Ok in Hf as (? & ? & ? & ? & ? & Hf). destruct_and! Hf.
        split; [done|]. simpl. destruct (sa_extracted_client_key a); [naive_solver congruence|].
        subst n. rewrite <- Hv. done.
      * rewrite Nat.add_0_r. split; [done|]. simpl.
        destruct (sa_extracted_client_key a); [naive_solver congruence|done].
    + rewrite Nat.add_0_r. done.
Qed.

Lemma run_calls_inv v n cs a :
  authenticator_inv v n a ->
  authenticator_inv v (n + logins (run_calls cs a).1) (run_calls cs a).2.
Proof.
  revert n a. induction cs as [|c cs IH]; intros n a H; simpl; [by rewrite Nat.add_0_r|].
  pose proof (run_call_inv v n c a H) as H1. destruct (run_call c a) as [r a1].
  apply IH in H1. destruct (run_calls cs a1) as [t a2]. simpl in *.
  by rewrite logins_cons, Nat.add_assoc.
Qed.

(** C7: One authenticator accepts at most one login, whatever messages it is
    given and in whatever order; it holds a client key exactly when it accepted
    one, that key hashes to the verifier's stored key, and the verifier is not
    the dummy of an unknown user. *)
Theorem at_most_one_login cs v h :
  let '(t, a) := run_calls cs (authenticator_new v h) in
  (logins t <= 1)%nat /\
  match sa_extracted_client_key a with
  | None => logins t = 0%nat
  | Some key => logins t = 1%nat /\ sha256 key = v_stored_key v /\ v_dummy v = false
  end.
Proof.
  pose proof (run_calls_inv v 0 cs (authenticator_new v h) (conj eq_refl eq_refl)) as [_ H].
  destruct (run_calls cs _) as [t a]. simpl in *.
  destruct (sa_extracted_client_key a); [naive_solver lia|lia].
Qed.

(** Two authenticators a client cannot tell apart without a correct proof: they
    agree on everything but the keys of their verifiers. *)
Definition same_public (a b : ScramAuthenticator) : Prop :=
  v_salt (sa_verifier a) = v_salt (sa_verifier b) /\
  v_iterations (sa_verifier a) = v_iterations (sa_verifier b) /\
  sa_state a = sa_state b /\ sa_client_nonce a = sa_client_nonce b /\
  sa_combined_nonce a = sa_combined_nonce b /\
  sa_client_first_bare a = sa_client_first_bare b /\
  sa_server_first a = sa_server_first b /\ sa_gs2_header a = sa_gs2_header b /\
  sa_choosed_mechanism a = sa_choosed_mechanism b /\ sa_cert_hash a = sa_cert_hash b.

Lemma final_check_error_public a b client_final user e e' :
  same_public a b ->
  final_check a client_final user = Err e -> final_check b client_final user = Err e' -> e = e'.
Proof.
  intros (_ & _ & _ & Hn & Hc & _ & _ & Hg & Hm & Hh).
  assert (Hx : expected_cbind a = expected_cbind b)
    by (unfold expected_cbind; by rewrite Hm, Hh, Hg).
  assert (Hy : channel_binding_error a = channel_binding_error b)
    by (unfold channel_binding_error; by rewrite Hm).
  unfold final_check. rewrite Hx, Hy, Hn, Hc.
  destruct (scan_attrs _ _) as [[c r p]|]; cbn [mbind result_bind fa_cbind fa_nonce fa_proof];
    [|congruence].
  destruct c as [c|], r as [r|], p as [p|]; cbn [ok_or mbind result_bind]; try congruence.
  destruct (ct_eq c _); [|simpl; congruence]. case_bool_decide; [|simpl; congruence].
  destruct (starts_with _ _); cbn [negb]; [|congruence].
  destruct (rfind _ _) as [n|]; cbn [ok_or mbind result_bind]; [|congruence].
  destruct (b64_decode p) as [proof|]; cbn [ok_or mbind result_bind]; [|congruence].
  destruct (_ =? _)%nat; cbn [negb]; [|congruence].
  intros H1 H2. repeat split_match_in H1; repeat split_match_in H2; congruence.
Qed.

Lemma handle_client_first_public a b nb mechanism client_first user r a' :
  same_public a b -> handle_client_first nb mechanism client_first user a = (r, a') ->
  exists b', handle_client_first nb mechanism client_first user b = (r, b') /\ same_public a' b'.
Proof.
  destruct a as [v s cn cc cb sf g k m h], b as [w s' cn' cc' cb' sf' g' k' m' h'].
  intros (H1 & H2 & H). simpl in *. destruct_and! H. subst.
  unfold handle_client_first, mbind, io_bind, io_get, io_lift, io_modify, io_fail, mret, io_ret.
  cbn beta iota. unfold validate_params, validate_gs2_flag, validate_gs2_flag_for_scram,
    mechanisms. cbn [sa_state sa_cert_hash sa_verifier]. rewrite <- H1, <- H2.
  repeat (case_match; simplify_eq/=); unfold io_lift in *; intros; simplify_eq; eexists;
    (split; [reflexivity|]); repeat split; done.
Qed.

Lemma run_call_public a b c :
  same_public a b ->
  is_login (c, (run_call c a).1) = false -> is_login (c, (run_call c b).1) = false ->
  (run_call c a).1 = (run_call c b).1 /\ same_public (run_call c a).2 (run_call c b).2.
Proof.
  intros H. destruct c as [nb mechanism client_first user|client_final user]; simpl.
  - intros _ _. destruct (handle_client_first _ _ _ _ a) as [r a'] eqn:Ha.
    by destruct (handle_client_first_public _ _ _ _ _ _ _ _ H Ha) as (b' & -> & ?).
  - rewrite !handle_client_final_eq. pose proof H as (H1 & H2 & H3 & H4). rewrite <- H3.
    case_bool_decide; [|done].
    destruct (final_check a client_final user) as [[]|e] eqn:Ha; [done|].
    destruct (final_check b client_final user) as [[]|e'] eqn:Hb; [done|]. intros _ _.
    rewrite (final_check_error_public a b client_final user e e') by done.
    split; [done|]. unfold same_public in *. simpl. naive_solver.
Qed.

Lemma run_calls_public cs a b :
  same_public a b ->
  logins (run_calls cs a).1 = 0%nat -> logins (run_calls cs b).1 = 0%nat ->
  (run_calls cs a).1 = (run_calls cs b).1.
Proof.
  revert a b. induction cs as [|c cs IH]; intros a b H; [done|]. simpl.
  pose proof (run_call_public a b c H) as Hc.
  destruct (run_call c a) as [r a'], (run_call c b) as [r' b']. cbn [fst snd] in Hc.
  specialize (IH a' b'). destruct (run_calls cs a') as [t a2], (run_calls cs b') as [t' b2].
  cbn [fst snd] in *. rewrite !logins_cons.
  destruct (is_login (c, r)) eqn:L1; [lia|]. destruct (is_login (c, r')) eqn:L2; [lia|].
  intros Ht Ht'. destruct (Hc eq_refl eq_refl) as [-> ?]. by rewrite IH.
Qed.

(** C10: Rejected attempts reveal nothing about the credentials: two verifiers
    with the same salt and iteration count, one of them possibly the dummy of a
    user who does not exist, answer every sequence of messages that logs in
    with neither of them by the same bytes and the same errors. *)
Theorem rejections_reveal_nothing cs v1 v2 h :
  v_salt v1 = v_salt v2 -> v_iterations v1 = v_iterations v2 ->
  logins (run_calls cs (authenticator_new v1 h)).1 = 0%nat ->
  logins (run_calls cs (authenticator_new v2 h)).1 = 0%nat ->
  (run_calls cs (authenticator_new v1 h)).1 = (run_calls cs (authenticator_new v2 h)).1.
Proof. intros ? ?. apply run_calls_public. by repeat split. Qed.

(** C5: Soundness of acceptance: the final message is accepted only after an
    accepted first message, only for a user who exists, only when it repeats the
    expected channel binding and the combined nonce, each attribute exactly
    once, and when its proof is the exclusive or of a key that hashes to the
    stored key with the signature of this exchange's messages.  That key is the
    one handed on, and the answer is the server's signature of the same
    messages. *)
Theorem scram_accept_sound a client_final user out a' :
  handle_client_final client_final user a = (Ready (Ok out), a') ->
  sa_state a = ClientFirstReceived /\ v_dummy (sa_verifier a) = false /\
  exists without_proof rest proof_b64 key m,
    client_final = without_proof ++ #",p=" ++ rest /\
    attr_values #"c=" (split chr_comma client_final) = [expected_cbind a] /\
    attr_values #"r=" (split chr_comma client_final) = [sa_combined_nonce a] /\
    attr_values #"p=" (split chr_comma client_final) = [proof_b64] /\
    m = sa_client_first_bare a ++ #"," ++ sa_server_first a ++ #"," ++ without_proof /\
    (exists proof, b64_decode proof_b64 = Some proof /\ length proof = 32%nat /\
       key = xor_bytes proof (hmac_sha256 (v_stored_key (sa_verifier a)) m)) /\
    sha256 key = v_stored_key (sa_verifier a) /\
    sa_extracted_client_key a' = Some key /\
    out = #"v=" ++ b64_encode (hmac_sha256 (v_server_key (sa_verifier a)) m).
Proof.
  rewrite handle_client_final_eq. case_bool_decide as Hst; [|done].
  destruct (final_check a client_final user) as [[key out']|] eqn:Hf; [|done].
  intros [= <- <-]. apply final_check_Ok in Hf as (w & rest & pb & proof & m & Hf).
  destruct_and! Hf. split; [done|]. split; [done|]. exists w, rest, pb, key, m.
  repeat split; try done. by exists proof.
Qed.

(** C11: Channel binding is enforced end to end.  A login with the binding
    mechanism happens only where a certificate hash is known, and the client
    sent that hash; a login without it happens only for a client that said it
    does not bind ([n]), or that believed the server cannot ([y]) when it
    indeed cannot, and whose final message repeats that claim. *)
Theorem channel_binding_enforced v h nb mechanism client_first user sf a1
    client_final user' out a2 :
  handle_client_first nb mechanism client_first user (authenticator_new v h)
    = (Ready (Ok sf), a1) ->
  handle_client_final client_final user' a1 = (Ready (Ok out), a2) ->
  exists flag authzid bare,
    client_first = flag ++ chr_comma :: authzid ++ chr_comma :: bare /\
    ((mechanism = PLUS /\ flag = #"p=tls-server-end-point" /\
      exists ch, h = Some ch /\
        attr_values #"c=" (split chr_comma client_final) = [expected_c ch]) \/
     (mechanism = SCRAM_SHA_256 /\ (flag = #"n" \/ flag = #"y" /\ h = None) /\
      attr_values #"c=" (split chr_comma client_final) =
      [b64_encode (flag ++ chr_comma :: authzid ++ [chr_comma])])).
Proof.
  intros (flag & authzid & bare & _ & _ & Hin & Hs & Hg & _ & _ & _ & ->)%handle_client_first_Ok.
  rewrite handle_client_final_eq. case_bool_decide; [|done].
  destruct (final_check _ client_final user') as [[key out']|] eqn:Hf; [|done]. intros _.
  apply final_check_Ok in Hf as (_ & _ & _ & _ & _ & _ & Hc & _).
  exists flag, authzid, bare. split.
  { simpl in Hs. destruct (split_once chr_comma client_first) as [[f r1]|] eqn:H1; [|done].
    destruct (split_once chr_comma r1) as [[z r2]|] eqn:H2; [|done]. simplify_eq.
    apply split_once_Some in H1 as [-> _], H2 as [-> _]. done. }
  rewrite Hc. unfold expected_cbind. simpl.
  unfold validate_gs2_flag, validate_gs2_flag_for_scram, validate_gs2_flag_for_plus in Hg.
  unfold mechanisms in Hin. simpl in Hg, Hin.
  case_bool_decide as Hm; [subst mechanism|].
  - right. rewrite bool_decide_eq_false_2 by done.
    case_bool_decide; [naive_solver|]. case_bool_decide; [|by destruct (starts_with _ _)].
    destruct h; simpl in Hg; naive_solver.
  - case_bool_decide as Hp; [subst mechanism|done]. left.
    case_bool_decide; [|repeat split_match_in Hg; done].
    destruct h as [ch|]; simpl in Hin; [eauto 10|set_solver].
Qed.

Lemma scan_attrs_app_other attrs x fa :
  strip_prefix #"c=" x = None -> strip_prefix #"r=" x = None -> strip_prefix #"p=" x = None ->
  scan_attrs (attrs ++ [x]) fa = scan_attrs attrs fa.
Proof.
  intros Hc Hr Hp. revert fa. induction attrs as [|y attrs IH]; intros [c r p]; cbn [app scan_attrs].
  - unfold take_attr. by rewrite Hc, Hr, Hp.
  - destruct (take_attr #"c=" y _) as [c1|]; cbn [mbind result_bind]; [|done].
    destruct (take_attr #"r=" y _) as [r1|]; cbn [mbind result_bind]; [|done].
    destruct (take_attr #"p=" y _) as [p1|]; cbn [mbind result_bind]; [|done]. apply IH.
Qed.

(** The proof need not be the last attribute: a final message followed by
    an attribute of another name gets exactly the answer it gets without it,
    although that attribute is not covered by the proof. *)
Theorem proof_need_not_be_last client_final ext user a :
  chr_comma ∉ ext -> starts_with #"c=" ext = false -> starts_with #"r=" ext = false ->
  starts_with #"p=" ext = false ->
  handle_client_final (client_final ++ chr_comma :: ext) user a =
  handle_client_final client_final user a.
Proof.
  intros Hx Hc Hr Hp. rewrite !handle_client_final_eq. case_bool_decide; [|done].
  assert (Hn : forall k, starts_with k ext = false -> strip_prefix k ext = None).
  { intros k. unfold starts_with. by destruct (strip_prefix k ext). }
  assert (Hrf : rfind #",p=" (client_final ++ chr_comma :: ext) = rfind #",p=" client_final).
  { apply (rfind_app_sep x2c #"p=" client_final ext).
    - apply (bool_decide_unpack _). vm_compute. exact I.
    - cbn [rfind]. rewrite rfind_absent by done.
      change (starts_with _ (x2c :: ext)) with (starts_with #"p=" ext). by rewrite Hp. }
  unfold final_check.
  rewrite split_app_any, (split_no_delim _ ext), scan_attrs_app_other, Hrf by auto.
  destruct (scan_attrs _ _) as [fa|]; [|done]. cbn [mbind result_bind].
  destruct (rfind #",p=" client_final) as [n|] eqn:Hf; [|done].
  apply rfind_Some in Hf as [Hle _]. cbn [ok_or mbind result_bind].
  by rewrite take_app_le by done.
Qed.

End sessions.
