(* ===== verification/ScramClient.v ===== *)
(** The client side of the SCRAM-SHA-256 exchange, with which the proxy logs in
    to the backend: [backend/scram_client.rs].

    The credentials are either a plaintext password or the client key captured
    from the frontend's exchange. *)
From S2P Require Import Prelude Words RustStr Errors Crypto ToyCrypto Verifier.
Local Open Scope Z_scope.

Inductive ScramMechanism := Sha256 | Sha256Plus.

Definition gs2_header (m : ScramMechanism) : bytes :=
  match m with
  | Sha256 => #"n,,"
  | Sha256Plus => #"p=tls-server-end-point,,"
  end.

Record ScramClient := mkScramClient {
  sc_client_nonce : bytes;
  sc_auth_message : bytes;
  sc_client_key : option bytes;
  sc_server_key : option bytes;
  sc_stored_key : option bytes;
  sc_password : option bytes;
  sc_mechanism : ScramMechanism;
  sc_channel_binding : option bytes }.

(** [self.auth_message = m] and [self.server_key = k]. *)
Definition set_auth_message (m : bytes) (c : ScramClient) : ScramClient :=
  mkScramClient (sc_client_nonce c) m (sc_client_key c) (sc_server_key c) (sc_stored_key c)
    (sc_password c) (sc_mechanism c) (sc_channel_binding c).

Definition set_server_key (k : option bytes) (c : ScramClient) : ScramClient :=
  mkScramClient (sc_client_nonce c) (sc_auth_message c) (sc_client_key c) k (sc_stored_key c)
    (sc_password c) (sc_mechanism c) (sc_channel_binding c).

(** [HashMap<char, &str>]: the key is the first character of the text before
    the first [=]; the last pair of a key wins. *)
Definition parse_pair (pair : bytes) : option (bytes * bytes) :=
  match splitn 2 x3d pair with
  | [name; value] => key ← first_char name; Some (key, value)
  | _ => None
  end.

Definition parse_scram_kv (msg : bytes) : gmap bytes bytes :=
  fold_left (fun m kv => <[kv.1 := kv.2]> m) (omap parse_pair (split chr_comma msg)) ∅.

Definition use_channel_binding (cbind_input : bytes) (c : ScramClient) : ScramClient :=
  mkScramClient (sc_client_nonce c) (sc_auth_message c) (sc_client_key c) (sc_server_key c)
    (sc_stored_key c) (sc_password c) Sha256Plus (Some cbind_input).

Definition client_first_message (c : ScramClient) : bytes :=
  gs2_header (sc_mechanism c) ++ #"n=,r=" ++ sc_client_nonce c.

Definition client_cbind_input (c : ScramClient) : bytes :=
  match sc_channel_binding c with
  | Some b => b
  | None => gs2_header (sc_mechanism c)
  end.

Section client.
Context {P : Primitives}.

(** [random] is the 18 bytes drawn for the nonce. *)
Definition scram_client_new (random : bytes)
    (client_key server_key stored_key password : option bytes) : ScramClient :=
  mkScramClient (b64_url_encode random) [] client_key server_key stored_key password Sha256 None.

(** The keys of the exchange: derived from the password and the backend's salt,
    or captured, when the salt and the iteration count are the captured ones. *)
Definition exchange_keys (c : ScramClient) (salt : bytes) (iterations : Z)
    (stored_salt : bytes) (stored_iteration_count : Z)
    : result PgError (bytes * bytes * option bytes) :=
  match sc_password c with
  | Some password =>
      let salted := pbkdf2_sha256 password salt iterations in
      let client_key := hmac_sha256 salted #"Client Key" in
      let server_key := hmac_sha256 salted #"Server Key" in
      let stored_key := sha256 client_key in
      Ok (client_key, stored_key, Some server_key)
  | None =>
      if negb (bool_decide (salt = stored_salt)) then Err SaltMismatch
      else if negb (stored_iteration_count =? iterations) then
        Err (PgAuth #"Invalid iteration count")
      else
        client_key ← ok_or (sc_client_key c) (UnsupportedAuth
          #"backend requested SCRAM, but no ClientKey was captured from the client");
        stored_key ← ok_or (sc_stored_key c) (PgAuth #"stored SCRAM secret is unavailable");
        Ok (client_key, stored_key, sc_server_key c)
  end.

Definition client_final_message (server_first stored_salt : bytes) (stored_iteration_count : Z)
    : IO ScramClient PgError bytes :=
  c ← io_get;
  let params := parse_scram_kv server_first in
  combined_nonce ← io_lift (ok_or (params !! #"r")
    (PgAuth #"Missing nonce ('r') in SCRAM response"));
  salt_b64 ← io_lift (ok_or (params !! #"s")
    (PgAuth #"Missing salt ('s') in SCRAM response"));
  iterations ← io_lift (ok_or (params !! #"i")
    (PgAuth #"Missing iterations ('i') in SCRAM response"));
  iterations ← io_lift (ok_or (parse_u32 iterations) (PgAuth #"invalid iterations count"));
  if negb (starts_with (sc_client_nonce c) combined_nonce)
     || (length combined_nonce <=? length (sc_client_nonce c))%nat
  then io_fail (PgAuth #"Server nonce mismatch")
  else
    salt ← io_lift (ok_or (b64_decode salt_b64) (PgAuth #"invalid salt encoding"));
    '(client_key, stored_key, server_key) ←
      io_lift (exchange_keys c salt iterations stored_salt stored_iteration_count);
    let client_final_without_proof :=
      #"c=" ++ b64_encode (client_cbind_input c) ++ #",r=" ++ combined_nonce in
    let client_first_bare := #"n=,r=" ++ sc_client_nonce c in
    let auth_message :=
      client_first_bare ++ #"," ++ server_first ++ #"," ++ client_final_without_proof in
    io_modify (set_auth_message auth_message);;
    let client_signature := hmac_sha256 stored_key auth_message in
    if negb (length client_key =? length client_signature)%nat then
      io_fail (PgAuth #"invalid client key length")
    else
      let client_proof := xor_bytes client_key client_signature in
      io_modify (set_server_key server_key);;
      let proof_b64 := b64_encode client_proof in
      mret (client_final_without_proof ++ #",p=" ++ proof_b64).

Definition verify_server_final (server_final : bytes) (c : ScramClient) : result PgError bool :=
  let params := parse_scram_kv server_final in
  match params !! #"e" with
  | Some err => Err (PgAuth (#"SCRAM error: " ++ err))
  | None =>
      match sc_server_key c with
      | None => Ok false
      | Some server_key =>
          server_sig_b64 ← ok_or (params !! #"v") (PgAuth #"invalid server signature");
          server_signature ← ok_or (b64_decode server_sig_b64) (PgAuth #"invalid server signature");
          let expected_server_sig := hmac_sha256 server_key (sc_auth_message c) in
          if negb (ct_eq expected_server_sig server_signature) then
            Err (PgAuth #"invalid server signature")
          else Ok true
      end
  end.

End client.

(** ** Lemmas *)

(** Reading back messages of the form [k=v,k=v,..]. *)
Definition kv_key (k : byte) : bool :=
  (b2z k <? 0x80) && negb (bool_decide (k = x3d)) && negb (bool_decide (k = chr_comma)).

Lemma parse_pair_kv k v : kv_key k = true -> parse_pair (k :: x3d :: v) = Some ([k], v).
Proof.
  unfold kv_key. intros [[H1 H2]%andb_prop _]%andb_prop. unfold parse_pair. simpl.
  case_bool_decide; [done|]. simpl. unfold first_char. cbn [utf8_chunks]. by rewrite H1.
Qed.

Lemma kv_no_comma k v : kv_key k = true -> chr_comma ∉ v -> chr_comma ∉ k :: x3d :: v.
Proof.
  unfold kv_key. intros [_ H]%andb_prop Hv. case_bool_decide; [done|].
  rewrite !not_elem_of_cons. repeat split; done || congruence.
Qed.

Lemma parse_scram_kv_one k v :
  kv_key k = true -> chr_comma ∉ v -> parse_scram_kv (k :: x3d :: v) = <[ [k] := v ]> ∅.
Proof.
  intros Hk Hv. unfold parse_scram_kv. rewrite split_no_delim by by apply kv_no_comma.
  unfold omap, list_omap. by rewrite parse_pair_kv.
Qed.

Lemma parse_scram_kv_three k1 v1 k2 v2 k3 v3 :
  forallb kv_key [k1; k2; k3] = true ->
  chr_comma ∉ v1 -> chr_comma ∉ v2 -> chr_comma ∉ v3 ->
  parse_scram_kv ((k1 :: x3d :: v1) ++ chr_comma :: (k2 :: x3d :: v2)
                  ++ chr_comma :: (k3 :: x3d :: v3))
  = <[ [k3] := v3 ]> (<[ [k2] := v2 ]> (<[ [k1] := v1 ]> ∅)).
Proof.
  cbn [forallb]. intros [H1 [H2 [H3 _]%andb_prop]%andb_prop]%andb_prop Hv1 Hv2 Hv3.
  unfold parse_scram_kv. rewrite !split_app, split_no_delim by by apply kv_no_comma.
  unfold omap, list_omap. by rewrite !parse_pair_kv.
Qed.

Lemma starts_with_longer p r :
  r <> [] -> negb (starts_with p (p ++ r)) || (length (p ++ r) <=? length p)%nat = false.
Proof.
  intros Hr. rewrite starts_with_app, length_app. simpl. apply Nat.leb_gt.
  destruct r; simpl; [done|lia].
Qed.

Section facts.
Context {P : Primitives}.

(** C29: A backend that cannot prove it holds the server key is refused: the
    server's final message is accepted as verified only if it carries the
    signature, under the exchange's server key, of the messages the client
    saw. *)
Theorem server_signature_checked server_final c :
  verify_server_final server_final c = Ok true ->
  exists server_key sig_b64,
    sc_server_key c = Some server_key /\ parse_scram_kv server_final !! #"v" = Some sig_b64 /\
    b64_decode sig_b64 = Some (hmac_sha256 server_key (sc_auth_message c)).
Proof.
  unfold verify_server_final. destruct (_ !! #"e"); [done|].
  destruct (sc_server_key c) as [k|]; [|done]. destruct (_ !! #"v") as [sig|]; [|done].
  cbn [ok_or mbind result_bind]. destruct (b64_decode sig) as [d|] eqn:Hd; [|done].
  cbn [ok_or mbind result_bind]. unfold ct_eq. case_bool_decide; [|done]. intros _.
  exists k, sig. by subst.
Qed.

(** C30: A captured key is never used with another salt or iteration count: the
    proof is computed only when both are the frontend verifier's, and the
    client key is never sent for a nonce that does not extend the client's. *)
Theorem captured_key_bound_to_salt server_first stored_salt stored_iterations c out c' :
  sc_password c = None ->
  client_final_message server_first stored_salt stored_iterations c = (Ready (Ok out), c') ->
  exists nonce salt_b64 iterations,
    parse_scram_kv server_first !! #"r" = Some nonce /\
    (exists suffix, nonce = sc_client_nonce c ++ suffix /\ suffix <> []) /\
    parse_scram_kv server_first !! #"s" = Some salt_b64 /\
    b64_decode salt_b64 = Some stored_salt /\
    parse_scram_kv server_first !! #"i" = Some iterations /\
    parse_u32 iterations = Some stored_iterations.
Proof.
  intros Hp. unfold client_final_message, mbind, io_bind, io_get, io_lift, io_modify, io_fail.
  cbn beta iota. destruct (_ !! #"r") as [r|]; [|done]. cbn [ok_or].
  destruct (_ !! #"s") as [s|]; [|done]. cbn [ok_or].
  destruct (_ !! #"i") as [i|]; [|done]. cbn [ok_or].
  destruct (parse_u32 i) as [n|] eqn:Hi; [|done]. cbn [ok_or].
  destruct (starts_with _ r) eqn:Hr; [|done]. simpl.
  destruct (Nat.leb_spec (length r) (length (sc_client_nonce c))); [done|].
  destruct (b64_decode s) as [salt|] eqn:Hs; [|done]. cbn [ok_or].
  unfold exchange_keys. rewrite Hp. case_bool_decide; [|done]. cbn [negb].
  destruct (Z.eqb_spec stored_iterations n); [|done]. intros _. subst.
  apply starts_with_true in Hr as [suffix ->]. exists (sc_client_nonce c ++ suffix), s, i.
  rewrite length_app in *. repeat split; try done. exists suffix. split; [done|].
  intros ->. simpl in *. lia.
Qed.

End facts.
