(* ===== verification/ScramExchange.v ===== *)
(** The two sides of the SCRAM exchange run against each other: the proxy's
    client ([backend/scram_client.rs]) logging in to the proxy's authenticator
    ([auth/scram/scram_authenticator.rs]), which is also how the captured key of
    a frontend login is used toward a backend that holds the same verifier. *)
From S2P Require Import Prelude Words RustStr Errors Crypto ToyCrypto Tls Verifier ScramServer.
From S2P Require Import ScramClient.
Local Open Scope Z_scope.

Section exchange.
Context {P : Primitives}.

(** The four messages.  [None] when either side refuses; otherwise whether the
    client verified the server's signature, and the server's final state. *)
Definition exchange (a : ScramAuthenticator) (c : ScramClient)
    (server_nonce mechanism user stored_salt : bytes) (stored_iterations : Z)
    : option (bool * ScramAuthenticator) :=
  match handle_client_first server_nonce mechanism (client_first_message c) user a with
  | (Ready (Ok server_first), a1) =>
      match client_final_message server_first stored_salt stored_iterations c with
      | (Ready (Ok client_final), c1) =>
          match handle_client_final client_final user a1 with
          | (Ready (Ok server_final), a2) =>
              match verify_server_final server_final c1 with
              | Ok verified => Some (verified, a2)
              | Err _ => None
              end
          | _ => None
          end
      | _ => None
      end
  | _ => None
  end.

(** The client's credentials open the verifier: [key] is the client key. *)
Definition credentials_match (c : ScramClient) (v : Verifier) (key : bytes) : Prop :=
  length key = 32%nat /\ sha256 key = v_stored_key v /\
  match sc_password c with
  | Some pw =>
      key = hmac_sha256 (pbkdf2_sha256 pw (v_salt v) (v_iterations v)) #"Client Key" /\
      v_server_key v = hmac_sha256 (pbkdf2_sha256 pw (v_salt v) (v_iterations v)) #"Server Key"
  | None =>
      sc_client_key c = Some key /\ sc_stored_key c = Some (v_stored_key v) /\
      (sc_server_key c = Some (v_server_key v) \/ sc_server_key c = None)
  end.

(** The client and the server chose the same mechanism, bound alike. *)
Definition binding_match (c : ScramClient) (h : option CertHash) (mechanism : bytes) : Prop :=
  match sc_mechanism c with
  | ScramClient.Sha256 => mechanism = SCRAM_SHA_256 /\ sc_channel_binding c = None
  | Sha256Plus => mechanism = PLUS /\
      exists ch, h = Some ch /\ sc_channel_binding c = Some (cbind_input ch)
  end.

Definition knows_server_key (c : ScramClient) : bool :=
  is_some (sc_password c) || is_some (sc_server_key c).

Context {HP : PrimitivesOk P}.

Definition server_first_of (c : ScramClient) (v : Verifier) (server_nonce : bytes) : bytes :=
  #"r=" ++ (sc_client_nonce c ++ #"-" ++ b64_encode server_nonce)
  ++ #",s=" ++ b64_encode (v_salt v) ++ #",i=" ++ show_uint (v_iterations v).

Lemma client_nonce_of_first nonce :
  chr_comma ∉ nonce -> client_nonce_of (#"n=,r=" ++ nonce) = nonce.
Proof.
  intros Hn. unfold client_nonce_of.
  change (#"n=,r=" ++ nonce) with (#"n=" ++ chr_comma :: (#"r=" ++ nonce)).
  rewrite split_app by (apply (bool_decide_unpack _); vm_compute; exact I).
  rewrite split_no_delim; [done|]. cbn. rewrite !not_elem_of_cons. done.
Qed.

(** The server's answer to the client's first message. *)
Lemma first_accepted c v h server_nonce mechanism user :
  binding_match c h mechanism -> user <> [] ->
  chr_comma ∉ sc_client_nonce c -> sc_client_nonce c <> [] ->
  exists gs2 a1,
    handle_client_first server_nonce mechanism (client_first_message c) user
      (authenticator_new v h) = (Ready (Ok (server_first_of c v server_nonce)), a1) /\
    a1 = set_client_first (sc_client_nonce c)
           (sc_client_nonce c ++ #"-" ++ b64_encode server_nonce) (#"n=,r=" ++ sc_client_nonce c)
           (server_first_of c v server_nonce) mechanism
           (set_gs2_header gs2 (authenticator_new v h)) /\
    expected_cbind a1 = b64_encode (client_cbind_input c).
Proof.
  intros Hb Hu Hn Hne.
  assert (Hnd : bool_decide (sc_client_nonce c = []) = false) by by apply bool_decide_eq_false_2.
  unfold client_first_message, handle_client_first, mbind, io_bind, io_get, io_lift, io_modify,
    io_fail, validate_params. cbn beta iota. cbn [sa_state authenticator_new].
  rewrite (bool_decide_eq_false_2 (user = [])) by done.
  unfold binding_match in Hb. destruct (sc_mechanism c) eqn:Hm.
  - destruct Hb as [-> Hcb].
    rewrite (bool_decide_eq_true_2 (SCRAM_SHA_256 ∈ _))
      by (unfold mechanisms; destruct (is_some _); set_solver).
    change (extract_data_from_client_first _)
      with (@Ok ScramError _ (#"n", @nil byte, #"n=,r=" ++ sc_client_nonce c)).
    cbn beta iota. rewrite client_nonce_of_first, Hnd by done.
    change (validate_gs2_flag _ _ _) with (@Ok ScramError unit tt). cbn beta iota.
    eexists _, _. split; [reflexivity|].
    split; [reflexivity|]. unfold client_cbind_input. by rewrite Hcb, Hm.
  - destruct Hb as (-> & ch & -> & Hcb).
    change (extract_data_from_client_first _) with
      (@Ok ScramError _ (#"p=tls-server-end-point", @nil byte, #"n=,r=" ++ sc_client_nonce c)).
    cbn beta iota. rewrite client_nonce_of_first, Hnd by done.
    change (validate_gs2_flag _ _ _) with (@Ok ScramError unit tt). cbn beta iota.
    eexists _, _. split; [reflexivity|].
    split; [reflexivity|]. unfold client_cbind_input. by rewrite Hcb.
Qed.

(** The text both sides sign. *)
Definition without_proof_of (c : ScramClient) (server_nonce : bytes) : bytes :=
  #"c=" ++ b64_encode (client_cbind_input c)
  ++ #",r=" ++ (sc_client_nonce c ++ #"-" ++ b64_encode server_nonce).

Definition auth_message_of (c : ScramClient) (v : Verifier) (server_nonce : bytes) : bytes :=
  (#"n=,r=" ++ sc_client_nonce c) ++ #"," ++ server_first_of c v server_nonce
  ++ #"," ++ without_proof_of c server_nonce.

Definition client_final_of (c : ScramClient) (v : Verifier) (server_nonce key : bytes) : bytes :=
  without_proof_of c server_nonce ++ #",p="
  ++ b64_encode (xor_bytes key (hmac_sha256 (v_stored_key v) (auth_message_of c v server_nonce))).

Definition exchange_server_key (c : ScramClient) (v : Verifier) : option bytes :=
  if is_some (sc_password c) then Some (v_server_key v) else sc_server_key c.

Lemma nonce_no_comma c server_nonce :
  chr_comma ∉ sc_client_nonce c ->
  chr_comma ∉ sc_client_nonce c ++ #"-" ++ b64_encode server_nonce.
Proof.
  intros Hn. rewrite !not_elem_of_app. repeat split; [done| |by apply not_in_b64].
  apply (bool_decide_unpack _). vm_compute. exact I.
Qed.

(** The text of a server's first message. *)
Definition first_text (nonce salt : bytes) (iterations : Z) : bytes :=
  #"r=" ++ nonce ++ #",s=" ++ b64_encode salt ++ #",i=" ++ show_uint iterations.

Lemma first_text_params nonce salt iterations :
  chr_comma ∉ nonce -> is_u32 iterations ->
  parse_scram_kv (first_text nonce salt iterations) =
  <[ #"i" := show_uint iterations ]> (<[ #"s" := b64_encode salt ]> (<[ #"r" := nonce ]> ∅)).
Proof.
  intros Hn Hi. apply (parse_scram_kv_three x72 _ x73 (b64_encode salt) x69 (show_uint iterations)).
  - vm_compute. reflexivity.
  - done.
  - by apply not_in_b64.
  - apply not_digit_not_in_show; [apply Hi|done].
Qed.

Lemma exchange_keys_match c v key :
  credentials_match c v key ->
  exchange_keys c (v_salt v) (v_iterations v) (v_salt v) (v_iterations v) =
  Ok (key, v_stored_key v, exchange_server_key c v).
Proof.
  unfold credentials_match, exchange_keys, exchange_server_key. intros (_ & Hsk & Hc).
  destruct (sc_password c) as [pw|].
  - destruct Hc as [-> ->]. simpl. by rewrite Hsk.
  - destruct Hc as (-> & -> & _). rewrite bool_decide_eq_true_2 by done.
    by rewrite Z.eqb_refl.
Qed.

(** What the client signs and answers, for the nonce of the server. *)
Definition client_text (c : ScramClient) (nonce : bytes) : bytes :=
  #"c=" ++ b64_encode (client_cbind_input c) ++ #",r=" ++ nonce.

Definition client_signs (c : ScramClient) (nonce salt : bytes) (iterations : Z) : bytes :=
  (#"n=,r=" ++ sc_client_nonce c) ++ #"," ++ first_text nonce salt iterations
  ++ #"," ++ client_text c nonce.

(** The client's answer to any server whose nonce extends the client's. *)
Lemma client_answers_any c suffix salt iterations stored_salt stored_iterations key stored_key
    server_key :
  exchange_keys c salt iterations stored_salt stored_iterations
    = Ok (key, stored_key, server_key) ->
  length key = 32%nat -> is_u32 iterations -> chr_comma ∉ sc_client_nonce c ++ suffix ->
  suffix <> [] ->
  let nonce := sc_client_nonce c ++ suffix in
  let m := client_signs c nonce salt iterations in
  client_final_message (first_text nonce salt iterations) stored_salt stored_iterations c =
  (Ready (Ok (client_text c nonce ++ #",p="
              ++ b64_encode (xor_bytes key (hmac_sha256 stored_key m)))),
   set_server_key server_key (set_auth_message m c)).
Proof.
  intros Hk Hlen Hi Hn Hsuf nonce m.
  unfold client_final_message, mbind, io_bind, io_get, io_lift, io_modify, io_fail.
  cbn beta iota. rewrite first_text_params by done.
  rewrite !(lookup_insert_ne _ #"i"), !(lookup_insert_ne _ #"s"), !lookup_insert_eq by done.
  cbn [ok_or]. unfold parse_u32. rewrite parse_show_uint by (unfold is_u32 in Hi; lia).
  cbn [ok_or]. unfold nonce at 1 2. rewrite starts_with_longer by done. cbv iota.
  rewrite b64_roundtrip. cbn [ok_or]. rewrite Hk.
  cbn beta iota. rewrite (proj2 (Nat.eqb_eq _ _)); [done|].
  unfold hmac_sha256. by rewrite hmac_length.
Qed.

(** The client's answer to the server of [scram_authenticator.rs]. *)
Lemma client_answers c v key server_nonce :
  credentials_match c v key -> is_u32 (v_iterations v) -> chr_comma ∉ sc_client_nonce c ->
  client_final_message (server_first_of c v server_nonce) (v_salt v) (v_iterations v) c =
  (Ready (Ok (client_final_of c v server_nonce key)),
   set_server_key (exchange_server_key c v)
     (set_auth_message (auth_message_of c v server_nonce) c)).
Proof.
  intros Hc Hi Hn. apply client_answers_any; try done.
  - by apply exchange_keys_match.
  - apply Hc.
  - by apply nonce_no_comma.
Qed.

Lemma final_attrs x y z :
  chr_comma ∉ x -> chr_comma ∉ y -> chr_comma ∉ z ->
  scan_attrs (split chr_comma ((#"c=" ++ x ++ #",r=" ++ y) ++ #",p=" ++ z))
    (mkFinalAttrs None None None) = Ok (mkFinalAttrs (Some x) (Some y) (Some z)).
Proof.
  intros Hx Hy Hz.
  assert (Hk : forall k w, chr_comma ∉ k -> chr_comma ∉ w -> chr_comma ∉ k ++ w)
    by (intros; by rewrite not_elem_of_app).
  replace ((#"c=" ++ x ++ #",r=" ++ y) ++ #",p=" ++ z)
    with ((#"c=" ++ x) ++ chr_comma :: (#"r=" ++ y) ++ chr_comma :: (#"p=" ++ z))
    by by rewrite <- !app_assoc.
  assert (chr_comma ∉ #"c=" /\ chr_comma ∉ #"r=" /\ chr_comma ∉ #"p=") as (? & ? & ?)
    by (apply (bool_decide_unpack _); vm_compute; exact I).
  rewrite (split_app _ (#"c=" ++ x)), (split_app _ (#"r=" ++ y)), split_no_delim by auto.
  reflexivity.
Qed.

(** The text the final message signs, for the state of the server. *)
Definition signed_text (a : ScramAuthenticator) : bytes :=
  #"c=" ++ expected_cbind a ++ #",r=" ++ sa_combined_nonce a.

Definition signed_message (a : ScramAuthenticator) : bytes :=
  sa_client_first_bare a ++ #"," ++ sa_server_first a ++ #"," ++ signed_text a.

Lemma expected_cbind_b64 a : exists x, expected_cbind a = b64_encode x.
Proof.
  unfold expected_cbind, expected_c. case_bool_decide; [|by eexists].
  destruct (sa_cert_hash a); by eexists.
Qed.

(** The server's answer to a final message signed with a key that opens the
    verifier, whoever wrote it. *)
Lemma signed_final_accepted a key user :
  length key = 32%nat -> sha256 key = v_stored_key (sa_verifier a) ->
  v_dummy (sa_verifier a) = false -> sa_state a = ClientFirstReceived ->
  chr_comma ∉ sa_combined_nonce a -> starts_with (sa_client_nonce a) (sa_combined_nonce a) = true ->
  handle_client_final (signed_text a ++ #",p=" ++
    b64_encode (xor_bytes key (hmac_sha256 (v_stored_key (sa_verifier a)) (signed_message a))))
    user a =
  (Ready (Ok (#"v=" ++ b64_encode (hmac_sha256 (v_server_key (sa_verifier a)) (signed_message a)))),
   set_client_key key (set_state Done a)).
Proof.
  intros Hlen Hsk Hd Hst Hn Hsw.
  rewrite handle_client_final_eq, bool_decide_eq_true_2 by done.
  set (sig := hmac_sha256 (v_stored_key (sa_verifier a)) (signed_message a)).
  assert (Hsig : length key = length sig) by (unfold sig, hmac_sha256; by rewrite hmac_length).
  destruct (expected_cbind_b64 a) as [x Hx].
  unfold final_check.
  assert (Hscan : scan_attrs (split chr_comma (signed_text a ++ #",p=" ++ b64_encode (xor_bytes key sig)))
      (mkFinalAttrs None None None) =
    Ok (mkFinalAttrs (Some (expected_cbind a)) (Some (sa_combined_nonce a))
          (Some (b64_encode (xor_bytes key sig)))))
    by (apply final_attrs; rewrite ?Hx; done || by apply not_in_b64).
  assert (Hrf : rfind #",p=" (signed_text a ++ #",p=" ++ b64_encode (xor_bytes key sig))
                = Some (length (signed_text a))).
  { apply (rfind_app x2c #"p="). rewrite not_elem_of_app.
    split; [apply (bool_decide_unpack _); vm_compute; exact I|by apply not_in_b64]. }
  rewrite Hscan. cbn [mbind result_bind fa_cbind fa_nonce fa_proof ok_or].
  unfold ct_eq. rewrite !bool_decide_eq_true_2 by done. rewrite Hsw. cbn [negb].
  rewrite Hrf. cbn [ok_or mbind result_bind]. rewrite take_app_length, b64_roundtrip.
  fold (signed_message a). fold sig. cbn [ok_or mbind result_bind].
  rewrite xor_bytes_length, Hlen by done. cbn [Nat.eqb negb].
  rewrite xor_bytes_involutive, (bool_decide_eq_true_2 _ Hsk) by done. cbn [negb]. by rewrite Hd.
Qed.

(** The server's answer to the client of [scram_client.rs]. *)
Lemma final_accepted a c v key server_nonce user :
  credentials_match c v key -> chr_comma ∉ sc_client_nonce c -> v_dummy v = false ->
  sa_verifier a = v -> sa_state a = ClientFirstReceived ->
  sa_client_nonce a = sc_client_nonce c ->
  sa_combined_nonce a = sc_client_nonce c ++ #"-" ++ b64_encode server_nonce ->
  sa_client_first_bare a = #"n=,r=" ++ sc_client_nonce c ->
  sa_server_first a = server_first_of c v server_nonce ->
  expected_cbind a = b64_encode (client_cbind_input c) ->
  handle_client_final (client_final_of c v server_nonce key) user a =
  (Ready (Ok (#"v=" ++ b64_encode (hmac_sha256 (v_server_key v)
                         (auth_message_of c v server_nonce)))),
   set_client_key key (set_state Done a)).
Proof.
  intros (Hlen & Hsk & _) Hn Hd <- Hst Hcn Hcomb Hbare Hsf Hcb.
  assert (Hw : signed_text a = without_proof_of c server_nonce)
    by (unfold signed_text, without_proof_of; by rewrite Hcb, Hcomb).
  assert (Hm : signed_message a = auth_message_of c (sa_verifier a) server_nonce)
    by (unfold signed_message, auth_message_of; by rewrite Hw, Hbare, Hsf).
  unfold client_final_of. rewrite <- Hw, <- Hm. apply signed_final_accepted; try done.
  - rewrite Hcomb. by apply nonce_no_comma.
  - rewrite Hcomb, Hcn. apply starts_with_app.
Qed.

(** The server's signature is the one the client expects. *)
Lemma signature_verified c k m :
  verify_server_final (#"v=" ++ b64_encode (hmac_sha256 k m))
    (set_server_key (Some k) (set_auth_message m c)) = Ok true.
Proof.
  unfold verify_server_final.
  change (#"v=" ++ b64_encode (hmac_sha256 k m))
    with (x76 :: x3d :: b64_encode (hmac_sha256 k m)).
  rewrite parse_scram_kv_one by (done || by apply not_in_b64).
  rewrite lookup_insert_ne, lookup_empty by done. cbn [set_server_key sc_server_key].
  change #"v" with [x76]. rewrite lookup_insert_eq. cbn [ok_or mbind result_bind].
  rewrite b64_roundtrip. cbn [ok_or mbind result_bind set_auth_message sc_auth_message].
  unfold ct_eq. by rewrite bool_decide_eq_true_2.
Qed.

Lemma signature_unverified c k m :
  verify_server_final (#"v=" ++ b64_encode k)
    (set_server_key None (set_auth_message m c)) = Ok false.
Proof.
  unfold verify_server_final.
  change (#"v=" ++ b64_encode k) with (x76 :: x3d :: b64_encode k).
  rewrite parse_scram_kv_one by (done || by apply not_in_b64).
  by rewrite lookup_insert_ne, lookup_empty by done.
Qed.

Lemma exchange_succeeds c v h key random server_nonce mechanism user :
  sc_client_nonce c = b64_url_encode random -> random <> [] -> user <> [] ->
  is_u32 (v_iterations v) -> v_dummy v = false ->
  credentials_match c v key -> binding_match c h mechanism ->
  exists a2,
    exchange (authenticator_new v h) c server_nonce mechanism user (v_salt v) (v_iterations v)
      = Some (knows_server_key c, a2) /\ sa_extracted_client_key a2 = Some key.
Proof.
  intros Hcn Hr Hu Hi Hd Hc Hb.
  assert (Hn : chr_comma ∉ sc_client_nonce c) by (rewrite Hcn; by apply not_in_b64_url).
  assert (Hne : sc_client_nonce c <> []) by (rewrite Hcn; by apply b64_url_nonempty).
  destruct (first_accepted c v h server_nonce mechanism user Hb Hu Hn Hne)
    as (gs2 & a1 & Hf & Ha & Hcb).
  unfold exchange. rewrite Hf, (client_answers c v key) by done.
  rewrite (final_accepted a1 c v key) by (done || by rewrite Ha).
  exists (set_client_key key (set_state Done a1)). split; [|done].
  unfold exchange_server_key, knows_server_key. unfold credentials_match in Hc.
  destruct (sc_password c) as [pw|]; cbn [is_some orb]; [by rewrite signature_verified|].
  destruct Hc as (_ & _ & _ & _ & [-> | ->]); cbn [is_some orb];
    [by rewrite signature_verified|by rewrite signature_unverified].
Qed.

(** Completeness: a client whose credentials open the verifier of an
    existing user and that binds as the server does logs in, over TLS with
    channel binding or without; the server recovers exactly its client key, and
    the client verifies the server's signature whenever it knows the server
    key. *)
Theorem exchange_complete c v h key random server_nonce mechanism user :
  sc_client_nonce c = b64_url_encode random -> random <> [] -> user <> [] ->
  is_u32 (v_iterations v) -> v_dummy v = false ->
  credentials_match c v key -> binding_match c h mechanism ->
  exists a2,
    exchange (authenticator_new v h) c server_nonce mechanism user (v_salt v) (v_iterations v)
      = Some (knows_server_key c, a2) /\ sa_extracted_client_key a2 = Some key.
Proof. apply exchange_succeeds. Qed.

(** C31: The secret [wirechaos hash-password] prints is one with which its
    password logs in: the credential store parses it, and the exchange with a
    client that knows the prepared password succeeds and is verified. *)
Theorem hashed_password_logs_in salt password iterations h random server_nonce user :
  (8 <= length salt)%nat -> MIN_ITERATIONS <= iterations < 2 ^ 32 ->
  random <> [] -> user <> [] ->
  exists v a2,
    from_pg_secret (hash_password salt password iterations) = Ok v /\
    exchange (authenticator_new v h)
      (scram_client_new random None None None (Some (prepare_password password)))
      server_nonce SCRAM_SHA_256 user (v_salt v) (v_iterations v) = Some (true, a2).
Proof.
  intros Hs Hi Hr Hu.
  destruct (from_password_lengths (prepare_password password) salt iterations) as [Hst Hsv].
  set (w := verifier_from_password (prepare_password password) salt iterations) in *.
  set (v := mkVerifier iterations salt (v_stored_key w) (v_server_key w) None false).
  exists v.
  destruct (exchange_succeeds (scram_client_new random None None None
              (Some (prepare_password password))) v h
              (hmac_sha256 (pbkdf2_sha256 (prepare_password password) salt iterations)
                 #"Client Key") random server_nonce SCRAM_SHA_256 user) as (a2 & He & _);
    try done.
  - unfold v, is_u32, MIN_ITERATIONS in *. cbn [v_iterations]. lia.
  - split; [apply hmac_length|done].
  - exists a2. split; [|done]. by apply (from_to_pg_secret w (conj Hi (conj Hs (conj Hst Hsv)))).
Qed.

(** Pass-through: the client key recovered from any accepted frontend login
    logs the proxy in to every backend that holds the same verifier, without
    the password, and the backend is authenticated in return. *)
Theorem captured_key_passes_through a client_final user out a1 key vb random server_nonce user' :
  handle_client_final client_final user a = (Ready (Ok out), a1) ->
  sa_extracted_client_key a1 = Some key ->
  v_salt vb = v_salt (sa_verifier a) -> v_iterations vb = v_iterations (sa_verifier a) ->
  v_stored_key vb = v_stored_key (sa_verifier a) ->
  v_server_key vb = v_server_key (sa_verifier a) ->
  is_u32 (v_iterations vb) -> v_dummy vb = false -> random <> [] -> user' <> [] ->
  exists a2,
    exchange (authenticator_new vb None)
      (scram_client_new random (Some key) (Some (v_server_key (sa_verifier a)))
         (Some (v_stored_key (sa_verifier a))) None)
      server_nonce SCRAM_SHA_256 user' (v_salt (sa_verifier a)) (v_iterations (sa_verifier a))
    = Some (true, a2).
Proof.
  rewrite handle_client_final_eq. case_bool_decide; [|done].
  destruct (final_check a client_final user) as [[key' out']|] eqn:Hf; [|done].
  intros [= <- <-] [= ->] Hsalt Hit Hst Hsk Hi Hd Hr Hu.
  apply final_check_Ok in Hf as (w & rest & pb & proof & m & Hf). destruct_and! Hf.
  rewrite <- Hsalt, <- Hit, <- Hst, <- Hsk.
  destruct (exchange_succeeds
    (scram_client_new random (Some key) (Some (v_server_key vb)) (Some (v_stored_key vb)) None)
    vb None key random server_nonce SCRAM_SHA_256 user') as (a2 & He & _); try done.
  - split; [|split; [congruence|simpl; auto]].
    subst key. rewrite xor_bytes_length; unfold hmac_sha256; rewrite ?hmac_length; done.
  - by exists a2.
Qed.

End exchange.

(** ** A session with concrete primitives *)

#[local] Existing Instance toy_crypto.

Definition sample_client : ScramClient :=
  scram_client_new #"eighteen-bytes-abc" None None None (Some #"secret").

Definition sample_authenticator : ScramAuthenticator := authenticator_new sample_verifier None.

Definition sample_server_nonce : bytes := #"0123456789abcdef0123456789abcdef".

Definition sample_server_first : bytes :=
  server_first_of sample_client sample_verifier sample_server_nonce.

Definition sample_a1 : ScramAuthenticator :=
  (handle_client_first sample_server_nonce SCRAM_SHA_256 (client_first_message sample_client)
     #"alice" sample_authenticator).2.

Definition sample_key : bytes :=
  hmac_sha256 (pbkdf2_sha256 #"secret" #"saltsalt" 4096) #"Client Key".

Definition sample_final : bytes :=
  client_final_of sample_client sample_verifier sample_server_nonce sample_key.

Definition sample_server_final : bytes :=
  #"v=" ++ b64_encode (hmac_sha256 (v_server_key sample_verifier)
             (auth_message_of sample_client sample_verifier sample_server_nonce)).

Definition sample_a2 : ScramAuthenticator := set_client_key sample_key (set_state Done sample_a1).

Lemma sample_first_accepted :
  handle_client_first sample_server_nonce SCRAM_SHA_256 (client_first_message sample_client)
    #"alice" sample_authenticator = (Ready (Ok sample_server_first), sample_a1).
Proof. vm_compute. reflexivity. Qed.

Lemma sample_final_accepted :
  handle_client_final sample_final #"alice" sample_a1 = (Ready (Ok sample_server_final), sample_a2).
Proof. vm_compute. reflexivity. Qed.

(** ** Witnesses *)

Lemma scram_accept_sound_witness :
  sa_state sample_a1 = ClientFirstReceived /\ sa_extracted_client_key sample_a2 = Some sample_key /\
  sha256 sample_key = v_stored_key sample_verifier.
Proof.
  destruct (scram_accept_sound sample_a1 sample_final #"alice" sample_server_final sample_a2)
    as (H & _ & w & rest & pb & key & m & _ & _ & _ & _ & _ & _ & Hk & He & _);
    [vm_compute; reflexivity|].
  split; [exact H|]. split; [reflexivity|]. injection He as <-. exact Hk.
Defined.

Lemma channel_binding_enforced_witness :
  exists flag authzid bare,
    client_first_message sample_client = flag ++ chr_comma :: authzid ++ chr_comma :: bare.
Proof.
  destruct (channel_binding_enforced sample_verifier None sample_server_nonce SCRAM_SHA_256
    (client_first_message sample_client) #"alice" sample_server_first sample_a1 sample_final
    #"alice" sample_server_final sample_a2) as (f & z & b & H & _);
    [vm_compute; reflexivity|vm_compute; reflexivity|].
  exists f, z, b. exact H.
Defined.

(** The same login with channel binding. *)
Definition sample_cert_hash : CertHash := mkCertHash Tls.Sha256 #"digest-of-the-certificate".

Definition sample_plus_client : ScramClient :=
  use_channel_binding (cbind_input sample_cert_hash) sample_client.

Lemma exchange_complete_witness :
  exists a2,
    exchange (authenticator_new sample_verifier (Some sample_cert_hash)) sample_plus_client
      sample_server_nonce PLUS #"alice" #"saltsalt" 4096 = Some (true, a2) /\
    sa_extracted_client_key a2 = Some sample_key.
Proof.
  apply (@exchange_complete _ toy_crypto_ok sample_plus_client sample_verifier
    (Some sample_cert_hash) sample_key #"eighteen-bytes-abc" sample_server_nonce PLUS #"alice");
    try (vm_compute; done).
  split; [reflexivity|]. exists sample_cert_hash. split; reflexivity.
Defined.

Lemma hashed_password_logs_in_witness :
  exists v a2,
    from_pg_secret (hash_password #"0123456789abcdef" #"secret" 4096) = Ok v /\
    exchange (authenticator_new v None)
      (scram_client_new #"eighteen-bytes-abc" None None None (Some (prepare_password #"secret")))
      sample_server_nonce SCRAM_SHA_256 #"alice" (v_salt v) (v_iterations v) = Some (true, a2).
Proof.
  apply (@hashed_password_logs_in _ toy_crypto_ok); vm_compute; try done; lia.
Defined.

Lemma captured_key_passes_through_witness :
  exists a2,
    exchange (authenticator_new sample_verifier None)
      (scram_client_new #"another-eighteen-b" (Some sample_key)
         (Some (v_server_key sample_verifier)) (Some (v_stored_key sample_verifier)) None)
      sample_server_nonce SCRAM_SHA_256 #"alice" #"saltsalt" 4096 = Some (true, a2).
Proof.
  apply (@captured_key_passes_through _ toy_crypto_ok sample_a1 sample_final #"alice"
    sample_server_final sample_a2 sample_key sample_verifier); vm_compute; done.
Defined.

(** A wrong password, against a user who exists and against one who does not. *)
Definition wrong_calls (v : Verifier) : list scram_call :=
  [CallFirst sample_server_nonce SCRAM_SHA_256 (client_first_message sample_client) #"alice";
   CallFinal (client_final_of sample_client v sample_server_nonce (replicate 32 x07)) #"alice"].

Definition dummy_verifier : Verifier := verifier_dummy #"alice" #"cluster-nonce".

Definition real_verifier : Verifier :=
  verifier_from_password #"secret" (v_salt dummy_verifier) 4096.

Lemma rejections_reveal_nothing_witness :
  (run_calls (wrong_calls real_verifier) (authenticator_new real_verifier None)).1 =
  (run_calls (wrong_calls real_verifier) (authenticator_new dummy_verifier None)).1.
Proof.
  apply (rejections_reveal_nothing (wrong_calls real_verifier) real_verifier dummy_verifier None);
    vm_compute; reflexivity.
Defined.

Lemma proof_need_not_be_last_witness :
  handle_client_final (sample_final ++ chr_comma :: #"x=unsigned") #"alice" sample_a1 =
  (Ready (Ok sample_server_final), sample_a2).
Proof.
  transitivity (handle_client_final sample_final #"alice" sample_a1).
  - apply (proof_need_not_be_last sample_final #"x=unsigned" #"alice" sample_a1);
      [apply (bool_decide_unpack _); vm_compute; exact I|reflexivity|reflexivity|reflexivity].
  - vm_compute. reflexivity.
Defined.

(** The client's state after it sent the final message. *)
Definition sample_c1 : ScramClient :=
  (client_final_message sample_server_first #"saltsalt" 4096 sample_client).2.

Lemma server_signature_checked_witness :
  exists server_key sig_b64,
    sc_server_key sample_c1 = Some server_key /\
    parse_scram_kv sample_server_final !! #"v" = Some sig_b64 /\
    b64_decode sig_b64 = Some (hmac_sha256 server_key (sc_auth_message sample_c1)).
Proof. apply (server_signature_checked sample_server_final sample_c1). vm_compute. reflexivity. Defined.

Definition captured_client : ScramClient :=
  scram_client_new #"eighteen-bytes-abc" (Some sample_key) None
    (Some (v_stored_key sample_verifier)) None.

Lemma captured_key_bound_to_salt_witness :
  exists nonce salt_b64 iterations,
    parse_scram_kv sample_server_first !! #"r" = Some nonce /\
    (exists suffix, nonce = sc_client_nonce captured_client ++ suffix /\ suffix <> []) /\
    parse_scram_kv sample_server_first !! #"s" = Some salt_b64 /\
    b64_decode salt_b64 = Some #"saltsalt" /\
    parse_scram_kv sample_server_first !! #"i" = Some iterations /\
    parse_u32 iterations = Some 4096.
Proof.
  apply (captured_key_bound_to_salt sample_server_first #"saltsalt" 4096 captured_client
    sample_final (client_final_message sample_server_first #"saltsalt" 4096 captured_client).2);
    vm_compute; reflexivity.
Defined.
