(* ===== verification/ScramReference.v ===== *)
(** The reference client of RFC 5802, as the tests of
    [auth/scram/scram_authenticator.rs] write it out ([simulate_client]), and the
    two sides of the program against it: the server accepts exactly what the
    reference computes, and the proxy's own client ([backend/scram_client.rs])
    computes what the reference does.  The vector of RFC 7677 is replayed with the
    published hash functions. *)
From S2P Require Import Prelude Words RustStr Errors Crypto ToyCrypto Digests Tls Verifier.
From S2P Require Import ScramServer ScramClient ScramExchange.
Local Open Scope Z_scope.

(** What the client reads in the server's first message. *)
Record ServerFirst := mkServerFirst { sf_combined : bytes; sf_salt_b64 : bytes; sf_iterations : Z }.

(** The loop over the attributes; [None] is the panic of [expect]. *)
Definition read_attr (st : option ServerFirst) (attr : bytes) : option ServerFirst :=
  f ← st;
  match strip_prefix #"r=" attr with
  | Some v => Some (mkServerFirst v (sf_salt_b64 f) (sf_iterations f))
  | None =>
      match strip_prefix #"s=" attr with
      | Some v => Some (mkServerFirst (sf_combined f) v (sf_iterations f))
      | None =>
          match strip_prefix #"i=" attr with
          | Some v => n ← parse_u32 v; Some (mkServerFirst (sf_combined f) (sf_salt_b64 f) n)
          | None => st
          end
      end
  end.

Definition read_server_first (server_first : bytes) : option ServerFirst :=
  fold_left read_attr (split chr_comma server_first) (Some (mkServerFirst [] [] 0)).

Section reference.
Context {P : Primitives}.

(** The client's final message, and the server's final message it expects. *)
Definition simulate_client (password client_first_bare server_first cbind_input : bytes)
    : option (bytes * bytes) :=
  f ← read_server_first server_first;
  let combined := sf_combined f in
  let cbind := b64_encode cbind_input in
  let client_final_no_proof := #"c=" ++ cbind ++ #",r=" ++ combined in
  let auth_message :=
    client_first_bare ++ #"," ++ server_first ++ #"," ++ client_final_no_proof in
  salt ← b64_decode (sf_salt_b64 f);
  let salted := pbkdf2_sha256 password salt (sf_iterations f) in
  let client_key := hmac_sha256 salted #"Client Key" in
  let stored_key := sha256 client_key in
  let client_sig := hmac_sha256 stored_key auth_message in
  let proof := xor_bytes client_key client_sig in
  let server_key := hmac_sha256 salted #"Server Key" in
  let expected_server_final := #"v=" ++ b64_encode (hmac_sha256 server_key auth_message) in
  let client_final := #"c=" ++ cbind ++ #",r=" ++ combined ++ #",p=" ++ b64_encode proof in
  Some (client_final, expected_server_final).

(** What the reference sends before and around that, from RFC 5802: a client that
    does not bind, one that would but takes the server to be unable, and one that
    binds to the digest of the certificate it saw.  Nothing of it is read from
    the program's state. *)
Inductive ClientBinding :=
| Unbound
| ServerCannot
| EndPoint (digest : bytes).

Definition reference_flag (b : ClientBinding) : bytes :=
  match b with
  | Unbound => #"n"
  | ServerCannot => #"y"
  | EndPoint _ => #"p=tls-server-end-point"
  end.

Definition reference_header (b : ClientBinding) : bytes := reference_flag b ++ #",,".

Definition reference_cbind (b : ClientBinding) : bytes :=
  reference_header b ++ match b with EndPoint digest => digest | _ => [] end.

Definition reference_bare (name nonce : bytes) : bytes := #"n=" ++ name ++ #",r=" ++ nonce.



Context {HP : PrimitivesOk P}.

(** ** The reference reads the messages the program writes *)

Lemma read_three combined salt_b64 iterations :
  chr_comma ∉ combined -> chr_comma ∉ salt_b64 -> is_u32 iterations ->
  read_server_first (#"r=" ++ combined ++ #",s=" ++ salt_b64 ++ #",i=" ++ show_uint iterations)
  = Some (mkServerFirst combined salt_b64 iterations).
Proof.
  intros Hc Hs Hi. unfold read_server_first.
  replace (#"r=" ++ combined ++ #",s=" ++ salt_b64 ++ #",i=" ++ show_uint iterations)
    with ((#"r=" ++ combined) ++ chr_comma :: (#"s=" ++ salt_b64)
          ++ chr_comma :: (#"i=" ++ show_uint iterations)) by by rewrite <- !app_assoc.
  assert (Hi' : chr_comma ∉ show_uint iterations)
    by (apply not_digit_not_in_show; [apply Hi|done]).
  rewrite !split_app, split_no_delim by (cbn; rewrite !not_elem_of_cons; repeat split; done).
  assert (Hp : parse_u32 (show_uint iterations) = Some iterations)
    by (apply parse_show_uint; unfold is_u32 in Hi; lia).
  transitivity (n ← parse_u32 (show_uint iterations); Some (mkServerFirst combined salt_b64 n));
    [reflexivity|by rewrite Hp].
Qed.

(** ** The server against the reference *)




(** ** The proxy's own client against the reference *)

(** The credentials are those of a password: the password itself, whatever the
    backend's salt and iteration count, or the keys derived from it for the salt
    and the count the backend has. *)
Definition credentials_of (c : ScramClient) (password salt : bytes) (iterations : Z)
    (stored_salt : bytes) (stored_iterations : Z) : Prop :=
  let salted := pbkdf2_sha256 password salt iterations in
  let client_key := hmac_sha256 salted #"Client Key" in
  match sc_password c with
  | Some pw => pw = password
  | None =>
      salt = stored_salt /\ iterations = stored_iterations /\
      sc_client_key c = Some client_key /\ sc_stored_key c = Some (sha256 client_key) /\
      sc_server_key c = Some (hmac_sha256 salted #"Server Key")
  end.

Lemma credentials_keys c password salt iterations stored_salt stored_iterations :
  credentials_of c password salt iterations stored_salt stored_iterations ->
  let salted := pbkdf2_sha256 password salt iterations in
  let client_key := hmac_sha256 salted #"Client Key" in
  exchange_keys c salt iterations stored_salt stored_iterations =
  Ok (client_key, sha256 client_key, Some (hmac_sha256 salted #"Server Key")).
Proof.
  unfold credentials_of, exchange_keys. destruct (sc_password c) as [pw|]; [by intros ->|].
  intros (-> & -> & -> & -> & ->). by rewrite bool_decide_eq_true_2, Z.eqb_refl by done.
Qed.

(** C28: The proxy's client is the reference client: with a password or with
    captured keys, bound to the backend's certificate or not, toward any server
    whose nonce extends its own, its first message is the reference's, its final
    message is byte for byte the one the reference computes from the password, its
    own messages and its own binding data, and it accepts as verified the server's
    final message the reference expects. *)
Theorem client_matches_reference random client_key server_key stored_key pw ch password suffix salt
    iterations stored_salt stored_iterations :
  let c0 := scram_client_new random client_key server_key stored_key pw in
  credentials_of c0 password salt iterations stored_salt stored_iterations ->
  is_u32 iterations -> chr_comma ∉ suffix -> suffix <> [] ->
  let c := match ch with None => c0 | Some h => use_channel_binding (cbind_input h) c0 end in
  let b := match ch with None => Unbound | Some h => EndPoint (ch_digest h) end in
  let bare := reference_bare [] (b64_url_encode random) in
  let server_first := first_text (b64_url_encode random ++ suffix) salt iterations in
  client_first_message c = reference_header b ++ bare /\
  exists client_final server_final c',
    simulate_client password bare server_first (reference_cbind b)
      = Some (client_final, server_final) /\
    client_final_message server_first stored_salt stored_iterations c
      = (Ready (Ok client_final), c') /\
    verify_server_final server_final c' = Ok true.
Proof.
  intros c0 Hc0 Hi Hsn Hs c b bare server_first.
  assert (Hc : credentials_of c password salt iterations stored_salt stored_iterations)
    by (unfold c; by destruct ch).
  assert (Hcb : client_cbind_input c = reference_cbind b) by (unfold c, b; by destruct ch).
  assert (Hcn : sc_client_nonce c = b64_url_encode random) by (unfold c; by destruct ch).
  split; [unfold c, b; by destruct ch|].
  assert (Hn : chr_comma ∉ sc_client_nonce c ++ suffix).
  { rewrite Hcn, not_elem_of_app. split; [by apply not_in_b64_url|done]. }
  pose proof (credentials_keys _ _ _ _ _ _ Hc) as Hk. cbv zeta in Hk.
  unfold server_first, bare. rewrite <- Hcn. set (nonce := sc_client_nonce c ++ suffix) in *.
  set (salted := pbkdf2_sha256 password salt iterations) in *.
  set (key := hmac_sha256 salted #"Client Key") in *.
  set (m := client_signs c nonce salt iterations).
  exists (client_text c nonce ++ #",p=" ++ b64_encode (xor_bytes key (hmac_sha256 (sha256 key) m))),
    (#"v=" ++ b64_encode (hmac_sha256 (hmac_sha256 salted #"Server Key") m)).
  eexists. split; [|split].
  - unfold simulate_client, first_text. rewrite read_three by (done || by apply not_in_b64).
    cbn [mbind option_bind sf_combined sf_salt_b64 sf_iterations]. rewrite b64_roundtrip.
    cbn [mbind option_bind]. fold salted key. rewrite <- Hcb.
    unfold m, client_signs, client_text, first_text. by rewrite <- !app_assoc.
  - by apply (client_answers_any _ _ _ _ _ _ _ _ _ Hk); try apply hmac_length.
  - apply signature_verified.
Qed.

End reference.

(** ** The vector of RFC 7677, with the published hash functions *)

#[local] Existing Instance published.

(** The secret of the user [user] with the password [pencil]. *)
Definition rfc_secret : bytes :=
  #"SCRAM-SHA-256$4096:W22ZaJ0SNY7soEsUEjb6gQ==$WG5d8oPm3OtcPnkdi4Uo7BkeZkBFzpcXkuLmtbsT4qY=:wfPLwcE6nTWhTAmQ7tl2KeoiWGPlZqQxSrmfPwDl2dU=".

Definition rfc_verifier : Verifier :=
  match from_pg_secret rfc_secret with Ok v => v | Err _ => verifier_dummy [] [] end.

Definition rfc_nonce : bytes := #"rOprNGfwEbeRWgbNEkqO%hvYDpWUa2RaTCAfuxFIlj)hNlF$k0".
Definition rfc_bare : bytes := #"n=user,r=rOprNGfwEbeRWgbNEkqO".
Definition rfc_server_first : bytes :=
  #"r=rOprNGfwEbeRWgbNEkqO%hvYDpWUa2RaTCAfuxFIlj)hNlF$k0,s=W22ZaJ0SNY7soEsUEjb6gQ==,i=4096".
Definition rfc_client_final : bytes :=
  #"c=biws,r=rOprNGfwEbeRWgbNEkqO%hvYDpWUa2RaTCAfuxFIlj)hNlF$k0,p=dHzbZapWIk4jUhN+Ute9ytag9zjfMHgsqmmiz7AndVQ=".
Definition rfc_server_final : bytes := #"v=6rriTRBi23WpRR/wtup+mMhUZUn/dB5nLTJRsjl95G4=".

(** The authenticator after the first two messages of the RFC. *)
Definition rfc_authenticator : ScramAuthenticator :=
  set_client_first #"rOprNGfwEbeRWgbNEkqO" rfc_nonce rfc_bare rfc_server_first SCRAM_SHA_256
    (set_gs2_header #"n,," (authenticator_new rfc_verifier None)).

(** The published proof is accepted, the answer is the published signature, and
    the key handed on hashes to the published stored key. *)
Example rfc7677_exchange :
  let '(r, a) := handle_client_final rfc_client_final #"user" rfc_authenticator in
  r = Ready (Ok rfc_server_final) /\
  sha256 <$> sa_extracted_client_key a = Some (v_stored_key rfc_verifier).
Proof. vm_compute. split; reflexivity. Qed.

(** The secret is the one that prints back. *)
Example rfc7677_secret : to_pg_secret rfc_verifier = rfc_secret.
Proof. vm_compute. reflexivity. Qed.

(** ** Witnesses: one round of PBKDF2 keeps the computation small *)

Definition pencil_hash : CertHash := mkCertHash Tls.Sha256 (replicate 32 x07).


(** The client with a password, bound to a certificate. *)
Lemma client_matches_reference_witness :
  let c := use_channel_binding (cbind_input pencil_hash)
             (scram_client_new #"eighteen-bytes-abc" None None None (Some #"pencil")) in
  let server_first :=
    first_text (b64_url_encode #"eighteen-bytes-abc" ++ #"-server") #"saltsalt" 1 in
  exists client_final server_final c',
    simulate_client #"pencil" (#"n=,r=" ++ b64_url_encode #"eighteen-bytes-abc") server_first
      (#"p=tls-server-end-point,," ++ replicate 32 x07) = Some (client_final, server_final) /\
    client_final_message server_first #"another-salt" 4096 c = (Ready (Ok client_final), c') /\
    verify_server_final server_final c' = Ok true.
Proof.
  destruct (@client_matches_reference published published_ok #"eighteen-bytes-abc" None None None
    (Some #"pencil") (Some pencil_hash) #"pencil" #"-server" #"saltsalt" 1 #"another-salt" 4096)
    as [_ H].
  - reflexivity.
  - split; [done|reflexivity].
  - apply (bool_decide_unpack _). vm_compute. exact I.
  - discriminate.
  - exact H.
Defined.
