(* ===== verification/LookupCache.v ===== *)
(** The cache of the [auth_query] source: [auth/credentials/cache.rs].

    An [Instant] and a [Duration] are [Z] nanoseconds; a duration since a later
    instant saturates at zero.  The map's order is never observed. *)
From S2P Require Import Prelude Verifier.
Local Open Scope Z_scope.

Definition DEFAULT_MAX_ENTRIES : nat := 4096.

Inductive Entry :=
| Positive (v : Verifier) (at_ : Z)
| Negative (at_ : Z).

Record LookupCache := mkCache {
  lc_positive_ttl : Z;
  lc_negative_ttl : Z;
  lc_max_entries : nat;
  lc_entries : gmap bytes Entry }.

Definition cache_with_capacity (positive_ttl negative_ttl : Z) (max_entries : nat) : LookupCache :=
  mkCache positive_ttl negative_ttl (Nat.max max_entries 1) ∅.

Definition cache_new (positive_ttl negative_ttl : Z) : LookupCache :=
  cache_with_capacity positive_ttl negative_ttl DEFAULT_MAX_ENTRIES.

Definition set_entries (m : gmap bytes Entry) (c : LookupCache) : LookupCache :=
  mkCache (lc_positive_ttl c) (lc_negative_ttl c) (lc_max_entries c) m.

Definition saturating_duration_since (now at_ : Z) : Z := Z.max 0 (now - at_).

Definition cache_get (username : bytes) (now : Z) (c : LookupCache)
    : option (option Verifier) * LookupCache :=
  match lc_entries c !! username with
  | Some (Positive v at_) =>
      if saturating_duration_since now at_ <=? lc_positive_ttl c then (Some (Some v), c)
      else (None, set_entries (delete username (lc_entries c)) c)
  | Some (Negative at_) =>
      if saturating_duration_since now at_ <=? lc_negative_ttl c then (Some None, c)
      else (None, set_entries (delete username (lc_entries c)) c)
  | None => (None, c)
  end.

Definition cache_get_negative (username : bytes) (now : Z) (c : LookupCache)
    : option Z * LookupCache :=
  match cache_get username now c with
  | (Some None, c') =>
      (match lc_entries c' !! username with Some (Negative at_) => Some at_ | _ => None end, c')
  | (_, c') => (None, c')
  end.

(** What [retain] keeps. *)
Definition entry_live (c : LookupCache) (now : Z) (e : Entry) : bool :=
  match e with
  | Positive _ at_ => saturating_duration_since now at_ <? lc_positive_ttl c
  | Negative at_ => saturating_duration_since now at_ <? lc_negative_ttl c
  end.

Definition evict_if_needed (now : Z) (c : LookupCache) : LookupCache :=
  if (size (lc_entries c) <? lc_max_entries c)%nat then c
  else
    let kept := filter (fun kv => entry_live c now kv.2 = true) (lc_entries c) in
    if (lc_max_entries c <=? size kept)%nat then set_entries ∅ c else set_entries kept c.

Definition cache_insert (username : bytes) (e : Entry) (now : Z) (c : LookupCache) : LookupCache :=
  let c := evict_if_needed now c in set_entries (<[username := e]> (lc_entries c)) c.

Definition insert_positive (username : bytes) (v : Verifier) (now : Z) : LookupCache -> LookupCache :=
  cache_insert username (Positive v now) now.

Definition insert_negative (username : bytes) (now : Z) : LookupCache -> LookupCache :=
  cache_insert username (Negative now) now.

Definition cache_forget (username : bytes) (c : LookupCache) : LookupCache :=
  set_entries (delete username (lc_entries c)) c.

(** ** Histories *)

Inductive cache_op :=
| OpGet (username : bytes) (now : Z)
| OpPositive (username : bytes) (v : Verifier) (now : Z)
| OpNegative (username : bytes) (now : Z)
| OpForget (username : bytes).

Definition cache_step (c : LookupCache) (op : cache_op) : LookupCache :=
  match op with
  | OpGet u now => (cache_get u now c).2
  | OpPositive u v now => insert_positive u v now c
  | OpNegative u now => insert_negative u now c
  | OpForget u => cache_forget u c
  end.

Definition cache_run (ops : list cache_op) (c : LookupCache) : LookupCache :=
  fold_left cache_step ops c.

(** The specification: the last thing the history recorded about a user, and
    did not forget since. *)
Definition record_op (u : bytes) (last : option Entry) (op : cache_op) : option Entry :=
  match op with
  | OpGet _ _ => last
  | OpPositive u' v now => if bool_decide (u' = u) then Some (Positive v now) else last
  | OpNegative u' now => if bool_decide (u' = u) then Some (Negative now) else last
  | OpForget u' => if bool_decide (u' = u) then None else last
  end.

Definition last_recorded (u : bytes) (ops : list cache_op) : option Entry :=
  fold_left (record_op u) ops None.

(** What an entry answers. *)
Definition entry_answer (e : Entry) : option Verifier :=
  match e with Positive v _ => Some v | Negative _ => None end.

Definition entry_time (e : Entry) : Z :=
  match e with Positive _ t => t | Negative t => t end.

Definition entry_ttl (c : LookupCache) (e : Entry) : Z :=
  match e with Positive _ _ => lc_positive_ttl c | Negative _ => lc_negative_ttl c end.

(** ** Lemmas *)

Lemma cache_get_entry u now c :
  cache_get u now c =
  match lc_entries c !! u with
  | Some e => if saturating_duration_since now (entry_time e) <=? entry_ttl c e
              then (Some (entry_answer e), c)
              else (None, set_entries (delete u (lc_entries c)) c)
  | None => (None, c)
  end.
Proof. unfold cache_get. destruct (lc_entries c !! u) as [[]|]; done. Qed.

Lemma evict_subset now c : lc_entries (evict_if_needed now c) ⊆ lc_entries c.
Proof.
  unfold evict_if_needed. destruct (_ <? _)%nat; [done|].
  destruct (_ <=? _)%nat; simpl; [apply map_empty_subseteq|apply map_filter_subseteq].
Qed.

Lemma evict_room now c :
  (1 <= lc_max_entries c)%nat -> (size (lc_entries (evict_if_needed now c)) < lc_max_entries c)%nat.
Proof.
  intros Hm. unfold evict_if_needed.
  destruct (Nat.ltb_spec (size (lc_entries c)) (lc_max_entries c)); [done|].
  destruct (Nat.leb_spec (lc_max_entries c)
    (size (filter (fun kv => entry_live c now kv.2 = true) (lc_entries c)))); simpl; [|done].
  rewrite map_size_empty. lia.
Qed.

Lemma evict_params now c :
  lc_max_entries (evict_if_needed now c) = lc_max_entries c /\
  lc_positive_ttl (evict_if_needed now c) = lc_positive_ttl c /\
  lc_negative_ttl (evict_if_needed now c) = lc_negative_ttl c.
Proof. unfold evict_if_needed. by repeat case_match. Qed.

Lemma size_insert_le {A} (m : gmap bytes A) k x : (size (<[k := x]> m) <= S (size m))%nat.
Proof. rewrite map_size_insert. destruct (m !! k); simpl; lia. Qed.

Lemma size_delete_le {A} (m : gmap bytes A) k : (size (delete k m) <= size m)%nat.
Proof. rewrite map_size_delete. destruct (m !! k); simpl; lia. Qed.

(** The cache is inside its bound and holds only what the history recorded. *)
Definition cache_inv (pt nt : Z) (n : nat) (ops : list cache_op) (c : LookupCache) : Prop :=
  lc_positive_ttl c = pt /\ lc_negative_ttl c = nt /\ lc_max_entries c = n /\
  (size (lc_entries c) <= n)%nat /\
  forall u e, lc_entries c !! u = Some e -> last_recorded u ops = Some e.

Lemma last_recorded_app u ops op :
  last_recorded u (ops ++ [op]) = record_op u (last_recorded u ops) op.
Proof. unfold last_recorded. by rewrite fold_left_app. Qed.

Lemma cache_insert_inv pt nt n ops c op u e now :
  (1 <= n)%nat -> cache_inv pt nt n ops c ->
  (forall u', record_op u' (last_recorded u' ops) op =
     if bool_decide (u = u') then Some e else last_recorded u' ops) ->
  cache_inv pt nt n (ops ++ [op]) (cache_insert u e now c).
Proof.
  intros Hn (Hp & Hg & Hm & Hs & Hr) Hrec. destruct (evict_params now c) as (H1 & H2 & H3).
  unfold cache_inv, cache_insert. simpl. repeat split; try congruence.
  - pose proof (size_insert_le (lc_entries (evict_if_needed now c)) u e).
    pose proof (evict_room now c ltac:(lia)). lia.
  - intros u' e'. rewrite last_recorded_app, Hrec. destruct (decide (u = u')) as [->|Hne].
    + by rewrite lookup_insert_eq, bool_decide_eq_true_2.
    + rewrite lookup_insert_ne, bool_decide_eq_false_2 by done. intros He.
      apply Hr. eapply lookup_weaken; [exact He|apply evict_subset].
Qed.

Lemma cache_delete_inv pt nt n ops c op u :
  cache_inv pt nt n ops c ->
  (forall u', u' <> u -> record_op u' (last_recorded u' ops) op = last_recorded u' ops) ->
  cache_inv pt nt n (ops ++ [op]) (set_entries (delete u (lc_entries c)) c).
Proof.
  intros (Hp & Hg & Hm & Hs & Hr) Hrec. unfold cache_inv. simpl. repeat split; try done.
  - pose proof (size_delete_le (lc_entries c) u). lia.
  - intros u' e'. rewrite last_recorded_app. intros [Hne He]%lookup_delete_Some.
    rewrite Hrec by congruence. by apply Hr.
Qed.

Lemma cache_step_inv pt nt n ops c op :
  (1 <= n)%nat -> cache_inv pt nt n ops c -> cache_inv pt nt n (ops ++ [op]) (cache_step c op).
Proof.
  intros Hn Hc. destruct op as [u now|u v now|u now|u]; simpl.
  - rewrite cache_get_entry.
    assert (Hsame : cache_inv pt nt n (ops ++ [OpGet u now]) c).
    { destruct Hc as (Hp & Hg & Hm & Hs & Hr). repeat split; try done.
      intros u' e'. rewrite last_recorded_app. apply Hr. }
    destruct (lc_entries c !! u) as [e|]; [|done].
    destruct (_ <=? _); [done|]. by apply cache_delete_inv.
  - by apply cache_insert_inv.
  - by apply cache_insert_inv.
  - apply cache_delete_inv; [done|]. intros u' Hne. simpl.
    by rewrite bool_decide_eq_false_2 by congruence.
Qed.

Lemma cache_run_inv pt nt n ops : forall pre c,
  (1 <= n)%nat -> cache_inv pt nt n pre c -> cache_inv pt nt n (pre ++ ops) (cache_run ops c).
Proof.
  induction ops as [|op ops IH]; intros pre c Hn Hc; simpl; [by rewrite app_nil_r|].
  change (op :: ops) with ([op] ++ ops). rewrite app_assoc. apply IH; [done|].
  by apply cache_step_inv.
Qed.

Lemma cache_new_inv pt nt n : cache_inv pt nt (Nat.max n 1) [] (cache_with_capacity pt nt n).
Proof.
  unfold cache_inv, cache_with_capacity. simpl. rewrite map_size_empty.
  repeat split; [lia|]. intros u e. by rewrite lookup_empty.
Qed.

(** The cache refines the log of what was recorded: after any history it
    holds at most [max_entries] users, and an answer it gives for a user is the
    last outcome recorded for that very user, not forgotten since and not older
    than its time to live; in particular an [ALTER ROLE] is visible at the
    latest one time to live later. *)
Theorem cache_answers_are_fresh ops pt nt n u now r c' :
  cache_get u now (cache_run ops (cache_with_capacity pt nt n)) = (Some r, c') ->
  (size (lc_entries c') <= Nat.max n 1)%nat /\
  exists e, last_recorded u ops = Some e /\ r = entry_answer e /\
    saturating_duration_since now (entry_time e) <=
      match e with Positive _ _ => pt | Negative _ => nt end.
Proof.
  destruct (cache_run_inv pt nt (Nat.max n 1) ops [] (cache_with_capacity pt nt n))
    as (Hp & Hg & Hm & Hs & Hr); [lia|apply cache_new_inv|].
  rewrite cache_get_entry.
  destruct (lc_entries (cache_run ops _) !! u) as [e|] eqn:He; [|done].
  destruct (Z.leb_spec (saturating_duration_since now (entry_time e))
              (entry_ttl (cache_run ops (cache_with_capacity pt nt n)) e)); [|done].
  intros [= <- <-]. split; [done|]. exists e. split; [by apply Hr|]. split; [done|].
  destruct e; simpl in *; by rewrite ?Hp, ?Hg in *.
Qed.

(** A recorded outcome is answered until its time to live has passed, when
    nothing else is recorded or forgotten in between. *)
Theorem cache_insert_then_get u e now later c :
  entry_time e = now -> now <= later -> later - now <= entry_ttl c e ->
  (cache_get u later (cache_insert u e now c)).1 = Some (entry_answer e).
Proof.
  intros Ht Hle Httl. rewrite cache_get_entry. unfold cache_insert. simpl.
  rewrite lookup_insert_eq, Ht. unfold saturating_duration_since.
  destruct (evict_params now c) as (_ & H2 & H3).
  rewrite (proj2 (Z.leb_le _ _)); [done|]. rewrite Z.max_r by lia.
  destruct e; simpl in *; by rewrite ?H2, ?H3.
Qed.

Lemma cache_answers_are_fresh_witness :
  (size (lc_entries (cache_run [OpPositive #"a" sample_verifier 0; OpNegative #"b" 5;
     OpForget #"a"; OpPositive #"c" sample_verifier 7] (cache_with_capacity 60 5 2))) <= 2)%nat /\
  exists e, last_recorded #"c" [OpPositive #"a" sample_verifier 0; OpNegative #"b" 5;
     OpForget #"a"; OpPositive #"c" sample_verifier 7] = Some e /\
    Some sample_verifier = entry_answer e /\
    saturating_duration_since 30 (entry_time e) <=
      match e with Positive _ _ => 60 | Negative _ => 5 end.
Proof.
  apply (cache_answers_are_fresh _ 60 5 2 #"c" 30 (Some sample_verifier)). reflexivity.
Defined.

Lemma cache_insert_then_get_witness :
  (cache_get #"c" 12 (cache_insert #"c" (Negative 7) 7 (cache_new 60 5))).1 = Some None.
Proof. apply (cache_insert_then_get #"c" (Negative 7) 7 12 (cache_new 60 5)); done. Defined.
