(* ===== verification/CredentialFile.v ===== *)
(** The user list file: [auth/credentials/file.rs], and the snapshot it is
    loaded into ([auth/credentials/store.rs]).

    The YAML parser is a parameter: the [serde_yaml] deserialisation of the
    document into raw users.  The salts drawn for plaintext passwords are a
    sequence of 16-byte values. *)
From S2P Require Import Prelude Words RustStr Errors Crypto ToyCrypto Verifier.
Local Open Scope Z_scope.

Record RawUser := mkRawUser {
  ru_name : bytes;
  ru_password : option bytes;
  ru_scram_secret : option bytes }.

(** One immutable generation of the user map. *)
Record Snapshot := mkSnapshot { sn_generation : Z; sn_users : gmap bytes Verifier }.

Definition snapshot_empty (generation : Z) : Snapshot := mkSnapshot generation ∅.
Definition snapshot_get (s : Snapshot) (username : bytes) : option Verifier :=
  sn_users s !! username.
Definition snapshot_len (s : Snapshot) : nat := size (sn_users s).
Definition snapshot_set_generation (g : Z) (s : Snapshot) : Snapshot := mkSnapshot g (sn_users s).

Definition secret_reason (err : SecretFormatError) : bytes * bytes :=
  ( #"scram_secret",
    match err with
    | Md5 => #"MD5 secrets are not supported; re-hash the role with scram-sha-256"
    | UnsupportedScheme => #"expected a SCRAM-SHA-256 secret"
    | Syntax => #"malformed secret"
    | Iterations => #"invalid iteration count"
    | IterationsTooLow => #"iteration count must be at least 4096"
    | Base64 _ => #"invalid base64"
    | KeyLength _ => #"each key must be exactly 32 bytes"
    | SaltTooShort => #"salt must be at least 8 bytes"
    end).

(** The locals of [snapshot_from_yaml], with the number of salts drawn. *)
Record LoadState := mkLoad {
  ls_errors : ErrorBag;
  ls_users : gmap bytes Verifier;
  ls_seen : gset bytes;
  ls_drawn : nat }.

Definition load_error (user : option bytes) (field reason : bytes) (st : LoadState) : LoadState :=
  mkLoad (bag_push (ls_errors st) user field reason) (ls_users st) (ls_seen st) (ls_drawn st).

Definition load_user (name : bytes) (v : Verifier) (st : LoadState) : LoadState :=
  mkLoad (ls_errors st) (<[name := v]> (ls_users st)) (ls_seen st) (ls_drawn st).

Section file.
Context {P : Primitives}.
Variable random_salt : nat -> bytes.
Variable parse_users : bytes -> option (list RawUser).

(** One iteration of the loop over the users. *)
Definition load_raw_user (st : LoadState) (user : RawUser) : LoadState :=
  let name := ru_name user in
  let '(st, name_ok) :=
    if bool_decide (name = []) then
      (load_error None #"name" #"must not be empty" st, false)
    else (st, true) in
  let '(st, name_ok) :=
    if bool_decide (x00 ∈ name) then
      (load_error (Some name) #"name" #"must not contain NUL" st, false)
    else (st, name_ok) in
  let '(st, name_ok) :=
    if bool_decide (name ∈ ls_seen st) then
      (load_error (Some name) #"name" #"duplicate user name" st, false)
    else (mkLoad (ls_errors st) (ls_users st) ({[name]} ∪ ls_seen st) (ls_drawn st), name_ok) in
  match ru_password user, ru_scram_secret user with
  | Some password, None =>
      if bool_decide (password = []) then
        load_error (Some name) #"password" #"must not be empty" st
      else if name_ok : bool then
        let verifier := derive_verifier password (random_salt (ls_drawn st)) DEFAULT_ITERATIONS in
        load_user name verifier
          (mkLoad (ls_errors st) (ls_users st) (ls_seen st) (S (ls_drawn st)))
      else st
  | None, Some scram_secret =>
      match from_pg_secret scram_secret with
      | Ok verifier => if name_ok then load_user name verifier st else st
      | Err error => let '(field, reason) := secret_reason error in
                     load_error (Some name) field reason st
      end
  | _, _ =>
      load_error (Some name) #"password"
        #"exactly one of `password` or `scram_secret` is required" st
  end.

Definition snapshot_from_yaml (text : bytes) : result ConfigError Snapshot :=
  raws ← ok_or (parse_users text) (config_error_single #"file" #"invalid YAML user list");
  let st := mkLoad bag_default ∅ ∅ 0 in
  let st := if bool_decide (raws = []) then
              load_error None #"users" #"at least one user is required" st
            else st in
  let st := fold_left load_raw_user raws st in
  bag_into_result (ls_errors st);;
  Ok (mkSnapshot 0 (ls_users st)).

(** ** What a valid list is *)

Definition credential_ok (u : RawUser) : Prop :=
  match ru_password u, ru_scram_secret u with
  | Some password, None => password <> []
  | None, Some secret => is_ok (from_pg_secret secret) = true
  | _, _ => False
  end.

Definition user_ok (u : RawUser) : Prop :=
  ru_name u <> [] /\ x00 ∉ ru_name u /\ credential_ok u.

(** The verifier a valid entry gives, for some drawn salt. *)
Definition user_verifier (u : RawUser) (v : Verifier) : Prop :=
  match ru_password u, ru_scram_secret u with
  | Some password, None =>
      exists n, v = derive_verifier password (random_salt n) DEFAULT_ITERATIONS
  | None, Some secret => from_pg_secret secret = Ok v
  | _, _ => False
  end.

Definition users_ok (seen : gset bytes) (raws : list RawUser) : Prop :=
  Forall user_ok raws /\ NoDup (ru_name <$> raws) /\ Forall (fun u => ru_name u ∉ seen) raws.

Definition load_entries (st : LoadState) : list EntryError := eb_entries (ls_errors st).

Lemma load_raw_user_ok st u :
  user_ok u -> ru_name u ∉ ls_seen st ->
  exists v, user_verifier u v /\
    ls_errors (load_raw_user st u) = ls_errors st /\
    ls_users (load_raw_user st u) = <[ru_name u := v]> (ls_users st) /\
    ls_seen (load_raw_user st u) = {[ru_name u]} ∪ ls_seen st.
Proof.
  intros (H1 & H2 & H3) H4. unfold load_raw_user.
  rewrite !(bool_decide_eq_false_2 (ru_name u = [])), !(bool_decide_eq_false_2 (x00 ∈ _)) by done.
  cbv beta iota. rewrite (bool_decide_eq_false_2 (ru_name u ∈ ls_seen st)) by done.
  unfold credential_ok in H3. unfold user_verifier.
  destruct (ru_password u) as [pw|], (ru_scram_secret u) as [secret|]; try done.
  - rewrite (bool_decide_eq_false_2 (pw = [])) by done.
    exists (derive_verifier pw (random_salt (ls_drawn st)) DEFAULT_ITERATIONS).
    split; [by exists (ls_drawn st)|]. repeat split.
  - destruct (from_pg_secret secret) as [v|]; [|done]. exists v. repeat split.
Qed.

(** One check: no error and its condition, or one error more. *)
Ltac load_case :=
  first [ exists []; split; [by rewrite app_nil_r|repeat split; done]
        | eexists [_]; split; [reflexivity|repeat split; done] ].

(** Errors only accumulate, and an invalid entry adds one. *)
Lemma load_raw_user_errors st u :
  exists es, load_entries (load_raw_user st u) = load_entries st ++ es /\
    (es = [] -> user_ok u /\ ru_name u ∉ ls_seen st).
Proof.
  unfold load_raw_user.
  set (s1 := if bool_decide (ru_name u = []) then _ else _).
  assert (Hs1 : exists e, load_entries s1.1 = load_entries st ++ e /\ ls_seen s1.1 = ls_seen st /\
            (e = [] -> ru_name u <> []))
    by (unfold s1; case_bool_decide; load_case).
  destruct s1 as [st1 ok1]. destruct Hs1 as (e1 & He1 & Hseen1 & Hok1). simpl in *.
  set (s2 := if bool_decide (x00 ∈ ru_name u) then _ else _).
  assert (Hs2 : exists e, load_entries s2.1 = load_entries st1 ++ e /\ ls_seen s2.1 = ls_seen st1 /\
            (e = [] -> x00 ∉ ru_name u))
    by (unfold s2; case_bool_decide; load_case).
  destruct s2 as [st2 ok2]. destruct Hs2 as (e2 & He2 & Hseen2 & Hok2). simpl in *.
  set (s3 := if bool_decide (ru_name u ∈ ls_seen st2) then _ else _).
  assert (Hs3 : exists e, load_entries s3.1 = load_entries st2 ++ e /\
            (e = [] -> ru_name u ∉ ls_seen st2))
    by (unfold s3; case_bool_decide; load_case).
  destruct s3 as [st3 ok3]. destruct Hs3 as (e3 & He3 & Hok3). simpl in *.
  rewrite Hseen2, Hseen1 in Hok3. rewrite He2, He1 in He3.
  match goal with |- context [load_entries ?m] =>
    assert (Hs4 : exists e, load_entries m = load_entries st3 ++ e /\ (e = [] -> credential_ok u)) end.
  { unfold credential_ok. destruct (ru_password u) as [pw|], (ru_scram_secret u) as [secret|];
      [load_case| | |load_case].
    - case_bool_decide; [load_case|destruct ok3; load_case].
    - destruct (from_pg_secret secret) as [v|err]; [destruct ok3|]; load_case. }
  destruct Hs4 as (e4 & -> & Hok4). exists (e1 ++ e2 ++ e3 ++ e4). rewrite He3, <- !app_assoc.
  split; [done|]. intros Hnil.
  apply app_nil in Hnil as [-> [-> [-> ->]%app_nil]%app_nil]. unfold user_ok. auto.
Qed.

Lemma load_users_errors raws st :
  exists es, load_entries (fold_left load_raw_user raws st) = load_entries st ++ es /\
    (es = [] <-> users_ok (ls_seen st) raws).
Proof.
  revert st. induction raws as [|u raws IH]; intros st; simpl.
  - exists []. rewrite app_nil_r. split; [done|]. split; [|done]. intros _.
    repeat constructor.
  - destruct (load_raw_user_errors st u) as (e1 & He1 & Hu).
    destruct (IH (load_raw_user st u)) as (e2 & He2 & Hus). exists (e1 ++ e2).
    rewrite He2, He1, <- app_assoc. split; [done|]. unfold users_ok in *. simpl.
    rewrite !Forall_cons, NoDup_cons. split.
    + intros [-> ->]%app_nil. destruct (Hu eq_refl) as [Hok Hns].
      destruct (load_raw_user_ok st u Hok Hns) as (v & _ & _ & _ & Hseen).
      destruct (proj1 Hus eq_refl) as (H1 & H2 & H3). rewrite Hseen in H3.
      refine (conj (conj Hok H1) (conj (conj _ H2) (conj Hns _))).
      * intros (w & Hw & Hin)%list_elem_of_fmap. rewrite Forall_forall in H3.
        specialize (H3 _ Hin). set_solver.
      * eapply Forall_impl; [exact H3|]. set_solver.
    + intros ((Hok & H1) & (Hnin & H2) & Hns & H3).
      destruct (load_raw_user_ok st u Hok Hns) as (v & _ & Herr & _ & Hseen).
      assert (e1 = []) as ->.
      { unfold load_entries in He1. rewrite Herr in He1.
        apply (app_inv_head (eb_entries (ls_errors st))). by rewrite app_nil_r. }
      apply Hus. repeat split; try done. rewrite Hseen. rewrite Forall_forall in *.
      intros w Hw. specialize (H3 w Hw). apply not_elem_of_union. split; [|done].
      rewrite not_elem_of_singleton. intros Heq. apply Hnin. apply list_elem_of_fmap. eauto.
Qed.

(** The map holds exactly the entries of the list. *)
Lemma load_users_map raws st :
  users_ok (ls_seen st) raws ->
  (forall name v, ls_users (fold_left load_raw_user raws st) !! name = Some v ->
     (exists u, u ∈ raws /\ ru_name u = name /\ user_verifier u v) \/
     ls_users st !! name = Some v) /\
  (forall name, is_Some (ls_users st !! name) \/ name ∈ ru_name <$> raws ->
     is_Some (ls_users (fold_left load_raw_user raws st) !! name)).
Proof.
  revert st. induction raws as [|u raws IH]; intros st (H1 & H2 & H3); simpl.
  - split; [by right|]. intros name [?|?]; [done|set_solver].
  - apply Forall_cons in H1 as [Hok H1]. apply NoDup_cons in H2 as [Hnin H2].
    apply Forall_cons in H3 as [Hns H3].
    destruct (load_raw_user_ok st u Hok Hns) as (w & Hw & _ & Hmap & Hseen).
    destruct (IH (load_raw_user st u)) as [Ha Hb].
    { repeat split; try done. rewrite Hseen. rewrite Forall_forall in *. intros x Hx.
      specialize (H3 x Hx). apply not_elem_of_union. split; [|done].
      rewrite not_elem_of_singleton. intros Heq. apply Hnin, list_elem_of_fmap. eauto. }
    split.
    + intros name v Hv. destruct (Ha name v Hv) as [(x & Hx & ? & ?)|Hv'].
      * left. exists x. split; [by right|done].
      * rewrite Hmap in Hv'. apply lookup_insert_Some in Hv' as [[<- <-]|[_ Hv']]; [|by right].
        left. exists u. split; [by left|done].
    + intros name Hn. apply Hb. rewrite Hmap. destruct (decide (name = ru_name u)) as [->|Hne].
      * left. rewrite lookup_insert_eq. done.
      * destruct Hn as [Hn|Hn]; [left; by rewrite lookup_insert_ne|right].
        apply elem_of_cons in Hn as [?|?]; done.
Qed.

Definition initial_load : LoadState := mkLoad bag_default ∅ ∅ 0.

Lemma snapshot_from_yaml_cases text raws :
  parse_users text = Some raws ->
  (raws <> [] /\ users_ok ∅ raws /\
   snapshot_from_yaml text = Ok (mkSnapshot 0 (ls_users (fold_left load_raw_user raws initial_load))))
  \/ (~ (raws <> [] /\ users_ok ∅ raws) /\
      exists e, snapshot_from_yaml text = Err e /\ (1 <= config_error_len e)%nat).
Proof.
  intros Hp. unfold snapshot_from_yaml. rewrite Hp. cbn [ok_or mbind result_bind].
  destruct (decide (raws = [])) as [->|Hne].
  - right. split; [naive_solver|]. eexists. split; [reflexivity|done].
  - rewrite bool_decide_eq_false_2 by done. fold initial_load.
    destruct (load_users_errors raws initial_load) as (es & He & Hok).
    unfold bag_into_result, bag_is_empty. unfold load_entries in He. rewrite He. simpl.
    destruct es as [|e es].
    + left. split; [done|]. split; [by apply Hok|done].
    + right. split; [intros [_ H]; by apply Hok in H|]. exists (mkConfigError (e :: es)). split; [done|]. unfold config_error_len. simpl. lia.
Qed.

Lemma valid_list_loads text raws :
  parse_users text = Some raws -> raws <> [] -> Forall user_ok raws -> NoDup (ru_name <$> raws) ->
  exists s, snapshot_from_yaml text = Ok s.
Proof.
  intros Hp Hne Hok Hnd.
  destruct (snapshot_from_yaml_cases text raws Hp) as [(_ & _ & H)|(H & _)]; [eauto|].
  exfalso. apply H. split; [done|]. split; [done|]. split; [done|]. apply Forall_true. set_solver.
Qed.

(** C36: Loading is all or nothing: a document is accepted exactly when it lists
    at least one user, every entry has a non-empty name without NUL and exactly
    one valid credential, and no name is repeated. *)
Theorem snapshot_all_or_nothing text raws :
  parse_users text = Some raws ->
  (exists s, snapshot_from_yaml text = Ok s) <->
  raws <> [] /\ Forall user_ok raws /\ NoDup (ru_name <$> raws).
Proof.
  intros Hp. assert (Hs : users_ok ∅ raws <-> Forall user_ok raws /\ NoDup (ru_name <$> raws)).
  { unfold users_ok. split; [naive_solver|]. intros [? ?]. repeat split; try done.
    apply Forall_true. set_solver. }
  rewrite <- Hs. destruct (snapshot_from_yaml_cases text raws Hp)
    as [(H1 & H2 & ->)|(Hn & e & -> & _)]; naive_solver.
Qed.

(** A loaded snapshot holds exactly the listed users, each with the verifier
    of its own entry: the parsed secret, or one derived from its password. *)
Theorem snapshot_contents text raws s :
  parse_users text = Some raws -> snapshot_from_yaml text = Ok s ->
  sn_generation s = 0 /\
  (forall name, is_Some (snapshot_get s name) <-> name ∈ ru_name <$> raws) /\
  (forall name v, snapshot_get s name = Some v ->
     exists u, u ∈ raws /\ ru_name u = name /\ user_verifier u v).
Proof.
  intros Hp Hs. destruct (snapshot_from_yaml_cases text raws Hp)
    as [(_ & Hok & Hs')|(_ & e & Hs' & _)]; rewrite Hs' in Hs; [|done]. injection Hs as <-.
  destruct (load_users_map raws initial_load Hok) as [Ha Hb]. unfold snapshot_get. simpl.
  assert (Hc : forall name v,
    ls_users (fold_left load_raw_user raws initial_load) !! name = Some v ->
    exists u, u ∈ raws /\ ru_name u = name /\ user_verifier u v).
  { intros name v Hv. destruct (Ha name v Hv) as [?|Hv']; [done|].
    simpl in Hv'. by rewrite lookup_empty in Hv'. }
  split; [done|]. split; [|exact Hc]. intros name. split; [|intros ?; apply Hb; by right].
  intros [v Hv]. destruct (Hc name v Hv) as (u & Hu & <- & _). apply list_elem_of_fmap. eauto.
Qed.

End file.

(** ** A document of two users *)

#[local] Existing Instance toy_crypto.

Definition sample_users : list RawUser :=
  [mkRawUser #"alice" (Some #"secret") None;
   mkRawUser #"bob" None (Some (to_pg_secret sample_verifier))].

Definition sample_parse (text : bytes) : option (list RawUser) :=
  if bool_decide (text = #"users") then Some sample_users else None.

Definition sample_salt (n : nat) : bytes := replicate 16 x2a.

Lemma sample_users_ok : Forall user_ok sample_users.
Proof.
  repeat constructor; unfold user_ok; simpl;
    try (apply (bool_decide_unpack _); vm_compute; exact I); vm_compute; done.
Qed.

Lemma snapshot_all_or_nothing_witness :
  exists s, snapshot_from_yaml sample_salt sample_parse #"users" = Ok s.
Proof.
  apply (snapshot_all_or_nothing sample_salt sample_parse #"users" sample_users eq_refl).
  split; [done|]. split; [apply sample_users_ok|].
  apply (bool_decide_unpack _). vm_compute. exact I.
Defined.

Lemma sample_loads : exists s, snapshot_from_yaml sample_salt sample_parse #"users" = Ok s.
Proof.
  apply (valid_list_loads sample_salt sample_parse #"users" sample_users eq_refl); [done| |].
  - apply sample_users_ok.
  - apply (bool_decide_unpack _). vm_compute. exact I.
Qed.

Definition sample_snapshot : Snapshot :=
  match snapshot_from_yaml sample_salt sample_parse #"users" with
  | Ok s => s
  | Err _ => snapshot_empty 0
  end.

Lemma snapshot_contents_witness :
  is_Some (snapshot_get sample_snapshot #"alice") <-> #"alice" ∈ ru_name <$> sample_users.
Proof.
  apply (snapshot_contents sample_salt sample_parse #"users" sample_users sample_snapshot eq_refl).
  unfold sample_snapshot. by destruct sample_loads as [s ->].
Defined.
