(* ===== verification/AuthQuery.v ===== *)
(** The [auth_query] credential source: [auth/credentials/auth_query.rs].

    The PostgreSQL driver is outside the repository: whether a connection is
    established and what the query returns are the arguments of a lookup.  The
    cache and the client are each behind a mutex; a lookup's steps are the
    sections between its locks. *)
From S2P Require Import Prelude Words RustStr Errors Crypto ToyCrypto Verifier LookupCache.
Local Open Scope Z_scope.

(** Durations in nanoseconds. *)
Definition from_millis (ms : Z) : Z := ms * 1000000.
Definition from_secs (s : Z) : Z := s * 1000000000.

Definition NEGATIVE_CACHE_TTL : Z := from_secs 5.
Definition DEFAULT_CACHE_TTL : Z := from_secs 60.

Record AuthQueryConfig := mkAuthQueryConfig {
  aq_host : bytes;
  aq_port : Z;
  aq_user : bytes;
  aq_password : bytes;
  aq_database : bytes;
  aq_query : bytes;
  aq_cache_ttl : Z;
  aq_negative_ttl : Z;
  aq_max_entries : nat }.

(** ** Placeholders *)

(** The inner [while bytes[end].is_ascii_digit()]: how many digits lead. *)
Fixpoint digit_run (s : bytes) : nat :=
  match s with
  | c :: s' => if is_ascii_digit c then S (digit_run s') else O
  | [] => O
  end.

(** The outer loop from index [i]; [None] is a loop that has not ended within
    the fuel. *)
Fixpoint scan_placeholders (fuel : nat) (query : bytes) (i : nat) (placeholders : list Z)
    : option (list Z) :=
  match fuel with
  | O => None
  | S f =>
      match query !! i with
      | None => Some placeholders
      | Some c =>
          if negb (bool_decide (c = x24)) then scan_placeholders f query (i + 1) placeholders
          else
            let start := (i + 1)%nat in
            let end_ := (start + digit_run (drop start query))%nat in
            if (start <? end_)%nat then
              let placeholders := match parse_u32 (take (end_ - start) (drop start query)) with
                                  | Some number => placeholders ++ [number]
                                  | None => placeholders
                                  end in
              scan_placeholders f query end_ placeholders
            else scan_placeholders f query (i + 1) placeholders
      end
  end.

Definition check_placeholders (placeholders : list Z) : result bytes unit :=
  match placeholders with
  | [n] => if negb (n =? 1) then Err #"the placeholder must be $1 (the requested user name)"
           else Ok tt
  | _ => Err #"query must contain exactly one placeholder"
  end.

(** [AuthQueryConfig::validate], with fuel for the scan. *)
Definition validate (fuel : nat) (query : bytes) : option (result bytes unit) :=
  check_placeholders <$> scan_placeholders fuel query 0 [].

(** The scan ends: each step moves the index forward. *)
Lemma scan_placeholders_ends query fuel i ps :
  (length query - i < fuel)%nat -> exists qs, scan_placeholders fuel query i ps = Some qs.
Proof.
  revert i ps. induction fuel as [|f IH]; intros i ps Hf; [lia|]. cbn [scan_placeholders].
  destruct (query !! i) as [c|] eqn:Hc; [|eauto]. apply lookup_lt_Some in Hc.
  destruct (negb _); [apply IH; lia|].
  destruct (Nat.ltb_spec (i + 1) (i + 1 + digit_run (drop (i + 1) query))); apply IH; lia.
Qed.

(** A placeholder whose number does not fit 32 bits is not counted. *)
Example validate_misses_overflow :
  validate 100 #"select usename, passwd from f($1, $4294967296)" = Some (Ok tt).
Proof. vm_compute. reflexivity. Qed.

Example validate_two_parameters :
  validate 100 #"select f($1, $2)" = Some (Err #"query must contain exactly one placeholder").
Proof. vm_compute. reflexivity. Qed.

(** ** The source *)

Record AuthQuerySource := mkAuthQuerySource {
  as_config : AuthQueryConfig;
  as_cache : LookupCache;
  as_client : bool }.

Definition auth_query_new (config : AuthQueryConfig) : AuthQuerySource :=
  mkAuthQuerySource config
    (cache_with_capacity (aq_cache_ttl config) (aq_negative_ttl config) (aq_max_entries config))
    false.

Definition set_cache (c : LookupCache) (s : AuthQuerySource) : AuthQuerySource :=
  mkAuthQuerySource (as_config s) c (as_client s).

Definition set_client (b : bool) (s : AuthQuerySource) : AuthQuerySource :=
  mkAuthQuerySource (as_config s) (as_cache s) b.

(** What the driver answers during one lookup. *)
Inductive QueryOutcome :=
| QueryRow (passwd : result bytes (option bytes))
| QueryNoRow
| QueryFailed (reason : bytes).

Record DriverEnv := mkDriverEnv {
  de_now : Z;
  de_connect : result bytes unit;
  de_query : QueryOutcome }.

Definition ensure_connected (env : DriverEnv) : IO AuthQuerySource ProviderError unit :=
  s ← io_get;
  if as_client s then mret tt
  else
    io_lift (map_err Unavailable (de_connect env));;
    io_modify (set_client true).

(** The query, under the lock of the client. *)
Definition run_query (env : DriverEnv) : IO AuthQuerySource ProviderError (option bytes) :=
  s ← io_get;
  if negb (as_client s) then io_fail (Unavailable #"auth_query client unavailable")
  else match de_query env with
       | QueryRow passwd => io_lift (map_err Unavailable passwd)
       | QueryNoRow => mret None
       | QueryFailed reason =>
           io_modify (set_client false);;
           io_fail (Unavailable reason)
       end.

(** Between the two sections another lookup can lose the connection. *)
Definition query_backend (env : DriverEnv) : IO AuthQuerySource ProviderError (option bytes) :=
  ensure_connected env;;
  run_query env.

Definition preflight (env : DriverEnv) : IO AuthQuerySource ProviderError unit :=
  ensure_connected env.

Definition auth_query_forget (username : bytes) (s : AuthQuerySource) : AuthQuerySource :=
  set_cache (cache_forget username (as_cache s)) s.

(** The [Display] of a [SecretFormatError], which becomes the reason. *)
Definition secret_error_display (e : SecretFormatError) : bytes :=
  match e with
  | UnsupportedScheme => #"unrecognised secret scheme: expected `SCRAM-SHA-256$...`"
  | Md5 => #"MD5 secrets are not supported; re-hash the role with `password_encryption = scram-sha-256`"
  | Syntax => #"this secret is malformed (expected `SCRAM-SHA-256$iter:salt$stored:server`)"
  | Iterations => #"invalid iteration count"
  | IterationsTooLow => #"iteration must be at least " ++ show_uint MIN_ITERATIONS
  | Base64 field => #"invalid base64 in " ++ field
  | KeyLength field => field ++ #" must be exactly 32 bytes"
  | SaltTooShort => #"salt must be at least 8 bytes"
  end.

Section lookup.
Context {P : Primitives}.

Definition auth_query_lookup (env : DriverEnv) (username : bytes)
    : IO AuthQuerySource ProviderError (option Verifier) :=
  let now := de_now env in
  s ← io_get;
  let '(hit, cache) := cache_get username now (as_cache s) in
  io_modify (set_cache cache);;
  match hit with
  | Some cached => mret cached
  | None =>
      row ← query_backend env;
      match row with
      | Some secret =>
          verifier ← io_lift (map_err (fun e => Unavailable (secret_error_display e))
                                      (from_pg_secret secret));
          io_modify (fun s => set_cache (insert_positive username verifier now (as_cache s)) s);;
          mret (Some verifier)
      | None =>
          io_modify (fun s => set_cache (insert_negative username now (as_cache s)) s);;
          mret None
      end
  end.

(** The driver's part of a lookup that found nothing in the cache. *)
Definition backend_row (env : DriverEnv) (connected : bool) : result bytes (option bytes) :=
  if connected || is_ok (de_connect env) then
    match de_query env with
    | QueryRow passwd => passwd
    | QueryNoRow => Ok None
    | QueryFailed reason => Err reason
    end
  else match de_connect env with Err reason => Err reason | Ok _ => Ok None end.

Lemma ensure_connected_eq env s :
  ensure_connected env s =
  if as_client s || is_ok (de_connect env)
  then (Ready (Ok tt), if as_client s then s else set_client true s)
  else (Ready (map_err Unavailable (de_connect env)), s).
Proof.
  unfold ensure_connected, mbind, io_bind, io_get, io_lift, io_modify.
  by destruct (as_client s), (de_connect env) as [[]|].
Qed.

Lemma run_query_eq env s :
  as_client s = true ->
  run_query env s =
  match de_query env with
  | QueryRow passwd => (Ready (map_err Unavailable passwd), s)
  | QueryNoRow => (Ready (Ok None), s)
  | QueryFailed reason => (Ready (Err (Unavailable reason)), set_client false s)
  end.
Proof.
  intros Hc. unfold run_query, mbind, io_bind, io_get, io_lift, io_modify, io_fail. rewrite Hc.
  by destruct (de_query env).
Qed.

Lemma query_backend_eq env s :
  query_backend env s =
  (Ready (map_err Unavailable (backend_row env (as_client s))),
   match de_connect env, as_client s, de_query env with
   | Err _, false, _ => s
   | _, _, QueryFailed _ => set_client false s
   | _, _, _ => set_client true s
   end).
Proof.
  destruct s as [cfg c b]. unfold query_backend, run_query, ensure_connected, backend_row, mbind, io_bind,
    io_get, io_lift, io_modify, io_fail. destruct b, (de_connect env) as [[]|], (de_query env) as [[]| |];
    reflexivity.
Qed.

(** C37: An outage is never mistaken for a missing user.  Without a live cache
    entry, a failed connection, a failed query or a malformed secret is answered
    [Unavailable], and nothing is recorded about the user; [Ok(None)] is answered,
    and remembered, only when the database says there is no such row or no
    secret, and a verifier only when it returned a well-formed secret. *)
Theorem outage_is_not_a_missing_user env username s r s' :
  (cache_get username (de_now env) (as_cache s)).1 = None ->
  auth_query_lookup env username s = (r, s') ->
  match backend_row env (as_client s) with
  | Err reason =>
      r = Ready (Err (Unavailable reason)) /\ lc_entries (as_cache s') !! username = None
  | Ok None =>
      r = Ready (Ok None) /\
      lc_entries (as_cache s') !! username = Some (Negative (de_now env))
  | Ok (Some secret) =>
      match from_pg_secret secret with
      | Ok v => r = Ready (Ok (Some v)) /\
                lc_entries (as_cache s') !! username = Some (Positive v (de_now env))
      | Err e => r = Ready (Err (Unavailable (secret_error_display e))) /\
                 lc_entries (as_cache s') !! username = None
      end
  end.
Proof.
  intros Hmiss. unfold auth_query_lookup, mbind, io_bind, io_get, io_modify, io_lift, mret, io_ret.
  cbn beta iota.
  assert (Hgone : lc_entries (cache_get username (de_now env) (as_cache s)).2 !! username = None).
  { rewrite cache_get_entry in *. destruct (lc_entries (as_cache s) !! username) eqn:He; [|done].
    destruct (_ <=? _); [done|]. simpl. apply lookup_delete_eq. }
  destruct (cache_get username (de_now env) (as_cache s)) as [hit cache]. simpl in Hmiss, Hgone.
  subst hit. cbn beta iota. rewrite query_backend_eq.
  set (s1 := match de_connect env with Ok _ => _ | Err _ => _ end).
  assert (Hs1 : lc_entries (as_cache s1) !! username = None)
    by (unfold s1; by repeat case_match).
  cbn [as_client set_cache].
  destruct (backend_row env (as_client s)) as [[secret|]|reason]; cbn [map_err]; cbn beta iota.
  - destruct (from_pg_secret secret) as [v|e]; simpl; intros Heq; simplify_eq.
    + split; [done|]. apply lookup_insert_eq.
    + done.
  - intros [= <- <-]. split; [done|]. simpl. apply lookup_insert_eq.
  - intros [= <- <-]. done.
Qed.

End lookup.

#[local] Existing Instance toy_crypto.

(** A query that fails on a connected source. *)
Definition sample_source : AuthQuerySource :=
  auth_query_new (mkAuthQueryConfig #"127.0.0.1" 5432 #"lookup" [] #"postgres"
    #"select * from f($1)" DEFAULT_CACHE_TTL NEGATIVE_CACHE_TTL 16).

Lemma outage_is_not_a_missing_user_witness :
  auth_query_lookup (mkDriverEnv 7 (Ok tt) (QueryFailed #"broken pipe")) #"alice" sample_source
  = (Ready (Err (Unavailable #"broken pipe")), set_client false sample_source) /\
  lc_entries (as_cache (set_client false sample_source)) !! #"alice" = None.
Proof.
  assert (H : auth_query_lookup (mkDriverEnv 7 (Ok tt) (QueryFailed #"broken pipe")) #"alice"
    sample_source = (Ready (Err (Unavailable #"broken pipe")), set_client false sample_source))
    by reflexivity.
  split; [exact H|].
  exact (proj2 (outage_is_not_a_missing_user
    (mkDriverEnv 7 (Ok tt) (QueryFailed #"broken pipe")) #"alice" sample_source _ _ eq_refl H)).
Defined.
