(* ===== verification/CredentialStore.v ===== *)
(** The credential store: [auth/credentials/store.rs], its counters
    ([auth/credentials/metrics.rs]) and the configuration that builds it
    ([auth/credentials/config.rs]).

    The file system, the environment, the YAML parser and the random generator
    are parameters.  A counter is an [AtomicU64], which wraps. *)
From S2P Require Import Prelude Words RustStr Errors Crypto ToyCrypto Verifier LookupCache.
From S2P Require Import CredentialFile AuthQuery.
Local Open Scope Z_scope.

(** ** Counters *)

Inductive LookupResult := Hit | Miss | LookupUnavailable.

(** [Debug]. *)
Definition lookup_result_debug (r : LookupResult) : bytes :=
  match r with Hit => #"hit" | Miss => #"miss" | LookupUnavailable => #"unavailable" end.

Record CredentialMetrics := mkMetrics {
  m_lookup_hit : Z;
  m_lookup_miss : Z;
  m_lookup_unavailable : Z;
  m_reload_ok : Z;
  m_reload_error : Z;
  m_generation : Z }.

Definition metrics_default : CredentialMetrics := mkMetrics 0 0 0 0 0 0.

(** [fetch_add(1, ..)] and [u64 + 1]. *)
Definition u64_succ (n : Z) : Z := (n + 1) mod 2 ^ 64.

Definition record_lookup (r : LookupResult) (m : CredentialMetrics) : CredentialMetrics :=
  match r with
  | Hit => mkMetrics (u64_succ (m_lookup_hit m)) (m_lookup_miss m) (m_lookup_unavailable m)
             (m_reload_ok m) (m_reload_error m) (m_generation m)
  | Miss => mkMetrics (m_lookup_hit m) (u64_succ (m_lookup_miss m)) (m_lookup_unavailable m)
             (m_reload_ok m) (m_reload_error m) (m_generation m)
  | LookupUnavailable =>
      mkMetrics (m_lookup_hit m) (m_lookup_miss m) (u64_succ (m_lookup_unavailable m))
             (m_reload_ok m) (m_reload_error m) (m_generation m)
  end.

Definition record_reload (succeeded : bool) (m : CredentialMetrics) : CredentialMetrics :=
  if succeeded then
    mkMetrics (m_lookup_hit m) (m_lookup_miss m) (m_lookup_unavailable m)
      (u64_succ (m_reload_ok m)) (m_reload_error m) (m_generation m)
  else
    mkMetrics (m_lookup_hit m) (m_lookup_miss m) (m_lookup_unavailable m)
      (m_reload_ok m) (u64_succ (m_reload_error m)) (m_generation m).

Definition metrics_set_generation (g : Z) (m : CredentialMetrics) : CredentialMetrics :=
  mkMetrics (m_lookup_hit m) (m_lookup_miss m) (m_lookup_unavailable m)
    (m_reload_ok m) (m_reload_error m) g.

(** [gather]: the Prometheus text of the counters. *)
Definition metric_type (name kind : bytes) : bytes :=
  #"# TYPE " ++ name ++ #" " ++ kind ++ [x0a].

Definition metric_line (name label : bytes) (value : Z) : bytes :=
  name ++ #"{result=" ++ x22 :: label ++ x22 :: #"} " ++ show_uint value ++ [x0a].

Definition gather (m : CredentialMetrics) : bytes :=
  metric_type #"credentials_lookup_total" #"counter"
  ++ metric_line #"credentials_lookup_total" #"hit" (m_lookup_hit m)
  ++ metric_line #"credentials_lookup_total" #"miss" (m_lookup_miss m)
  ++ metric_line #"credentials_lookup_total" #"unavailable" (m_lookup_unavailable m)
  ++ metric_type #"credentials_reload_total" #"counter"
  ++ metric_line #"credentials_reload_total" #"ok" (m_reload_ok m)
  ++ metric_line #"credentials_reload_total" #"error" (m_reload_error m)
  ++ metric_type #"credentials_generation" #"gauge"
  ++ #"credentials_generation " ++ show_uint (m_generation m) ++ [x0a].

(** ** The store *)

Inductive Source :=
| SourceFile (path : bytes)
| SourceMemory
| SourceFailing (reason : bytes)
| SourceAuthQuery (s : AuthQuerySource).

Record CredentialStore := mkStore {
  cs_source : Source;
  cs_snapshot : Snapshot;
  cs_cluster_nonce : bytes;
  cs_last_loading_error : option ConfigError;
  cs_metrics : CredentialMetrics }.

Record ReloadReport := mkReloadReport { rr_user_count : nat; rr_previous_generation : Z }.

Definition set_source (x : Source) (s : CredentialStore) : CredentialStore :=
  mkStore x (cs_snapshot s) (cs_cluster_nonce s) (cs_last_loading_error s) (cs_metrics s).

Definition set_metrics (m : CredentialMetrics) (s : CredentialStore) : CredentialStore :=
  mkStore (cs_source s) (cs_snapshot s) (cs_cluster_nonce s) (cs_last_loading_error s) m.

Definition record_load_error (e : ConfigError) (s : CredentialStore) : CredentialStore :=
  mkStore (cs_source s) (cs_snapshot s) (cs_cluster_nonce s) (Some e) (cs_metrics s).

Definition install_snapshot (n : Snapshot) (s : CredentialStore) : CredentialStore :=
  mkStore (cs_source s) n (cs_cluster_nonce s) None (cs_metrics s).

Definition from_source (cluster_nonce : bytes) (source : Source) (snapshot : Snapshot)
    : CredentialStore :=
  let snapshot := if sn_generation snapshot =? 0 then snapshot_set_generation 1 snapshot
                  else snapshot in
  mkStore source snapshot cluster_nonce None
    (metrics_set_generation (sn_generation snapshot) metrics_default).

Definition store_failing (cluster_nonce reason : bytes) : CredentialStore :=
  from_source cluster_nonce (SourceFailing reason) (snapshot_empty 1).

Definition collect_metrics (s : CredentialStore) : bytes := gather (cs_metrics s).

Section store.
Context {P : Primitives}.
Variable random_salt : nat -> bytes.
Variable parse_users : bytes -> option (list RawUser).

(** [read_file]: [None] when the file cannot be read. *)
Definition read_file (contents : option bytes) : result ConfigError bytes :=
  ok_or contents (config_error_single #"path" #"unable to read the credentials file").

Definition from_yaml (cluster_nonce text : bytes) : result ConfigError CredentialStore :=
  snapshot ← snapshot_from_yaml random_salt parse_users text;
  Ok (from_source cluster_nonce SourceMemory snapshot).

Definition from_file (read : bytes -> option bytes) (cluster_nonce path : bytes)
    : result ConfigError CredentialStore :=
  text ← read_file (read path);
  snapshot ← snapshot_from_yaml random_salt parse_users text;
  Ok (from_source cluster_nonce (SourceFile path) snapshot).

Definition with_password (cluster_nonce user password : bytes) : CredentialStore :=
  from_source cluster_nonce SourceMemory
    (mkSnapshot 1 {[ user := derive_verifier password (random_salt 0) DEFAULT_ITERATIONS ]}).

(** The body of [lookup] before it is counted. *)
Definition lookup_source (env : DriverEnv) (username : bytes)
    : IO CredentialStore ProviderError (option Verifier) :=
  fun s =>
    match cs_source s with
    | SourceFile _ | SourceMemory => (Ready (Ok (snapshot_get (cs_snapshot s) username)), s)
    | SourceFailing reason => (Ready (Err (Unavailable reason)), s)
    | SourceAuthQuery source =>
        let '(r, source') := auth_query_lookup env username source in
        (r, set_source (SourceAuthQuery source') s)
    end.

Definition lookup_result (r : result ProviderError (option Verifier)) : LookupResult :=
  match r with
  | Ok (Some _) => Hit
  | Ok None => Miss
  | Err _ => LookupUnavailable
  end.

Definition store_lookup (env : DriverEnv) (username : bytes)
    : IO CredentialStore ProviderError (option Verifier) :=
  r ← io_try (lookup_source env username);
  io_modify (fun s => set_metrics (record_lookup (lookup_result r) (cs_metrics s)) s);;
  io_lift r.

Definition get_dummy_verifier (s : CredentialStore) (username : bytes) : Verifier :=
  verifier_dummy username (cs_cluster_nonce s).

Definition reload_file (contents : option bytes) : IO CredentialStore ConfigError ReloadReport :=
  match read_file contents with
  | Err error => io_modify (record_load_error error);; io_fail error
  | Ok text =>
      match snapshot_from_yaml random_salt parse_users text with
      | Err error => io_modify (record_load_error error);; io_fail error
      | Ok next =>
          s ← io_get;
          let previous := cs_snapshot s in
          let next := snapshot_set_generation (u64_succ (sn_generation previous)) next in
          let previous_generation := sn_generation previous in
          io_modify (install_snapshot next);;
          s ← io_get;
          mret (mkReloadReport (snapshot_len (cs_snapshot s)) previous_generation)
      end
  end.

(** [read] gives the contents the file has when it is re-read. *)
Definition store_reload (read : bytes -> option bytes)
    : IO CredentialStore ConfigError ReloadReport :=
  s ← io_get;
  r ← io_try (match cs_source s with
              | SourceFile path => reload_file (read path)
              | SourceMemory =>
                  io_fail (config_error_single #"memory" #"in-memory store cannot reload")
              | SourceFailing _ =>
                  io_fail (config_error_single #"source" #"failing store cannot reload")
              | SourceAuthQuery _ =>
                  io_fail (config_error_single #"auth_query"
                    #"auth_query store has no on-disk snapshot to reload")
              end);
  io_modify (fun s => set_metrics (record_reload (is_ok r) (cs_metrics s)) s);;
  match r with
  | Ok report =>
      io_modify (fun s => set_metrics
        (metrics_set_generation (u64_succ (rr_previous_generation report)) (cs_metrics s)) s)
  | Err _ => mret tt
  end;;
  io_lift r.

(** ** Properties *)

(** C34: A reload replaces the whole snapshot or nothing: it succeeds only for a
    file whose text parses and validates, and then the new generation is served
    and the last error cleared; otherwise the previous users keep being served,
    and a file that could not be loaded is reported. *)
Theorem reload_all_or_nothing read s r s' :
  store_reload read s = (r, s') ->
  (exists report path text next,
     r = Ready (Ok report) /\ cs_source s = SourceFile path /\ read path = Some text /\
     snapshot_from_yaml random_salt parse_users text = Ok next /\
     sn_users (cs_snapshot s') = sn_users next /\
     sn_generation (cs_snapshot s') = u64_succ (sn_generation (cs_snapshot s)) /\
     rr_previous_generation report = sn_generation (cs_snapshot s) /\
     rr_user_count report = size (sn_users next) /\
     cs_last_loading_error s' = None) \/
  (exists e, r = Ready (Err e) /\ cs_snapshot s' = cs_snapshot s /\
     cs_last_loading_error s' =
       match cs_source s with SourceFile _ => Some e | _ => cs_last_loading_error s end).
Proof.
  unfold store_reload, reload_file, mbind, io_bind, io_get, io_try, io_modify, io_lift, io_fail,
    mret, io_ret. cbn beta iota.
  destruct (cs_source s) as [path| | |] eqn:Hs; cbn beta iota;
    [|intros [= <- <-]; right; eexists; split; [done|]; split; done..].
  destruct (read path) as [text|] eqn:Hr; simpl.
  - destruct (snapshot_from_yaml random_salt parse_users text) as [next|e] eqn:Hy; simpl.
    + intros [= <- <-]. left. eexists _, path, text, next. repeat split; done.
    + intros [= <- <-]. right. eexists. split; [done|]. split; done.
  - intros [= <- <-]. right. eexists. split; [done|]. split; done.
Qed.

(** Operations on a shared store. *)
Inductive store_op :=
| StoreLookup (env : DriverEnv) (username : bytes)
| StoreReload (read : bytes -> option bytes).

(** The state an operation leaves, and whether it was a successful reload. *)
Definition store_step (op : store_op) (s : CredentialStore) : CredentialStore * bool :=
  match op with
  | StoreLookup env u => ((store_lookup env u s).2, false)
  | StoreReload read => match store_reload read s with
                        | (Ready (Ok _), s') => (s', true)
                        | (_, s') => (s', false)
                        end
  end.

Fixpoint store_run (ops : list store_op) (s : CredentialStore) : CredentialStore * nat :=
  match ops with
  | [] => (s, 0%nat)
  | op :: ops' =>
      let '(s1, reloaded) := store_step op s in
      let '(s2, n) := store_run ops' s1 in
      (s2, ((if reloaded then 1 else 0) + n)%nat)
  end.

Definition is_lookup (op : store_op) : bool :=
  match op with StoreLookup _ _ => true | StoreReload _ => false end.

Definition count_lookups (ops : list store_op) : nat := length (List.filter is_lookup ops).

Definition lookups_total (m : CredentialMetrics) : Z :=
  (m_lookup_hit m + m_lookup_miss m + m_lookup_unavailable m) mod 2 ^ 64.

Definition reloads_total (m : CredentialMetrics) : Z :=
  (m_reload_ok m + m_reload_error m) mod 2 ^ 64.

Lemma add_mod_2_64 a b : ((a mod 2 ^ 64) + b) mod 2 ^ 64 = (a + b) mod 2 ^ 64.
Proof. apply Zplus_mod_idemp_l. Qed.

Lemma lookups_total_record r m :
  lookups_total (record_lookup r m) = (lookups_total m + 1) mod 2 ^ 64.
Proof.
  unfold lookups_total, u64_succ. rewrite add_mod_2_64.
  destruct r; simpl; unfold u64_succ; rewrite <- ?Z.add_assoc.
  - rewrite add_mod_2_64. f_equal. lia.
  - rewrite Z.add_comm, <- Z.add_assoc, add_mod_2_64. f_equal. lia.
  - rewrite (Z.add_comm (m_lookup_hit m)), (Z.add_comm (m_lookup_miss m)), <- !Z.add_assoc,
      add_mod_2_64. f_equal. lia.
Qed.

(** Generation gauge and snapshot agree, and the counters count. *)
Definition store_counts (g0 lookups reloads : Z) (s : CredentialStore) : Prop :=
  m_generation (cs_metrics s) = sn_generation (cs_snapshot s) /\
  sn_generation (cs_snapshot s) = (g0 + reloads) mod 2 ^ 64 /\
  lookups_total (cs_metrics s) = lookups mod 2 ^ 64 /\
  m_reload_ok (cs_metrics s) = reloads mod 2 ^ 64.

(** The path a store reloads from. *)
Definition source_path (s : CredentialStore) : option bytes :=
  match cs_source s with SourceFile path => Some path | _ => None end.

(** A lookup touches the lookup counters and the cache of a query source. *)
Lemma store_lookup_keeps env u s :
  let s' := (store_lookup env u s).2 in
  cs_snapshot s' = cs_snapshot s /\ source_path s' = source_path s /\
  exists r, cs_metrics s' = record_lookup r (cs_metrics s).
Proof.
  assert (Hsrc : cs_snapshot (lookup_source env u s).2 = cs_snapshot s /\
            source_path (lookup_source env u s).2 = source_path s /\
            cs_metrics (lookup_source env u s).2 = cs_metrics s /\
            exists r, (lookup_source env u s).1 = Ready r).
  { unfold source_path, lookup_source.
    destruct (cs_source s) as [| | |src] eqn:Hsrc; simpl; rewrite ?Hsrc; eauto.
    unfold auth_query_lookup, mbind, io_bind, io_get, io_modify, io_lift, mret, io_ret.
    cbn beta iota. destruct (cache_get u (de_now env) (as_cache src)) as [[cached|] cache];
      simpl; eauto.
    rewrite query_backend_eq. cbn beta iota.
    destruct (backend_row env _) as [[secret|]|]; cbn [map_err]; cbn beta iota; simpl; eauto.
    destruct (from_pg_secret secret); simpl; eauto. }
  unfold store_lookup, mbind, io_bind, io_try, io_modify, io_lift.
  destruct (lookup_source env u s) as [p s1]. destruct Hsrc as (Hs & Hp & Hm & r & Hr).
  simpl in *. subst p. cbn beta iota zeta. split; [done|]. split; [done|].
  exists (lookup_result r). simpl. by rewrite Hm.
Qed.

Lemma store_lookup_counts g0 n k env u s :
  store_counts g0 n k s -> store_counts g0 (n + 1) k (store_lookup env u s).2.
Proof.
  intros (H1 & H2 & H3 & H4). destruct (store_lookup_keeps env u s) as (Hs & _ & r & Hm).
  unfold store_counts. rewrite Hm, Hs, lookups_total_record, H3, add_mod_2_64.
  repeat split; [|done|]; destruct r; done.
Qed.

Lemma store_reload_counts g0 n k read s :
  store_counts g0 n k s ->
  store_counts g0 n (k + (if (store_step (StoreReload read) s).2 then 1 else 0))
    (store_step (StoreReload read) s).1.
Proof.
  intros (H1 & H2 & H3 & H4). simpl.
  unfold store_reload, reload_file, mbind, io_bind, io_get, io_try, io_modify, io_lift, io_fail,
    mret, io_ret. cbn beta iota.
  destruct (cs_source s) as [path| | |] eqn:Hs; cbn beta iota.
  2-4: rewrite Z.add_0_r; done.
  destruct (read path) as [text|]; simpl; [|rewrite Z.add_0_r; done].
  destruct (snapshot_from_yaml random_salt parse_users text) as [next|e]; simpl;
    [|rewrite Z.add_0_r; done].
  unfold store_counts, u64_succ. simpl. rewrite H2, H4. rewrite !add_mod_2_64.
  repeat split; [f_equal; lia|exact H3].
Qed.

Lemma store_run_counts ops s g0 n k :
  store_counts g0 n k s ->
  store_counts g0 (n + Z.of_nat (count_lookups ops)) (k + Z.of_nat (store_run ops s).2)
    (store_run ops s).1.
Proof.
  revert s n k. induction ops as [|op ops IH]; intros s n k H; simpl.
  - by rewrite !Z.add_0_r.
  - destruct op as [env u|read].
    + apply (store_lookup_counts _ _ _ env u) in H. apply IH in H. simpl in *.
      destruct (store_run ops (store_lookup env u s).2) as [s2 m]. simpl in *.
      unfold count_lookups in *. simpl. rewrite Nat2Z.inj_succ. 
      replace (n + Z.succ (Z.of_nat (length (List.filter is_lookup ops))))
        with (n + 1 + Z.of_nat (length (List.filter is_lookup ops))) by lia. done.
    + apply (store_reload_counts _ _ _ read) in H. apply IH in H.
      change (count_lookups (StoreReload read :: ops)) with (count_lookups ops).
      cbn [store_step] in *.
      destruct (store_reload read s) as [[[|]| |] s1]; cbn [fst snd] in *;
        destruct (store_run ops s1) as [s2 m]; cbn [fst snd] in *;
        rewrite ?Nat2Z.inj_add, ?Z.add_assoc; simpl; done.
Qed.

(** The counters of a store are exact up to the width of a [u64]: after any
    sequence of lookups and reloads the generation served, and the gauge that
    shows it, are the first generation advanced once per successful reload, and
    the three lookup counters add up to the number of lookups. *)
Theorem store_counters_exact nonce source snapshot ops :
  0 <= sn_generation snapshot < 2 ^ 64 ->
  let s0 := from_source nonce source snapshot in
  let '(s, reloads) := store_run ops s0 in
  m_generation (cs_metrics s) = sn_generation (cs_snapshot s) /\
  sn_generation (cs_snapshot s) =
    (sn_generation (cs_snapshot s0) + Z.of_nat reloads) mod 2 ^ 64 /\
  lookups_total (cs_metrics s) = Z.of_nat (count_lookups ops) mod 2 ^ 64 /\
  m_reload_ok (cs_metrics s) = Z.of_nat reloads mod 2 ^ 64.
Proof.
  intros Hg s0.
  assert (H0 : store_counts (sn_generation (cs_snapshot s0)) 0 0 s0).
  { unfold store_counts, s0, from_source. simpl. rewrite Z.add_0_r.
    destruct (Z.eqb_spec (sn_generation snapshot) 0); simpl; repeat split;
      by rewrite ?Z.mod_small by lia. }
  pose proof (store_run_counts ops s0 _ 0 0 H0) as H.
  destruct (store_run ops s0) as [s reloads]. exact H.
Qed.

End store.

#[local] Existing Instance toy_crypto.

(** A store of two users whose file becomes unreadable. *)
Definition sample_store : CredentialStore :=
  from_source #"nonce" (SourceFile #"users.yaml") sample_snapshot.

Definition idle_driver : DriverEnv := mkDriverEnv 0 (Ok tt) QueryNoRow.

Lemma reload_all_or_nothing_witness :
  cs_snapshot (store_reload sample_salt sample_parse (fun _ => None) sample_store).2
  = cs_snapshot sample_store.
Proof.
  destruct (reload_all_or_nothing sample_salt sample_parse (fun _ => None) sample_store _ _
    (surjective_pairing _)) as [(rep & path & text & next & _ & _ & H & _)|(e & _ & H & _)];
    [discriminate H|exact H].
Defined.

Lemma store_counters_exact_witness :
  let '(s, reloads) := store_run sample_salt sample_parse
    [StoreLookup idle_driver #"alice"; StoreReload (fun _ => Some #"users");
     StoreLookup idle_driver #"carol"; StoreReload (fun _ => None)] sample_store in
  m_generation (cs_metrics s) = sn_generation (cs_snapshot s) /\
  sn_generation (cs_snapshot s) =
    (sn_generation (cs_snapshot sample_store) + Z.of_nat reloads) mod 2 ^ 64 /\
  lookups_total (cs_metrics s) = 2 mod 2 ^ 64 /\
  m_reload_ok (cs_metrics s) = Z.of_nat reloads mod 2 ^ 64.
Proof.
  apply (store_counters_exact sample_salt sample_parse #"nonce" (SourceFile #"users.yaml")
    sample_snapshot).
  unfold sample_snapshot.
  destruct (snapshot_from_yaml _ _ _) as [s|] eqn:E; [|split; simpl; lia].
  unfold snapshot_from_yaml in E. simpl in E.
  destruct (bag_into_result _); [|done]. injection E as <-. split; simpl; lia.
Defined.
