(* ===== verification/LookupTasks.v ===== *)
(** Lookups of one [auth_query] source that overlap: [AuthQuerySource::lookup] of
    [auth/credentials/auth_query.rs], broken up at its locks.

    The sessions of the proxy share one source.  A lookup reads the clock, looks
    into the cache under the cache's mutex, connects and queries under the
    client's, and records the outcome under the cache's again; between these
    sections other lookups, a [forget] and changes of the database may come. *)
From S2P Require Import Prelude Words RustStr Errors Crypto ToyCrypto Verifier LookupCache.
From S2P Require Import AuthQuery.
Local Open Scope Z_scope.

(** Where a lookup is, with its local variables. *)
Inductive LookupTask :=
| LtStart
| LtNow (now : Z)
| LtMissed (now : Z)
| LtConnected (now : Z)
| LtRow (now : Z) (row : option bytes)
| LtDone (now : Z) (r : result ProviderError (option Verifier)).

Section lookup.
Context {P : Primitives}.

(** The next section of a lookup. *)
Definition lookup_step (env : DriverEnv) (username : bytes) (t : LookupTask)
    (s : AuthQuerySource) : LookupTask * AuthQuerySource :=
  match t with
  | LtStart => (LtNow (de_now env), s)
  | LtNow now =>
      let '(hit, cache) := cache_get username now (as_cache s) in
      (match hit with Some cached => LtDone now (Ok cached) | None => LtMissed now end,
       set_cache cache s)
  | LtMissed now =>
      match ensure_connected env s with
      | (Ready (Ok _), s) => (LtConnected now, s)
      | (Ready (Err e), s) => (LtDone now (Err e), s)
      | (_, s) => (LtMissed now, s)
      end
  | LtConnected now =>
      match run_query env s with
      | (Ready (Ok row), s) => (LtRow now row, s)
      | (Ready (Err e), s) => (LtDone now (Err e), s)
      | (_, s) => (LtConnected now, s)
      end
  | LtRow now (Some secret) =>
      match from_pg_secret secret with
      | Ok v => (LtDone now (Ok (Some v)), set_cache (insert_positive username v now (as_cache s)) s)
      | Err e => (LtDone now (Err (Unavailable (secret_error_display e))), s)
      end
  | LtRow now None => (LtDone now (Ok None), set_cache (insert_negative username now (as_cache s)) s)
  | LtDone now r => (LtDone now r, s)
  end.

(** A lookup that runs by itself, with one answer of the driver. *)
Fixpoint lookup_run (n : nat) (env : DriverEnv) (username : bytes) (t : LookupTask)
    (s : AuthQuerySource) : LookupTask * AuthQuerySource :=
  match n with
  | O => (t, s)
  | S n => let '(t, s) := lookup_step env username t s in lookup_run n env username t s
  end.

Lemma lookup_run_done n env u now r s :
  lookup_run n env u (LtDone now r) s = (LtDone now r, s).
Proof. induction n; [done|apply IHn]. Qed.

(** A lookup that nothing interrupts is the atomic lookup: it ends within five
    sections, with the answer of [auth_query_lookup] and the source it leaves. *)
Theorem lone_lookup_is_atomic env username s :
  exists r s', auth_query_lookup env username s = (Ready r, s') /\
    lookup_run 5 env username LtStart s = (LtDone (de_now env) r, s').
Proof.
  unfold auth_query_lookup, query_backend, mbind, io_bind, io_get, io_modify.
  change (lookup_run 5 env username LtStart s) with
    (lookup_run 4 env username (LtNow (de_now env)) s).
  cbn [lookup_run lookup_step].
  destruct (cache_get username (de_now env) (as_cache s)) as [[cached|] cache]; cbn beta iota;
    [by eexists _, _|].
  generalize (set_cache cache s). clear s. intros s.
  unfold query_backend, mbind, io_bind. cbn [lookup_step]. rewrite !ensure_connected_eq.
  set (s1 := if as_client s then s else set_client true s).
  destruct (as_client s || is_ok (de_connect env)) eqn:Hc; cbn beta iota.
  2: { destruct (as_client s), (de_connect env) as [[]|m]; try done. by eexists _, _. }
  cbn [lookup_step]. rewrite run_query_eq by (unfold s1; destruct s as [? ? []]; done).
  destruct (de_query env) as [[[secret|]|m]| |m]; cbn [map_err]; cbn beta iota; try by eexists _, _.
  cbn [lookup_step]. unfold io_lift. by destruct (from_pg_secret secret); eexists _, _.
Qed.

(** ** Overlapping lookups *)

(** The database, as a function of time: what the query would return for a user. *)
Variable database : Z -> bytes -> option (option bytes).

Definition db_outcome (now : Z) (username : bytes) : QueryOutcome :=
  match database now username with
  | Some passwd => QueryRow (Ok passwd)
  | None => QueryNoRow
  end.

(** The driver at an instant: the query fails, the row does not convert, or the
    answer is the database's. *)
Definition driver_at (now : Z) (username : bytes) (env : DriverEnv) : Prop :=
  de_now env = now /\
  (de_query env = db_outcome now username \/
   (exists reason, de_query env = QueryFailed reason) \/
   (exists reason, de_query env = QueryRow (Err reason))).

Record LookupSystem := mkLookupSystem {
  ls_time : Z;
  ls_source : AuthQuerySource;
  ls_tasks : list (bytes * LookupTask) }.

Inductive lookup_sys_step : LookupSystem -> LookupSystem -> Prop :=
| lookup_tick now s ts later :
    now <= later -> lookup_sys_step (mkLookupSystem now s ts) (mkLookupSystem later s ts)
| lookup_spawn now s ts username :
    lookup_sys_step (mkLookupSystem now s ts) (mkLookupSystem now s (ts ++ [(username, LtStart)]))
| lookup_forget now s ts username :
    lookup_sys_step (mkLookupSystem now s ts) (mkLookupSystem now (auth_query_forget username s) ts)
| lookup_preflight now s ts env :
    lookup_sys_step (mkLookupSystem now s ts) (mkLookupSystem now (preflight env s).2 ts)
| lookup_task now s ts env i username t t' s' :
    ts !! i = Some (username, t) -> driver_at now username env ->
    lookup_step env username t s = (t', s') ->
    lookup_sys_step (mkLookupSystem now s ts) (mkLookupSystem now s' (<[i := (username, t')]> ts)).

(** *** The invariant *)

(** At [now] the database's answer about a user is [r]. *)
Definition told (now : Z) (username : bytes) (r : option Verifier) : Prop :=
  match mjoin (database now username) with
  | Some secret => exists v, from_pg_secret secret = Ok v /\ r = Some v
  | None => r = None
  end.

(** ... at some time between two instants. *)
Definition told_between (t0 t1 : Z) (username : bytes) (r : option Verifier) : Prop :=
  exists t, t0 <= t <= t1 /\ told t username r.

(** The parameters of a cache, which its operations leave alone: the two times to
    live and the bound. *)
Definition cache_params (c : LookupCache) : Z * Z * nat :=
  (lc_positive_ttl c, lc_negative_ttl c, lc_max_entries c).

Definition answer_ttl (params : Z * Z * nat) (r : option Verifier) : Z :=
  match r with Some _ => params.1.1 | None => params.1.2 end.

Definition entries_fresh (now : Z) (m : gmap bytes Entry) : Prop :=
  map_Forall (fun u e => told_between (entry_time e) now u (entry_answer e)) m.

Definition task_fresh (params : Z * Z * nat) (now : Z) (x : bytes * LookupTask) : Prop :=
  match x.2 with
  | LtStart | LtDone _ (Err _) => True
  | LtNow t0 | LtMissed t0 | LtConnected t0 => t0 <= now
  | LtRow t0 row => exists t, t0 <= t <= now /\ mjoin (database t x.1) = row
  | LtDone t0 (Ok r) => told_between (t0 - answer_ttl params r) now x.1 r
  end.

Record cache_ok (params : Z * Z * nat) (now : Z) (c : LookupCache) : Prop := {
  co_params : cache_params c = params;
  co_size : (size (lc_entries c) <= params.2)%nat;
  co_fresh : entries_fresh now (lc_entries c) }.

Record lookup_inv (params : Z * Z * nat) (y : LookupSystem) : Prop := {
  lk_cache : cache_ok params (ls_time y) (as_cache (ls_source y));
  lk_tasks : Forall (task_fresh params (ls_time y)) (ls_tasks y) }.

Lemma told_between_mono t0 t1 t0' t1' u r :
  t0' <= t0 -> t1 <= t1' -> told_between t0 t1 u r -> told_between t0' t1' u r.
Proof. intros H0 H1 (t & Ht & H). exists t. split; [lia|done]. Qed.

Lemma cache_ok_later params now later c :
  now <= later -> cache_ok params now c -> cache_ok params later c.
Proof.
  intros Hl [Hp Hs Hf]. split; try done. intros u e He.
  eapply told_between_mono; [reflexivity|exact Hl|]. by apply (Hf u).
Qed.

Lemma task_fresh_later params now later x :
  now <= later -> task_fresh params now x -> task_fresh params later x.
Proof.
  intros Hl. unfold task_fresh. destruct x.2 as [|t0|t0|t0|t0 row|t0 [r|e]]; try done; try lia.
  - intros (t & Ht & H). exists t. split; [lia|done].
  - by apply told_between_mono.
Qed.

(** Removing entries. *)
Lemma cache_ok_subset params now c m :
  m ⊆ lc_entries c -> cache_ok params now c -> cache_ok params now (set_entries m c).
Proof.
  intros Hm [Hp Hs Hf]. split; [done| |].
  - simpl. pose proof (map_subseteq_size _ _ Hm). lia.
  - intros u e He. apply (Hf u). by eapply lookup_weaken.
Qed.

Lemma cache_ok_get params now u t0 c :
  cache_ok params now c -> cache_ok params now (cache_get u t0 c).2.
Proof.
  intros Hc. rewrite cache_get_entry. destruct (lc_entries c !! u); [|done].
  destruct (_ <=? _); [done|]. apply cache_ok_subset; [apply delete_subseteq|done].
Qed.

Lemma cache_ok_insert params now u e t0 c :
  (1 <= params.2)%nat -> told_between (entry_time e) now u (entry_answer e) ->
  cache_ok params now c -> cache_ok params now (cache_insert u e t0 c).
Proof.
  intros Hn He [Hp Hs Hf]. destruct (evict_params t0 c) as (H1 & H2 & H3). subst params.
  split; unfold cache_insert; simpl in *.
  - unfold cache_params. simpl. congruence.
  - pose proof (size_insert_le (lc_entries (evict_if_needed t0 c)) u e).
    pose proof (evict_room t0 c Hn). lia.
  - apply map_Forall_insert_2; [exact He|]. intros v x Hx. apply (Hf v).
    eapply lookup_weaken; [exact Hx|apply evict_subset].
Qed.

Lemma ensure_connected_cache env s : as_cache (ensure_connected env s).2 = as_cache s.
Proof. rewrite ensure_connected_eq. by destruct (as_client s), (is_ok _). Qed.

Lemma run_query_cache env s : as_cache (run_query env s).2 = as_cache s.
Proof.
  unfold run_query, mbind, io_bind, io_get, io_lift, io_modify, io_fail.
  by destruct (as_client s), (de_query env).
Qed.

(** A row is the database's answer. *)
Lemma run_query_row now u env s row s' :
  driver_at now u env -> run_query env s = (Ready (Ok row), s') -> mjoin (database now u) = row.
Proof.
  intros [_ Hd] Hq. destruct (as_client s) eqn:Hc.
  2: { unfold run_query, mbind, io_bind, io_get, io_fail, io_lift in Hq. by rewrite Hc in Hq. }
  rewrite (run_query_eq _ _ Hc) in Hq. unfold db_outcome in Hd.
  destruct Hd as [Hd|[[m Hd]|[m Hd]]]; rewrite Hd in Hq; [|done|done].
  destruct (database now u); simpl in Hq; by injection Hq as <- <-.
Qed.

(** A live entry is not older than its time to live. *)
Lemma cache_get_fresh params now u t0 c r :
  cache_ok params now c -> (cache_get u t0 c).1 = Some r ->
  told_between (t0 - answer_ttl params r) now u r.
Proof.
  intros [<- Hs Hf]. rewrite cache_get_entry. destruct (lc_entries c !! u) as [e|] eqn:He; [|done].
  destruct (Z.leb_spec (saturating_duration_since t0 (entry_time e)) (entry_ttl c e)) as [Hl|]; [|done].
  intros [= <-]. eapply told_between_mono; [|reflexivity|by apply (Hf u)].
  unfold saturating_duration_since in Hl. destruct e; simpl in *; lia.
Qed.

Lemma lookup_step_fresh params now env u t s t' s' :
  (1 <= params.2)%nat -> 0 <= params.1.1 -> 0 <= params.1.2 ->
  driver_at now u env -> lookup_step env u t s = (t', s') ->
  cache_ok params now (as_cache s) -> task_fresh params now (u, t) ->
  cache_ok params now (as_cache s') /\ task_fresh params now (u, t').
Proof.
  intros Hn Hpt Hnt Hd Hstep Hc Ht. unfold task_fresh in *. cbn [fst snd] in *.
  destruct t as [|t0|t0|t0|t0 [secret|]|t0 r]; simpl in Hstep.
  - injection Hstep as <- <-. split; [done|]. by destruct Hd as [-> _].
  - pose proof (cache_ok_get params now u t0 _ Hc) as Hc'.
    pose proof (fun r => cache_get_fresh params now u t0 _ r Hc) as Hr.
    destruct (cache_get u t0 (as_cache s)) as [[r|] c]; injection Hstep as <- <-; (split; [done|]);
      [by apply Hr|done].
  - pose proof (ensure_connected_cache env s) as He.
    destruct (ensure_connected env s) as [[[[]|e]| |cr] s1]; injection Hstep as <- <-;
      simpl in He; by rewrite He.
  - pose proof (run_query_cache env s) as He. pose proof (run_query_row now u env s) as Hr.
    destruct (run_query env s) as [[[row|e]| |cr] s1]; injection Hstep as <- <-; simpl in He;
      rewrite He; (split; [done|]); try done.
    exists now. split; [lia|]. by eapply Hr.
  - destruct Ht as (t & Htt & Hrow). destruct (from_pg_secret secret) as [v|e] eqn:Hv;
      injection Hstep as <- <-; [|by split].
    assert (Htold : told t u (Some v)) by (unfold told; rewrite Hrow; eauto).
    split; [apply cache_ok_insert; [done| |done]|]; exists t; (split; [simpl; lia|done]).
  - destruct Ht as (t & Htt & Hrow). injection Hstep as <- <-.
    assert (Htold : told t u None) by (unfold told; by rewrite Hrow).
    split; [apply cache_ok_insert; [done| |done]|]; exists t; (split; [simpl; lia|done]).
  - by injection Hstep as <- <-.
Qed.

Lemma lookup_sys_step_inv params y y' :
  (1 <= params.2)%nat -> 0 <= params.1.1 -> 0 <= params.1.2 ->
  lookup_inv params y -> lookup_sys_step y y' -> lookup_inv params y'.
Proof.
  intros Hn Hpt Hnt [Hc Ht] Hstep.
  destruct Hstep as [now s ts later Hl|now s ts u|now s ts u|now s ts env
                    |now s ts env i u t t' s' Hi Hd Hstep]; simpl in *.
  - split; simpl; [by eapply cache_ok_later|]. eapply Forall_impl; [exact Ht|].
    intros x. by apply task_fresh_later.
  - split; simpl; [done|]. apply Forall_app. split; [done|]. by constructor.
  - split; simpl; [|done]. apply cache_ok_subset; [apply delete_subseteq|done].
  - split; simpl; [|done]. unfold preflight. by rewrite ensure_connected_cache.
  - pose proof (proj1 (Forall_lookup _ _) Ht i _ Hi) as Hx.
    destruct (lookup_step_fresh params now env u t s t' s') as [Hc' Hx']; try done.
    split; simpl; [done|]. by apply Forall_insert.
Qed.

Lemma lookup_run_inv params y y' :
  0 <= params.1.1 -> 0 <= params.1.2 -> (1 <= params.2)%nat ->
  rtc lookup_sys_step y y' -> lookup_inv params y -> lookup_inv params y'.
Proof.
  intros Hp Hn Hm. induction 1 as [|y y1 y' Hs _ IH]; intros Hy; [done|].
  apply IH. by eapply lookup_sys_step_inv.
Qed.

Definition lookup_reachable (config : AuthQueryConfig) (now : Z) : LookupSystem -> Prop :=
  rtc lookup_sys_step (mkLookupSystem now (auth_query_new config) []).

(** C33: Whatever lookups, [forget]s and changes of the database overlap, an answer
    is never older than its time to live: a verifier, or the absence of a user, is
    what the database itself would have answered at some instant between one time
    to live before the lookup began and the present; so an [ALTER ROLE] is in
    force for every login at the latest one time to live later.  And the cache
    stays within its bound. *)
Theorem overlapping_lookups_are_fresh config start y :
  0 <= aq_cache_ttl config -> 0 <= aq_negative_ttl config -> lookup_reachable config start y ->
  (size (lc_entries (as_cache (ls_source y))) <= Nat.max (aq_max_entries config) 1)%nat /\
  forall i u began r, ls_tasks y !! i = Some (u, LtDone began (Ok r)) ->
    exists t, told t u r /\ t <= ls_time y /\
      began - match r with Some _ => aq_cache_ttl config | None => aq_negative_ttl config end <= t.
Proof.
  intros Hp Hn Hr.
  set (params := (aq_cache_ttl config, aq_negative_ttl config, Nat.max (aq_max_entries config) 1)).
  assert (Hinv : lookup_inv params y).
  { eapply lookup_run_inv; [done..|simpl; lia|exact Hr|]. split; simpl; [|done].
    split; simpl; [done|rewrite map_size_empty; lia|apply map_Forall_empty]. }
  destruct Hinv as [[_ Hs _] Ht]. split; [done|]. intros i u began r Hi.
  destruct (proj1 (Forall_lookup _ _) Ht i _ Hi) as (t & Htt & Htold). exists t.
  split; [done|]. destruct r; simpl in Htt; lia.
Qed.

(** ** A [forget] that does not last *)

Lemma lookup_run_steps n now s ts env i u t t' s' :
  ts !! i = Some (u, t) -> driver_at now u env -> lookup_run n env u t s = (t', s') ->
  rtc lookup_sys_step (mkLookupSystem now s ts) (mkLookupSystem now s' (<[i := (u, t')]> ts)).
Proof.
  intros Hi Hd. revert t s ts Hi. induction n as [|n IH]; intros t s ts Hi Hrun; simpl in Hrun.
  - injection Hrun as <- <-. by rewrite list_insert_id.
  - destruct (lookup_step env u t s) as [t1 s1] eqn:Hs. eapply rtc_l; [by eapply lookup_task|].
    rewrite <- (list_insert_insert_eq ts i (u, t') (u, t1)). apply (IH t1); [|done].
    apply list_lookup_insert_eq. by eapply lookup_lt_Some.
Qed.

(** A lookup that read the database before a change records what it read after
    the [forget] that the change called for: a lookup begun after the [forget]
    is answered with the verifier of the old secret. *)
Theorem forget_can_be_undone config u before after old v :
  before <= after -> after - before <= aq_cache_ttl config ->
  database before u = Some (Some old) -> from_pg_secret old = Ok v ->
  exists s ts y i,
    lookup_reachable config before (mkLookupSystem after s ts) /\
    rtc lookup_sys_step (mkLookupSystem after (auth_query_forget u s) ts) y /\
    ts !! i = None /\ ls_tasks y !! i = Some (u, LtDone after (Ok (Some v))).
Proof.
  intros Hle Httl Hold Hv. set (s0 := auth_query_new config).
  set (env now := mkDriverEnv now (Ok tt) (db_outcome now u)).
  assert (Henv : forall now, driver_at now u (env now)) by (intros now; split; [done|by left]).
  set (s1 := set_client true s0). set (ts := [(u, LtRow before (Some old))]).
  set (s2 := set_cache (insert_positive u v before (as_cache (auth_query_forget u s1))) s1).
  set (s3 := set_cache (cache_get u after (as_cache s2)).2 s2).
  exists s1, ts, (mkLookupSystem after s3
    [(u, LtDone before (Ok (Some v))); (u, LtDone after (Ok (Some v)))]), 1%nat. split; [|split; [|split; [done|]]].
  - eapply rtc_l; [apply (lookup_spawn _ _ _ u)|]. eapply rtc_r; [|by apply lookup_tick].
    apply (lookup_run_steps 4 before s0 [(u, LtStart)] (env before) 0 u LtStart
      (LtRow before (Some old)) s1); [done..|].
    cbn [lookup_run lookup_step env de_now]. rewrite cache_get_entry. simpl. rewrite lookup_empty.
    simpl. rewrite run_query_eq by done. simpl. unfold db_outcome. by rewrite Hold.
  - etrans; [apply (lookup_run_steps 1 after _ ts (env after) 0 u (LtRow before (Some old))); try done|].
    { simpl. by rewrite Hv. }
    eapply rtc_l; [apply (lookup_spawn _ _ _ u)|].
    apply (lookup_run_steps 2 after s2 [(u, LtDone before (Ok (Some v))); (u, LtStart)]
      (env after) 1 u LtStart (LtDone after (Ok (Some v))) s3); [done..|].
    pose proof (cache_insert_then_get u (Positive v before) before after
      (as_cache (auth_query_forget u s1)) eq_refl Hle Httl) as Hget.
    change (cache_insert u _ _ _) with (as_cache s2) in Hget.
    cbn [lookup_run lookup_step env de_now]. unfold s3.
    destruct (cache_get u after (as_cache s2)) as [hit c]. simpl in Hget. by subst hit.
  - done.
Qed.

End lookup.

(** ** Witnesses *)

#[local] Existing Instance toy_crypto.

(** A role whose password is removed at 5. *)
Definition altered_role (now : Z) (username : bytes) : option (option bytes) :=
  Some (if now <? 5 then Some (to_pg_secret sample_verifier) else None).

Definition read_back : Verifier :=
  mkVerifier 4096 #"saltsalt" (v_stored_key sample_verifier) (v_server_key sample_verifier) None false.

Lemma forget_can_be_undone_witness :
  exists s ts y i,
    lookup_reachable altered_role (as_config sample_source) 3 (mkLookupSystem 7 s ts) /\
    rtc (lookup_sys_step altered_role) (mkLookupSystem 7 (auth_query_forget #"alice" s) ts) y /\
    ts !! i = None /\ ls_tasks y !! i = Some ( #"alice", LtDone 7 (Ok (Some read_back))).
Proof.
  apply (forget_can_be_undone altered_role _ #"alice" 3 7 (to_pg_secret sample_verifier));
    vm_compute; congruence.
Defined.

(** The stale answer of that run is still one of the last minute. *)
Lemma overlapping_lookups_are_fresh_witness :
  exists y i t,
    ls_tasks y !! i = Some ( #"alice", LtDone 7 (Ok (Some read_back))) /\
    told altered_role t #"alice" (Some read_back) /\ 7 - DEFAULT_CACHE_TTL <= t.
Proof.
  destruct forget_can_be_undone_witness as (s & ts & y & i & H1 & H2 & Hn & Hi).
  assert (Hr : lookup_reachable altered_role (as_config sample_source) 3 y).
  { unfold lookup_reachable. etransitivity; [exact H1|]. eapply rtc_l; [apply lookup_forget|exact H2]. }
  destruct (overlapping_lookups_are_fresh altered_role (as_config sample_source) 3 y
    ltac:(vm_compute; congruence) ltac:(vm_compute; congruence) Hr) as [_ H].
  destruct (H i _ _ _ Hi) as (t & Ht & _ & Hle). exists y, i, t. split; [exact Hi|].
  split; [exact Ht|exact Hle].
Defined.
