(* ===== verification/StoreReload.v ===== *)
(** Reloads of a credential store that overlap: [reload_inner] and [reload_file]
    of [auth/credentials/store.rs], broken up at every access to what the clones
    of a store share: the file, the [ArcSwap] with the snapshot, the mutex with
    the last error and the atomic counters.

    A reload started by SIGHUP or the API is a task; tasks, lookups and writes
    to the file take turns in any order. *)
From S2P Require Import Prelude Words RustStr Errors Crypto ToyCrypto Verifier LookupCache.
From S2P Require Import CredentialFile AuthQuery CredentialStore.
Local Open Scope Z_scope.

(** Where a reload is.  The constructors carry its local variables. *)
Inductive ReloadTask :=
| RtStart
| RtError (error : ConfigError)
| RtParsed (next : Snapshot)
| RtLoaded (next : Snapshot) (previous_generation : Z)
| RtStored (previous_generation : Z)
| RtCleared (previous_generation : Z)
| RtResult (r : result ConfigError ReloadReport)
| RtCounted (r : result ConfigError ReloadReport)
| RtDone (r : result ConfigError ReloadReport).

Definition set_snapshot (n : Snapshot) (s : CredentialStore) : CredentialStore :=
  mkStore (cs_source s) n (cs_cluster_nonce s) (cs_last_loading_error s) (cs_metrics s).

Definition clear_load_error (s : CredentialStore) : CredentialStore :=
  mkStore (cs_source s) (cs_snapshot s) (cs_cluster_nonce s) None (cs_metrics s).

Section reload.
Context {P : Primitives}.
Variable parse_users : bytes -> option (list RawUser).

(** Reading the file and parsing it touch nothing that is shared in memory. *)
Definition reload_read (random_salt : nat -> bytes) (disk : bytes -> option bytes)
    (source : Source) : ReloadTask :=
  match source with
  | SourceFile path =>
      match (text ← read_file (disk path); snapshot_from_yaml random_salt parse_users text) with
      | Ok next => RtParsed next
      | Err error => RtError error
      end
  | SourceMemory =>
      RtResult (Err (config_error_single #"memory" #"in-memory store cannot reload"))
  | SourceFailing _ =>
      RtResult (Err (config_error_single #"source" #"failing store cannot reload"))
  | SourceAuthQuery _ =>
      RtResult (Err (config_error_single #"auth_query"
        #"auth_query store has no on-disk snapshot to reload"))
  end.

(** The next access of a reload to the shared store. *)
Definition task_step (random_salt : nat -> bytes) (disk : bytes -> option bytes)
    (t : ReloadTask) (s : CredentialStore) : ReloadTask * CredentialStore :=
  match t with
  | RtStart => (reload_read random_salt disk (cs_source s), s)
  | RtError error => (RtResult (Err error), record_load_error error s)
  | RtParsed next =>
      let previous := cs_snapshot s in
      (RtLoaded (snapshot_set_generation (u64_succ (sn_generation previous)) next)
         (sn_generation previous), s)
  | RtLoaded next g => (RtStored g, set_snapshot next s)
  | RtStored g => (RtCleared g, clear_load_error s)
  | RtCleared g => (RtResult (Ok (mkReloadReport (snapshot_len (cs_snapshot s)) g)), s)
  | RtResult r => (RtCounted r, set_metrics (record_reload (is_ok r) (cs_metrics s)) s)
  | RtCounted (Ok report) =>
      (RtDone (Ok report),
       set_metrics (metrics_set_generation (u64_succ (rr_previous_generation report))
                      (cs_metrics s)) s)
  | RtCounted (Err error) => (RtDone (Err error), s)
  | RtDone r => (RtDone r, s)
  end.

(** A task that runs by itself. *)
Fixpoint task_run (n : nat) (random_salt : nat -> bytes) (disk : bytes -> option bytes)
    (t : ReloadTask) (s : CredentialStore) : ReloadTask * CredentialStore :=
  match n with
  | O => (t, s)
  | S n => let '(t, s) := task_step random_salt disk t s in task_run n random_salt disk t s
  end.

(** A reload that nothing interrupts is the atomic reload: it ends within seven
    accesses, with the same result, the same snapshot, error and counters as
    [store_reload], and has nothing left to do. *)
Lemma lone_reload_is_atomic random_salt disk s :
  exists r s', store_reload random_salt parse_users disk s = (Ready r, s') /\
    task_run 7 random_salt disk RtStart s = (RtDone r, s').
Proof.
  unfold store_reload, reload_file, mbind, io_bind, io_get, io_try, io_modify, io_lift, io_fail,
    mret, io_ret. cbn [task_run task_step]. unfold reload_read. cbn beta iota.
  destruct (cs_source s) as [path| | |] eqn:Hs; cbn beta iota; [|by do 2 eexists..].
  unfold mbind, result_bind.
  destruct (read_file (disk path)) as [text|e]; cbn [is_ok]; [|by do 2 eexists].
  destruct (snapshot_from_yaml random_salt parse_users text) as [next|e]; by do 2 eexists.
Qed.

(** ** Overlapping reloads *)

(** The versions of the file system, the current one first. *)
Record ReloadSystem := mkReloadSystem {
  rs_disk : list (bytes -> option bytes);
  rs_store : CredentialStore;
  rs_tasks : list ReloadTask }.

Definition current_disk (y : ReloadSystem) : bytes -> option bytes :=
  default (fun _ => None) (head (rs_disk y)).

Inductive reload_step : ReloadSystem -> ReloadSystem -> Prop :=
| reload_write disk y :
    reload_step y (mkReloadSystem (disk :: rs_disk y) (rs_store y) (rs_tasks y))
| reload_spawn y :
    reload_step y (mkReloadSystem (rs_disk y) (rs_store y) (rs_tasks y ++ [RtStart]))
| reload_lookup env user y :
    reload_step y (mkReloadSystem (rs_disk y) (store_lookup env user (rs_store y)).2 (rs_tasks y))
| reload_task random_salt i t t' s' y :
    rs_tasks y !! i = Some t ->
    task_step random_salt (current_disk y) t (rs_store y) = (t', s') ->
    reload_step y (mkReloadSystem (rs_disk y) s' (<[i := t']> (rs_tasks y))).

Definition reload_init (disk : bytes -> option bytes) (s : CredentialStore) : ReloadSystem :=
  mkReloadSystem [disk] s [].

Definition reload_reachable disk s : ReloadSystem -> Prop := rtc reload_step (reload_init disk s).

(** *** The invariant *)

(** The users of a complete version of the store's file. *)
Definition version_of (path : option bytes) (disks : list (bytes -> option bytes))
    (users : gmap bytes Verifier) : Prop :=
  exists disk random_salt p text next, path = Some p /\ disk ∈ disks /\ disk p = Some text /\
    snapshot_from_yaml random_salt parse_users text = Ok next /\ users = sn_users next.

Definition one_if (b : bool) : nat := if b then 1%nat else 0%nat.

(** A task that has stored its snapshot, and one whose result has been counted. *)
Definition has_stored (t : ReloadTask) : bool :=
  match t with
  | RtStored _ | RtCleared _ => true
  | RtResult r | RtCounted r | RtDone r => is_ok r
  | _ => false
  end.

Definition counted_as (ok : bool) (t : ReloadTask) : bool :=
  match t with RtCounted r | RtDone r => Bool.eqb (is_ok r) ok | _ => false end.

Definition tasks_where (f : ReloadTask -> bool) (ts : list ReloadTask) : nat :=
  sum_list_with (fun t => one_if (f t)) ts.

(** A generation that at most [k] reloads can have reached. *)
Definition generation_within (g0 : Z) (k : nat) (g : Z) : Prop :=
  exists j, (j <= k)%nat /\ g = (g0 + Z.of_nat j) mod 2 ^ 64.

Definition task_ok (s0 : CredentialStore) (y : ReloadSystem) (t : ReloadTask) : Prop :=
  match t with
  | RtParsed next => version_of (source_path s0) (rs_disk y) (sn_users next)
  | RtLoaded next _ =>
      version_of (source_path s0) (rs_disk y) (sn_users next) /\
      generation_within (sn_generation (cs_snapshot s0))
        (S (tasks_where has_stored (rs_tasks y))) (sn_generation next)
  | _ => True
  end.

Record reload_inv (s0 : CredentialStore) (y : ReloadSystem) : Prop := {
  ri_path : source_path (rs_store y) = source_path s0;
  ri_users : sn_users (cs_snapshot (rs_store y)) = sn_users (cs_snapshot s0) \/
    version_of (source_path s0) (rs_disk y) (sn_users (cs_snapshot (rs_store y)));
  ri_generation : generation_within (sn_generation (cs_snapshot s0))
    (tasks_where has_stored (rs_tasks y)) (sn_generation (cs_snapshot (rs_store y)));
  ri_ok : m_reload_ok (cs_metrics (rs_store y)) =
    (m_reload_ok (cs_metrics s0) + Z.of_nat (tasks_where (counted_as true) (rs_tasks y))) mod 2 ^ 64;
  ri_error : m_reload_error (cs_metrics (rs_store y)) =
    (m_reload_error (cs_metrics s0) + Z.of_nat (tasks_where (counted_as false) (rs_tasks y)))
      mod 2 ^ 64;
  ri_tasks : Forall (task_ok s0 y) (rs_tasks y) }.

Lemma version_of_more path disk disks users :
  version_of path disks users -> version_of path (disk :: disks) users.
Proof. intros (d & salt & p & text & n & ? & Hd & ?). exists d, salt, p, text, n. set_solver. Qed.

Lemma generation_within_mono g0 j k g :
  (j <= k)%nat -> generation_within g0 j g -> generation_within g0 k g.
Proof. intros ? (i & ? & ->). exists i. split; [lia|done]. Qed.

Lemma generation_within_succ g0 k g :
  generation_within g0 k g -> generation_within g0 (S k) (u64_succ g).
Proof.
  intros (i & ? & ->). exists (S i). split; [lia|]. unfold u64_succ. rewrite add_mod_2_64.
  f_equal. lia.
Qed.

Lemma tasks_where_insert f ts i t t' :
  ts !! i = Some t ->
  (tasks_where f (<[i := t']> ts) + one_if (f t) = tasks_where f ts + one_if (f t'))%nat.
Proof. apply (sum_list_with_insert (fun x => one_if (f x))). Qed.

(** A step of a task that counts as before leaves the count. *)
Lemma tasks_where_same f ts i t t' :
  ts !! i = Some t -> f t' = f t -> tasks_where f (<[i := t']> ts) = tasks_where f ts.
Proof. intros Hi Hf. pose proof (tasks_where_insert f ts i t t' Hi) as H. rewrite Hf in H. lia. Qed.

Lemma tasks_where_spawn f ts t :
  f t = false -> tasks_where f (ts ++ [t]) = tasks_where f ts.
Proof. intros Hf. unfold tasks_where. rewrite sum_list_with_app. simpl. rewrite Hf. simpl. lia. Qed.

Lemma task_ok_mono s0 y y' t :
  rs_disk y' = rs_disk y ->
  (tasks_where has_stored (rs_tasks y) <= tasks_where has_stored (rs_tasks y'))%nat ->
  task_ok s0 y t -> task_ok s0 y' t.
Proof.
  intros Hd Hn. destruct t; simpl; rewrite ?Hd; try done. intros [H1 H2]. split; [done|].
  eapply generation_within_mono; [|exact H2]. lia.
Qed.

Lemma u64_count a n : u64_succ ((a + Z.of_nat n) mod 2 ^ 64) = (a + Z.of_nat (S n)) mod 2 ^ 64.
Proof. unfold u64_succ. rewrite add_mod_2_64. f_equal. lia. Qed.

(** What a step of task [i] has to establish. *)
Lemma reload_inv_task s0 y i t t' s' :
  reload_inv s0 y -> rs_tasks y !! i = Some t ->
  let y' := mkReloadSystem (rs_disk y) s' (<[i := t']> (rs_tasks y)) in
  (has_stored t = true -> has_stored t' = true) ->
  source_path s' = source_path (rs_store y) ->
  (sn_users (cs_snapshot s') = sn_users (cs_snapshot s0) \/
   version_of (source_path s0) (rs_disk y) (sn_users (cs_snapshot s'))) ->
  generation_within (sn_generation (cs_snapshot s0))
    (tasks_where has_stored (rs_tasks y')) (sn_generation (cs_snapshot s')) ->
  m_reload_ok (cs_metrics s') =
    (m_reload_ok (cs_metrics s0) + Z.of_nat (tasks_where (counted_as true) (rs_tasks y'))) mod 2 ^ 64 ->
  m_reload_error (cs_metrics s') =
    (m_reload_error (cs_metrics s0) + Z.of_nat (tasks_where (counted_as false) (rs_tasks y')))
      mod 2 ^ 64 ->
  task_ok s0 y' t' -> reload_inv s0 y'.
Proof.
  intros [Hp Hu Hg Ho He Ht] Hi y' Hst Hp' Hu' Hg' Ho' He' Ht'. split; simpl; try done; [congruence|].
  apply Forall_insert; [|exact Ht'].
  eapply Forall_impl; [exact Ht|]. intros x. apply task_ok_mono; [done|]. simpl.
  pose proof (tasks_where_insert has_stored (rs_tasks y) i t t' Hi) as H.
  destruct (has_stored t); simpl in H; [rewrite (Hst eq_refl) in H|]; simpl in H; lia.
Qed.

(** A step that neither stores nor counts. *)
Lemma reload_inv_quiet s0 y i t t' s' :
  reload_inv s0 y -> rs_tasks y !! i = Some t ->
  has_stored t' = has_stored t -> counted_as true t' = counted_as true t ->
  counted_as false t' = counted_as false t ->
  source_path s' = source_path (rs_store y) -> cs_snapshot s' = cs_snapshot (rs_store y) ->
  m_reload_ok (cs_metrics s') = m_reload_ok (cs_metrics (rs_store y)) ->
  m_reload_error (cs_metrics s') = m_reload_error (cs_metrics (rs_store y)) ->
  task_ok s0 y t' ->
  reload_inv s0 (mkReloadSystem (rs_disk y) s' (<[i := t']> (rs_tasks y))).
Proof.
  intros Hinv Hi Hst Ht Hf Hp Hs Ho He Hok. pose proof Hinv as [Ip Iu Ig Io Ie It].
  eapply reload_inv_task; simpl; try done; rewrite ?Hs, ?Ho, ?He;
    rewrite ?(tasks_where_same _ _ _ _ _ Hi) by done; try done; [congruence|].
  apply (task_ok_mono s0 y); [done| |exact Hok]. simpl. by rewrite (tasks_where_same _ _ _ _ _ Hi).
Qed.

Lemma reload_read_ok s0 y salt :
  reload_inv s0 y -> rs_disk y <> [] ->
  let t := reload_read salt (current_disk y) (cs_source (rs_store y)) in
  task_ok s0 y t /\ has_stored t = false /\ counted_as true t = false /\ counted_as false t = false.
Proof.
  intros [Hp _ _ _ _ _] Hd. unfold reload_read, source_path in *.
  destruct (cs_source (rs_store y)) as [p| | |] eqn:Hs; try done.
  destruct (read_file (current_disk y p)) as [text|e] eqn:Hr; [|done].
  cbn [mbind result_bind].
  destruct (snapshot_from_yaml salt parse_users text) as [next|e] eqn:Hy; [|done].
  split; [|done]. simpl. exists (current_disk y), salt, p, text, next.
  unfold source_path. rewrite <- Hp. split; [done|].
  split; [|split; [by apply ok_or_Ok in Hr|done]].
  unfold current_disk. destruct (rs_disk y) as [|d ds]; [done|]. simpl. set_solver.
Qed.

Lemma reload_task_inv s0 y salt i t t' s' :
  reload_inv s0 y -> rs_disk y <> [] -> rs_tasks y !! i = Some t ->
  task_step salt (current_disk y) t (rs_store y) = (t', s') ->
  reload_inv s0 (mkReloadSystem (rs_disk y) s' (<[i := t']> (rs_tasks y))).
Proof.
  intros Hinv Hd Hi Hstep. pose proof Hinv as [Ip Iu Ig Io Ie It].
  pose proof (proj1 (Forall_lookup _ _) It i t Hi) as Hok.
  pose proof (tasks_where_insert has_stored _ i t t' Hi) as Hn.
  pose proof (tasks_where_insert (counted_as true) _ i t t' Hi) as Ho.
  pose proof (tasks_where_insert (counted_as false) _ i t t' Hi) as He.
  destruct t as [|e|next|next g|g|g|r|[rep|e]|r]; simpl in Hstep; injection Hstep as <- <-.
  - destruct (reload_read_ok s0 y salt Hinv Hd) as (? & ? & ? & ?).
    by eapply reload_inv_quiet.
  - by eapply reload_inv_quiet.
  - eapply reload_inv_quiet; try done. simpl. split; [exact Hok|].
    by apply generation_within_succ.
  - destruct Hok as [Hv Hg]. simpl in Hn, Ho, He. eapply reload_inv_task; simpl; try done.
    + by right.
    + eapply generation_within_mono; [|exact Hg]. simpl in Hn. lia.
    + rewrite Io. do 3 f_equal. lia.
    + rewrite Ie. do 3 f_equal. lia.
  - by eapply reload_inv_quiet.
  - by eapply reload_inv_quiet.
  - assert (Hs : tasks_where has_stored (<[i := RtCounted r]> (rs_tasks y)) =
                 tasks_where has_stored (rs_tasks y)) by (by eapply tasks_where_same).
    destruct r as [rep|e]; simpl in Ho, He; eapply reload_inv_task; simpl; rewrite ?Hs; try done;
      rewrite ?Io, ?Ie, ?u64_count; do 3 f_equal; lia.
  - by eapply reload_inv_quiet.
  - by eapply reload_inv_quiet.
  - by eapply reload_inv_quiet.
Qed.

Lemma reload_step_inv s0 y y' :
  reload_inv s0 y /\ rs_disk y <> [] -> reload_step y y' ->
  reload_inv s0 y' /\ rs_disk y' <> [].
Proof.
  intros [Hinv Hd] Hstep. pose proof Hinv as [Ip Iu Ig Io Ie It].
  destruct Hstep as [disk y|y|env user y|salt i t t' s' y Hi Hstep]; (split; [|done]).
  - split; simpl; try done.
    + destruct Iu as [Iu|Iu]; [by left|right; by apply version_of_more].
    + eapply Forall_impl; [exact It|]. intros [] Hok; simpl in *; try done;
        [|destruct Hok as [Hok ?]; split; [|done]]; by apply version_of_more.
  - split; simpl; rewrite ?tasks_where_spawn by done; try done.
    apply Forall_app. split; [|by constructor]. eapply Forall_impl; [exact It|].
    intros x. apply task_ok_mono; [done|]. simpl. by rewrite tasks_where_spawn.
  - destruct (store_lookup_keeps env user (rs_store y)) as (Hs & Hp & r & Hm).
    split; simpl; rewrite ?Hs, ?Hp, ?Hm; try done; destruct r; done.
  - by eapply reload_task_inv.
Qed.

(** C35: Whatever reloads, lookups and writes to the file overlap, the users served
    are always those of one complete version of the file, or the ones the store
    started with; the generation is one that the finished reloads can have
    reached; and the counters of reloads count each of them once, as what it
    was. *)
Theorem overlapping_reloads_serve_one_version disk s0 y :
  0 <= sn_generation (cs_snapshot s0) < 2 ^ 64 ->
  0 <= m_reload_ok (cs_metrics s0) < 2 ^ 64 -> 0 <= m_reload_error (cs_metrics s0) < 2 ^ 64 ->
  reload_reachable disk s0 y ->
  (sn_users (cs_snapshot (rs_store y)) = sn_users (cs_snapshot s0) \/
   version_of (source_path s0) (rs_disk y) (sn_users (cs_snapshot (rs_store y)))) /\
  generation_within (sn_generation (cs_snapshot s0))
    (tasks_where has_stored (rs_tasks y)) (sn_generation (cs_snapshot (rs_store y))) /\
  m_reload_ok (cs_metrics (rs_store y)) =
    (m_reload_ok (cs_metrics s0) + Z.of_nat (tasks_where (counted_as true) (rs_tasks y)))
      mod 2 ^ 64 /\
  m_reload_error (cs_metrics (rs_store y)) =
    (m_reload_error (cs_metrics s0) + Z.of_nat (tasks_where (counted_as false) (rs_tasks y)))
      mod 2 ^ 64.
Proof.
  intros Hg Hok He Hr.
  assert (H0 : reload_inv s0 (reload_init disk s0) /\ rs_disk (reload_init disk s0) <> []).
  { split; [|done]. split; simpl; rewrite ?Z.add_0_r, ?Z.mod_small by done; try done; [by left|].
    exists 0%nat. split; [lia|]. by rewrite Z.add_0_r, Z.mod_small. }
  assert (H : reload_inv s0 y /\ rs_disk y <> []).
  { unfold reload_reachable in Hr. remember (reload_init disk s0) as y0.
    clear Heqy0. induction Hr as [|y1 y2 y3 Hs _ IH]; [done|]. apply IH.
    by eapply reload_step_inv. }
  destruct H as [[]]. done.
Qed.

(** ** Two reloads of the same generation *)

(** A task scheduled [n] times in a row. *)
Lemma task_run_steps n salt y i t t' s' :
  rs_tasks y !! i = Some t ->
  task_run n salt (current_disk y) t (rs_store y) = (t', s') ->
  rtc reload_step y (mkReloadSystem (rs_disk y) s' (<[i := t']> (rs_tasks y))).
Proof.
  revert y t. induction n as [|n IH]; intros y t Hi Hrun; simpl in Hrun.
  - injection Hrun as <- <-. rewrite list_insert_id by done. by destruct y.
  - destruct (task_step salt (current_disk y) t (rs_store y)) as [t1 s1] eqn:Hs.
    eapply rtc_l; [by eapply reload_task|].
    rewrite <- (list_insert_insert_eq (rs_tasks y) i t' t1).
    apply (IH (mkReloadSystem (rs_disk y) s1 (<[i := t1]> (rs_tasks y))) t1); [|exact Hrun].
    simpl. by rewrite list_lookup_insert_eq by (by eapply lookup_lt_Some).
Qed.

(** A reload of a readable, valid file by itself. *)
Lemma task_run_succeeds salt disk s path text next :
  cs_source s = SourceFile path -> disk path = Some text ->
  snapshot_from_yaml salt parse_users text = Ok next ->
  exists s' rep, task_run 7 salt disk RtStart s = (RtDone (Ok rep), s') /\
    cs_source s' = SourceFile path /\ sn_users (cs_snapshot s') = sn_users next /\
    sn_generation (cs_snapshot s') = u64_succ (sn_generation (cs_snapshot s)).
Proof.
  intros Hs Hd Hy. simpl. unfold reload_read. rewrite Hs, Hd. simpl. rewrite Hy. simpl.
  do 2 eexists. repeat split. exact Hs.
Qed.

(** Reloads do not exclude each other: a reload that read the file before it
    was changed can store last.  Then the old users are served again although
    every reload since the change succeeded, and the generation goes back. *)
Theorem stale_reload_wins s salt path old new old_users new_users :
  cs_source s = SourceFile path -> 0 <= sn_generation (cs_snapshot s) < 2 ^ 64 - 2 ->
  snapshot_from_yaml salt parse_users old = Ok old_users ->
  snapshot_from_yaml salt parse_users new = Ok new_users ->
  exists before after,
    reload_reachable (fun _ => Some old) s before /\ rtc reload_step before after /\
    current_disk before path = Some new /\ current_disk after path = Some new /\
    sn_users (cs_snapshot (rs_store before)) = sn_users new_users /\
    sn_users (cs_snapshot (rs_store after)) = sn_users old_users /\
    sn_generation (cs_snapshot (rs_store before)) = sn_generation (cs_snapshot s) + 2 /\
    sn_generation (cs_snapshot (rs_store after)) = sn_generation (cs_snapshot s) + 1 /\
    Forall (fun t => has_stored t = true) (rs_tasks after).
Proof.
  intros Hs Hg Ho Hn. set (g := sn_generation (cs_snapshot s)) in *.
  set (stale := RtLoaded (snapshot_set_generation (u64_succ g) old_users) g).
  destruct (task_run_succeeds salt (fun _ => Some new) s path new new_users Hs eq_refl Hn)
    as (s1 & r1 & H1 & Hs1 & _ & Hg1).
  destruct (task_run_succeeds salt (fun _ => Some new) s1 path new new_users Hs1 eq_refl Hn)
    as (s2 & r2 & H2 & Hs2 & Hu2 & Hg2).
  set (disks := [(fun _ => Some new); (fun _ : bytes => Some old)]).
  pose (y1 := mkReloadSystem [(fun _ => Some old)] s [RtStart]).
  pose (y2 := mkReloadSystem disks s [stale; RtStart]).
  pose (y3 := mkReloadSystem disks s1 [stale; RtDone (Ok r1); RtStart]).
  pose (y4 := mkReloadSystem disks s2 [stale; RtDone (Ok r1); RtDone (Ok r2)]).
  set (y5 := task_run 5 salt (fun _ => Some new) stale s2).
  exists y4, (mkReloadSystem disks y5.2 [y5.1; RtDone (Ok r1); RtDone (Ok r2)]).
  assert (Ha : rtc reload_step (reload_init (fun _ => Some old) s) y2).
  { eapply rtc_l; [apply reload_spawn|]. fold y1. etrans.
    - apply (task_run_steps 2 salt y1 0 RtStart stale s eq_refl). cbn [task_run task_step].
      unfold reload_read. simpl. rewrite Hs. simpl. rewrite Ho. done.
    - eapply rtc_l; [apply (reload_write (fun _ => Some new))|].
      eapply rtc_l; [apply reload_spawn|]. done. }
  assert (Hb : rtc reload_step y2 y4).
  { etrans; [apply (task_run_steps 7 salt y2 1 RtStart _ _ eq_refl H1)|].
    eapply rtc_l; [apply reload_spawn|].
    apply (task_run_steps 7 salt y3 2 RtStart _ _ eq_refl H2). }
  assert (Hgs : u64_succ g = g + 1) by (unfold u64_succ; rewrite Z.mod_small; lia).
  split; [unfold reload_reachable; by etrans|]. split.
  - apply (task_run_steps 5 salt y4 0 stale _ _ eq_refl). apply surjective_pairing.
  - do 2 (split; [done|]). split; [exact Hu2|]. split; [done|]. split; [|split].
    + simpl. fold g in Hg1. rewrite Hg2, Hg1, Hgs. unfold u64_succ. rewrite Z.mod_small; lia.
    + exact Hgs.
    + repeat constructor.
Qed.

End reload.

(** ** Witnesses *)

#[local] Existing Instance toy_crypto.

Lemma overlapping_reloads_serve_one_version_witness :
  let s := (task_run sample_parse 7 sample_salt (fun _ => Some #"users") RtStart sample_store).2 in
  sn_users (cs_snapshot s) = sn_users (cs_snapshot sample_store) \/
  version_of sample_parse (Some #"users.yaml") [(fun _ => Some #"users")] (sn_users (cs_snapshot s)).
Proof.
  set (run := task_run sample_parse 7 sample_salt (fun _ => Some #"users") RtStart sample_store).
  apply (overlapping_reloads_serve_one_version sample_parse (fun _ => Some #"users") sample_store
    (mkReloadSystem [(fun _ => Some #"users")] run.2 [run.1])).
  - vm_compute. split; congruence.
  - vm_compute. split; congruence.
  - vm_compute. split; congruence.
  - eapply rtc_l; [apply reload_spawn|].
    apply (task_run_steps sample_parse 7 sample_salt
      (mkReloadSystem [(fun _ => Some #"users")] sample_store [RtStart]) 0 RtStart _ _ eq_refl).
    apply surjective_pairing.
Defined.

(** A parser of two documents: both users, and the first only. *)
Definition two_versions (text : bytes) : option (list RawUser) :=
  if bool_decide (text = #"users") then Some sample_users else Some (take 1 sample_users).

Lemma two_versions_load text : exists n, snapshot_from_yaml sample_salt two_versions text = Ok n.
Proof.
  assert (Hok : Forall user_ok sample_users) by apply sample_users_ok.
  assert (Hnd : NoDup (ru_name <$> sample_users))
    by (apply (bool_decide_unpack _); vm_compute; exact I).
  destruct (decide (text = #"users")) as [Heq|Hne].
  - apply (valid_list_loads _ _ _ sample_users); try done.
    unfold two_versions. by rewrite bool_decide_eq_true_2.
  - apply (valid_list_loads _ _ _ (take 1 sample_users)); try done.
    + unfold two_versions. by rewrite bool_decide_eq_false_2.
    + by apply Forall_take.
    + simpl. constructor; [set_solver|constructor].
Qed.

Lemma stale_reload_wins_witness :
  exists before after,
    reload_reachable two_versions (fun _ => Some #"users") sample_store before /\
    rtc (reload_step two_versions) before after /\
    sn_generation (cs_snapshot (rs_store before)) = 3 /\
    sn_generation (cs_snapshot (rs_store after)) = 2.
Proof.
  destruct (two_versions_load #"users") as [old Hold].
  destruct (two_versions_load #"user") as [new Hnew].
  assert (Hg : 0 <= sn_generation (cs_snapshot sample_store) < 2 ^ 64 - 2)
    by (vm_compute; split; congruence).
  destruct (stale_reload_wins two_versions sample_store sample_salt #"users.yaml" #"users" #"user"
    old new eq_refl Hg Hold Hnew) as (before & after & H1 & H2 & _ & _ & _ & _ & H3 & H4 & _).
  exists before, after. split; [exact H1|]. split; [exact H2|].
  rewrite H3, H4. vm_compute. split; reflexivity.
Defined.
