(* ===== verification/Config.v ===== *)
(** The configuration: [proxy/config.rs] and the credentials block of
    [auth/credentials/config.rs].

    The YAML documents are deserialised by [serde_yaml], a parameter; paths and
    socket addresses are the bytes of their text. *)
From S2P Require Import Prelude Words RustStr Errors Crypto ToyCrypto Verifier LookupCache.
From S2P Require Import CredentialFile AuthQuery CredentialStore.
Local Open Scope Z_scope.

(** ** The credentials block *)

Inductive SourceKind := KindFile | KindAuthQuery.

Record AuthQueryFileConfig := mkAuthQueryFileConfig {
  af_host : bytes;
  af_port : Z;
  af_user : bytes;
  af_password : option bytes;
  af_password_env : option bytes;
  af_database : bytes;
  af_query : bytes;
  af_cache_ttl_ms : Z;
  af_negative_cache_ttl_ms : option Z;
  af_max_entries : nat;
  af_lazy : bool }.

(** [Debug], which keeps the password to itself; [printable] is what the Unicode
    tables call printable. *)
Definition debug_auth_query (printable : bytes -> bool) (c : AuthQueryFileConfig) : bytes :=
  debug_struct #"AuthQueryFileConfig"
    [( #"host", debug_str printable (af_host c));
     ( #"port", show_uint (af_port c));
     ( #"user", debug_str printable (af_user c));
     ( #"password", debug_option_str printable ((fun _ => #"<redacted>") <$> af_password c));
     ( #"password_env", debug_option_str printable (af_password_env c));
     ( #"database", debug_str printable (af_database c));
     ( #"query", debug_str printable (af_query c));
     ( #"cache_ttl_ms", show_uint (af_cache_ttl_ms c));
     ( #"negative_cache_ttl_ms", match af_negative_cache_ttl_ms c with
                                 | Some ms => #"Some(" ++ show_uint ms ++ #")"
                                 | None => #"None"
                                 end);
     ( #"max_entries", show_uint (Z.of_nat (af_max_entries c)));
     ( #"lazy", if af_lazy c then #"true" else #"false")].

Record CredentialsConfig := mkCredentialsConfig {
  cc_source : SourceKind;
  cc_file : option bytes;
  cc_default_iterations : option Z;
  cc_cluster_nonce_file : option bytes;
  cc_auth_query : option AuthQueryFileConfig }.

Definition credentials_default : CredentialsConfig := mkCredentialsConfig KindFile None None None None.

(** Field defaults of [auth_query]. *)
Definition default_host : bytes := #"127.0.0.1".
Definition default_port : Z := 5432.
Definition default_database : bytes := #"postgres".
Definition default_cache_ttl_ms : Z := DEFAULT_CACHE_TTL / 1000000.
Definition default_max_entries : nat := DEFAULT_MAX_ENTRIES.

(** Fuel that is always enough for the scan of a query. *)
Definition validate_query (query : bytes) : result bytes unit :=
  match validate (S (length query)) query with
  | Some r => r
  | None => Err []
  end.

(** [env] is [std::env::var]. *)
Definition resolve (env : bytes -> option bytes) (c : AuthQueryFileConfig)
    : result ConfigError AuthQueryConfig :=
  map_err (fun reason => config_error_single #"credentials.auth_query.query" reason)
          (validate_query (af_query c));;
  password ← match af_password c, af_password_env c with
             | Some password, _ => Ok password
             | None, Some variable =>
                 ok_or (env variable)
                   (config_error_single #"credentials.auth_query.password_env"
                      #"environment variable is not set")
             | None, None => Ok []
             end;
  let cache_ttl := from_millis (af_cache_ttl_ms c) in
  let negative_ttl := match af_negative_cache_ttl_ms c with
                      | Some ms => from_millis ms
                      | None => NEGATIVE_CACHE_TTL
                      end in
  Ok (mkAuthQueryConfig (af_host c) (af_port c) (af_user c) password (af_database c) (af_query c)
        (if cache_ttl =? 0 then DEFAULT_CACHE_TTL else cache_ttl) negative_ttl (af_max_entries c)).

Section build.
Context {P : Primitives}.
Variable random_salt : nat -> bytes.
Variable parse_users : bytes -> option (list RawUser).

(** [feature] is the compile-time [auth-query] feature, [read] the file system,
    [nonce] the random cluster nonce, [driver] the lookup database. *)
Definition build_store (feature : bool) (read env : bytes -> option bytes) (nonce : bytes)
    (driver : DriverEnv) (c : CredentialsConfig) : result ConfigError CredentialStore :=
  match cc_source c with
  | KindFile =>
      path ← ok_or (cc_file c)
        (config_error_single #"credentials.file" #"is required when source is `file`");
      from_file random_salt parse_users read nonce path
  | KindAuthQuery =>
      file ← ok_or (cc_auth_query c)
        (config_error_single #"credentials.auth_query" #"is required when source is `auth_query`");
      config ← resolve env file;
      let lazy := af_lazy file in
      if feature : bool then
        let source := auth_query_new config in
        source ← (if negb lazy then
                    match preflight driver source with
                    | (Ready (Ok _), source') => Ok source'
                    | _ => Err (config_error_single #"credentials.auth_query"
                                  #"lookup database is not reachable")
                    end
                  else Ok source);
        Ok (from_source nonce (SourceAuthQuery source) (snapshot_empty 0))
      else Err (config_error_single #"credentials.auth_query"
                  #"this build has no `auth-query` feature; rebuild with it enabled")
  end.

Definition show_bool (b : bool) : bytes := if b then #"true" else #"false".

Definition is_set {A} (o : option A) : bool := match o with Some _ => true | None => false end.

Definition config_digest (c : CredentialsConfig) : bytes :=
  b64_encode (sha2_256
    ((match cc_source c with
      | KindFile => #"source=file;"
      | KindAuthQuery => #"source=auth_query;"
      end)
     ++ #"file=" ++ show_bool (is_set (cc_file c)) ++ #";"
     ++ #"nonce_file=" ++ show_bool (is_set (cc_cluster_nonce_file c)) ++ #";"
     ++ #"auth_query_configured=" ++ show_bool (is_set (cc_auth_query c)) ++ #";")).

End build.

(** ** The proxy configuration *)

Inductive BackendTlsMode := TlsDisable | TlsPrefer | TlsRequire | TlsVerifyFull.

Inductive ChannelBindingMode := CbDisable | CbPrefer | CbRequire.

#[export] Instance tls_mode_eq_dec : EqDecision BackendTlsMode.
Proof. solve_decision. Defined.

Record BackendTlsConfig := mkBackendTlsConfig {
  bt_mode : BackendTlsMode;
  bt_root_cert_file : option bytes;
  bt_channel_binding : ChannelBindingMode;
  bt_domain : option bytes }.

Record BackendConfig := mkBackendConfig {
  bc_address : bytes;
  bc_connect_timeout_ms : Z;
  bc_startup_timeout_ms : Z;
  bc_tls : BackendTlsConfig;
  bc_tls_domain : option bytes }.

Record ListenConfig := mkListenConfig { li_frontend : bytes }.

Record LimitsConfig := mkLimitsConfig {
  lm_max_connections : Z;
  lm_authentication_timeout_ms : Z;
  lm_max_startup_bytes : Z;
  lm_max_message_size : Z;
  lm_idle_timeout_ms : Z }.

Record Config := mkConfig {
  cf_listen : ListenConfig;
  cf_limits : LimitsConfig;
  cf_credentials : CredentialsConfig;
  cf_backend : BackendConfig }.

Definition DEFAULT_MAX_CONNECTIONS : Z := 100.

Definition backend_tls_default : BackendTlsConfig :=
  mkBackendTlsConfig TlsPrefer None CbPrefer None.

Definition backend_default : BackendConfig :=
  mkBackendConfig #"127.0.0.1:5432" 2000 5000 backend_tls_default None.

Definition listen_default : ListenConfig := mkListenConfig #"127.0.0.1:6432".

Definition limits_default : LimitsConfig :=
  mkLimitsConfig DEFAULT_MAX_CONNECTIONS 60000 10000 (Z.shiftl 1 30) 0.

Definition config_default : Config :=
  mkConfig listen_default limits_default credentials_default backend_default.

Definition connect_timeout (b : BackendConfig) : Z := from_millis (bc_connect_timeout_ms b).
Definition startup_timeout (b : BackendConfig) : Z := from_millis (bc_startup_timeout_ms b).

Definition tls_server_name (b : BackendConfig) (host : bytes) : option bytes :=
  match bt_domain (bc_tls b) with
  | Some d => Some d
  | None => match bc_tls_domain b with
            | Some d => Some d
            | None => Some host
            end
  end.

Definition authentication_timeout (c : Config) : Z :=
  from_millis (lm_authentication_timeout_ms (cf_limits c)).

Definition max_startup_bytes (c : Config) : Z := lm_max_startup_bytes (cf_limits c).

Definition bad_address : ConfigError :=
  config_error_single #"backend.address" #"must be a host:port socket address".

Definition backend_host_port (c : Config) : result ConfigError (bytes * Z) :=
  '(host, port) ← ok_or (rsplit_once chr_colon (bc_address (cf_backend c))) bad_address;
  if bool_decide (host = []) then Err bad_address
  else
    port ← ok_or (parse_u16 port) bad_address;
    Ok (host, port).

(** [serde_yaml::from_str] and [str::parse::<SocketAddr>] are parameters. *)
Definition config_from_yaml (parse : bytes -> option Config) (text : bytes)
    : result ConfigError Config :=
  ok_or (parse text) (config_error_single #"config" #"invalid YAML configuration").

Definition frontend_addr {Addr} (parse_addr : bytes -> option Addr) (c : Config)
    : result ConfigError Addr :=
  ok_or (parse_addr (li_frontend (cf_listen c)))
    (config_error_single #"listen.frontend" #"must be a host:port socket address").

(** ** Properties *)

Definition set_password (p : option bytes) (c : AuthQueryFileConfig) : AuthQueryFileConfig :=
  mkAuthQueryFileConfig (af_host c) (af_port c) (af_user c) p (af_password_env c) (af_database c)
    (af_query c) (af_cache_ttl_ms c) (af_negative_cache_ttl_ms c) (af_max_entries c) (af_lazy c).

(** Printing a configuration shows whether there is a password, not which. *)
Lemma debug_redacts printable p q c :
  debug_auth_query printable (set_password (Some p) c) =
  debug_auth_query printable (set_password (Some q) c).
Proof. reflexivity. Qed.

Lemma validate_query_eq query :
  exists ps, validate (S (length query)) query = Some (check_placeholders ps) /\
    validate_query query = check_placeholders ps.
Proof.
  destruct (scan_placeholders_ends query (S (length query)) 0 []) as [ps Hps]; [lia|].
  exists ps. unfold validate_query, validate. rewrite Hps. done.
Qed.

Lemma rsplit_once_app d a b : d ∉ b -> rsplit_once d (a ++ d :: b) = Some (a, b).
Proof.
  intros Hb. induction a as [|c a IH]; simpl.
  - assert (rsplit_once d b = None) as ->.
    { induction b as [|c b IHb]; [done|]. apply not_elem_of_cons in Hb as [? Hb]. simpl.
      rewrite IHb by done. by rewrite bool_decide_eq_false_2 by congruence. }
    by rewrite bool_decide_eq_true_2.
  - by rewrite IH.
Qed.

Lemma rsplit_once_Some d s a b : rsplit_once d s = Some (a, b) -> s = a ++ d :: b.
Proof.
  revert a. induction s as [|c s IH]; intros a; simpl; [done|].
  destruct (rsplit_once d s) as [[x y]|].
  - intros [= <- <-]. by rewrite (IH x eq_refl).
  - case_bool_decide; [|done]. intros [= <- <-]. by subst.
Qed.

(** The backend address is split at its last colon: every [host:port] with a
    non-empty host, IPv6 literals included, and a port that fits 16 bits is
    understood, and whatever is accepted has that form. *)
Theorem backend_address_roundtrip c host port :
  bc_address (cf_backend c) = host ++ chr_colon :: show_uint port ->
  host <> [] -> 0 <= port < 2 ^ 16 ->
  backend_host_port c = Ok (host, port).
Proof.
  intros Ha Hh Hp. unfold backend_host_port. rewrite Ha, rsplit_once_app.
  2: { apply not_digit_not_in_show; [lia|done]. }
  cbn [ok_or mbind result_bind]. rewrite bool_decide_eq_false_2 by done.
  unfold parse_u16. by rewrite parse_show_uint by lia.
Qed.

Lemma backend_address_roundtrip_witness :
  backend_host_port (mkConfig listen_default limits_default credentials_default
    (mkBackendConfig #"::1:5433" 2000 5000 backend_tls_default None)) = Ok ( #"::1", 5433).
Proof. by apply backend_address_roundtrip. Defined.

(** The server name is always known: an explicit domain, its legacy spelling,
    or the host. *)
Lemma tls_server_name_known b host : is_Some (tls_server_name b host).
Proof.
  unfold tls_server_name. destruct (bt_domain _), (bc_tls_domain b); eauto.
Qed.

(** The default configuration is usable as it stands. *)
Example default_backend :
  backend_host_port config_default = Ok ( #"127.0.0.1", 5432) /\
  authentication_timeout config_default = from_secs 60.
Proof. vm_compute. done. Qed.
