(* ===== verification/BackendPolicy.v ===== *)
(** The backend link's policies and small messages: [proxy/backend/mod.rs]
    without the link itself, which is in [PgClient] and [Backend]. *)
From S2P Require Import Prelude Words RustStr Errors Packet Crypto Tls ScramServer Config.
Local Open Scope Z_scope.

Record BackendKeyData := mkBackendKeyData { bk_pid : Z; bk_secret : Z }.

Inductive StartupNotification :=
| ParameterStatus (name value : bytes)
| Notice (body : bytes).

(** [format!("{:x}", digest)]. *)
Definition hex_digit (n : Z) : byte := if n <? 10 then z2b (48 + n) else z2b (87 + n).

Definition hex (digest : bytes) : bytes :=
  concat (map (fun b => [hex_digit (b2z b / 16); hex_digit (b2z b mod 16)]) digest).

Inductive SaslMechanism := ScramSha256 | ScramSha256Plus.

#[export] Instance sasl_mechanism_eq_dec : EqDecision SaslMechanism.
Proof. solve_decision. Defined.

Definition sasl_name (m : SaslMechanism) : bytes :=
  match m with
  | ScramSha256 => #"SCRAM-SHA-256"
  | ScramSha256Plus => #"SCRAM-SHA-256-PLUS"
  end.

(** One piece of the NUL-separated list. *)
Definition sasl_of_name (name : bytes) : option SaslMechanism :=
  if bool_decide (name = #"SCRAM-SHA-256") then Some ScramSha256
  else if bool_decide (name = #"SCRAM-SHA-256-PLUS") then Some ScramSha256Plus
  else None.

Definition parse_sasl_mechanisms (body : bytes) : list SaslMechanism :=
  omap sasl_of_name (split x00 body).

Inductive SslReply := NotRequested | ReplyNo | ReplyYes.

Inductive TlsOutcome :=
| Plaintext
| UseTls (verify_host : bool)
| TlsFail.

Definition decide_tls (mode : BackendTlsMode) (reply : SslReply) : TlsOutcome :=
  match mode, reply with
  | TlsDisable, NotRequested => Plaintext
  | TlsPrefer, (NotRequested | ReplyNo) => Plaintext
  | (TlsPrefer | TlsRequire), ReplyYes => UseTls false
  | TlsVerifyFull, ReplyYes => UseTls true
  | (TlsRequire | TlsVerifyFull), (ReplyNo | NotRequested) => TlsFail
  | TlsDisable, (ReplyNo | ReplyYes) => TlsFail
  end.

Definition select_mechanism (mode : ChannelBindingMode) (channel_binding_available : bool)
    (offered : list SaslMechanism) : result PgError SaslMechanism :=
  let plus_offered := bool_decide (ScramSha256Plus ∈ offered) in
  let plain_offered := bool_decide (ScramSha256 ∈ offered) in
  match mode with
  | CbDisable =>
      if plain_offered then Ok ScramSha256
      else Err (UnsupportedAuth
        #"backend requires channel binding, but channel_binding is disabled")
  | CbPrefer =>
      if plus_offered && channel_binding_available then Ok ScramSha256Plus
      else if plain_offered then Ok ScramSha256
      else Err (UnsupportedAuth
        #"backend offered no SCRAM-SHA-256 mechanism the proxy can use")
  | CbRequire =>
      if negb channel_binding_available then
        Err (ChannelBindingRequired
          #"the backend connection is not TLS or its certificate has no defined tls-server-end-point hash")
      else if plus_offered then Ok ScramSha256Plus
      else Err (ChannelBindingRequired #"the backend does not offer SCRAM-SHA-256-PLUS")
  end.

Definition CANCEL_REQUEST_CODE : Z := Z.lor (Z.shiftl 1234 16) 5678.
Definition SSL_REQUEST_CODE : Z := Z.lor (Z.shiftl 1234 16) 5679.
Definition GSSENC_REQUEST_CODE : Z := Z.lor (Z.shiftl 1234 16) 5680.
Definition PROTOCOL_VERSION_NUMBER : Z := Z.lor (Z.shiftl 3 16) 0.

(** The packet of [send_cancel_request]. *)
Definition cancel_packet (key : BackendKeyData) : bytes :=
  u32_to_be 16 ++ u32_to_be CANCEL_REQUEST_CODE ++ u32_to_be (as_u32 (bk_pid key))
  ++ u32_to_be (as_u32 (bk_secret key)).

(** ** Properties *)

(** What a mode admits, given whether the link can be bound. *)
Definition admissible (mode : ChannelBindingMode) (available : bool) (m : SaslMechanism) : Prop :=
  match mode, m with
  | CbDisable, ScramSha256 => True
  | CbDisable, ScramSha256Plus => False
  | CbPrefer, ScramSha256 => True
  | CbPrefer, ScramSha256Plus => available = true
  | CbRequire, ScramSha256 => False
  | CbRequire, ScramSha256Plus => available = true
  end.

(** C27: The mechanism chosen toward the backend is one it offered and the mode
    admits, bound whenever that is possible and admitted; and the choice fails
    only when the backend offered nothing admissible. *)
Theorem select_mechanism_optimal mode available offered :
  match select_mechanism mode available offered with
  | Ok m => m ∈ offered /\ admissible mode available m /\
            (ScramSha256Plus ∈ offered -> admissible mode available ScramSha256Plus ->
             m = ScramSha256Plus)
  | Err _ => forall m, m ∈ offered -> ~ admissible mode available m
  end.
Proof.
  unfold select_mechanism.
  destruct mode, available; simpl; repeat case_bool_decide; simpl;
    try (repeat split; done); intros [] Hin; simpl; try done; auto.
Qed.

(** The list an authenticator sends in [AuthenticationSASL]. *)
Definition sasl_list (names : list bytes) : bytes :=
  concat (map (fun n => n ++ [x00]) names) ++ [x00].

Lemma parse_sasl_list_names names :
  Forall (fun n => x00 ∉ n) names ->
  parse_sasl_mechanisms (sasl_list names) = omap sasl_of_name names.
Proof.
  unfold parse_sasl_mechanisms, sasl_list. induction 1 as [|n names Hn _ IH]; [done|].
  simpl. rewrite <- !app_assoc. simpl. rewrite split_app by done.
  simpl. destruct (sasl_of_name n); [f_equal|]; exact IH.
Qed.

(** A list of mechanisms written by name is read back. *)
Lemma parse_sasl_list ms : parse_sasl_mechanisms (sasl_list (map sasl_name ms)) = ms.
Proof.
  rewrite parse_sasl_list_names.
  - induction ms as [|[] ms IH]; [done| |]; simpl; f_equal; exact IH.
  - apply Forall_map, Forall_true. intros [];
      apply (bool_decide_unpack _); vm_compute; exact I.
Qed.

(** The name under which the proxy offers channel binding to its clients is
    not the one its own client knows: in front of another instance of the
    proxy, and whatever its certificate, it only ever sees the unbound
    mechanism offered. *)
Theorem offered_plus_is_not_recognised v h :
  parse_sasl_mechanisms (sasl_list (mechanisms (authenticator_new v (Some h)))) = [ScramSha256].
Proof. reflexivity. Qed.

(** A cancel packet is what a PostgreSQL server reads as a cancel request for
    that process and secret. *)
Lemma cancel_packet_length key : length (cancel_packet key) = 16%nat.
Proof. reflexivity. Qed.

Section md5.
Context {P : Primitives}.

Definition md5_response (user password salt : bytes) : bytes :=
  let inner := hex (md5_compute (password ++ user)) in
  let outer := md5_compute (inner ++ salt) in
  #"md5" ++ hex outer.

(** Thirty-five bytes, as PostgreSQL stores and expects it. *)
Lemma md5_response_length {HP : PrimitivesOk P} user password salt :
  length (md5_response user password salt) = 35%nat.
Proof.
  assert (H : forall d, length (hex d) = (2 * length d)%nat).
  { induction d as [|b d IH]; [done|]. unfold hex in *. simpl. rewrite IH. lia. }
  unfold md5_response. rewrite length_app, H, md5_length. done.
Qed.

End md5.
