(* ===== verification/Transport.v ===== *)
(** The byte streams of a session and the message buffers it rents: what the
    frontend session ([proxy/conn.rs]) and the backend client
    ([proxy/backend/pg_client.rs]) share.

    The operating system is a script: the bytes the peer sends and what happens
    when they are used up, and how many writes the peer takes.  A write is the
    data between two flushes.  A session's components are reached through the
    class [Session], against which the lemmas are proved. *)
From S2P Require Import Prelude Words RustStr Errors BufferPool.
Local Open Scope Z_scope.

(** What a read or a write meets when the script is used up: an error, the end
    of the stream included, or silence. *)
Inductive StreamEnd := Ends (e : IoError) | Stalls.

Record Stream := mkStream {
  st_in : bytes;
  st_in_end : StreamEnd;
  st_out : list bytes;
  st_room : option nat;
  st_out_end : StreamEnd }.

Definition ended {A} (e : StreamEnd) : poll (result IoError A) :=
  match e with Ends err => Ready (Err err) | Stalls => Pending end.

Definition stream_read (n : nat) (s : Stream) : poll (result IoError bytes) * Stream :=
  if (n <=? length (st_in s))%nat then
    (Ready (Ok (take n (st_in s))),
     mkStream (drop n (st_in s)) (st_in_end s) (st_out s) (st_room s) (st_out_end s))
  else
    (ended (st_in_end s), mkStream [] (st_in_end s) (st_out s) (st_room s) (st_out_end s)).

Definition stream_write (data : bytes) (s : Stream) : poll (result IoError unit) * Stream :=
  match st_room s with
  | Some O => (ended (st_out_end s), s)
  | room => (Ready (Ok tt),
             mkStream (st_in s) (st_in_end s) (st_out s ++ [data]) (pred <$> room) (st_out_end s))
  end.

(** ** Sessions *)

Class Session (S : Type) := {
  sess_pool : S -> MultiBufferPool;
  set_sess_pool : MultiBufferPool -> S -> S;
  sess_stream : S -> Stream;
  set_sess_stream : Stream -> S -> S }.

Class SessionOk (S : Type) (H : Session S) : Prop := {
  pool_set_pool : forall p (s : S), sess_pool (set_sess_pool p s) = p;
  pool_set_stream : forall x (s : S), sess_pool (set_sess_stream x s) = sess_pool s;
  stream_set_pool : forall p (s : S), sess_stream (set_sess_pool p s) = sess_stream s;
  stream_set_stream : forall x (s : S), sess_stream (set_sess_stream x s) = x }.

Section session.
Context {A : Alloc} {S : Type} {HS : Session S}.

(** [read_exact] and [write_all] followed by [flush]. *)
Definition read_exact (n : nat) : IO S IoError bytes :=
  fun s => let '(r, x) := stream_read n (sess_stream s) in (r, set_sess_stream x s).

Definition write_flush (data : bytes) : IO S IoError unit :=
  fun s => let '(r, x) := stream_write data (sess_stream s) in (r, set_sess_stream x s).

(** A future dropped at its deadline: silence becomes the timeout's error. *)
Definition io_timeout {E T} (e : E) (m : IO S E T) : IO S E T :=
  fun s => match m s with
           | (Pending, s') => (Ready (Err e), s')
           | x => x
           end.

Definition drop_pooled (pb : PooledBytes) (s : S) : exec S :=
  p ← pooled_drop pb (sess_pool s); Val (set_sess_pool p s).

(** [let mut buf = pool.get(n); read_exact(&mut buf)?; ..]: the buffer is read
    into, used by [k], and returned to the pool however that ends. *)
Definition with_pooled {E T} (n : Z) (read : IO S E bytes) (k : bytes -> IO S E T) : IO S E T :=
  fun s =>
    match pool_get (sess_pool s) n with
    | Crash c => (Crashed c, s)
    | Val (pb, p) =>
        match read (set_sess_pool p s) with
        | (Ready (Ok data), s1) =>
            let pb := pb_fill pb data in
            io_finally (drop_pooled pb) (k (pb_slice pb)) s1
        | (Ready (Err e), s1) => io_finally (drop_pooled pb) (io_fail e) s1
        | (Pending, s1) => io_finally (drop_pooled pb) io_pending s1
        | (Crashed c, s1) => (Crashed c, s1)
        end
    end.

(** ** Computations that leave the pool whole *)

(** From a well-formed pool, [m] never crashes and ends, by a value, an error or
    silence, with a well-formed pool that rents and returns lead to. *)
Definition pool_safe {E T} (m : IO S E T) : Prop :=
  forall s, pool_ok (sess_pool s) ->
    let '(r, s') := m s in
    (match r with Crashed _ => False | _ => True end) /\
    pool_ok (sess_pool s') /\ pool_moves (sess_pool s) (sess_pool s').

Context {HOk : SessionOk S HS}.

Lemma pool_safe_ret {E T} (x : T) : pool_safe (mret x : IO S E T).
Proof. intros s Hs. done. Qed.

Lemma pool_safe_lift {E T} (r : result E T) : pool_safe (io_lift r).
Proof. intros s Hs. done. Qed.

Lemma pool_safe_fail {E T} (e : E) : pool_safe (io_fail e : IO S E T).
Proof. intros s Hs. done. Qed.

Lemma pool_safe_get {E} : pool_safe (io_get : IO S E S).
Proof. intros s Hs. done. Qed.

Lemma pool_safe_gets {E T} (f : S -> T) : pool_safe (io_gets f : IO S E T).
Proof. intros s Hs. done. Qed.

Lemma pool_safe_modify {E} (f : S -> S) :
  (forall s, sess_pool (f s) = sess_pool s) -> pool_safe (io_modify f : IO S E unit).
Proof. intros Hf s Hs. unfold io_modify. by rewrite Hf. Qed.

Lemma pool_safe_bind {E T U} (m : IO S E T) (k : T -> IO S E U) :
  pool_safe m -> (forall x, pool_safe (k x)) -> pool_safe (m ≫= k).
Proof.
  intros Hm Hk s Hs. specialize (Hm s Hs). unfold mbind, io_bind.
  destruct (m s) as [[[x|e]| |c] s1]; try done. destruct Hm as (_ & Hp & Hz).
  specialize (Hk x s1 Hp). destruct (k x s1) as [r s2].
  destruct Hk as (Hr & Hp2 & Hz2). split; [done|]. split; [done|by etrans].
Qed.

Lemma pool_safe_map_err {E E' T} (f : E -> E') (m : IO S E T) :
  pool_safe m -> pool_safe (io_map_err f m).
Proof.
  intros Hm s Hs. specialize (Hm s Hs). unfold io_map_err.
  destruct (m s) as [[| |] s1]; done.
Qed.

Lemma pool_safe_try {E E' T} (m : IO S E T) :
  pool_safe m -> pool_safe (io_try m : IO S E' (result E T)).
Proof.
  intros Hm s Hs. specialize (Hm s Hs). unfold io_try. destruct (m s) as [[| |] s1]; done.
Qed.

Lemma pool_safe_timeout {E T} (e : E) (m : IO S E T) : pool_safe m -> pool_safe (io_timeout e m).
Proof.
  intros Hm s Hs. specialize (Hm s Hs). unfold io_timeout. destruct (m s) as [[| |] s1]; done.
Qed.

Lemma pool_safe_read n : pool_safe (read_exact n).
Proof.
  intros s Hs. unfold read_exact, stream_read, ended. destruct (_ <=? _)%nat.
  - by rewrite pool_set_stream.
  - rewrite pool_set_stream. by destruct (st_in_end _).
Qed.

Lemma pool_safe_write data : pool_safe (write_flush data).
Proof.
  intros s Hs. unfold write_flush, stream_write, ended.
  destruct (st_room (sess_stream s)) as [[|n]|]; rewrite pool_set_stream; try done.
  by destruct (st_out_end _).
Qed.

(** A state-dependent continuation of [io_get]. *)
Lemma pool_safe_get_bind {E T} (k : S -> IO S E T) :
  (forall s, pool_ok (sess_pool s) ->
     let '(r, s') := k s s in
     (match r with Crashed _ => False | _ => True end) /\
     pool_ok (sess_pool s') /\ pool_moves (sess_pool s) (sess_pool s')) ->
  pool_safe (io_get ≫= k).
Proof. intros Hk s Hs. apply (Hk s Hs). Qed.

Lemma read_exact_Ok n s data s' :
  read_exact n s = (Ready (Ok data), s') ->
  st_in (sess_stream s) = data ++ st_in (sess_stream s') /\ length data = n /\
  s' = set_sess_stream (sess_stream s') s.
Proof.
  unfold read_exact, stream_read, ended. destruct (Nat.leb_spec n (length (st_in (sess_stream s)))).
  - intros [= <- <-]. rewrite !stream_set_stream. simpl. rewrite take_drop, length_take. 
    repeat split. lia.
  - by destruct (st_in_end _).
Qed.

(** What a reader of message bodies gives: exactly [n] bytes. *)
Definition reads_n {E} (n : Z) (m : IO S E bytes) : Prop :=
  forall s data s', m s = (Ready (Ok data), s') -> Z.of_nat (length data) = n.

Context {AOk : AllocOk A}.

(** [io_finally] with the return of a buffer that still fits. *)
Lemma pool_safe_finally {E T} pb (m : IO S E T) s :
  pool_safe m -> pool_ok (sess_pool s) -> pooled_wf (sess_pool s) pb ->
  let '(r, s') := io_finally (drop_pooled pb) m s in
  (match r with Crashed _ => False | _ => True end) /\
  pool_ok (sess_pool s') /\
  forall bs, rtc pool_move (sess_pool s, pb :: bs) (sess_pool s', bs).
Proof.
  intros Hm Hp Hpb. specialize (Hm s Hp). unfold io_finally.
  destruct (m s) as [r s1]. destruct Hm as (Hr & Hp1 & Hz1).
  assert (Hpb1 : pooled_wf (sess_pool s1) pb)
    by (eapply pooled_wf_sizes; [by apply pool_moves_sizes|exact Hpb]).
  destruct (pooled_drop_spec _ _ Hp1 Hpb1) as (p' & Hd & Hp' & _).
  unfold drop_pooled. rewrite Hd. simpl. rewrite pool_set_pool.
  split; [done|]. split; [done|]. intros bs. etrans; [apply Hz1|].
  apply rtc_once. by apply move_return.
Qed.

(** Renting a buffer for a body that fits the pool: lengths stay in their allocations,
    nothing panics, and the buffer is back when the message is done with. *)
Lemma pool_safe_with_pooled {E T} n (read : IO S E bytes) (k : bytes -> IO S E T) s :
  0 <= n -> n <= max_capacity (sess_pool s) -> pool_ok (sess_pool s) ->
  pool_safe read -> reads_n n read -> (forall data, pool_safe (k data)) ->
  let '(r, s') := with_pooled n read k s in
  (match r with Crashed _ => False | _ => True end) /\
  pool_ok (sess_pool s') /\ pool_moves (sess_pool s) (sess_pool s').
Proof.
  intros Hn Hmax Hp Hread Hlen Hk.
  destruct (pool_get_spec (sess_pool s) n Hp ltac:(lia))
    as (pb & p' & Hget & Hl & Hp' & _ & Hpb & _).
  unfold with_pooled. rewrite Hget. specialize (Hread (set_sess_pool p' s)).
  rewrite pool_set_pool in Hread. specialize (Hread Hp').
  specialize (Hlen (set_sess_pool p' s)).
  destruct (read (set_sess_pool p' s)) as [r1 s1]. destruct Hread as (Hr1 & Hp1 & Hz1).
  assert (Hpb1 : pooled_wf (sess_pool s1) pb)
    by (eapply pooled_wf_sizes; [by apply pool_moves_sizes|exact Hpb]).
  assert (Hto : forall bs, rtc pool_move (sess_pool s, bs) (sess_pool s1, pb :: bs)).
  { intros bs. eapply rtc_l; [by apply (move_rent _ _ n)|]. apply Hz1. }
  destruct r1 as [[data|e]| |c]; [| | |done].
  - specialize (Hlen _ _ eq_refl).
    pose proof (pool_safe_finally (pb_fill pb data) (k (pb_slice (pb_fill pb data))) s1 (Hk _) Hp1) as H.
    destruct (io_finally _ _ s1) as [r s2].
    destruct H as (Hr & Hp2 & Hz2); [apply pooled_wf_fill; [lia|done]|].
    split; [done|]. split; [done|]. intros bs. etrans; [apply Hto|].
    eapply rtc_l; [apply (move_fill _ _ _ data); lia|apply Hz2].
  - pose proof (pool_safe_finally pb (io_fail e : IO S E T) s1 (pool_safe_fail e) Hp1 Hpb1) as H.
    destruct (io_finally _ _ s1) as [r s2]. destruct H as (Hr & Hp2 & Hz2).
    split; [done|]. split; [done|]. intros bs. etrans; [apply Hto|apply Hz2].
  - assert (Hpend : pool_safe (io_pending : IO S E T)) by (by intros x Hx).
    pose proof (pool_safe_finally pb io_pending s1 Hpend Hp1 Hpb1) as H.
    destruct (io_finally _ _ s1) as [r s2]. destruct H as (Hr & Hp2 & Hz2).
    split; [done|]. split; [done|]. intros bs. etrans; [apply Hto|apply Hz2].
Qed.

(** The contents of the buffer the continuation sees. *)
Lemma with_pooled_data {E T} n (read : IO S E bytes) (k : bytes -> IO S E T) s pb p data s1 :
  pool_get (sess_pool s) n = Val (pb, p) -> bm_len (pb_buf pb) = n ->
  read (set_sess_pool p s) = (Ready (Ok data), s1) -> Z.of_nat (length data) = n ->
  with_pooled n read k s = io_finally (drop_pooled (pb_fill pb data)) (k data) s1.
Proof.
  intros Hg Hl Hr Hd. unfold with_pooled. rewrite Hg, Hr. rewrite pb_slice_fill by congruence.
  done.
Qed.

(** A rent that ended with a value: the body was read and used, and only the
    pool differs afterwards. *)
Lemma with_pooled_Ok {E T} n (read : IO S E bytes) (k : bytes -> IO S E T) s x s' :
  with_pooled n read k s = (Ready (Ok x), s') ->
  exists p data buf s1 s2 p2,
    read (set_sess_pool p s) = (Ready (Ok data), s1) /\
    k buf s1 = (Ready (Ok x), s2) /\ s' = set_sess_pool p2 s2.
Proof.
  unfold with_pooled. destruct (pool_get (sess_pool s) n) as [[pb p]|]; [|done].
  destruct (read (set_sess_pool p s)) as [[[data|e]| |c] s1] eqn:Hr; try done;
    unfold io_finally, io_fail, io_lift, io_pending, drop_pooled; try by case_match.
  destruct (k _ s1) as [r s2] eqn:Hk. destruct (pooled_drop _ _) as [p2|]; simpl; [|done].
  intros [= -> <-]. exists p, data. do 3 eexists. exists p2. split; [exact Hr|]. split; [exact Hk|].
  reflexivity.
Qed.

End session.

(** ** Computations that do not wait for ever *)

Section prompt.
Context {S : Type}.

Definition prompt {E T} (m : IO S E T) : Prop := forall s, (m s).1 <> Pending.

Lemma prompt_ret {E T} (x : T) : prompt (mret x : IO S E T).
Proof. by intros s. Qed.

Lemma prompt_lift {E T} (r : result E T) : prompt (io_lift r : IO S E T).
Proof. by intros s. Qed.

Lemma prompt_fail {E T} (e : E) : prompt (io_fail e : IO S E T).
Proof. by intros s. Qed.

Lemma prompt_modify {E} (f : S -> S) : prompt (io_modify f : IO S E unit).
Proof. by intros s. Qed.

Lemma prompt_bind {E T U} (m : IO S E T) (k : T -> IO S E U) :
  prompt m -> (forall x, prompt (k x)) -> prompt (m ≫= k).
Proof.
  intros Hm Hk s. specialize (Hm s). unfold mbind, io_bind.
  destruct (m s) as [[[x|e]| |c] s1]; try done. apply Hk.
Qed.

(** A deadline ends any wait. *)
Lemma prompt_timeout {E T} (e : E) (m : IO S E T) : prompt (io_timeout e m).
Proof. intros s. unfold io_timeout. by destruct (m s) as [[| |] s1]. Qed.

End prompt.

Ltac prompt_step :=
  first
  [ apply prompt_ret | apply prompt_lift | apply prompt_fail | apply prompt_modify
  | apply prompt_timeout | apply prompt_bind; [|intros ?] ].

(** ** Computations that only consume input *)

Section shrinking.
Context {A : Alloc} {S : Type} {HS : Session S} {HOk : SessionOk S HS}.

Definition input_left (s : S) : nat := length (st_in (sess_stream s)).

Definition shrinks {E T} (m : IO S E T) : Prop :=
  io_preserves (fun s s' => (input_left s' <= input_left s)%nat) m.

Lemma shrinks_ret {E T} (x : T) : shrinks (mret x : IO S E T).
Proof. intros s. done. Qed.

Lemma shrinks_lift {E T} (r : result E T) : shrinks (io_lift r).
Proof. intros s. done. Qed.

Lemma shrinks_fail {E T} (e : E) : shrinks (io_fail e : IO S E T).
Proof. intros s. done. Qed.

Lemma shrinks_get {E} : shrinks (io_get : IO S E S).
Proof. intros s. done. Qed.

Lemma shrinks_modify {E} (f : S -> S) :
  (forall s, sess_stream (f s) = sess_stream s) -> shrinks (io_modify f : IO S E unit).
Proof. intros Hf s. unfold io_modify, input_left. simpl. by rewrite Hf. Qed.

Lemma shrinks_bind {E T U} (m : IO S E T) (k : T -> IO S E U) :
  shrinks m -> (forall x, shrinks (k x)) -> shrinks (m ≫= k).
Proof. apply io_preserves_bind. intros x y z Hxy Hyz. lia. Qed.

Lemma shrinks_map_err {E E' T} (f : E -> E') (m : IO S E T) : shrinks m -> shrinks (io_map_err f m).
Proof. intros Hm s. specialize (Hm s). unfold io_map_err. by destruct (m s) as [[| |] s1]. Qed.

Lemma shrinks_timeout {E T} (e : E) (m : IO S E T) : shrinks m -> shrinks (io_timeout e m).
Proof. intros Hm s. specialize (Hm s). unfold io_timeout. by destruct (m s) as [[| |] s1]. Qed.

Lemma shrinks_local {L E T} (l : L) (m : IO L E T) : shrinks (io_local l m : IO S E (T * L)).
Proof. intros s. unfold io_local. by destruct (m l) as [[[|]| |] l']. Qed.

Lemma shrinks_read n : shrinks (read_exact n).
Proof.
  intros s. unfold read_exact, stream_read, input_left. destruct (_ <=? _)%nat; simpl;
    rewrite stream_set_stream; simpl; [rewrite length_drop|]; lia.
Qed.

Lemma shrinks_write data : shrinks (write_flush data).
Proof.
  intros s. unfold write_flush, stream_write, input_left.
  by destruct (st_room (sess_stream s)) as [[|n]|]; simpl; rewrite stream_set_stream.
Qed.

Lemma drop_pooled_stream pb (s s' : S) : drop_pooled pb s = Val s' -> sess_stream s' = sess_stream s.
Proof.
  unfold drop_pooled. destruct (pooled_drop _ _); simpl; [|done]. intros [= <-].
  apply stream_set_pool.
Qed.

Lemma shrinks_finally {E T} pb (m : IO S E T) : shrinks m -> shrinks (io_finally (drop_pooled pb) m).
Proof.
  intros Hm s. specialize (Hm s). unfold io_finally. destruct (m s) as [r s1].
  destruct (drop_pooled pb s1) as [s2|] eqn:Hd; [|done]. simpl in *.
  unfold input_left in *. by rewrite (drop_pooled_stream _ _ _ Hd).
Qed.

Lemma shrinks_with_pooled {E T} n (read : IO S E bytes) (k : bytes -> IO S E T) :
  shrinks read -> (forall d, shrinks (k d)) -> shrinks (with_pooled n read k).
Proof.
  intros Hr Hk s. unfold with_pooled. destruct (pool_get _ _) as [[pb p]|]; [|done].
  specialize (Hr (set_sess_pool p s)).
  assert (Hs : input_left (set_sess_pool p s) = input_left s)
    by (unfold input_left; by rewrite stream_set_pool).
  cbv beta in Hr. rewrite Hs in Hr. destruct (read (set_sess_pool p s)) as [[[d|e]| |] s1]; simpl in *; [| | |done].
  - pose proof (shrinks_finally (pb_fill pb d) (k (pb_slice (pb_fill pb d))) (Hk _) s1). simpl in *. lia.
  - pose proof (shrinks_finally pb (io_fail e : IO S E T) (shrinks_fail e) s1). simpl in *. lia.
  - assert (Hp : shrinks (io_pending : IO S E T)) by (intros s2; unfold io_pending; simpl; lia).
    pose proof (shrinks_finally pb io_pending Hp s1). simpl in *. lia.
Qed.

(** What a successful read consumed. *)
Lemma read_exact_consumes n (s s' : S) data :
  read_exact n s = (Ready (Ok data), s') -> (input_left s' + n = input_left s)%nat.
Proof.
  unfold read_exact, stream_read, input_left, ended.
  destruct (Nat.leb_spec n (length (st_in (sess_stream s)))).
  - intros [= <- <-]. rewrite stream_set_stream. simpl. rewrite length_drop. lia.
  - by destruct (st_in_end _).
Qed.

End shrinking.

Section locals.
Context {A : Alloc} {S : Type} {HS : Session S}.

(** A local computation that never crashes. *)
Lemma pool_safe_local {L E T} (l : L) (m : IO L E T) :
  (match (m l).1 with Crashed _ => False | _ => True end) ->
  pool_safe (io_local l m : IO S E (T * L)).
Proof. intros Hm s Hs. unfold io_local. by destruct (m l) as [[[|]| |] l']. Qed.

Lemma pool_safe_pending {E T} : pool_safe (io_pending : IO S E T).
Proof. intros s Hs. done. Qed.

End locals.

Create HintDb shrinks discriminated.

Ltac shrinks_step :=
  first
  [ solve [eauto 2 with shrinks] | apply shrinks_ret | apply shrinks_lift | apply shrinks_fail | apply shrinks_get
  | apply shrinks_modify; intros; done
  | apply shrinks_bind; [|intros ?]
  | apply shrinks_map_err | apply shrinks_timeout | apply shrinks_local
  | apply shrinks_read | apply shrinks_write
  | apply shrinks_with_pooled; [|intros ?] ].

Create HintDb pool_safe discriminated.

(** Descends through a computation's binds and cases. *)
Ltac pool_safe_step :=
  idtac; lazymatch goal with
  | |- pool_safe (_ ≫= _) => apply pool_safe_bind; [|intros ?]
  | |- pool_safe (mret _) => apply pool_safe_ret
  | |- pool_safe (io_lift _) => apply pool_safe_lift
  | |- pool_safe (io_fail _) => apply pool_safe_fail
  | |- pool_safe io_get => apply pool_safe_get
  | |- pool_safe (io_gets _) => apply pool_safe_gets
  | |- pool_safe (io_modify _) => apply pool_safe_modify; intros; done
  | |- pool_safe (io_map_err _ _) => apply pool_safe_map_err
  | |- pool_safe (io_try _) => apply pool_safe_try
  | |- pool_safe (io_timeout _ _) => apply pool_safe_timeout
  | |- pool_safe (read_exact _) => apply pool_safe_read
  | |- pool_safe (write_flush _) => apply pool_safe_write
  | |- pool_safe _ =>
      solve [eauto 2 with pool_safe]
  end.

(** ** Relations between the states before and after

    A preorder on session states that ignores the pool and the stream is kept by
    reading, writing and renting; [preserves_step] follows a computation's
    structure. *)

Section preserving.
Context {A : Alloc} {S : Type} {HS : Session S}.
Context (R : S -> S -> Prop) {HR : PreOrder R}.
Context (Rpool : forall p s, R s (set_sess_pool p s)).
Context (Rstream : forall x s, R s (set_sess_stream x s)).

Lemma preserves_same {E T} (m : IO S E T) : (forall s, (m s).2 = s) -> io_preserves R m.
Proof. intros Hm s. rewrite Hm. reflexivity. Qed.

Lemma preserves_ret {E T} (x : T) : io_preserves R (mret x : IO S E T).
Proof. by apply preserves_same. Qed.

Lemma preserves_lift {E T} (r : result E T) : io_preserves R (io_lift r : IO S E T).
Proof. by apply preserves_same. Qed.

Lemma preserves_fail {E T} (e : E) : io_preserves R (io_fail e : IO S E T).
Proof. by apply preserves_same. Qed.

Lemma preserves_get {E} : io_preserves R (io_get : IO S E S).
Proof. by apply preserves_same. Qed.

Lemma preserves_pending {E T} : io_preserves R (io_pending : IO S E T).
Proof. by apply preserves_same. Qed.

Lemma preserves_local {L E T} (l : L) (m : IO L E T) :
  io_preserves R (io_local l m : IO S E (T * L)).
Proof. apply preserves_same. intros s. unfold io_local. by destruct (m l) as [[[|]| |] l']. Qed.

Lemma preserves_modify {E} (f : S -> S) :
  (forall s, R s (f s)) -> io_preserves R (io_modify f : IO S E unit).
Proof. intros Hf s. apply Hf. Qed.

Lemma preserves_bind {E T U} (m : IO S E T) (k : T -> IO S E U) :
  io_preserves R m -> (forall x, io_preserves R (k x)) -> io_preserves R (m ≫= k).
Proof. apply io_preserves_bind, HR. Qed.

Lemma preserves_map_err {E E' T} (f : E -> E') (m : IO S E T) :
  io_preserves R m -> io_preserves R (io_map_err f m).
Proof. intros Hm s. specialize (Hm s). unfold io_map_err. by destruct (m s) as [[[|]| |] s']. Qed.

Lemma preserves_try {E E' T} (m : IO S E T) :
  io_preserves R m -> io_preserves R (io_try m : IO S E' (result E T)).
Proof. intros Hm s. specialize (Hm s). unfold io_try. by destruct (m s) as [[[|]| |] s']. Qed.

Lemma preserves_read n : io_preserves R (read_exact n : IO S IoError bytes).
Proof. intros s. unfold read_exact. destruct (stream_read _ _). apply Rstream. Qed.

Lemma preserves_write data : io_preserves R (write_flush data : IO S IoError unit).
Proof. intros s. unfold write_flush. destruct (stream_write _ _). apply Rstream. Qed.

Lemma preserves_finally {E T} pb (m : IO S E T) :
  io_preserves R m -> io_preserves R (io_finally (drop_pooled pb) m).
Proof.
  intros Hm s. specialize (Hm s). unfold io_finally, drop_pooled. destruct (m s) as [r s1].
  destruct (pooled_drop _ _) as [p|]; simpl in *; [|done]. etrans; [exact Hm|apply Rpool].
Qed.

Lemma preserves_with_pooled {E T} n (read : IO S E bytes) (k : bytes -> IO S E T) :
  io_preserves R read -> (forall d, io_preserves R (k d)) ->
  io_preserves R (with_pooled n read k).
Proof.
  intros Hr Hk s. unfold with_pooled. destruct (pool_get _ _) as [[pb p]|]; [|reflexivity].
  etrans; [apply (Rpool p)|]. specialize (Hr (set_sess_pool p s)).
  destruct (read (set_sess_pool p s)) as [[[d|e]| |c] s1]; simpl in Hr; [..|exact Hr];
    (etrans; [exact Hr|]); apply preserves_finally; [apply Hk|apply preserves_fail|apply preserves_pending].
Qed.

End preserving.

Create HintDb preserves discriminated.

Ltac preserves_step :=
  first
  [ solve [eauto 2 with preserves]
  | apply preserves_ret; exact _ | apply preserves_lift; exact _ | apply preserves_fail; exact _
  | apply preserves_get; exact _ | apply preserves_pending; exact _
  | apply preserves_local; exact _
  | apply preserves_modify; intros; done
  | apply preserves_bind; [exact _| |intros ?]
  | apply preserves_map_err | apply preserves_try
  | apply preserves_read; intros; done | apply preserves_write; intros; done
  | apply preserves_with_pooled; [exact _|intros; done| |intros ?] ].
