(* ===== verification/Dialogue.v ===== *)
(** Dialogues that go well: what a computation of a session returns, reads and
    writes when its peer plays along.

    [talks sz d m input output x d'] says that [m], run on a session in the
    logical state [d], with a pool of bucket sizes [sz] and a peer that takes all
    that is written, reads exactly [input], writes exactly the messages
    [output] and returns [x] in the logical state [d'].  The logical state is the
    session but for its pool and its stream. *)
From S2P Require Import Prelude Words RustStr Errors BufferPool Transport.
Local Open Scope Z_scope.

(** The pool and the stream are fields of their own. *)
Class SessionFrame (S : Type) (H : Session S) : Prop := {
  set_pool_twice : forall p q (s : S), set_sess_pool p (set_sess_pool q s) = set_sess_pool p s;
  set_stream_twice : forall x y (s : S),
    set_sess_stream x (set_sess_stream y s) = set_sess_stream x s;
  set_pool_stream : forall p x (s : S),
    set_sess_pool p (set_sess_stream x s) = set_sess_stream x (set_sess_pool p s);
  set_pool_self : forall s : S, set_sess_pool (sess_pool s) s = s;
  set_stream_self : forall s : S, set_sess_stream (sess_stream s) s = s }.

Section talks.
Context {A : Alloc} {AOk : AllocOk A}.
Context {S : Type} {HS : Session S} {HOk : SessionOk S HS} {HF : SessionFrame S HS}.

(** [s] is [d] with its own pool and stream. *)
Definition io_frame (d s : S) : Prop := exists p x, s = set_sess_pool p (set_sess_stream x d).

#[export] Instance io_frame_preorder : PreOrder io_frame.
Proof.
  split.
  - intros s. exists (sess_pool s), (sess_stream s). by rewrite set_stream_self, set_pool_self.
  - intros d s t (p & x & ->) (p' & x' & ->). exists p', x'.
    by rewrite <- set_pool_stream, set_stream_twice, set_pool_twice.
Qed.

Lemma io_frame_pool p s : io_frame s (set_sess_pool p s).
Proof. exists p, (sess_stream s). by rewrite set_stream_self. Qed.

Lemma io_frame_stream x s : io_frame s (set_sess_stream x s).
Proof. exists (sess_pool s), x. by rewrite set_pool_stream, set_pool_self. Qed.

(** A session in good order whose peer takes what is written. *)
Definition live (sz : list Z) (s : S) : Prop :=
  pool_ok (sess_pool s) /\ sizes (sess_pool s) = sz /\ st_room (sess_stream s) = None.

Definition talks {E T} (sz : list Z) (d : S) (m : IO S E T) (input : bytes) (output : list bytes)
    (x : T) (d' : S) : Prop :=
  forall s rest, io_frame d s -> live sz s -> st_in (sess_stream s) = input ++ rest ->
  exists s', m s = (Ready (Ok x), s') /\ io_frame d' s' /\ live sz s' /\
    st_in (sess_stream s') = rest /\ st_out (sess_stream s') = st_out (sess_stream s) ++ output.

(** The same, for a result and a state of which only [Q] is known. *)
Definition leads {E T} (sz : list Z) (d : S) (m : IO S E T) (input : bytes) (output : list bytes)
    (Q : T -> S -> Prop) : Prop :=
  forall s rest, io_frame d s -> live sz s -> st_in (sess_stream s) = input ++ rest ->
  exists s' x d', m s = (Ready (Ok x), s') /\ io_frame d' s' /\ live sz s' /\
    st_in (sess_stream s') = rest /\ st_out (sess_stream s') = st_out (sess_stream s) ++ output /\
    Q x d'.

Section rules.
Context {E : Type} (sz : list Z).

Lemma talks_ret {T} d (x : T) : talks sz d (mret x : IO S E T) [] [] x d.
Proof. intros s rest Hf Hl Hin. exists s. by rewrite app_nil_r. Qed.

Lemma talks_lift {T} d (x : T) : talks sz d (io_lift (Ok x) : IO S E T) [] [] x d.
Proof. intros s rest Hf Hl Hin. exists s. by rewrite app_nil_r. Qed.

Lemma talks_bind {T U} d d1 d2 i1 i2 o1 o2 x y (m : IO S E T) (k : T -> IO S E U) :
  talks sz d m i1 o1 x d1 -> talks sz d1 (k x) i2 o2 y d2 ->
  talks sz d (m ≫= k) (i1 ++ i2) (o1 ++ o2) y d2.
Proof.
  intros Hm Hk s rest Hf Hl Hin. rewrite <- app_assoc in Hin.
  destruct (Hm s _ Hf Hl Hin) as (s1 & H1 & Hf1 & Hl1 & Hi1 & Ho1).
  destruct (Hk s1 _ Hf1 Hl1 Hi1) as (s2 & H2 & Hf2 & Hl2 & Hi2 & Ho2).
  exists s2. unfold mbind, io_bind. rewrite H1. by rewrite Ho2, Ho1, <- app_assoc.
Qed.

(** The common cases of a bind: a first part that is silent, one that only
    writes a message, one that only reads. *)
Lemma talks_then {T U} d d1 d2 i o x y (m : IO S E T) (k : T -> IO S E U) :
  talks sz d m [] [] x d1 -> talks sz d1 (k x) i o y d2 -> talks sz d (m ≫= k) i o y d2.
Proof. apply (talks_bind d d1 d2 [] i [] o). Qed.

Lemma talks_says {T U} d d1 d2 w i o x y (m : IO S E T) (k : T -> IO S E U) :
  talks sz d m [] [w] x d1 -> talks sz d1 (k x) i o y d2 -> talks sz d (m ≫= k) i (w :: o) y d2.
Proof. apply (talks_bind d d1 d2 [] i [w] o). Qed.

Lemma talks_hears {T U} d d1 d2 i1 i2 o x y (m : IO S E T) (k : T -> IO S E U) :
  talks sz d m i1 [] x d1 -> talks sz d1 (k x) i2 o y d2 ->
  talks sz d (m ≫= k) (i1 ++ i2) o y d2.
Proof. apply (talks_bind d d1 d2 i1 i2 [] o). Qed.

Lemma talks_hears_last {T U} d d1 d2 i o x y (m : IO S E T) (k : T -> IO S E U) :
  talks sz d m i [] x d1 -> talks sz d1 (k x) [] o y d2 -> talks sz d (m ≫= k) i o y d2.
Proof. rewrite <- (app_nil_r i) at 2. apply talks_hears. Qed.

Lemma talks_get {U} d d2 i o y (k : S -> IO S E U) :
  (forall s, io_frame d s -> talks sz d (k s) i o y d2) -> talks sz d (io_get ≫= k) i o y d2.
Proof. intros Hk s rest Hf Hl Hin. exact (Hk s Hf s rest Hf Hl Hin). Qed.

Lemma talks_modify d (f : S -> S) :
  (forall s, io_frame d s -> io_frame (f d) (f s)) ->
  (forall s, sess_pool (f s) = sess_pool s) -> (forall s, sess_stream (f s) = sess_stream s) ->
  talks sz d (io_modify f : IO S E unit) [] [] tt (f d).
Proof.
  intros Hff Hp Hx s rest Hf Hl Hin. exists (f s). unfold live. rewrite Hp, Hx, app_nil_r.
  split; [done|]. split; [by apply Hff|]. done.
Qed.

Lemma talks_local {L T} d (l l' : L) (x : T) (m : IO L E T) :
  m l = (Ready (Ok x), l') -> talks sz d (io_local l m : IO S E (T * L)) [] [] (x, l') d.
Proof.
  intros Hm s rest Hf Hl Hin. exists s. unfold io_local. rewrite Hm, app_nil_r. done.
Qed.

Lemma talks_map_err {E' T} d d' i o x (f : E' -> E) (m : IO S E' T) :
  talks sz d m i o x d' -> talks sz d (io_map_err f m) i o x d'.
Proof.
  intros Hm s rest Hf Hl Hin. destruct (Hm s rest Hf Hl Hin) as (s' & H & ?).
  exists s'. unfold io_map_err. by rewrite H.
Qed.

Lemma talks_timeout {T} d d' i o x (e : E) (m : IO S E T) :
  talks sz d m i o x d' -> talks sz d (io_timeout e m) i o x d'.
Proof.
  intros Hm s rest Hf Hl Hin. destruct (Hm s rest Hf Hl Hin) as (s' & H & ?).
  exists s'. unfold io_timeout. by rewrite H.
Qed.

Lemma talks_try {E' T} d d' i o x (m : IO S E' T) :
  talks sz d m i o x d' -> talks sz d (io_try m : IO S E (result E' T)) i o (Ok x) d'.
Proof.
  intros Hm s rest Hf Hl Hin. destruct (Hm s rest Hf Hl Hin) as (s' & H & ?).
  exists s'. unfold io_try. by rewrite H.
Qed.

(** The same computation, by another equation. *)
Lemma talks_eq {T} d d' i o x (m m' : IO S E T) :
  (forall s, io_frame d s -> m s = m' s) -> talks sz d m' i o x d' -> talks sz d m i o x d'.
Proof. intros Heq Hm s rest Hf Hl Hin. rewrite Heq by done. by apply Hm. Qed.

Lemma leads_talks {T} d d' i o x (m : IO S E T) (Q : T -> S -> Prop) :
  talks sz d m i o x d' -> Q x d' -> leads sz d m i o Q.
Proof.
  intros Hm HQ s rest Hf Hl Hin. destruct (Hm s rest Hf Hl Hin) as (s' & ? & ? & ? & ? & ?).
  by exists s', x, d'.
Qed.

Lemma talks_leads {T} d d' i o x (m : IO S E T) :
  leads sz d m i o (fun y e => y = x /\ e = d') -> talks sz d m i o x d'.
Proof.
  intros Hm s rest Hf Hl Hin. destruct (Hm s rest Hf Hl Hin) as (s' & y & e & H). exists s'.
  naive_solver.
Qed.

(** What is written may depend on what is known of the first part's result. *)
Lemma leads_bind {T U} d i1 i2 o1 o2 (m : IO S E T) (k : T -> IO S E U) Q1 Q2 :
  leads sz d m i1 o1 Q1 -> (forall x d1, Q1 x d1 -> leads sz d1 (k x) i2 o2 Q2) ->
  leads sz d (m ≫= k) (i1 ++ i2) (o1 ++ o2) Q2.
Proof.
  intros Hm Hk s rest Hf Hl Hin. rewrite <- app_assoc in Hin.
  destruct (Hm s _ Hf Hl Hin) as (s1 & x & d1 & H1 & Hf1 & Hl1 & Hi1 & Ho1 & Hq).
  destruct (Hk x d1 Hq s1 _ Hf1 Hl1 Hi1) as (s2 & y & d2 & H2 & Hf2 & Hl2 & Hi2 & Ho2 & Hq2).
  exists s2, y, d2. unfold mbind, io_bind. rewrite H1. by rewrite Ho2, Ho1, <- app_assoc.
Qed.

Lemma leads_then {T U} d d1 i o x (m : IO S E T) (k : T -> IO S E U) Q :
  talks sz d m [] [] x d1 -> leads sz d1 (k x) i o Q -> leads sz d (m ≫= k) i o Q.
Proof.
  intros Hm Hk. apply (leads_bind d [] i [] o _ _ (fun y e => y = x /\ e = d1));
    [by eapply leads_talks|by intros ? ? [-> ->]].
Qed.

Lemma leads_get {U} d i o (k : S -> IO S E U) Q :
  (forall s, io_frame d s -> leads sz d (k s) i o Q) -> leads sz d (io_get ≫= k) i o Q.
Proof. intros Hk s rest Hf Hl Hin. exact (Hk s Hf s rest Hf Hl Hin). Qed.

Lemma leads_map_err {E' T} d i o (f : E' -> E) (m : IO S E' T) Q :
  leads sz d m i o Q -> leads sz d (io_map_err f m) i o Q.
Proof.
  intros Hm s rest Hf Hl Hin. destruct (Hm s rest Hf Hl Hin) as (s' & x & d' & H & ?).
  exists s', x, d'. unfold io_map_err. by rewrite H.
Qed.

End rules.

Lemma talks_read sz d data n :
  length data = n -> talks sz d (read_exact n : IO S IoError bytes) data [] data d.
Proof.
  intros <- s rest Hf (Hp & Hz & Hr) Hin. unfold read_exact, stream_read.
  rewrite Hin, length_app, (proj2 (Nat.leb_le _ _)) by lia.
  rewrite take_app_length, drop_app_length. eexists. split; [reflexivity|].
  unfold live. rewrite pool_set_stream, stream_set_stream, app_nil_r. cbn.
  split; [|done]. etrans; [exact Hf|apply io_frame_stream].
Qed.

Lemma talks_write sz d data :
  talks sz d (write_flush data : IO S IoError unit) [] [data] tt d.
Proof.
  intros s rest Hf (Hp & Hz & Hr) Hin. unfold write_flush, stream_write. rewrite Hr.
  eexists. split; [reflexivity|]. unfold live. rewrite pool_set_stream, stream_set_stream. cbn.
  split; [|done]. etrans; [exact Hf|apply io_frame_stream].
Qed.

Lemma drop_pooled_live sz pb d s :
  io_frame d s -> live sz s -> pooled_wf (sess_pool s) pb ->
  exists s', drop_pooled pb s = Val s' /\ io_frame d s' /\ live sz s' /\
    sess_stream s' = sess_stream s.
Proof.
  intros Hf (Hp & Hz & Hr) Hpb. destruct (pooled_drop_spec _ _ Hp Hpb) as (p' & Hd & Hp' & Hz').
  exists (set_sess_pool p' s). unfold drop_pooled, live. rewrite Hd. cbn.
  rewrite pool_set_pool, stream_set_pool, Hz'. split; [done|].
  split; [|done]. etrans; [exact Hf|apply io_frame_pool].
Qed.

(** A body of the right length is read into a rented buffer, used, and the buffer
    is given back. *)
Lemma leads_with_pooled {E T} sz d data i o n (read : IO S E bytes) (k : bytes -> IO S E T) Q :
  Z.of_nat (length data) = n -> n <= default 0 (last sz) ->
  talks sz d read data [] data d -> leads sz d (k data) i o Q ->
  leads sz d (with_pooled n read k) (data ++ i) o Q.
Proof.
  intros Hn Hmax Hread Hk s rest Hf Hl Hin. pose proof Hl as (Hp & Hz & Hr).
  rewrite <- app_assoc in Hin.
  destruct (pool_get_spec (sess_pool s) n Hp) as (pb & p & Hget & Hbl & Hp1 & Hz1 & Hpb & _).
  { rewrite max_capacity_sizes, Hz. lia. }
  destruct (Hread (set_sess_pool p s) (i ++ rest)) as (s1 & H1 & Hf1 & Hl1 & Hi1 & Ho1).
  { etrans; [exact Hf|apply io_frame_pool]. }
  { unfold live. rewrite pool_set_pool, stream_set_pool. split; [done|split; [congruence|done]]. }
  { by rewrite stream_set_pool. }
  rewrite (with_pooled_data n read k s pb p data s1) by (done || congruence).
  destruct (Hk s1 rest Hf1 Hl1 Hi1) as (s2 & x & d' & H2 & Hf2 & Hl2 & Hi2 & Ho2 & Hq).
  unfold io_finally. rewrite H2.
  destruct (drop_pooled_live sz (pb_fill pb data) d' s2 Hf2 Hl2) as (s3 & H3 & Hf3 & Hl3 & Hx3).
  { apply (pooled_wf_sizes p); [|by apply pooled_wf_fill; [congruence|]].
    destruct Hl2 as (_ & Hz2 & _). congruence. }
  rewrite H3. exists s3, x, d'. rewrite Hx3, Ho2, Ho1, app_nil_r, stream_set_pool. done.
Qed.

Lemma talks_with_pooled {E T} sz d d' data i o x n (read : IO S E bytes) (k : bytes -> IO S E T) :
  Z.of_nat (length data) = n -> n <= default 0 (last sz) ->
  talks sz d read data [] data d -> talks sz d (k data) i o x d' ->
  talks sz d (with_pooled n read k) (data ++ i) o x d'.
Proof.
  intros Hn Hmax Hread Hk. apply talks_leads, leads_with_pooled; [done..|].
  by eapply leads_talks.
Qed.

End talks.
