(* ===== verification/PgClient.v ===== *)
(** The backend client: [proxy/backend/pg_client.rs] and the timeouts of
    [proxy/backend/timeout_stream.rs].

    The network is the record [BackendEnv]: what dialling the backend gives,
    what the TLS library does with a stream under a verification policy, and the
    random bytes drawn.  A read or write on which the peer stays silent is ended
    by the timeout of that operation, with the error of the enclosing one. *)
From S2P Require Import Prelude Words RustStr Errors BufferPool Packet Crypto Tls Verifier.
From S2P Require Import ScramServer ScramClient Config BackendPolicy Transport.
Local Open Scope Z_scope.

Record PgConfig := mkPgConfig {
  pc_client_key : option bytes;
  pc_server_key : option bytes;
  pc_stored_key : option bytes;
  pc_password : option bytes;
  pc_user : bytes;
  pc_database : bytes;
  pc_connect_timeout : Z;
  pc_startup_timeout : Z;
  pc_host : bytes;
  pc_port : Z;
  pc_tls : BackendTlsConfig;
  pc_salt : bytes;
  pc_iterations : Z;
  pc_startup_params : list (bytes * bytes) }.

Definition pg_tls_server_name (c : PgConfig) : option bytes :=
  match bt_domain (pc_tls c) with
  | Some d => Some d
  | None => Some (pc_host c)
  end.

Record PgClient := mkPgClient {
  cl_pool : MultiBufferPool;
  cl_stream : Stream;
  cl_startup_notifications : list StartupNotification;
  cl_backend_key : option BackendKeyData;
  cl_ready_status : option byte;
  cl_server_signature_verified : bool;
  cl_peer_cert_hash : option CertHash;
  cl_host : bytes;
  cl_port : Z;
  cl_connect_timeout : Z }.

(** Field assignments. *)
Definition set_cl_pool (p : MultiBufferPool) (c : PgClient) : PgClient :=
  mkPgClient p (cl_stream c) (cl_startup_notifications c) (cl_backend_key c) (cl_ready_status c)
    (cl_server_signature_verified c) (cl_peer_cert_hash c) (cl_host c) (cl_port c)
    (cl_connect_timeout c).

Definition set_cl_stream (x : Stream) (c : PgClient) : PgClient :=
  mkPgClient (cl_pool c) x (cl_startup_notifications c) (cl_backend_key c) (cl_ready_status c)
    (cl_server_signature_verified c) (cl_peer_cert_hash c) (cl_host c) (cl_port c)
    (cl_connect_timeout c).

Definition push_notification (n : StartupNotification) (c : PgClient) : PgClient :=
  mkPgClient (cl_pool c) (cl_stream c) (cl_startup_notifications c ++ [n]) (cl_backend_key c)
    (cl_ready_status c) (cl_server_signature_verified c) (cl_peer_cert_hash c) (cl_host c)
    (cl_port c) (cl_connect_timeout c).

Definition set_backend_key (k : BackendKeyData) (c : PgClient) : PgClient :=
  mkPgClient (cl_pool c) (cl_stream c) (cl_startup_notifications c) (Some k)
    (cl_ready_status c) (cl_server_signature_verified c) (cl_peer_cert_hash c) (cl_host c)
    (cl_port c) (cl_connect_timeout c).

Definition set_ready_status (b : byte) (c : PgClient) : PgClient :=
  mkPgClient (cl_pool c) (cl_stream c) (cl_startup_notifications c) (cl_backend_key c)
    (Some b) (cl_server_signature_verified c) (cl_peer_cert_hash c) (cl_host c) (cl_port c)
    (cl_connect_timeout c).

Definition set_verified (b : bool) (c : PgClient) : PgClient :=
  mkPgClient (cl_pool c) (cl_stream c) (cl_startup_notifications c) (cl_backend_key c)
    (cl_ready_status c) b (cl_peer_cert_hash c) (cl_host c) (cl_port c) (cl_connect_timeout c).

Definition set_peer_cert_hash (h : option CertHash) (c : PgClient) : PgClient :=
  mkPgClient (cl_pool c) (cl_stream c) (cl_startup_notifications c) (cl_backend_key c)
    (cl_ready_status c) (cl_server_signature_verified c) h (cl_host c) (cl_port c)
    (cl_connect_timeout c).

#[export] Instance pg_session : Session PgClient := {|
  sess_pool := cl_pool; set_sess_pool := set_cl_pool;
  sess_stream := cl_stream; set_sess_stream := set_cl_stream |}.

#[export] Instance pg_session_ok : SessionOk PgClient pg_session.
Proof. by split. Qed.

(** ** Pure parts *)

Definition unsupported_method_message (code : Z) : bytes :=
  let named (method : bytes) :=
    #"backend requested " ++ method ++ #" authentication, which wirechaos does not support" in
  if code =? 2 then named #"Kerberos"
  else if code =? 6 then named #"SCM credentials"
  else if code =? 7 then named #"GSSAPI"
  else if code =? 8 then named #"GSSAPI continuation"
  else if code =? 9 then named #"SSPI"
  else #"backend requested unsupported authentication method " ++ show_uint code.

Definition lossy_mechanism_names (body : bytes) : list bytes :=
  map from_utf8_lossy (List.filter (fun name => negb (bool_decide (name = []))) (split x00 body)).

(** The inner loop of [parse_error_response]: the bytes before the next NUL,
    and what follows that NUL. *)
Fixpoint until_nul (s : bytes) : bytes * bytes :=
  match s with
  | [] => ([], [])
  | c :: s' => if bool_decide (c = x00) then ([], s')
               else let '(v, rest) := until_nul s' in (c :: v, rest)
  end.

Record ErrorFields := mkErrorFields {
  ef_severity : bytes;
  ef_code : bytes;
  ef_message : bytes }.

Definition set_error_field (field : byte) (value : bytes) (f : ErrorFields) : ErrorFields :=
  if bool_decide (field = x53) || bool_decide (field = x56)
  then mkErrorFields value (ef_code f) (ef_message f)
  else if bool_decide (field = x43) then mkErrorFields (ef_severity f) value (ef_message f)
  else if bool_decide (field = x4d) then mkErrorFields (ef_severity f) (ef_code f) value
  else f.

(** The outer loop; each step consumes a byte, so the body's length is fuel. *)
Fixpoint parse_error_fields (fuel : nat) (body : bytes) (f : ErrorFields) : ErrorFields :=
  match fuel with
  | O => f
  | S n =>
      match body with
      | [] => f
      | field :: rest =>
          if bool_decide (field = x00) then f
          else let '(raw, rest) := until_nul rest in
               parse_error_fields n rest (set_error_field field (from_utf8_lossy raw) f)
      end
  end.

Definition parse_error_response (body : bytes) : bytes * bytes * bytes :=
  let f := parse_error_fields (length body) body (mkErrorFields #"FATAL" #"XX000" []) in
  (ef_severity f, ef_code f, ef_message f).

Definition backend_error (payload : bytes) : PgError :=
  let '(severity, code, message) := parse_error_response payload in
  PgBackend severity code message.

Definition startup_flags (params : list (bytes * bytes)) : bool * bool * bool :=
  fold_left (fun '(u, d, a) '(name, _) =>
      if bool_decide (name = #"user") then (true, d, a)
      else if bool_decide (name = #"database") then (u, true, a)
      else if bool_decide (name = #"application_name") then (u, d, true)
      else (u, d, a))
    params (false, false, false).

(** The body and the packet of [write_startup_message]. *)
Definition startup_body (c : PgConfig) : bytes :=
  let message := u32_to_be PROTOCOL_VERSION_NUMBER in
  let message := fold_left (fun m '(name, value) => put_cstr (put_cstr m name) value)
                   (pc_startup_params c) message in
  let '(saw_user, saw_database, saw_application_name) := startup_flags (pc_startup_params c) in
  let message := if saw_user : bool then message
                 else put_cstr (put_cstr message #"user") (pc_user c) in
  let message := if saw_database : bool then message
                 else put_cstr (put_cstr message #"database") (pc_database c) in
  let message := if saw_application_name : bool then message
                 else put_cstr (put_cstr message #"application_name") #"wirechaos" in
  message ++ [x00].

Definition startup_packet (c : PgConfig) : bytes :=
  let message := startup_body c in
  u32_to_be (as_u32 (4 + Z.of_nat (length message))) ++ message.

(** ** The network *)

Inductive Roots := WebPkiRoots | RootCerts (certs : list bytes).

(** What [build_tls_config] makes rustls verify. *)
Inductive TlsPolicy := NoVerification | ChainOnly (roots : Roots) | ChainAndName (roots : Roots).

Record BackendEnv := mkBackendEnv {
  (** [TcpStream::connect] of an address; [None] when nobody answers. *)
  be_dial : bytes -> option (result IoError Stream);
  (** [ServerName::try_from]. *)
  be_server_name_ok : bytes -> bool;
  (** [connector.connect]: the peer's certificates and the encrypted stream;
      [None] when the handshake never completes. *)
  be_tls : TlsPolicy -> bytes -> Stream -> option (result IoError (list bytes * Stream));
  (** [std::fs::read], with the error's text. *)
  be_read_file : bytes -> result bytes bytes;
  (** [rustls_pemfile::certs] and [RootCertStore::add]. *)
  be_pem_certs : bytes -> list (result bytes bytes);
  be_root_ok : bytes -> result bytes unit;
  (** The 18 bytes of the SCRAM client nonce. *)
  be_random : bytes;
  (** The Unicode tables behind [Debug]. *)
  be_printable : bytes -> bool;
  (** [with_safe_default_protocol_versions] of the process's provider, which
      refuses one that supports no TLS version. *)
  be_protocol_versions : result bytes unit }.

Section client.
Context {P : Primitives} {A : Alloc}.
Variable env : BackendEnv.

(** ** [TimeoutStream] *)

Definition ts_read_exact (n : nat) : IO PgClient PgError bytes :=
  io_timeout StartupTimeout (io_map_err PgIo (read_exact n)).

(** [write_all] and [flush]. *)
Definition write_raw (data : bytes) : IO PgClient PgError unit :=
  io_timeout StartupTimeout (io_map_err PgIo (write_flush data)).

(** ** Framing *)

Definition read_message_header : IO PgClient PgError (byte * Z) :=
  buff ← ts_read_exact 5;
  match buff with
  | [tag; b1; b2; b3; b4] =>
      let len := as_i32 (u32_from_be b1 b2 b3 b4) in
      if len <? 4 then io_fail (PgProtocol (#"invalid frame length: " ++ show_int len))
      else mret (tag, len - 4)
  | _ => io_fail (PgIo UnexpectedEof)
  end.

(** [read_message_body], and what is done with the buffer until it is dropped. *)
Definition with_message_body {T} (payload_len : Z) (k : bytes -> IO PgClient PgError T)
    : IO PgClient PgError T :=
  c ← io_get;
  if max_capacity (cl_pool c) <? payload_len then
    io_fail (PgProtocol (#"backend message body " ++ show_uint payload_len
                         ++ #" exceeds the buffer pool capacity"))
  else with_pooled payload_len (ts_read_exact (Z.to_nat payload_len)) k.

Definition write_message (tag : byte) (body : bytes) : IO PgClient PgError unit :=
  write_raw (tag :: u32_to_be (as_u32 (4 + Z.of_nat (length body))) ++ body).

Definition write_startup_message (config : PgConfig) : IO PgClient PgError unit :=
  write_raw (startup_packet config).

(** ** Authentication *)

Definition handle_cleartext (config : PgConfig) : IO PgClient PgError unit :=
  match pc_password config with
  | None => io_fail (UnsupportedAuth
      #"backend requires a cleartext password, but only a SCRAM secret is available; configure a plaintext password for this user")
  | Some password => write_message x70 (password ++ [x00])
  end.

Definition handle_md5 (config : PgConfig) (body : bytes) : IO PgClient PgError unit :=
  if negb (length body =? 4)%nat then
    io_fail (PgProtocol #"AuthenticationMD5Password must carry a 4-byte salt")
  else match pc_password config with
  | None => io_fail (UnsupportedAuth
      #"backend requires MD5 authentication, but only a SCRAM secret is available; MD5 cannot be derived from StoredKey/ServerKey, so configure a plaintext password")
  | Some password => write_message x70 (md5_response (pc_user config) password body ++ [x00])
  end.

(** The authentication type of a payload's first four bytes. *)
Definition auth_type (payload : bytes) : option (Z * bytes) :=
  match payload with
  | b0 :: b1 :: b2 :: b3 :: rest => Some (u32_from_be b0 b1 b2 b3, rest)
  | _ => None
  end.

Definition short_auth : PgError :=
  PgProtocol #"authentication message is shorter than its sub-code".

Definition read_authentication_data (expected : Z) : IO PgClient PgError bytes :=
  '(tag, payload_len) ← read_message_header;
  with_message_body payload_len (fun payload =>
    if bool_decide (tag = x45) then io_fail (backend_error payload)
    else if negb (bool_decide (tag = x52)) then
      io_fail (PgProtocol (#"expected an authentication message, got "
                           ++ debug_char (be_printable env) tag))
    else
      '(auth_type, data) ← io_lift (ok_or (auth_type payload) short_auth);
      if negb (auth_type =? expected) then
        io_fail (PgProtocol (#"expected authentication sub-code " ++ show_uint expected
                             ++ #", got " ++ show_uint auth_type))
      else mret data).

Definition handle_sasl (config : PgConfig) (body : bytes) : IO PgClient PgError unit :=
  let offered := parse_sasl_mechanisms body in
  if bool_decide (offered = []) then
    io_fail (UnsupportedAuth
      (#"backend offered no supported SASL mechanism (offered: "
       ++ debug_strings (be_printable env) (lossy_mechanism_names body) ++ #")"))
  else
    c ← io_get;
    let channel_binding_available := is_some (cl_peer_cert_hash c) in
    chosen ← io_lift (select_mechanism (bt_channel_binding (pc_tls config))
                        channel_binding_available offered);
    let scram := scram_client_new (be_random env) (pc_client_key config) (pc_server_key config)
                   (pc_stored_key config) (pc_password config) in
    scram ← (if bool_decide (chosen = ScramSha256Plus) then
               cert_hash ← io_lift (ok_or (cl_peer_cert_hash c) (ChannelBindingRequired
                 #"the backend selected -PLUS but no certificate hash is available"));
               mret (use_channel_binding (cbind_input cert_hash) scram)
             else mret scram);
    let client_first := client_first_message scram in
    write_message x70 (put_cstr [] (sasl_name chosen)
                       ++ u32_to_be (as_u32 (Z.of_nat (length client_first))) ++ client_first);;
    server_first ← read_authentication_data 11;
    server_first ← io_lift (ok_or (from_utf8 server_first)
                              (PgProtocol #"server-first is not UTF-8"));
    '(client_final, scram) ← io_local scram
      (client_final_message server_first (pc_salt config) (pc_iterations config));
    write_message x70 client_final;;
    server_final ← read_authentication_data 12;
    server_final ← io_lift (ok_or (from_utf8 server_final)
                              (PgProtocol #"server-final is not UTF-8"));
    verified ← io_lift (verify_server_final server_final scram);
    io_modify (set_verified verified).

(** ** The startup handshake *)

(** The [match auth_type] of an authentication request. *)
Definition handle_auth_request (config : PgConfig) (payload : bytes) : IO PgClient PgError unit :=
  '(auth_type, rest) ← io_lift (ok_or (auth_type payload) short_auth);
  if auth_type =? 0 then mret tt
  else if auth_type =? 3 then handle_cleartext config
  else if auth_type =? 5 then handle_md5 config rest
  else if auth_type =? 10 then handle_sasl config rest
  else if (auth_type =? 11) || (auth_type =? 12) then
    io_fail (PgProtocol (#"unexpected authentication continuation (" ++ show_uint auth_type
                         ++ #") before SASL started"))
  else io_fail (UnsupportedAuth (unsupported_method_message auth_type)).

Definition handle_parameter_status (payload : bytes) : IO PgClient PgError unit :=
  '(name, reader) ← io_local (reader_new payload)
    (io_map_err (fun _ => PgProtocol #"invalid ParameterStatus name") read_string);
  '(value, _) ← io_local reader
    (io_map_err (fun _ => PgProtocol #"invalid ParameterStatus value") read_string);
  io_modify (push_notification (ParameterStatus name value)).

Definition handle_key_data (payload : bytes) : IO PgClient PgError unit :=
  match payload with
  | [b0; b1; b2; b3; b4; b5; b6; b7] =>
      io_modify (set_backend_key (mkBackendKeyData (as_i32 (u32_from_be b0 b1 b2 b3))
                                                   (as_i32 (u32_from_be b4 b5 b6 b7))))
  | _ => io_fail (PgProtocol #"BackendKeyData body is not two Int32s")
  end.

(** The [match tag] of the loop; [true] is [break]. *)
Definition handle_message (config : PgConfig) (tag : byte) (payload : bytes)
    : IO PgClient PgError bool :=
  if bool_decide (tag = x52) then handle_auth_request config payload;; mret false
  else if bool_decide (tag = x53) then handle_parameter_status payload;; mret false
  else if bool_decide (tag = x4e) then
    io_modify (push_notification (Notice payload));; mret false
  else if bool_decide (tag = x4b) then handle_key_data payload;; mret false
  else if bool_decide (tag = x5a) then
    status ← io_lift (ok_or (head payload)
               (PgProtocol #"ReadyForQuery has no transaction status"));
    io_modify (set_ready_status status);;
    mret true
  else if bool_decide (tag = x45) then io_fail (backend_error payload)
  else io_fail (PgProtocol (#"unexpected message " ++ debug_char (be_printable env) tag
                            ++ #" during the startup phase")).

(** One iteration of the loop. *)
Definition handshake_step (config : PgConfig) : IO PgClient PgError bool :=
  '(tag, payload_len) ← read_message_header;
  with_message_body payload_len (handle_message config tag).

(** [false] is a loop that has not ended within the fuel. *)
Fixpoint handshake_loop (fuel : nat) (config : PgConfig) : IO PgClient PgError bool :=
  match fuel with
  | O => mret false
  | S f =>
      done ← handshake_step config;
      if done : bool then mret true else handshake_loop f config
  end.

(** Each iteration consumes a header of five bytes. *)
Definition handle_startup_handshake (config : PgConfig) : IO PgClient PgError unit :=
  c ← io_get;
  handshake_loop (S (length (st_in (cl_stream c)))) config;;
  mret tt.

(** ** TLS *)

(** The loop over the certificates of a root file, from those already added. *)
Definition add_roots (path : bytes) (entries : list (result bytes bytes))
    (acc : result PgError (list bytes)) : result PgError (list bytes) :=
  fold_left (fun acc certificate =>
      added ← acc;
      cert ← map_err (fun error => PgTls
        (#"invalid certificate in backend.tls.root_cert_file " ++ path ++ #": " ++ error))
        certificate;
      map_err (fun error => PgTls
        (#"unusable certificate in backend.tls.root_cert_file " ++ path ++ #": " ++ error))
        (be_root_ok env cert);;
      Ok (added ++ [cert])) entries acc.

Definition load_root_store (config : PgConfig) : result PgError Roots :=
  match bt_root_cert_file (pc_tls config) with
  | None => Ok WebPkiRoots
  | Some path =>
      pem ← map_err (fun error => PgTls (#"cannot read backend.tls.root_cert_file " ++ path
                                         ++ #": " ++ error)) (be_read_file env path);
      certs ← add_roots path (be_pem_certs env pem) (Ok []);
      if bool_decide (certs = []) then
        Err (PgTls (#"backend.tls.root_cert_file " ++ path ++ #" contains no certificates"))
      else Ok (RootCerts certs)
  end.

Definition build_tls_config (config : PgConfig) : result PgError TlsPolicy :=
  map_err (fun error => PgTls (#"invalid TLS protocol configuration: " ++ error))
    (be_protocol_versions env);;
  match bt_mode (pc_tls config) with
  | TlsDisable => Err (PgTls #"TLS was requested but backend.tls.mode is disable")
  | TlsPrefer => Ok NoVerification
  | TlsRequire => roots ← load_root_store config; Ok (ChainOnly roots)
  | TlsVerifyFull => roots ← load_root_store config; Ok (ChainAndName roots)
  end.

(** The request for TLS and the backend's one-byte answer: the two writes share
    one flush. *)
Definition request_tls : IO PgClient PgError bool :=
  io_timeout TlsTimeout (io_map_err PgIo (
    write_flush (u32_to_be 8 ++ u32_to_be SSL_REQUEST_CODE);;
    buf ← read_exact 1;
    mret (bool_decide (buf = [x53])))).

(** The hash of the peer's leaf certificate, when it has one. *)
Definition peer_cert_hash (certs : list bytes) : option CertHash :=
  leaf ← head certs;
  match cert_hash_new leaf with
  | Ok hash => hash
  | Err _ => None
  end.

(** [tokio::time::timeout(connect_timeout, connector.connect(..))]. *)
Definition tls_connect (policy : TlsPolicy) (server_name : bytes)
    : IO PgClient PgError (list bytes) :=
  fun c => match be_tls env policy server_name (cl_stream c) with
           | Some (Ok (certs, x)) => (Ready (Ok certs), set_cl_stream x c)
           | Some (Err e) => (Ready (Err (PgIo e)), c)
           | None => (Ready (Err TlsTimeout), c)
           end.

Definition try_tls (config : PgConfig) : IO PgClient PgError unit :=
  if bool_decide (bt_mode (pc_tls config) = TlsDisable) then mret tt
  else
    server_supports_tls ← request_tls;
    if negb server_supports_tls then
      match bt_mode (pc_tls config) with
      | TlsPrefer | TlsDisable => mret tt
      | TlsRequire | TlsVerifyFull => io_fail (PgTls
          #"backend does not support TLS, but the configured tls mode requires it")
      end
    else
      let name := pg_tls_server_name config in
      server_name ← io_lift (ok_or
        (n ← name; if be_server_name_ok env n then Some n else None)
        (PgTls (#"invalid backend TLS server name for "
                ++ debug_option_str (be_printable env) name)));
      tls_config ← io_lift (build_tls_config config);
      certs ← tls_connect tls_config server_name;
      io_modify (set_peer_cert_hash (peer_cert_hash certs)).

(** ** [PgClient::connect] *)

Definition addr_of (host : bytes) (port : Z) : bytes := host ++ #":" ++ show_uint port.

Definition new_client (config : PgConfig) (pool : MultiBufferPool) (x : Stream) : PgClient :=
  mkPgClient pool x [] None None false None (pc_host config) (pc_port config)
    (pc_connect_timeout config).

(** The stream of a dial that has not succeeded. *)
Definition no_stream : Stream := mkStream [] (Ends UnexpectedEof) [] (Some 0%nat) (Ends BrokenPipe).

(** [tokio::time::timeout(connect_timeout, TcpStream::connect(addr))]. *)
Definition dial (addr : bytes) : result PgError Stream :=
  match be_dial env addr with
  | Some (Ok x) => Ok x
  | Some (Err e) => Err (PgIo e)
  | None => Err ConnectTimeout
  end.

(** The client the computation acts on is the one [connect] returns. *)
Definition connect (config : PgConfig) : IO PgClient PgError unit :=
  raw_tcp ← io_lift (dial (addr_of (pc_host config) (pc_port config)));
  io_modify (set_cl_stream raw_tcp);;
  try_tls config;;
  write_startup_message config;;
  io_timeout StartupTimeout (handle_startup_handshake config).

End client.

(** ** The client only consumes input, and leaves the pool whole *)

Lemma read_string_no_crash r :
  (mr_pos r <= length (mr_buf r))%nat ->
  exists v r', read_string r = (Ready v, r') /\ (mr_pos r' <= length (mr_buf r'))%nat.
Proof.
  intros Hr. unfold read_string, mbind, io_bind, io_get, io_modify, io_fail, io_lift. cbn beta iota.
  destruct (find_nul (drop (mr_pos r) (mr_buf r))) as [n|] eqn:Hn.
  - apply find_nul_Some in Hn. rewrite length_drop in Hn.
    rewrite buf_slice_ok by (simpl; lia). destruct (from_utf8 _); cbn [ok_or];
      eexists _, _; (split; [reflexivity|]); simpl; lia.
  - eexists _, _. split; [reflexivity|]. simpl. lia.
Qed.

Section facts.
Context {P : Primitives} {A : Alloc} (env : BackendEnv).

Ltac descend step := repeat first [progress cbv beta iota zeta | step | case_match; simplify_eq].

Lemma shrinks_ts_read n : shrinks (ts_read_exact n).
Proof. unfold ts_read_exact. repeat shrinks_step. Qed.

Lemma shrinks_write_raw data : shrinks (write_raw data).
Proof. unfold write_raw. repeat shrinks_step. Qed.

Hint Resolve shrinks_ts_read shrinks_write_raw : shrinks.

Lemma shrinks_header : shrinks read_message_header.
Proof. unfold read_message_header. descend shrinks_step. Qed.

Lemma shrinks_body {T} n (k : bytes -> IO PgClient PgError T) :
  (forall d, shrinks (k d)) -> shrinks (with_message_body n k).
Proof. intros Hk. unfold with_message_body. descend shrinks_step. Qed.

Lemma shrinks_message tag body : shrinks (write_message tag body).
Proof. unfold write_message. eauto with shrinks. Qed.

Hint Resolve shrinks_header shrinks_body shrinks_message : shrinks.

Lemma shrinks_auth_data n : shrinks (read_authentication_data env n).
Proof.
  unfold read_authentication_data. repeat shrinks_step. case_match. apply shrinks_body. intros d.
  descend shrinks_step.
Qed.

Hint Resolve shrinks_auth_data : shrinks.

Lemma shrinks_sasl config body : shrinks (handle_sasl env config body).
Proof. unfold handle_sasl. descend shrinks_step. Qed.

Lemma shrinks_auth_request config payload : shrinks (handle_auth_request env config payload).
Proof.
  unfold handle_auth_request, handle_cleartext, handle_md5.
  pose proof shrinks_sasl. descend shrinks_step; eauto with shrinks.
Qed.

Hint Resolve shrinks_auth_request : shrinks.

Lemma shrinks_handle_message config tag payload :
  shrinks (handle_message env config tag payload).
Proof. unfold handle_message, handle_parameter_status, handle_key_data. descend shrinks_step. Qed.

Hint Resolve shrinks_handle_message : shrinks.

Lemma header_Ok c v c' :
  read_message_header c = (Ready (Ok v), c') ->
  (input_left c' + 5 = input_left c)%nat /\ 0 <= v.2.
Proof.
  unfold read_message_header, ts_read_exact, mbind, io_bind, io_timeout, io_map_err.
  destruct (read_exact 5 c) as [[[buff|e]| |cr] c1] eqn:Hr; cbn [map_err]; try done.
  apply read_exact_consumes in Hr.
  destruct buff as [|tag [|b1 [|b2 [|b3 [|b4 [|? ?]]]]]]; cbn beta iota; try done.
  destruct (Z.ltb_spec (as_i32 (u32_from_be b1 b2 b3 b4)) 4); [done|].
  intros [= <- <-]. simpl. split; [done|lia].
Qed.

(** Each iteration that goes on has consumed a message header. *)
Lemma handshake_step_consumes config c b c' :
  handshake_step env config c = (Ready (Ok b), c') -> (input_left c' + 5 <= input_left c)%nat.
Proof.
  unfold handshake_step, mbind, io_bind.
  destruct (read_message_header c) as [[[[tag n]|e]| |cr] c1] eqn:Hh; try done.
  apply header_Ok in Hh as [Hh _]. intros H.
  pose proof (shrinks_body n (handle_message env config tag)
                (shrinks_handle_message config tag) c1) as Hs.
  rewrite H in Hs. simpl in Hs. lia.
Qed.

Lemma handshake_loop_ends config f c :
  (input_left c < f)%nat -> (handshake_loop env f config c).1 <> Ready (Ok false).
Proof.
  revert c. induction f as [|f IH]; intros c Hf; [lia|]. cbn [handshake_loop].
  unfold mbind, io_bind.
  destruct (handshake_step env config c) as [[[[]|e]| |cr] c1] eqn:Hs; try done.
  apply IH. apply handshake_step_consumes in Hs. lia.
Qed.

(** The startup handshake terminates: with fuel for the bytes the backend
    will ever send, the loop ends by itself, by [ReadyForQuery], an error or the
    deadline, and more fuel changes nothing. *)
Theorem handshake_terminates config c f :
  (input_left c < f)%nat ->
  (handshake_loop env f config c).1 <> Ready (Ok false) /\
  handshake_loop env f config c = handshake_loop env (S (input_left c)) config c.
Proof.
  intros Hf. split; [by apply handshake_loop_ends|].
  assert (H : forall f g c, (input_left c < f)%nat -> (input_left c < g)%nat ->
            handshake_loop env f config c = handshake_loop env g config c).
  { clear. induction f as [|f IH]; intros g c Hf Hg; [lia|]. destruct g as [|g]; [lia|].
    cbn [handshake_loop]. unfold mbind, io_bind.
    destruct (handshake_step env config c) as [[[[]|e]| |cr] c1] eqn:Hs; try done.
    apply handshake_step_consumes in Hs. apply IH; lia. }
  apply H; lia.
Qed.

(** *** The pool *)

Context {AOk : AllocOk A}.

Lemma safe_ts_read n : pool_safe (ts_read_exact n).
Proof. unfold ts_read_exact. repeat pool_safe_step. Qed.

Lemma safe_write_raw data : pool_safe (write_raw data).
Proof. unfold write_raw. repeat pool_safe_step. Qed.

Hint Resolve safe_ts_read safe_write_raw : pool_safe.

Lemma safe_header : pool_safe read_message_header.
Proof. unfold read_message_header. descend pool_safe_step. Qed.

Lemma ts_reads n : 0 <= n -> reads_n n (ts_read_exact (Z.to_nat n)).
Proof.
  intros Hn c data c'. unfold ts_read_exact, io_timeout, io_map_err.
  destruct (read_exact (Z.to_nat n) c) as [[[d|e]| |cr] c1] eqn:Hr; try done.
  intros [= <- <-]. apply read_exact_Ok in Hr as (_ & Hl & _). lia.
Qed.

Lemma safe_body {T} n (k : bytes -> IO PgClient PgError T) :
  0 <= n -> (forall d, pool_safe (k d)) -> pool_safe (with_message_body n k).
Proof.
  intros Hn Hk. unfold with_message_body. apply pool_safe_get_bind. intros c Hc.
  destruct (Z.ltb_spec (max_capacity (cl_pool c)) n); [done|].
  apply (pool_safe_with_pooled n); [done|simpl; lia|done|apply safe_ts_read|by apply ts_reads|done].
Qed.

(** A header, and then the body it announces. *)
Lemma safe_message {T} (k : byte -> bytes -> IO PgClient PgError T) :
  (forall tag d, pool_safe (k tag d)) ->
  pool_safe ('(tag, n) ← read_message_header; with_message_body n (k tag)).
Proof.
  intros Hk c Hc. unfold mbind, io_bind. pose proof (safe_header c Hc) as Hh.
  destruct (read_message_header c) as [[[[tag n]|e]| |cr] c1] eqn:E; try done.
  destruct Hh as (_ & Hp & Hz). apply header_Ok in E as [_ Hn].
  pose proof (safe_body n (k tag) Hn (Hk tag) c1 Hp) as Hb.
  destruct (with_message_body n (k tag) c1) as [r c2]. destruct Hb as (? & ? & ?).
  split; [done|]. split; [done|by etrans].
Qed.

Lemma safe_write_message tag body : pool_safe (write_message tag body).
Proof. unfold write_message. eauto with pool_safe. Qed.

Hint Resolve safe_write_message : pool_safe.

Lemma safe_auth_data n : pool_safe (read_authentication_data env n).
Proof. unfold read_authentication_data. apply safe_message. intros tag d. descend pool_safe_step. Qed.

Hint Resolve safe_auth_data : pool_safe.

Lemma client_final_no_crash sf salt it c :
  match (client_final_message sf salt it c).1 with Crashed _ => False | _ => True end.
Proof.
  unfold client_final_message, mbind, io_bind, io_get, io_lift, io_modify, io_fail.
  repeat (case_match; simplify_eq/=; try done).
Qed.

Lemma safe_sasl config body : pool_safe (handle_sasl env config body).
Proof.
  unfold handle_sasl. descend pool_safe_step. all: apply pool_safe_local, client_final_no_crash.
Qed.

Hint Resolve safe_sasl : pool_safe.

Lemma safe_auth_request config payload : pool_safe (handle_auth_request env config payload).
Proof. unfold handle_auth_request, handle_cleartext, handle_md5. descend pool_safe_step. Qed.

Lemma safe_parameter_status payload : pool_safe (handle_parameter_status payload).
Proof.
  unfold handle_parameter_status.
  destruct (read_string_no_crash (reader_new payload)) as (v & r & Hr & Hpos); [simpl; lia|].
  intros c Hc. unfold mbind at 1, io_bind at 1, io_local at 1, io_map_err at 1. rewrite Hr.
  destruct v as [name|e]; cbn [map_err]; [|done]. cbv beta iota.
  destruct (read_string_no_crash r Hpos) as (v2 & r2 & Hr2 & _).
  unfold mbind, io_bind, io_local, io_map_err. rewrite Hr2. by destruct v2.
Qed.

Hint Resolve safe_auth_request safe_parameter_status : pool_safe.

Lemma safe_handle_message config tag payload : pool_safe (handle_message env config tag payload).
Proof. unfold handle_message, handle_key_data. descend pool_safe_step. Qed.

Lemma safe_handshake_step config : pool_safe (handshake_step env config).
Proof. apply safe_message. intros tag d. apply safe_handle_message. Qed.

Lemma safe_handshake_loop config f : pool_safe (handshake_loop env f config).
Proof.
  induction f as [|f IH]; cbn [handshake_loop]; [apply pool_safe_ret|].
  apply pool_safe_bind; [apply safe_handshake_step|]. intros []; [apply pool_safe_ret|done].
Qed.

Lemma safe_handshake config : pool_safe (handle_startup_handshake env config).
Proof.
  unfold handle_startup_handshake. apply pool_safe_bind; [apply pool_safe_get|]. intros c.
  apply pool_safe_bind; [apply safe_handshake_loop|]. intros _. apply pool_safe_ret.
Qed.

Lemma safe_tls_connect policy name : pool_safe (tls_connect env policy name).
Proof.
  intros c Hc. unfold tls_connect. by destruct (be_tls env policy name (cl_stream c)) as [[[]|]|].
Qed.

Hint Resolve safe_handshake safe_tls_connect : pool_safe.

Lemma safe_try_tls config : pool_safe (try_tls env config).
Proof. unfold try_tls, request_tls. descend pool_safe_step. Qed.

Hint Resolve safe_try_tls : pool_safe.

Lemma safe_connect config : pool_safe (connect env config).
Proof. unfold connect, write_startup_message. descend pool_safe_step. Qed.

(** C23: Connecting to the backend never panics, whatever the backend sends, and
    however the attempt ends, by a session, an error or a timeout, every message
    buffer is back: the pool was changed by rents and returns that leave nothing
    rented, it is well formed with the sizes it had, and no bucket keeps fewer
    buffers than before.  Silence of the backend is always an error, never a
    hang. *)
Theorem connect_leaves_the_pool_whole config c :
  pool_ok (cl_pool c) ->
  exists r c', connect env config c = (Ready r, c') /\ pool_ok (cl_pool c') /\
    sizes (cl_pool c') = sizes (cl_pool c) /\ pool_moves (cl_pool c) (cl_pool c') /\
    nothing_lost (cl_pool c) (cl_pool c').
Proof.
  intros Hp. pose proof (safe_connect config c Hp) as Hs.
  assert (Hprompt : prompt (connect env config)).
  { unfold connect, try_tls, request_tls, write_startup_message, write_raw.
    repeat (prompt_step || case_match); intros c2; unfold tls_connect;
      by destruct (be_tls env _ _ (cl_stream c2)) as [[[]|]|]. }
  specialize (Hprompt c). destruct (connect env config c) as [[r| |cr] c']; [|done|naive_solver].
  destruct Hs as (_ & Hp' & Hm). exists r, c'. split; [done|]. split; [done|].
  split; [by apply pool_moves_sizes|]. split; [exact Hm|by apply pool_moves_lose_nothing].
Qed.

(** ** TLS policy *)

(** The backend's answer to the [SSLRequest], and the client after it. *)
Definition observed_reply (config : PgConfig) (c : PgClient) : option (SslReply * PgClient) :=
  if bool_decide (bt_mode (pc_tls config) = TlsDisable) then Some (NotRequested, c)
  else match request_tls c with
       | (Ready (Ok true), c1) => Some (ReplyYes, c1)
       | (Ready (Ok false), c1) => Some (ReplyNo, c1)
       | _ => None
       end.

Definition checks_host (policy : TlsPolicy) : bool :=
  match policy with ChainAndName _ => true | _ => false end.

Lemma request_tls_ready c : exists r c1, request_tls c = (Ready r, c1).
Proof.
  unfold request_tls, mbind, io_bind, io_timeout, io_map_err, write_flush, read_exact, stream_write,
    stream_read, ended.
  repeat (case_match; simplify_eq/=; eauto).
Qed.

(** C26: The TLS dance implements the policy table [decide_tls]: the link is
    plaintext only where the table says so, the configured modes that require
    TLS fail without it, and an encrypted link was made under a verification
    that includes the host name exactly when the table asks for it. *)
Theorem try_tls_implements_decide_tls config c :
  match observed_reply config c with
  | None => exists e c1, try_tls env config c = (Ready (Err e), c1)
  | Some (reply, c1) =>
      match decide_tls (bt_mode (pc_tls config)) reply with
      | Plaintext => try_tls env config c = (Ready (Ok tt), c1)
      | TlsFail => exists m, try_tls env config c = (Ready (Err (PgTls m)), c1)
      | UseTls verify_host =>
          (exists e, try_tls env config c = (Ready (Err e), c1)) \/
          (exists policy name certs x,
             pg_tls_server_name config = Some name /\ build_tls_config env config = Ok policy /\
             checks_host policy = verify_host /\
             be_tls env policy name (cl_stream c1) = Some (Ok (certs, x)) /\
             try_tls env config c =
               (Ready (Ok tt), set_peer_cert_hash (peer_cert_hash certs) (set_cl_stream x c1)))
      end
  end.
Proof.
  unfold observed_reply, try_tls. destruct (bt_mode (pc_tls config)) eqn:Hm; [done|..];
    rewrite bool_decide_eq_false_2 by done; unfold mbind, io_bind;
    destruct (request_tls_ready c) as (r & c1 & ->); (destruct r as [[]|e]; [| |eauto]);
    cbn [negb]; simpl decide_tls; cbv iota beta; try done; try (eexists; reflexivity).
  all: unfold io_lift, io_modify, tls_connect.
  all: destruct (pg_tls_server_name config) as [name|] eqn:Hname; [|left; eexists; reflexivity].
  all: unfold option_bind; destruct (be_server_name_ok env name); [|left; eexists; reflexivity].
  all: cbn [ok_or]; destruct (build_tls_config env config) as [policy|] eqn:Hp;
    [|left; eexists; reflexivity].
  all: destruct (be_tls env policy name (cl_stream c1)) as [[[certs x]|e]|] eqn:Ht;
    [|left; eexists; reflexivity..].
  all: right; exists policy, name, certs, x; split; [done|]; split; [done|]; split;
    [|by rewrite ?Ht]; unfold build_tls_config in Hp; rewrite Hm in Hp;
    (destruct (be_protocol_versions env); [|done]); cbn [map_err mbind result_bind] in Hp.
  - by injection Hp as <-.
  - destruct (load_root_store env config); [|done]. by injection Hp as <-.
  - destruct (load_root_store env config); [|done]. by injection Hp as <-.
Qed.

(** ** Messages *)

(** The stream with its input replaced. *)
Definition with_input (b : bytes) (x : Stream) : Stream :=
  mkStream b (st_in_end x) (st_out x) (st_room x) (st_out_end x).

(** A frame as a PostgreSQL server writes it. *)
Definition frame (tag : byte) (body : bytes) : bytes :=
  tag :: u32_to_be (4 + Z.of_nat (length body)) ++ body.

Lemma ts_read_prefix data rest c n :
  length data = n -> st_in (cl_stream c) = data ++ rest ->
  ts_read_exact n c = (Ready (Ok data), set_cl_stream (with_input rest (cl_stream c)) c).
Proof.
  intros <- Hin. unfold ts_read_exact, io_timeout, io_map_err, read_exact, stream_read. simpl.
  rewrite Hin, length_app, (proj2 (Nat.leb_le _ _)) by lia. cbn [map_err].
  by rewrite take_app_length, drop_app_length.
Qed.

Lemma header_frame tag body rest c :
  4 + Z.of_nat (length body) < 2 ^ 31 ->
  st_in (cl_stream c) = frame tag body ++ rest ->
  read_message_header c = (Ready (Ok (tag, Z.of_nat (length body))),
                           set_cl_stream (with_input (body ++ rest) (cl_stream c)) c).
Proof.
  intros Hlen Hin. unfold read_message_header, mbind, io_bind.
  rewrite (ts_read_prefix (tag :: u32_to_be (4 + Z.of_nat (length body))) (body ++ rest) c 5)
    by (done || by rewrite Hin; unfold frame; rewrite <- app_assoc).
  unfold u32_to_be. cbn beta iota. rewrite u32_from_to_be.
  set (len := 4 + Z.of_nat (length body)).
  assert (as_i32 (as_u32 len) = len) as ->.
  { apply as_i32_as_u32. unfold is_i32, len. lia. }
  rewrite (proj2 (Z.ltb_ge _ _)) by (unfold len; lia). unfold mret, io_ret. repeat f_equal.
  unfold len. lia.
Qed.

(** A framed message reaches its handler as its body, exactly. *)
Lemma message_delivered {T} (k : byte -> bytes -> IO PgClient PgError T) tag body rest c :
  (forall d, pool_safe (k tag d)) -> pool_ok (cl_pool c) ->
  Z.of_nat (length body) <= max_capacity (cl_pool c) -> 4 + Z.of_nat (length body) < 2 ^ 31 ->
  st_in (cl_stream c) = frame tag body ++ rest ->
  exists p p',
    ('(tag, n) ← read_message_header; with_message_body n (k tag)) c =
    (let '(r, c2) := k tag body (set_cl_stream (with_input rest (cl_stream c)) (set_cl_pool p c)) in
     (r, set_cl_pool p' c2)).
Proof.
  intros Hk Hp Hmax Hlen Hin. unfold mbind, io_bind. rewrite (header_frame tag body rest) by done.
  cbn beta iota. unfold with_message_body, mbind, io_bind, io_get. cbn beta iota.
  cbn [cl_pool set_cl_stream]. rewrite (proj2 (Z.ltb_ge _ _)) by lia.
  destruct (pool_get_spec (cl_pool c) (Z.of_nat (length body)) Hp ltac:(lia))
    as (pb & p & Hget & Hbl & Hp1 & Hz1 & Hpb & _).
  rewrite Nat2Z.id.
  erewrite (with_pooled_data (Z.of_nat (length body)) _ (k tag) _ pb p body);
    [|exact Hget|done| |done].
  2: { rewrite (ts_read_prefix body rest) by done. reflexivity. }
  exists p. unfold io_finally.
  set (c1 := set_cl_stream (with_input rest (cl_stream c)) (set_cl_pool p c)).
  change (set_cl_stream _ (set_sess_pool _ _)) with c1.
  specialize (Hk body c1 Hp1). destruct (k tag body c1) as [r c2]. destruct Hk as (_ & Hp2 & Hz2).
  destruct (pooled_drop_spec (cl_pool c2) (pb_fill pb body) Hp2) as (p' & Hd & _ & _).
  { apply (pooled_wf_sizes p); [by apply (pool_moves_sizes p) in Hz2|]. by apply pooled_wf_fill. }
  exists p'. unfold drop_pooled. simpl. by rewrite Hd.
Qed.

End facts.

Lemma until_nul_app s t : x00 ∉ s -> until_nul (s ++ x00 :: t) = (s, t).
Proof.
  induction s as [|c s IH]; intros Hs; simpl; [done|].
  apply not_elem_of_cons in Hs as [? Hs]. rewrite bool_decide_eq_false_2 by congruence.
  by rewrite IH.
Qed.

Lemma parse_error_field n field value rest f :
  field <> x00 -> x00 ∉ value -> is_utf8 value = true ->
  parse_error_fields (S n) (field :: value ++ x00 :: rest) f =
  parse_error_fields n rest (set_error_field field value f).
Proof.
  intros Hf Hv Hu. cbn [parse_error_fields]. rewrite bool_decide_eq_false_2 by done.
  by rewrite until_nul_app, from_utf8_lossy_valid by done.
Qed.

(** An error the proxy writes to a client and an error it reads from a
    backend are the same format: the severity, code and message written are
    those read. *)
Theorem error_response_roundtrip severity code message :
  Forall (fun s => x00 ∉ s /\ is_utf8 s = true) [severity; code; message] ->
  parse_error_response (prepare_error_buf severity code message) = (severity, code, message).
Proof.
  intros H. apply Forall_cons in H as [[Hs Hsu] H]. apply Forall_cons in H as [[Hc Hcu] H].
  apply Forall_cons in H as [[Hm Hmu] _].
  assert (Hb : prepare_error_buf severity code message =
    x53 :: severity ++ x00 :: x56 :: severity ++ x00 :: x43 :: code ++ x00
      :: x4d :: message ++ [x00; x00]).
  { unfold prepare_error_buf, put_cstr. simpl. by rewrite <- !app_assoc. }
  unfold parse_error_response. rewrite Hb.
  match goal with |- context [parse_error_fields ?n _ _] =>
    assert (Hn : exists m, n = S (S (S (S (S m))))) end.
  { simpl. rewrite !length_app. simpl. rewrite !length_app. simpl. rewrite !length_app. simpl.
    rewrite !length_app. simpl. eexists (_ : nat). rewrite !Nat.add_succ_r. reflexivity. }
  destruct Hn as [m ->].
  rewrite !parse_error_field by done. reflexivity.
Qed.

Lemma error_response_roundtrip_witness :
  parse_error_response (prepare_error_buf #"FATAL" #"53300" #"sorry, too many clients already")
  = ( #"FATAL", #"53300", #"sorry, too many clients already").
Proof.
  apply error_response_roundtrip.
  repeat constructor; first [apply (bool_decide_unpack _); vm_compute; exact I|reflexivity].
Defined.

(** Requiring channel binding does not protect the password: asked for a
    cleartext password, the client sends it, although the mode is [require] and
    the backend was never bound. *)
Theorem required_binding_leaks_password {P : Primitives} {A : Alloc} {AOk : AllocOk A}
    env config c password rest :
  bt_channel_binding (pc_tls config) = CbRequire -> cl_peer_cert_hash c = None ->
  pc_password config = Some password ->
  pool_ok (cl_pool c) -> 4 <= max_capacity (cl_pool c) ->
  st_in (cl_stream c) = frame x52 (u32_to_be 3) ++ rest -> st_room (cl_stream c) = None ->
  exists c', handshake_step env config c = (Ready (Ok false), c') /\
    st_out (cl_stream c') = st_out (cl_stream c) ++
      [x70 :: u32_to_be (as_u32 (4 + Z.of_nat (length (password ++ [x00])))) ++ password ++ [x00]].
Proof.
  intros _ _ Hpw Hp Hmax Hin Hroom.
  destruct (message_delivered (handle_message env config) x52 (u32_to_be 3) rest c)
    as (p & p' & Heq); try done.
  { intros d. by apply safe_handle_message. }
  unfold handshake_step. rewrite Heq. clear Heq.
  unfold handle_message, handle_auth_request, handle_cleartext, mbind, io_bind. rewrite Hpw.
  rewrite bool_decide_eq_true_2 by done. unfold io_lift.
  change (auth_type (u32_to_be 3)) with (Some (3, @nil byte)). cbn [ok_or]. cbn beta iota.
  unfold write_message, write_raw, io_timeout, io_map_err, write_flush, stream_write. simpl.
  rewrite Hroom. eexists. split; [reflexivity|]. done.
Qed.

(** ** A backend for the witnesses *)

#[local] Existing Instance ToyCrypto.toy_crypto.
#[local] Existing Instance plain_alloc.
#[local] Existing Instance plain_alloc_ok.

(** A server that is silent after what it has sent. *)
Definition sample_stream (b : bytes) : Stream := mkStream b Stalls [] None Stalls.

Definition sample_env (b : bytes) : BackendEnv :=
  mkBackendEnv (fun _ => Some (Ok (sample_stream b))) (fun _ => true)
    (fun _ _ _ => None) (fun _ => Err #"no such file") (fun _ => []) (fun _ => Ok tt)
    #"eighteen-bytes-abc" (fun _ => true) (Ok tt).

Definition sample_pg_config (mode : BackendTlsMode) (cb : ChannelBindingMode) : PgConfig :=
  mkPgConfig None None None (Some #"secret") #"alice" #"db" 2000 5000 #"127.0.0.1" 5432
    (mkBackendTlsConfig mode None cb None) [] 4096 [].

(** [AuthenticationOk] and [ReadyForQuery]. *)
Definition trusting_backend : bytes := frame x52 (u32_to_be 0) ++ frame x5a #"I".

Definition sample_pg_client : PgClient :=
  new_client (sample_pg_config TlsDisable CbPrefer) small_pool (sample_stream trusting_backend).

Example connects_without_authentication :
  let c := (connect (sample_env trusting_backend) (sample_pg_config TlsDisable CbRequire)
              sample_pg_client) in
  c.1 = Ready (Ok tt) /\ cl_ready_status c.2 = Some x49.
Proof. vm_compute. done. Qed.

Lemma handshake_terminates_witness :
  (handshake_loop (sample_env []) 100 (sample_pg_config TlsDisable CbPrefer) sample_pg_client).1
  <> Ready (Ok false).
Proof.
  apply (handshake_terminates (sample_env []) (sample_pg_config TlsDisable CbPrefer)
    sample_pg_client 100). vm_compute. lia.
Defined.

Lemma connect_leaves_the_pool_whole_witness :
  exists r c', connect (sample_env trusting_backend) (sample_pg_config TlsDisable CbPrefer)
    sample_pg_client = (Ready r, c') /\ pool_ok (cl_pool c') /\
    sizes (cl_pool c') = sizes small_pool /\ pool_moves small_pool (cl_pool c') /\
    nothing_lost small_pool (cl_pool c').
Proof.
  apply (connect_leaves_the_pool_whole (sample_env trusting_backend)
    (sample_pg_config TlsDisable CbPrefer) sample_pg_client). apply small_pool_ok.
Defined.

Lemma required_binding_leaks_password_witness :
  exists c', handshake_step (sample_env []) (sample_pg_config TlsDisable CbRequire)
      (set_cl_stream (sample_stream (frame x52 (u32_to_be 3))) sample_pg_client)
      = (Ready (Ok false), c') /\
    st_out (cl_stream c') = [x70 :: u32_to_be 11 ++ #"secret" ++ [x00]].
Proof.
  apply (required_binding_leaks_password (sample_env []) (sample_pg_config TlsDisable CbRequire)
    (set_cl_stream (sample_stream (frame x52 (u32_to_be 3))) sample_pg_client) #"secret" []);
    try reflexivity; [apply small_pool_ok|vm_compute; discriminate].
Defined.
