(* ===== verification/BackendTls.v ===== *)
(** The certificate checks of the backend link: the verifiers that
    [build_tls_config] of [backend/pg_client.rs] installs.

    rustls calls a verifier twice in a handshake: for the certificate chain and
    for the signature over the handshake.  The trait is a class with the two
    verifiers of the source as instances; path validation, signature checks and
    the verifier of [verify-full] are rustls's own and are parameters. *)
From S2P Require Import Prelude Words RustStr Errors BufferPool Packet Crypto ToyCrypto Tls.
From S2P Require Import Verifier ScramClient Config BackendPolicy Transport PgClient.
Local Open Scope Z_scope.

(** What rustls provides.  An error is its text. *)
Record Rustls := mkRustls {
  (** [ParsedCertificate::try_from]. *)
  rl_parse : bytes -> result bytes bytes;
  (** [verify_server_cert_signed_by_trust_anchor]. *)
  rl_chain : bytes -> Roots -> list bytes -> Z -> result bytes unit;
  (** The default verifier behind [with_root_certificates]. *)
  rl_webpki : Roots -> bytes -> list bytes -> bytes -> bytes -> Z -> result bytes unit;
  rl_verify_tls12 : bytes -> bytes -> bytes -> result bytes unit;
  rl_verify_tls13 : bytes -> bytes -> bytes -> result bytes unit;
  (** The provider's signature schemes. *)
  rl_schemes : list Z }.

(** [rustls::client::danger::ServerCertVerifier]. *)
Class ServerCertVerifier (V : Type) := {
  verify_server_cert : Rustls -> V -> bytes -> list bytes -> bytes -> bytes -> Z -> result bytes unit;
  verify_tls12_signature : Rustls -> V -> bytes -> bytes -> bytes -> result bytes unit;
  verify_tls13_signature : Rustls -> V -> bytes -> bytes -> bytes -> result bytes unit;
  supported_verify_schemes : Rustls -> V -> list Z }.

Record NoCertificateVerification := mkNoCertificateVerification {}.

Record ChainOnlyVerification := mkChainOnlyVerification { co_roots : Roots }.

#[export] Instance no_certificate_verification : ServerCertVerifier NoCertificateVerification := {|
  verify_server_cert := fun _ _ _ _ _ _ _ => Ok tt;
  verify_tls12_signature := fun rl _ => rl_verify_tls12 rl;
  verify_tls13_signature := fun rl _ => rl_verify_tls13 rl;
  supported_verify_schemes := fun rl _ => rl_schemes rl |}.

#[export] Instance chain_only_verification : ServerCertVerifier ChainOnlyVerification := {|
  verify_server_cert := fun rl v end_entity intermediates _ _ now =>
    parsed ← rl_parse rl end_entity;
    rl_chain rl parsed (co_roots v) intermediates now;;
    Ok tt;
  verify_tls12_signature := fun rl _ => rl_verify_tls12 rl;
  verify_tls13_signature := fun rl _ => rl_verify_tls13 rl;
  supported_verify_schemes := fun rl _ => rl_schemes rl |}.

(** rustls's own verifier, which [verify-full] uses. *)
Record WebPkiServerVerifier := mkWebPkiServerVerifier { wp_roots : Roots }.

#[export] Instance webpki_verification : ServerCertVerifier WebPkiServerVerifier := {|
  verify_server_cert := fun rl v => rl_webpki rl (wp_roots v);
  verify_tls12_signature := fun rl _ => rl_verify_tls12 rl;
  verify_tls13_signature := fun rl _ => rl_verify_tls13 rl;
  supported_verify_schemes := fun rl _ => rl_schemes rl |}.

(** ** A handshake *)

(** What the backend presents, and what it signs with the scheme it chose. *)
Record Presented := mkPresented {
  pr_end_entity : bytes;
  pr_intermediates : list bytes;
  pr_ocsp : bytes;
  pr_tls13 : bool;
  pr_message : bytes;
  pr_signature : bytes;
  pr_scheme : Z }.

(** The signature proves that the backend holds the certificate's key. *)
Definition proves_key (rl : Rustls) (h : Presented) : bool :=
  bool_decide (pr_scheme h ∈ rl_schemes rl) &&
  is_ok ((if pr_tls13 h then rl_verify_tls13 else rl_verify_tls12) rl
           (pr_message h) (pr_end_entity h) (pr_signature h)).

(** The calls rustls makes, in order; a scheme that was not offered is refused. *)
Definition handshake_accepts {V} `{!ServerCertVerifier V} (rl : Rustls) (v : V)
    (server_name : bytes) (now : Z) (h : Presented) : bool :=
  bool_decide (pr_scheme h ∈ supported_verify_schemes rl v) &&
  is_ok (verify_server_cert rl v (pr_end_entity h) (pr_intermediates h) server_name (pr_ocsp h) now)
  && is_ok ((if pr_tls13 h then verify_tls13_signature else verify_tls12_signature) rl v
              (pr_message h) (pr_end_entity h) (pr_signature h)).

(** The verifier each policy of [build_tls_config] installs. *)
Definition policy_accepts (rl : Rustls) (policy : TlsPolicy) : bytes -> Z -> Presented -> bool :=
  match policy with
  | NoVerification => handshake_accepts rl (mkNoCertificateVerification)
  | ChainOnly roots => handshake_accepts rl (mkChainOnlyVerification roots)
  | ChainAndName roots => handshake_accepts rl (mkWebPkiServerVerifier roots)
  end.

(** A configuration with another mode. *)
Definition with_mode (m : BackendTlsMode) (c : PgConfig) : PgConfig :=
  mkPgConfig (pc_client_key c) (pc_server_key c) (pc_stored_key c) (pc_password c) (pc_user c)
    (pc_database c) (pc_connect_timeout c) (pc_startup_timeout c) (pc_host c) (pc_port c)
    (mkBackendTlsConfig m (bt_root_cert_file (pc_tls c)) (bt_channel_binding (pc_tls c))
       (bt_domain (pc_tls c)))
    (pc_salt c) (pc_iterations c) (pc_startup_params c).

(** ** The root store *)

Section roots.
Context {P : Primitives} (env : BackendEnv).

(** What the loop accepts. *)
Definition usable (entry : result bytes bytes) (cert : bytes) : Prop :=
  entry = Ok cert /\ be_root_ok env cert = Ok tt.

Lemma add_roots_failed path entries e : add_roots env path entries (Err e) = Err e.
Proof. unfold add_roots. by induction entries. Qed.

Lemma add_roots_Ok path entries added certs :
  add_roots env path entries (Ok added) = Ok certs <->
  exists new, certs = added ++ new /\ Forall2 usable entries new.
Proof.
  revert added. induction entries as [|entry entries IH]; intros added.
  - split.
    + intros [= <-]. exists []. by rewrite app_nil_r.
    + intros (new & -> & H). inversion H; subst. by rewrite app_nil_r.
  - unfold add_roots in *. cbn [fold_left mbind result_bind].
    destruct entry as [cert|e]; cbn [map_err mbind result_bind].
    2: { change (fold_left _ entries (Err ?x)) with (add_roots env path entries (Err x)).
         rewrite add_roots_failed. split; [done|]. intros (new & _ & H).
         inversion H as [|? ? ? ? Hu]; subst. by destruct Hu. }
    destruct (be_root_ok env cert) as [[]|e] eqn:Hr; cbn [map_err mbind result_bind].
    2: { change (fold_left _ entries (Err ?x)) with (add_roots env path entries (Err x)).
         rewrite add_roots_failed. split; [done|]. intros (new & _ & H).
         inversion H as [|? ? ? ? Hu]; subst. destruct Hu as [[= ->] ?]. congruence. }
    rewrite IH. split.
    + intros (new & -> & H). exists (cert :: new). rewrite <- app_assoc. split; [done|].
      by constructor.
    + intros (new & -> & H). inversion H as [|? c ? new' Hu H' E]; subst.
      destruct Hu as [[= ->] _]. exists new'. by rewrite <- app_assoc.
Qed.

Lemma add_roots_error path entries added e :
  add_roots env path entries (Ok added) = Err e -> exists m, e = PgTls m.
Proof.
  revert added. induction entries as [|entry entries IH]; intros added; [done|].
  unfold add_roots in *. cbn [fold_left mbind result_bind].
  destruct entry as [cert|x]; cbn [map_err mbind result_bind].
  - destruct (be_root_ok env cert) as [[]|x]; cbn [map_err mbind result_bind]; [apply IH|].
    change (fold_left _ entries (Err ?x)) with (add_roots env path entries (Err x)).
    rewrite add_roots_failed. intros [= <-]. eauto.
  - change (fold_left _ entries (Err ?x)) with (add_roots env path entries (Err x)).
    rewrite add_roots_failed. intros [= <-]. eauto.
Qed.

(** C25: A configured root file is used as a whole or not at all: the roots are its
    certificates, in their order, if it can be read, holds at least one, and each
    parses and is usable; anything else is a TLS error, and never a weaker set of
    roots.  Without a file the built-in roots are used. *)
Theorem root_store_all_or_nothing config :
  match bt_root_cert_file (pc_tls config) with
  | None => load_root_store env config = Ok WebPkiRoots
  | Some path =>
      (exists m, load_root_store env config = Err (PgTls m)) \/
      (exists pem certs, be_read_file env path = Ok pem /\ certs <> [] /\
         Forall2 usable (be_pem_certs env pem) certs /\
         load_root_store env config = Ok (RootCerts certs))
  end /\
  (forall path pem certs, bt_root_cert_file (pc_tls config) = Some path ->
     be_read_file env path = Ok pem -> certs <> [] -> Forall2 usable (be_pem_certs env pem) certs ->
     load_root_store env config = Ok (RootCerts certs)).
Proof.
  unfold load_root_store. destruct (bt_root_cert_file (pc_tls config)) as [path|]; [|done].
  split.
  - destruct (be_read_file env path) as [pem|e]; cbn [map_err mbind result_bind]; [|eauto].
    destruct (add_roots env path _ (Ok [])) as [certs|e] eqn:Ha.
    + apply add_roots_Ok in Ha as (new & -> & H). cbn [mbind result_bind app]. case_bool_decide; [eauto|].
      right. by exists pem, new.
    + apply add_roots_error in Ha as [m ->]. cbn [mbind result_bind]. eauto.
  - intros path' pem certs [= <-] Hf Hne Hu. rewrite Hf. cbn [map_err mbind result_bind].
    assert (Ha : add_roots env path (be_pem_certs env pem) (Ok []) = Ok certs)
      by (apply add_roots_Ok; by exists certs).
    rewrite Ha. cbn [mbind result_bind]. by rewrite bool_decide_eq_false_2.
Qed.

(** ** What each mode checks *)

Lemma accepts_proves_key rl policy name now h :
  policy_accepts rl policy name now h = true -> proves_key rl h = true.
Proof.
  unfold proves_key.
  destruct policy; unfold policy_accepts, handshake_accepts; simpl;
    destruct (bool_decide _); simpl; try done; destruct (pr_tls13 h);
    rewrite ?andb_true_iff; tauto.
Qed.

(** C24: The TLS modes form a ladder.  What [verify-full] accepts [require] accepts
    for every host name, with the same roots; what [require] accepts [prefer]
    accepts for every host name and at any time; and in no mode is a backend
    accepted that does not prove that it holds the key of its certificate.
    [verify-full] checks chain and name and [require] the chain, both against the
    configured roots.
    (rustls's own verifier validates the chain: the hypothesis.) *)
Theorem tls_modes_form_a_ladder config rl name now h full :
  (forall roots e ints n o t, rl_webpki rl roots e ints n o t = Ok tt ->
     exists parsed, rl_parse rl e = Ok parsed /\ rl_chain rl parsed roots ints t = Ok tt) ->
  build_tls_config env (with_mode TlsVerifyFull config) = Ok full ->
  exists require prefer,
    build_tls_config env (with_mode TlsRequire config) = Ok require /\
    build_tls_config env (with_mode TlsPrefer config) = Ok prefer /\
    (policy_accepts rl full name now h = true ->
     forall name', policy_accepts rl require name' now h = true) /\
    (policy_accepts rl require name now h = true ->
     forall name' now', policy_accepts rl prefer name' now' h = true) /\
    (forall p, p = full \/ p = require \/ p = prefer ->
     policy_accepts rl p name now h = true -> proves_key rl h = true) /\
    exists roots, load_root_store env config = Ok roots /\
      (policy_accepts rl full name now h = true ->
       rl_webpki rl roots (pr_end_entity h) (pr_intermediates h) name (pr_ocsp h) now = Ok tt) /\
      (policy_accepts rl require name now h = true ->
       exists parsed, rl_parse rl (pr_end_entity h) = Ok parsed /\
         rl_chain rl parsed roots (pr_intermediates h) now = Ok tt).
Proof.
  intros Hweb Hfull. unfold build_tls_config in *. cbn [pc_tls with_mode bt_mode] in *.
  change (load_root_store env (with_mode TlsVerifyFull config)) with (load_root_store env config) in Hfull.
  change (load_root_store env (with_mode TlsRequire config)) with (load_root_store env config).
  destruct (be_protocol_versions env) as [[]|]; [|done]. cbn [map_err mbind result_bind] in *.
  destruct (load_root_store env config) as [roots|e]; [|done]. injection Hfull as <-.
  exists (ChainOnly roots), NoVerification. split; [done|]. split; [done|].
  split; [|split; [|split; [intros; by eapply accepts_proves_key|exists roots; split; [done|split]]]];
    unfold policy_accepts, handshake_accepts; simpl; destruct (bool_decide _); simpl; try done.
  - intros [Hc Hs]%andb_prop name'.
    destruct (rl_webpki rl roots _ _ _ _ _) as [[]|] eqn:Hw; [|done].
    apply Hweb in Hw as (parsed & -> & Hch). cbn [mbind result_bind]. rewrite Hch. simpl.
    by destruct (pr_tls13 h).
  - intros [_ Hs]%andb_prop name' now'. by destruct (pr_tls13 h).
  - intros [Hc _]%andb_prop. by destruct (rl_webpki rl roots _ _ _ _ _) as [[]|].
  - intros [Hc _]%andb_prop. destruct (rl_parse rl _) as [parsed|]; [|done].
    cbn [mbind result_bind] in Hc. exists parsed. split; [done|].
    by destruct (rl_chain rl parsed _ _ _) as [[]|].
Qed.

End roots.

(** ** Witnesses *)

#[local] Existing Instance toy_crypto.

(** A rustls that accepts one chain, for one name. *)
Definition sample_rustls : Rustls :=
  mkRustls Ok (fun _ _ _ _ => Ok tt)
    (fun _ _ _ name _ _ => if bool_decide (name = #"db") then Ok tt else Err #"name")
    (fun _ _ _ => Ok tt) (fun _ _ _ => Ok tt) [2052].

Definition sample_presented : Presented := mkPresented #"leaf" [] [] true #"m" #"s" 2052.

(** A backend with the wrong name passes [require] and not [verify-full]. *)
Example require_skips_the_name :
  policy_accepts sample_rustls (ChainOnly WebPkiRoots) #"other" 0 sample_presented = true /\
  policy_accepts sample_rustls (ChainAndName WebPkiRoots) #"other" 0 sample_presented = false.
Proof. vm_compute. done. Qed.

Lemma tls_modes_form_a_ladder_witness :
  exists require, build_tls_config (sample_env [])
      (with_mode TlsRequire (sample_pg_config TlsDisable CbPrefer)) = Ok require /\
    policy_accepts sample_rustls require #"other" 0 sample_presented = true.
Proof.
  destruct (tls_modes_form_a_ladder (sample_env []) (sample_pg_config TlsDisable CbPrefer)
    sample_rustls #"db" 0 sample_presented (ChainAndName WebPkiRoots))
    as (require & prefer & Hr & _ & Hl & _ & _).
  - intros roots e ints n o t _. by exists e.
  - reflexivity.
  - exists require. split; [exact Hr|]. apply Hl. vm_compute. reflexivity.
Defined.
