(* ===== verification/Backend.v ===== *)
(** An authenticated backend link: [Backend] of [proxy/backend/mod.rs]. *)
From S2P Require Import Prelude Words RustStr Errors BufferPool Crypto BackendPolicy Transport.
From S2P Require Import PgClient.
Local Open Scope Z_scope.

Record Backend := mkBackend {
  ba_startup_notifications : list StartupNotification;
  ba_backend_key : option BackendKeyData;
  ba_ready_status : byte;
  ba_server_signature_verified : bool;
  ba_host : bytes;
  ba_port : Z;
  ba_connect_timeout : Z;
  ba_client : PgClient }.

Definition get_param_status_values (b : Backend) : list (bytes * bytes) :=
  omap (fun n => match n with
                 | ParameterStatus name value => Some (name, value)
                 | Notice _ => None
                 end) (ba_startup_notifications b).

(** [take_startup_notifications], and the client it leaves. *)
Definition take_startup_notifications (c : PgClient) : list StartupNotification * PgClient :=
  (cl_startup_notifications c,
   mkPgClient (cl_pool c) (cl_stream c) [] (cl_backend_key c) (cl_ready_status c)
     (cl_server_signature_verified c) (cl_peer_cert_hash c) (cl_host c) (cl_port c)
     (cl_connect_timeout c)).

Definition backend_of (client : PgClient) : Backend :=
  let '(notifications, client) := take_startup_notifications client in
  mkBackend notifications (cl_backend_key client)
    (match cl_ready_status client with Some b => b | None => x49 end)
    (cl_server_signature_verified client) (cl_host client) (cl_port client)
    (cl_connect_timeout client) client.

Section backend.
Context {P : Primitives} {A : Alloc} (env : BackendEnv).
Context {S : Type} {HS : Session S}.

(** [Backend::new]: the client shares the session's pool. *)
Definition backend_new (config : PgConfig) : IO S PgError Backend :=
  fun s =>
    match connect env config (new_client config (sess_pool s) no_stream) with
    | (Ready (Ok _), c) => (Ready (Ok (backend_of c)), set_sess_pool (cl_pool c) s)
    | (Ready (Err e), c) => (Ready (Err e), set_sess_pool (cl_pool c) s)
    | (Pending, c) => (Pending, set_sess_pool (cl_pool c) s)
    | (Crashed cr, c) => (Crashed cr, set_sess_pool (cl_pool c) s)
    end.

(** [send_cancel_request]: how it ends, and what was written to the fresh
    connection.  Its writes have no timeout of their own. *)
Definition send_cancel_request (b : Backend) (key : BackendKeyData)
    : poll (result PgError unit) * list bytes :=
  match dial env (addr_of (ba_host b) (ba_port b)) with
  | Err e => (Ready (Err e), [])
  | Ok stream =>
      match stream_write (cancel_packet key) stream with
      | (Ready (Ok _), x) => (Ready (Ok tt), st_out x)
      | (Ready (Err e), x) => (Ready (Err (PgIo e)), st_out x)
      | (Pending, x) => (Pending, st_out x)
      | (Crashed cr, x) => (Crashed cr, st_out x)
      end
  end.

Context {HOk : SessionOk S HS} {AOk : AllocOk A}.

Lemma safe_backend_new config : pool_safe (backend_new config).
Proof.
  intros s Hs. unfold backend_new.
  pose proof (safe_connect env config (new_client config (sess_pool s) no_stream) Hs) as H.
  destruct (connect env config _) as [[[[]|e]| |cr] c]; rewrite pool_set_pool; simpl in H; naive_solver.
Qed.

End backend.
