(* ===== verification/Registry.v ===== *)
(** The shared tables of the server: the sessions by cancel key
    ([backend/registry.rs]), the keys ([backend/session_key_secret.rs]) and the
    connection cap ([proxy/conn_registry.rs]).

    Each method runs under its table's lock, so it is one step. *)
From S2P Require Import Prelude Words BackendPolicy PgClient Backend.
Local Open Scope Z_scope.

(** ** Keys *)

Record SessionKeySecret := mkKeySecret { ks_key : Z; ks_secret : Z }.

#[export] Instance key_secret_eq_dec : EqDecision SessionKeySecret.
Proof. solve_decision. Defined.

#[export] Instance key_secret_countable : Countable SessionKeySecret :=
  inj_countable' (fun k => (ks_key k, ks_secret k)) (fun '(a, b) => mkKeySecret a b)
    (fun k => match k with mkKeySecret _ _ => eq_refl end).

(** The first draw with a non-zero secret among the next [tries]. *)
Fixpoint draw_key (draws : nat -> Z * Z) (i tries : nat) : option SessionKeySecret :=
  match tries with
  | O => None
  | S t => let '(key, secret) := draws i in
           if negb (secret =? 0) then Some (mkKeySecret key secret)
           else draw_key draws (S i) t
  end.

(** [SessionKeySecret::new]; [draws] are the pairs of random [i32]. *)
Definition session_key_secret_new (draws : nat -> Z * Z) : SessionKeySecret :=
  match draw_key draws 0 64 with
  | Some k => k
  | None => let '(key, secret) := draws 64%nat in mkKeySecret key (Z.lor secret 1)
  end.

Lemma draw_key_nonzero draws i t k : draw_key draws i t = Some k -> ks_secret k <> 0.
Proof.
  revert i. induction t as [|t IH]; intros i; simpl; [done|].
  destruct (draws i) as [key secret]. destruct (Z.eqb_spec secret 0); [apply IH|].
  intros [= <-]. done.
Qed.

(** The secret of a cancel key is never zero, whatever the random generator
    gives. *)
Theorem session_secret_nonzero draws : ks_secret (session_key_secret_new draws) <> 0.
Proof.
  unfold session_key_secret_new. destruct (draw_key draws 0 64) as [k|] eqn:Hk.
  - by eapply draw_key_nonzero.
  - destruct (draws 64%nat) as [key secret]. simpl. intros H%Z.lor_eq_0_iff. lia.
Qed.

(** ** Sessions by key *)

Record Inner := mkInner {
  in_conn_backend : gmap Z Backend;
  in_key_secret_backend : gmap SessionKeySecret Backend }.

Definition registry_new : Inner := mkInner ∅ ∅.

Record SessionGuard := mkGuard { sg_conn_id : Z; sg_key : SessionKeySecret }.

Definition register (backend : Backend) (conn_id : Z) (key_secret : SessionKeySecret) (r : Inner)
    : result SessionKeySecret SessionGuard * Inner :=
  match in_key_secret_backend r !! key_secret with
  | Some _ => (Err key_secret, r)
  | None => (Ok (mkGuard conn_id key_secret),
             mkInner (<[conn_id := backend]> (in_conn_backend r))
                     (<[key_secret := backend]> (in_key_secret_backend r)))
  end.

Definition lookup_by_key (key : SessionKeySecret) (r : Inner) : option Backend :=
  in_key_secret_backend r !! key.

Definition lookup_backend_key (key : SessionKeySecret) (r : Inner) : option BackendKeyData :=
  b ← lookup_by_key key r; ba_backend_key b.

(** [impl Drop for SessionGuard]. *)
Definition guard_drop (g : SessionGuard) (r : Inner) : Inner :=
  let conn_backend := delete (sg_conn_id g) (in_conn_backend r) in
  match in_conn_backend r !! sg_conn_id g with
  | Some _ => mkInner conn_backend (delete (sg_key g) (in_key_secret_backend r))
  | None => mkInner conn_backend (in_key_secret_backend r)
  end.

(** The registry with the sessions that hold a guard. *)
Record RegState := mkRegState {
  rs_inner : Inner;
  rs_live : list (SessionGuard * Backend) }.

Definition live_ids (s : RegState) : list Z := (fun gb => sg_conn_id gb.1) <$> rs_live s.

(** Sessions register and end in any order; as in the code, nothing is asked of
    the id. *)
Inductive reg_step : RegState -> RegState -> Prop :=
| step_register s b id k g r :
    register b id k (rs_inner s) = (Ok g, r) ->
    reg_step s (mkRegState r (rs_live s ++ [(g, b)]))
| step_refused s b id k k' r :
    register b id k (rs_inner s) = (Err k', r) -> reg_step s (mkRegState r (rs_live s))
| step_end s pre g b post :
    rs_live s = pre ++ (g, b) :: post ->
    reg_step s (mkRegState (guard_drop g (rs_inner s)) (pre ++ post)).

Definition reg_reachable : RegState -> Prop := rtc reg_step (mkRegState registry_new []).

(** The runs in which no two sessions that live at the same time share an id. *)
Definition distinct_step (s s' : RegState) : Prop := reg_step s s' /\ NoDup (live_ids s').

Definition reg_distinct : RegState -> Prop := rtc distinct_step (mkRegState registry_new []).

(** Whatever the ids: a live session's key is its own, and resolves to its
    backend. *)
Definition keys_resolve (s : RegState) : Prop :=
  NoDup ((fun gb => sg_key gb.1) <$> rs_live s) /\
  forall g b, (g, b) ∈ rs_live s -> lookup_by_key (sg_key g) (rs_inner s) = Some b.

(** The tables are exactly the live sessions. *)
Definition reg_inv (s : RegState) : Prop :=
  NoDup (live_ids s) /\ NoDup ((fun gb => sg_key gb.1) <$> rs_live s) /\
  (forall id b, in_conn_backend (rs_inner s) !! id = Some b <->
     exists k, (mkGuard id k, b) ∈ rs_live s) /\
  (forall k b, in_key_secret_backend (rs_inner s) !! k = Some b <->
     exists id, (mkGuard id k, b) ∈ rs_live s).

Lemma NoDup_fmap_middle {X Y} (f : X -> Y) pre x post :
  NoDup (f <$> (pre ++ x :: post)) ->
  NoDup (f <$> (pre ++ post)) /\ forall y, y ∈ pre ++ post -> f y <> f x.
Proof.
  rewrite !fmap_app, fmap_cons, !NoDup_app, NoDup_cons. intros (H1 & H2 & H3 & H4).
  split.
  - split; [done|]. split; [|done]. intros y Hy Hy2. apply (H2 y Hy). by right.
  - intros y [Hy|Hy]%elem_of_app Heq.
    + apply (H2 (f y)); [apply list_elem_of_fmap; eauto|]. rewrite Heq. by left.
    + apply H3. rewrite <- Heq. apply list_elem_of_fmap. eauto.
Qed.

Lemma elem_of_snoc {X} (x y : X) l : x ∈ l ++ [y] <-> x ∈ l \/ x = y.
Proof. by rewrite elem_of_app, list_elem_of_singleton. Qed.

Lemma NoDup_snoc {X} (x : X) l : NoDup l -> x ∉ l -> NoDup (l ++ [x]).
Proof.
  intros Hl Hx. apply NoDup_app. split; [done|]. split; [|apply NoDup_singleton].
  intros y Hy ->%list_elem_of_singleton. done.
Qed.

Lemma elem_of_middle {X} (x y : X) pre post :
  x ∈ pre ++ y :: post <-> x = y \/ x ∈ pre ++ post.
Proof. rewrite !elem_of_app, elem_of_cons. tauto. Qed.

Lemma reg_register_inv s b id k g r :
  id ∉ live_ids s -> register b id k (rs_inner s) = (Ok g, r) -> reg_inv s ->
  reg_inv (mkRegState r (rs_live s ++ [(g, b)])).
Proof.
  intros Hid Hreg (H1 & H2 & Hc & Hk). unfold register in Hreg.
  destruct (in_key_secret_backend (rs_inner s) !! k) eqn:Hfree; [done|].
  injection Hreg as <- <-. unfold reg_inv, live_ids in *. simpl.
  assert (Hnk : k ∉ (fun gb => sg_key gb.1) <$> rs_live s).
  { intros ([[id' k'] b'] & Heq & Hin)%list_elem_of_fmap. simpl in Heq. subst.
    assert (in_key_secret_backend (rs_inner s) !! k' = Some b') as E by (apply Hk; eauto).
    congruence. }
  rewrite !fmap_app. simpl. split; [by apply NoDup_snoc|]. split; [by apply NoDup_snoc|].
  split; intros x b'.
  - destruct (decide (x = id)) as [->|Hne].
    + rewrite lookup_insert_eq. split.
      * intros [= ->]. exists k. apply elem_of_snoc. by right.
      * intros [k' [Hin|Heq]%elem_of_snoc]; [|by injection Heq as -> ->].
        exfalso. apply Hid, list_elem_of_fmap. by exists (mkGuard id k', b').
    + rewrite lookup_insert_ne, Hc by done. split.
      * intros [k' Hin]. exists k'. apply elem_of_snoc. by left.
      * intros [k' [Hin|Heq]%elem_of_snoc]; [by exists k'|]. injection Heq as -> -> ->. done.
  - destruct (decide (x = k)) as [->|Hne].
    + rewrite lookup_insert_eq. split.
      * intros [= ->]. exists id. apply elem_of_snoc. by right.
      * intros [id' [Hin|Heq]%elem_of_snoc]; [|by injection Heq as -> ->].
        exfalso. apply Hnk, list_elem_of_fmap. by exists (mkGuard id' k, b').
    + rewrite lookup_insert_ne, Hk by done. split.
      * intros [id' Hin]. exists id'. apply elem_of_snoc. by left.
      * intros [id' [Hin|Heq]%elem_of_snoc]; [by exists id'|]. injection Heq as -> -> ->. done.
Qed.

Lemma reg_end_inv s pre g b post :
  rs_live s = pre ++ (g, b) :: post -> reg_inv s ->
  reg_inv (mkRegState (guard_drop g (rs_inner s)) (pre ++ post)).
Proof.
  intros Hl (H1 & H2 & Hc & Hk). unfold live_ids in H1. rewrite Hl in H1, H2.
  apply NoDup_fmap_middle in H1 as [H1 Hid], H2 as [H2 Hkey]. destruct g as [id k].
  assert (Hcb : in_conn_backend (rs_inner s) !! id = Some b).
  { apply Hc. exists k. rewrite Hl. apply elem_of_middle. by left. }
  unfold guard_drop. simpl. rewrite Hcb. unfold reg_inv, live_ids. simpl.
  split; [done|]. split; [done|]. split; intros x b'.
  - rewrite lookup_delete_Some, Hc, Hl. split.
    + intros [Hne [k' [Hx|Hx]%elem_of_middle]]; [congruence|by exists k'].
    + intros [k' Hx]. split; [|exists k'; apply elem_of_middle; by right].
      intros <-. by apply (Hid _ Hx).
  - rewrite lookup_delete_Some, Hk, Hl. split.
    + intros [Hne [id' [Hx|Hx]%elem_of_middle]]; [congruence|by exists id'].
    + intros [id' Hx]. split; [|exists id'; apply elem_of_middle; by right].
      intros <-. by apply (Hkey _ Hx).
Qed.

Lemma reg_step_keys s s' : reg_step s s' -> keys_resolve s -> keys_resolve s'.
Proof.
  intros [t b id k g r Hr|t b id k k' r Hr|t pre g b post Hl] [Hn Hk]; unfold register in *.
  - destruct (in_key_secret_backend (rs_inner t) !! k) eqn:Hf; [done|]. injection Hr as <- <-.
    unfold keys_resolve, lookup_by_key in *. simpl. rewrite fmap_app. split.
    + apply NoDup_snoc; [done|]. intros ([g' b'] & Heq & Hin)%list_elem_of_fmap. simpl in Heq.
      apply Hk in Hin. rewrite <- Heq in Hin. congruence.
    + intros g' b' [Hin|[= -> ->]]%elem_of_snoc; [|apply lookup_insert_eq].
      apply Hk in Hin. rewrite lookup_insert_ne; [done|]. congruence.
  - destruct (_ !! k); [|done]. by injection Hr as <- <-.
  - unfold keys_resolve, lookup_by_key in *. rewrite Hl in Hn, Hk.
    apply NoDup_fmap_middle in Hn as [Hn Hne]. split; [done|]. simpl. intros g' b' Hin.
    assert (Hg : in_key_secret_backend (rs_inner t) !! sg_key g' = Some b').
    { apply Hk, elem_of_middle. by right. }
    unfold guard_drop. destruct (_ !! sg_conn_id g); simpl; [|done].
    rewrite lookup_delete_ne; [done|]. intros Heq. by apply (Hne (g', b') Hin).
Qed.

Lemma reg_reachable_keys s : reg_reachable s -> keys_resolve s.
Proof.
  intros H. assert (H0 : keys_resolve (mkRegState registry_new [])).
  { split; [constructor|]. by intros g b ?%elem_of_nil. }
  revert H0. induction H as [|s1 s2 s3 Hs _ IH]; [done|]. intros H0. by eapply IH, reg_step_keys.
Qed.

Lemma distinct_step_inv s s' : distinct_step s s' -> reg_inv s -> reg_inv s'.
Proof.
  intros [[t b id k g r Hr|t b id k k' r Hr|t pre g b post Hl] Hn] Hinv.
  - eapply reg_register_inv; [|exact Hr|done]. unfold register in Hr.
    destruct (_ !! k); [done|]. injection Hr as <- _. unfold live_ids in *. simpl in Hn.
    rewrite fmap_app in Hn. apply NoDup_app in Hn as (_ & Hd & _). intros Hin.
    by apply (Hd id Hin), list_elem_of_singleton.
  - unfold register in Hr. destruct (_ !! k); [|done]. by injection Hr as <- <-.
  - by eapply reg_end_inv.
Qed.

Lemma reg_distinct_inv s : reg_distinct s -> reg_inv s.
Proof.
  intros H. assert (H0 : reg_inv (mkRegState registry_new [])).
  { unfold reg_inv, live_ids. simpl. split; [constructor|]. split; [constructor|].
    split; intros x b; rewrite lookup_empty; (split; [done|]); by intros [? ?%elem_of_nil]. }
  revert H0. induction H as [|s1 s2 s3 Hs _ IH]; [done|]. intros H0. by eapply IH, distinct_step_inv.
Qed.

(** C22: In every interleaving of registrations and ends, whatever the connection
    ids, no two live sessions share a cancel key, and the key of a live session
    resolves to that session's own backend.  As long as no two sessions that live
    at the same time have the same connection id, the registry is exactly the
    live sessions: a key resolves to a backend if and only if a live session with
    that backend holds it, so that a key dies with its session. *)
Theorem registry_is_live_sessions s :
  reg_reachable s ->
  NoDup ((fun gb => sg_key gb.1) <$> rs_live s) /\
  (forall g b, (g, b) ∈ rs_live s -> lookup_by_key (sg_key g) (rs_inner s) = Some b) /\
  (reg_distinct s -> forall k b, lookup_by_key k (rs_inner s) = Some b <->
     exists id, (mkGuard id k, b) ∈ rs_live s).
Proof.
  intros [Hn Hk]%reg_reachable_keys. split; [done|]. split; [done|].
  by intros (_ & _ & _ & H)%reg_distinct_inv.
Qed.

(** The second half needs ids that are unique among live sessions: when an id
    is reused, the end of both sessions leaves the second one's key behind, and
    a cancel request with it still reaches its backend. *)
Theorem reused_id_leaks_key b1 b2 id k1 k2 :
  k1 <> k2 ->
  let '(_, r1) := register b1 id k1 registry_new in
  let '(_, r2) := register b2 id k2 r1 in
  lookup_by_key k2 (guard_drop (mkGuard id k2) (guard_drop (mkGuard id k1) r2)) = Some b2.
Proof.
  intros Hk. unfold register, lookup_by_key, guard_drop, registry_new. simpl.
  rewrite lookup_empty. simpl. rewrite lookup_insert_ne, lookup_empty by done. simpl.
  rewrite lookup_insert_eq. simpl. rewrite lookup_delete_eq. simpl.
  by rewrite lookup_delete_ne, lookup_insert_eq by done.
Qed.

(** ** The connection cap *)

Record ConnRegistry := mkConnRegistry { cr_live : Z; cr_max : Z }.

Definition conn_registry_new (max : Z) : ConnRegistry := mkConnRegistry 0 max.

(** [true] is a permit. *)
Definition try_acquire (r : ConnRegistry) : bool * ConnRegistry :=
  if cr_max r <=? cr_live r then (false, r)
  else (true, mkConnRegistry (cr_live r + 1) (cr_max r)).

(** [impl Drop for ConnPermit]: [saturating_sub]. *)
Definition permit_drop (r : ConnRegistry) : ConnRegistry :=
  mkConnRegistry (Z.max 0 (cr_live r - 1)) (cr_max r).

(** The registry with the number of permits held. *)
Inductive cap_step : ConnRegistry * nat -> ConnRegistry * nat -> Prop :=
| cap_acquire r n r' : try_acquire r = (true, r') -> cap_step (r, n) (r', S n)
| cap_refused r n r' : try_acquire r = (false, r') -> cap_step (r, n) (r', n)
| cap_release r n : cap_step (r, S n) (permit_drop r, n).

Inductive cap_reachable (max : Z) : ConnRegistry * nat -> Prop :=
| cap_init : cap_reachable max (conn_registry_new max, 0%nat)
| cap_next s s' : cap_reachable max s -> cap_step s s' -> cap_reachable max s'.

(** The connection cap holds: at every moment the live count is the number of
    permits held and at most [max_connections], and a connection is refused
    exactly when the cap is reached; a freed permit can be taken again. *)
Theorem connection_cap max r n :
  0 <= max -> cap_reachable max (r, n) ->
  cr_live r = Z.of_nat n /\ Z.of_nat n <= max /\
  ((try_acquire r).1 = false <-> Z.of_nat n = max) /\
  (n <> 0%nat -> (try_acquire (permit_drop r)).1 = true).
Proof.
  intros Hmax Hr.
  assert (H : cr_live r = Z.of_nat n /\ cr_max r = max /\ Z.of_nat n <= max).
  { change (cr_live (r, n).1 = Z.of_nat (r, n).2 /\ cr_max (r, n).1 = max /\
            Z.of_nat (r, n).2 <= max).
    induction Hr as [|s s' _ IH Hstep]; [simpl; lia|].
    destruct Hstep as [r0 m r' Ht|r0 m r' Ht|r0 m]; simpl in *; unfold try_acquire in *;
      try (destruct (Z.leb_spec (cr_max r0) (cr_live r0)); simplify_eq); simpl; lia. }
  destruct H as (Hl & Hm & Hle). unfold try_acquire, permit_drop. simpl. rewrite Hl, Hm.
  destruct (Z.leb_spec max (Z.of_nat n)); destruct (Z.leb_spec max (Z.max 0 (Z.of_nat n - 1)));
    simpl; repeat split; try lia; try done.
Qed.

(** ** Witnesses *)

Definition sample_backend : Backend := backend_of sample_pg_client.

Definition sample_key : SessionKeySecret := mkKeySecret 7 11.

(** One session. *)
Definition sample_registered : RegState :=
  mkRegState (register sample_backend 1 sample_key registry_new).2
    [(mkGuard 1 sample_key, sample_backend)].

(** A second one under the same id, with a key of its own. *)
Definition sample_reused : RegState :=
  mkRegState (register sample_backend 1 (mkKeySecret 8 12) (rs_inner sample_registered)).2
    [(mkGuard 1 sample_key, sample_backend); (mkGuard 1 (mkKeySecret 8 12), sample_backend)].

Lemma sample_step : reg_step (mkRegState registry_new []) sample_registered.
Proof.
  by apply (step_register (mkRegState registry_new []) sample_backend 1 sample_key
              (mkGuard 1 sample_key)).
Qed.

Lemma sample_reused_reachable : reg_reachable sample_reused.
Proof.
  eapply rtc_l; [exact sample_step|]. apply rtc_once.
  by apply (step_register sample_registered sample_backend 1 (mkKeySecret 8 12)
              (mkGuard 1 (mkKeySecret 8 12))).
Qed.

Lemma sample_distinct : reg_distinct sample_registered.
Proof. apply rtc_once. split; [exact sample_step|apply NoDup_singleton]. Qed.

(** With one session both halves hold; under a reused id the first one does. *)
Lemma registry_is_live_sessions_witness :
  (lookup_by_key sample_key (rs_inner sample_registered) = Some sample_backend <->
   exists id, (mkGuard id sample_key, sample_backend) ∈ rs_live sample_registered) /\
  lookup_by_key (mkKeySecret 8 12) (rs_inner sample_reused) = Some sample_backend.
Proof.
  split.
  - apply (registry_is_live_sessions sample_registered); [exact (rtc_once _ _ sample_step)|].
    exact sample_distinct.
  - destruct (registry_is_live_sessions sample_reused sample_reused_reachable) as (_ & H & _).
    apply (H (mkGuard 1 (mkKeySecret 8 12))). simpl. right. left.
Defined.

Lemma reused_id_leaks_key_witness :
  let '(_, r1) := register sample_backend 1 sample_key registry_new in
  let '(_, r2) := register sample_backend 1 (mkKeySecret 8 12) r1 in
  lookup_by_key (mkKeySecret 8 12)
    (guard_drop (mkGuard 1 (mkKeySecret 8 12)) (guard_drop (mkGuard 1 sample_key) r2))
  = Some sample_backend.
Proof. by apply (reused_id_leaks_key sample_backend sample_backend 1 sample_key). Defined.

Lemma connection_cap_witness :
  cr_live (mkConnRegistry 1 1) = 1 /\ ((try_acquire (mkConnRegistry 1 1)).1 = false <-> 1 = 1).
Proof.
  destruct (connection_cap 1 (mkConnRegistry 1 1) 1) as (H & _ & H2 & _); [lia| |done].
  eapply cap_next; [apply cap_init|]. by apply cap_acquire.
Defined.
