(* ===== verification/ConnHalf.v ===== *)
(** The two halves of a connection: [proxy/conn_read.rs] and [proxy/conn_write.rs].

    The sockets and TLS streams of the libraries are any types with the operations
    of the traits [AsyncRead] and [AsyncWrite], which are classes here; [ConnRead]
    and [ConnWrite] are further instances.  A read is given the room left in its
    buffer and gives the bytes it put there; a write gives how many bytes it
    took. *)
From S2P Require Import Prelude Words RustStr Errors.
Local Open Scope Z_scope.

Class AsyncRead (H : Type) := {
  poll_read : nat -> H -> poll (result IoError bytes) * H }.

Class AsyncWrite (H : Type) := {
  poll_write : bytes -> H -> poll (result IoError nat) * H;
  poll_flush : H -> poll (result IoError unit) * H;
  poll_shutdown : H -> poll (result IoError unit) * H }.

(** What the callers rely on: a read stays within its buffer, and a write takes no
    more than it was given. *)
Class AsyncReadOk (H : Type) (R : AsyncRead H) : Prop :=
  read_within : forall n h d h', poll_read n h = (Ready (Ok d), h') -> (length d <= n)%nat.

Class AsyncWriteOk (H : Type) (W : AsyncWrite H) : Prop :=
  write_within : forall buf h n h', poll_write buf h = (Ready (Ok n), h') -> (n <= length buf)%nat.

(** ** The halves *)

Section halves.
Context {Plain Tls ClientTls : Type}.

Inductive ConnRead :=
| ReadEmpty
| ReadPlain (stream : Plain)
| ReadTls (stream : Tls)
| ReadClientTls (stream : ClientTls).

Inductive ConnWrite :=
| WriteEmpty
| WritePlain (stream : Plain)
| WriteTls (stream : Tls)
| WriteClientTls (stream : ClientTls).

(** The result of a poll of a variant's stream, which stays in its variant. *)
Definition polled {S T H : Type} (variant : S -> H) (r : poll (result IoError T) * S)
    : poll (result IoError T) * H := (r.1, variant r.2).

#[export] Instance conn_read `{AsyncRead Plain, AsyncRead Tls, AsyncRead ClientTls}
    : AsyncRead ConnRead := {|
  poll_read n h :=
    match h with
    | ReadPlain stream => polled ReadPlain (poll_read n stream)
    | ReadTls stream => polled ReadTls (poll_read n stream)
    | ReadClientTls stream => polled ReadClientTls (poll_read n stream)
    | ReadEmpty => (Ready (Ok []), ReadEmpty)
    end |}.

#[export] Instance conn_write `{AsyncWrite Plain, AsyncWrite Tls, AsyncWrite ClientTls}
    : AsyncWrite ConnWrite := {|
  poll_write buf h :=
    match h with
    | WritePlain stream => polled WritePlain (poll_write buf stream)
    | WriteTls stream => polled WriteTls (poll_write buf stream)
    | WriteClientTls stream => polled WriteClientTls (poll_write buf stream)
    | WriteEmpty => (Ready (Ok 0%nat), WriteEmpty)
    end;
  poll_flush h :=
    match h with
    | WritePlain stream => polled WritePlain (poll_flush stream)
    | WriteTls stream => polled WriteTls (poll_flush stream)
    | WriteClientTls stream => polled WriteClientTls (poll_flush stream)
    | WriteEmpty => (Ready (Ok tt), WriteEmpty)
    end;
  poll_shutdown h :=
    match h with
    | WritePlain stream => polled WritePlain (poll_shutdown stream)
    | WriteTls stream => polled WriteTls (poll_shutdown stream)
    | WriteClientTls stream => polled WriteClientTls (poll_shutdown stream)
    | WriteEmpty => (Ready (Ok tt), WriteEmpty)
    end |}.

Lemma polled_Ok {S T H : Type} (variant : S -> H) (r : poll (result IoError T) * S) x h :
  polled variant r = (Ready (Ok x), h) -> r = (Ready (Ok x), r.2).
Proof. destruct r as [p s]. unfold polled. simpl. by intros [= -> _]. Qed.

#[export] Instance conn_read_ok `{AsyncReadOk Plain, AsyncReadOk Tls, AsyncReadOk ClientTls}
    : AsyncReadOk ConnRead conn_read.
Proof.
  intros n h d h' Hr. destruct h as [|s|s|s]; simpl in Hr; [injection Hr as <- _; simpl; lia|..];
    apply polled_Ok in Hr; exact (read_within n s d _ Hr).
Qed.

#[export] Instance conn_write_ok `{AsyncWriteOk Plain, AsyncWriteOk Tls, AsyncWriteOk ClientTls}
    : AsyncWriteOk ConnWrite conn_write.
Proof.
  intros buf h n h' Hw. destruct h as [|s|s|s]; simpl in Hw; [injection Hw as <- _; lia|..];
    apply polled_Ok in Hw; exact (write_within buf s n _ Hw).
Qed.

End halves.
Arguments ConnRead : clear implicits.
Arguments ConnWrite : clear implicits.
