(* ===== verification/ConnState.v ===== *)
(** A frontend session's state, framing and buffers: the struct and the readers
    and writers of [proxy/conn.rs], [proxy/conn_read.rs], [proxy/conn_write.rs].

    Everything written to the client, over the plain socket and then over TLS,
    is kept in [st_out] of the stream, one element per flush. *)
From S2P Require Import Prelude Words RustStr Errors BufferPool Packet StartupOptions Crypto.
From S2P Require Import Tls Verifier CredentialFile AuthQuery CredentialStore Config.
From S2P Require Import BackendPolicy Transport PgClient Backend Registry.
Local Open Scope Z_scope.

(** [ConnRead] and [ConnWrite], which are replaced together. *)
Inductive ConnHalves := HalvesEmpty | HalvesPlain | HalvesTls.

(** [co_forwarded] records the packets written to the connections that forward
    cancel requests. *)
Record Conn := mkConn {
  co_conn_id : Z;
  co_pool : MultiBufferPool;
  co_stream : Stream;
  co_transport : ConnHalves;
  co_ssl_done : bool;
  co_required_tls : bool;
  co_gss_done : bool;
  co_frontend_tls : option FrontendTls;
  co_protocol_version : option Z;
  co_params : gmap bytes bytes;
  co_user : option bytes;
  co_database : option bytes;
  co_replication_mode : ReplicationMode;
  co_provider : CredentialStore;
  co_backend_registry : Inner;
  co_session_key_secret : option SessionKeySecret;
  co_backend : option Backend;
  co_server_signature_verified : bool;
  co_conn_registry : ConnRegistry;
  co_config : Config;
  co_session_guard : option SessionGuard;
  co_forwarded : list (list bytes) }.

(** Field assignments. *)
Definition set_pool (x : MultiBufferPool) (c : Conn) : Conn :=
  mkConn (co_conn_id c) x (co_stream c) (co_transport c) (co_ssl_done c) (co_required_tls c)
    (co_gss_done c) (co_frontend_tls c) (co_protocol_version c) (co_params c) (co_user c)
    (co_database c) (co_replication_mode c) (co_provider c) (co_backend_registry c)
    (co_session_key_secret c) (co_backend c) (co_server_signature_verified c) (co_conn_registry
    c) (co_config c) (co_session_guard c) (co_forwarded c).

Definition set_stream (x : Stream) (c : Conn) : Conn :=
  mkConn (co_conn_id c) (co_pool c) x (co_transport c) (co_ssl_done c) (co_required_tls c)
    (co_gss_done c) (co_frontend_tls c) (co_protocol_version c) (co_params c) (co_user c)
    (co_database c) (co_replication_mode c) (co_provider c) (co_backend_registry c)
    (co_session_key_secret c) (co_backend c) (co_server_signature_verified c) (co_conn_registry
    c) (co_config c) (co_session_guard c) (co_forwarded c).

Definition set_transport (x : ConnHalves) (c : Conn) : Conn :=
  mkConn (co_conn_id c) (co_pool c) (co_stream c) x (co_ssl_done c) (co_required_tls c)
    (co_gss_done c) (co_frontend_tls c) (co_protocol_version c) (co_params c) (co_user c)
    (co_database c) (co_replication_mode c) (co_provider c) (co_backend_registry c)
    (co_session_key_secret c) (co_backend c) (co_server_signature_verified c) (co_conn_registry
    c) (co_config c) (co_session_guard c) (co_forwarded c).

Definition set_ssl_done (x : bool) (c : Conn) : Conn :=
  mkConn (co_conn_id c) (co_pool c) (co_stream c) (co_transport c) x (co_required_tls c)
    (co_gss_done c) (co_frontend_tls c) (co_protocol_version c) (co_params c) (co_user c)
    (co_database c) (co_replication_mode c) (co_provider c) (co_backend_registry c)
    (co_session_key_secret c) (co_backend c) (co_server_signature_verified c) (co_conn_registry
    c) (co_config c) (co_session_guard c) (co_forwarded c).

Definition set_gss_done (x : bool) (c : Conn) : Conn :=
  mkConn (co_conn_id c) (co_pool c) (co_stream c) (co_transport c) (co_ssl_done c)
    (co_required_tls c) x (co_frontend_tls c) (co_protocol_version c) (co_params c) (co_user c)
    (co_database c) (co_replication_mode c) (co_provider c) (co_backend_registry c)
    (co_session_key_secret c) (co_backend c) (co_server_signature_verified c) (co_conn_registry
    c) (co_config c) (co_session_guard c) (co_forwarded c).

Definition set_protocol_version (x : option Z) (c : Conn) : Conn :=
  mkConn (co_conn_id c) (co_pool c) (co_stream c) (co_transport c) (co_ssl_done c)
    (co_required_tls c) (co_gss_done c) (co_frontend_tls c) x (co_params c) (co_user c)
    (co_database c) (co_replication_mode c) (co_provider c) (co_backend_registry c)
    (co_session_key_secret c) (co_backend c) (co_server_signature_verified c) (co_conn_registry
    c) (co_config c) (co_session_guard c) (co_forwarded c).

Definition set_params (x : gmap bytes bytes) (c : Conn) : Conn :=
  mkConn (co_conn_id c) (co_pool c) (co_stream c) (co_transport c) (co_ssl_done c)
    (co_required_tls c) (co_gss_done c) (co_frontend_tls c) (co_protocol_version c) x (co_user
    c) (co_database c) (co_replication_mode c) (co_provider c) (co_backend_registry c)
    (co_session_key_secret c) (co_backend c) (co_server_signature_verified c) (co_conn_registry
    c) (co_config c) (co_session_guard c) (co_forwarded c).

Definition set_user (x : option bytes) (c : Conn) : Conn :=
  mkConn (co_conn_id c) (co_pool c) (co_stream c) (co_transport c) (co_ssl_done c)
    (co_required_tls c) (co_gss_done c) (co_frontend_tls c) (co_protocol_version c) (co_params
    c) x (co_database c) (co_replication_mode c) (co_provider c) (co_backend_registry c)
    (co_session_key_secret c) (co_backend c) (co_server_signature_verified c) (co_conn_registry
    c) (co_config c) (co_session_guard c) (co_forwarded c).

Definition set_database (x : option bytes) (c : Conn) : Conn :=
  mkConn (co_conn_id c) (co_pool c) (co_stream c) (co_transport c) (co_ssl_done c)
    (co_required_tls c) (co_gss_done c) (co_frontend_tls c) (co_protocol_version c) (co_params
    c) (co_user c) x (co_replication_mode c) (co_provider c) (co_backend_registry c)
    (co_session_key_secret c) (co_backend c) (co_server_signature_verified c) (co_conn_registry
    c) (co_config c) (co_session_guard c) (co_forwarded c).

Definition set_replication_mode (x : ReplicationMode) (c : Conn) : Conn :=
  mkConn (co_conn_id c) (co_pool c) (co_stream c) (co_transport c) (co_ssl_done c)
    (co_required_tls c) (co_gss_done c) (co_frontend_tls c) (co_protocol_version c) (co_params
    c) (co_user c) (co_database c) x (co_provider c) (co_backend_registry c)
    (co_session_key_secret c) (co_backend c) (co_server_signature_verified c) (co_conn_registry
    c) (co_config c) (co_session_guard c) (co_forwarded c).

Definition set_provider (x : CredentialStore) (c : Conn) : Conn :=
  mkConn (co_conn_id c) (co_pool c) (co_stream c) (co_transport c) (co_ssl_done c)
    (co_required_tls c) (co_gss_done c) (co_frontend_tls c) (co_protocol_version c) (co_params
    c) (co_user c) (co_database c) (co_replication_mode c) x (co_backend_registry c)
    (co_session_key_secret c) (co_backend c) (co_server_signature_verified c) (co_conn_registry
    c) (co_config c) (co_session_guard c) (co_forwarded c).

Definition set_backend_registry (x : Inner) (c : Conn) : Conn :=
  mkConn (co_conn_id c) (co_pool c) (co_stream c) (co_transport c) (co_ssl_done c)
    (co_required_tls c) (co_gss_done c) (co_frontend_tls c) (co_protocol_version c) (co_params
    c) (co_user c) (co_database c) (co_replication_mode c) (co_provider c) x
    (co_session_key_secret c) (co_backend c) (co_server_signature_verified c) (co_conn_registry
    c) (co_config c) (co_session_guard c) (co_forwarded c).

Definition set_conn_registry (x : ConnRegistry) (c : Conn) : Conn :=
  mkConn (co_conn_id c) (co_pool c) (co_stream c) (co_transport c) (co_ssl_done c)
    (co_required_tls c) (co_gss_done c) (co_frontend_tls c) (co_protocol_version c) (co_params
    c) (co_user c) (co_database c) (co_replication_mode c) (co_provider c) (co_backend_registry
    c) (co_session_key_secret c) (co_backend c) (co_server_signature_verified c) x (co_config c)
    (co_session_guard c) (co_forwarded c).

Definition set_forwarded (x : list (list bytes)) (c : Conn) : Conn :=
  mkConn (co_conn_id c) (co_pool c) (co_stream c) (co_transport c) (co_ssl_done c)
    (co_required_tls c) (co_gss_done c) (co_frontend_tls c) (co_protocol_version c) (co_params
    c) (co_user c) (co_database c) (co_replication_mode c) (co_provider c) (co_backend_registry
    c) (co_session_key_secret c) (co_backend c) (co_server_signature_verified c)
    (co_conn_registry c) (co_config c) (co_session_guard c) x.

(** The assignments that follow a registration. *)
Definition set_session (key : SessionKeySecret) (b : Backend) (g : SessionGuard) (c : Conn) : Conn :=
  mkConn (co_conn_id c) (co_pool c) (co_stream c) (co_transport c) (co_ssl_done c)
    (co_required_tls c) (co_gss_done c) (co_frontend_tls c) (co_protocol_version c) (co_params c)
    (co_user c) (co_database c) (co_replication_mode c) (co_provider c) (co_backend_registry c)
    (Some key) (Some b) (ba_server_signature_verified b) (co_conn_registry c) (co_config c)
    (Some g) (co_forwarded c).

#[export] Instance conn_session : Session Conn := {|
  sess_pool := co_pool; set_sess_pool := set_pool;
  sess_stream := co_stream; set_sess_stream := set_stream |}.

#[export] Instance conn_session_ok : SessionOk Conn conn_session.
Proof. by split. Qed.

(** [Conn::new] on an accepted socket. *)
Definition conn_new (conn_id : Z) (stream : Stream) (pool : MultiBufferPool)
    (frontend_tls : option FrontendTls) (provider : CredentialStore) (backends : Inner)
    (connections : ConnRegistry) (config : Config) : Conn :=
  mkConn conn_id pool stream HalvesPlain false false false frontend_tls None ∅ None None Off
    provider backends None None false connections config None [].

(** The reader and writer [ConnRead::Empty] and [ConnWrite::Empty]: no byte can
    be read and none is taken. *)
Definition empty_halves (x : Stream) : Stream :=
  mkStream [] (Ends UnexpectedEof) (st_out x) (Some 0%nat) (Ends WriteZero).

(** The message tags of the session. *)
Definition MSG_PARAMETER_STATUS : byte := x53.
Definition MSG_NOTICE : byte := x4e.
Definition MSG_KEY_SECRET : byte := x4b.
Definition MSG_READY_ACCEPT_QUERY : byte := x5a.
Definition MSG_ERROR : byte := x45.

Section framing.
Context {A : Alloc}.

(** ** Writing *)

Definition write_raw (data : bytes) : IO Conn InternalError unit :=
  io_map_err BoxedIo (write_flush data).

Definition write_message (message_type : byte) (body : bytes) : IO Conn InternalError unit :=
  write_raw (message_type :: u32_to_be (as_u32 (Z.of_nat (length body) + 4)) ++ body).

Definition send_error_message (code message : bytes) : IO Conn InternalError unit :=
  write_message MSG_ERROR (prepare_error_buf #"FATAL" code message).

(** ** Reading *)

Definition proxy_io (e : IoError) : ProxyError := Internal (BoxedIo e).

Definition read_message_length : IO Conn ProxyError Z :=
  hdr ← io_map_err proxy_io (read_exact 4);
  match hdr with
  | [b0; b1; b2; b3] =>
      let len := u32_from_be b0 b1 b2 b3 in
      if len <? 4 then io_fail (connection_error InvalidMessageLength) else mret (len - 4)
  | _ => io_fail (proxy_io UnexpectedEof)
  end.

(** [read_message_body], and what is done with the buffer until it is dropped;
    [inject] is what the caller makes of the reader's own errors. *)
Definition with_message_body {E T} (inject : ProxyError -> E) (len : Z)
    (k : option bytes -> IO Conn E T) : IO Conn E T :=
  if len =? 0 then k None
  else
    c ← io_get;
    if max_capacity (co_pool c) <? len then
      io_fail (inject (connection_error MessageTooLarge))
    else with_pooled len (io_map_err (fun e => inject (proxy_io e)) (read_exact (Z.to_nat len)))
           (fun buf => k (Some buf)).

Definition with_startup_packet {T} (k : bytes -> IO Conn ProxyError T) : IO Conn ProxyError T :=
  len ← read_message_length;
  c ← io_get;
  if max_startup_bytes (co_config c) <? len + 4 then io_fail (connection_error FirstMessageTooBig)
  else with_message_body id len (fun message =>
    match message with
    | Some message => k message
    | None => io_fail (connection_error EmptyMessageBody)
    end).

End framing.
