(* ===== verification/ConnAuth.v ===== *)
(** SCRAM authentication of a frontend session: [auth/handler.rs] and
    [auth/scram/handler.rs].

    [ConnEnv] is everything outside the session that its handlers meet.  A
    lookup or a link that is [None] has not ended when the authentication
    deadline expires. *)
From S2P Require Import Prelude Words RustStr Errors BufferPool Packet Crypto ToyCrypto Tls.
From S2P Require Import Verifier ScramServer CredentialFile AuthQuery CredentialStore Config.
From S2P Require Import BackendPolicy Transport PgClient Backend Registry ConnState.
Local Open Scope Z_scope.

Record ConnEnv := mkConnEnv {
  (** The plaintext the [BufReader] already holds when TLS starts, and
      [TlsAcceptor::accept] of the socket without it. *)
  ce_buffered : Stream -> nat;
  ce_accept : Stream -> option (result IoError Stream);
  (** The lookup database at the first and at the second lookup. *)
  ce_lookup1 : option DriverEnv;
  ce_lookup2 : option DriverEnv;
  (** The 32 bytes of the server nonce, and the pairs drawn for the keys. *)
  ce_nonce : bytes;
  ce_draws : nat -> nat -> Z * Z;
  (** The order in which the parameter map is iterated. *)
  ce_iter : gmap bytes bytes -> list (bytes * bytes);
  ce_backend : option BackendEnv;
  ce_cancel : BackendEnv }.

Definition MSG_AUTH : byte := x52.
Definition MSG_PASSWORD : byte := x70.
Definition AUTH_SASL : Z := 10.
Definition AUTH_SASL_CONTINUE : Z := 11.
Definition AUTH_SASL_FINAL : Z := 12.
Definition AUTH_SASL_OK : Z := 0.

(** [filter(|s| !s.is_empty())]. *)
Definition non_empty (s : bytes) : option bytes := if bool_decide (s = []) then None else Some s.

Section auth.
Context {P : Primitives} {A : Alloc}.
Variable env : ConnEnv.

(** [self.provider.lookup(user).await]. *)
Definition provider_lookup (driver : option DriverEnv) (user : bytes)
    : IO Conn ProviderError (option Verifier) :=
  fun c => match driver with
           | None => (Pending, c)
           | Some d => let '(r, s) := store_lookup d user (co_provider c) in (r, set_provider s c)
           end.

Definition send_auth_message (sub_code : Z) (data : bytes) : IO Conn InternalError unit :=
  write_message MSG_AUTH (u32_to_be (as_u32 sub_code) ++ data).

Definition send_auth_sasl (mechanics : list bytes) : IO Conn AuthFailure unit :=
  let data := fold_left put_cstr mechanics [] in
  io_map_err AuthInternal (send_auth_message AUTH_SASL (data ++ [x00])).

(** [read_sasl_response], and the use of the body until it is dropped. *)
Definition with_sasl_response {T} (k : bytes -> IO Conn AuthFailure T) : IO Conn AuthFailure T :=
  buf ← io_map_err (fun e => AuthInternal (BoxedIo e)) (read_exact 1);
  if negb (bool_decide (buf = [MSG_PASSWORD])) then
    io_fail (rejected (Protocol #"Invalid Message"))
  else
    len ← io_map_err map_proxy_error_auth_error read_message_length;
    if len <? 4 then io_fail (rejected (Protocol #"message length too short"))
    else with_message_body map_proxy_error_auth_error len (fun message_buf =>
      match message_buf with
      | Some message_buf => k message_buf
      | None => io_fail (rejected (Protocol #"message body empty"))
      end).

Definition read_sasl_initial_response (mechanics : list bytes)
    : IO Conn AuthFailure (bytes * bytes) :=
  with_sasl_response (fun message_buf =>
    '(mechanism, message) ← io_local (reader_new message_buf)
      (io_map_err map_proxy_error_auth_error read_string);
    if negb (bool_decide (mechanism ∈ mechanics)) then
      io_fail (rejected (Protocol #"invalid mechanism"))
    else
      '(data_len, message) ← io_local message (io_map_err map_proxy_error_auth_error read_u32);
      let data_len := as_i32 data_len in
      if data_len <? 0 then io_fail (rejected (Protocol #"Invalid message"))
      else
        '(client_first, _) ← io_local message
          (io_map_err (fun _ => rejected (Protocol #"Invalid message"))
             (read_string_fixed_size data_len));
        mret (mechanism, client_first)).

Definition read_sasl_final_response : IO Conn AuthFailure bytes :=
  with_sasl_response (fun message_buf =>
    io_lift (ok_or (from_utf8 message_buf) (rejected malformed))).

(** What the certificate offers: only after an upgrade to TLS. *)
Definition session_cert_hash (c : Conn) : option CertHash :=
  if co_ssl_done c then tls ← co_frontend_tls c; ft_cert_hash tls else None.

Definition handle_scram_auth : IO Conn AuthFailure (option bytes) :=
  c ← io_get;
  user ← io_lift (ok_or (co_user c ≫= non_empty) (rejected (AuthenticationFailed
                    #"password authentication failed for user")));
  found ← io_map_err (fun e => Rejected (AeProvider e)) (provider_lookup (ce_lookup1 env) user);
  let verifier := match found with
                  | Some verifier => verifier
                  | None => get_dummy_verifier (co_provider c) user
                  end in
  c ← io_get;
  let scram := authenticator_new verifier (session_cert_hash c) in
  let mechanics := mechanisms scram in
  io_map_err internal_failure (send_auth_sasl mechanics);;
  '(chosen, client_first) ← read_sasl_initial_response mechanics;
  '(server_first, scram) ← io_local scram
    (io_map_err rejected (handle_client_first (ce_nonce env) chosen client_first user));
  io_map_err AuthInternal (send_auth_message AUTH_SASL_CONTINUE server_first);;
  client_final ← read_sasl_final_response;
  '(server_final, scram) ← io_local scram
    (io_map_err rejected (handle_client_final client_final user));
  io_map_err AuthInternal (send_auth_message AUTH_SASL_FINAL server_final);;
  io_map_err AuthInternal (send_auth_message AUTH_SASL_OK []);;
  mret (sa_extracted_client_key scram).

Definition handle_authentication : IO Conn ProxyError (option bytes) :=
  r ← io_try handle_scram_auth;
  match r with
  | Ok client_key => mret client_key
  | Err (Rejected error) =>
      io_map_err Internal (send_error_message (auth_error_code error) (auth_error_message error));;
      mret None
  | Err (AuthInternal error) => io_fail (Internal error)
  end.

End auth.
