(* ===== verification/Conn.v ===== *)
(** The startup phase of a frontend session: the handlers of [proxy/conn.rs]. *)
From S2P Require Import Prelude Words RustStr Errors BufferPool Packet StartupOptions Crypto.
From S2P Require Import ToyCrypto Tls Verifier ScramServer CredentialFile AuthQuery.
From S2P Require Import CredentialStore Config BackendPolicy Transport PgClient Backend.
From S2P Require Import Registry ConnState ConnAuth.
Local Open Scope Z_scope.

Inductive StartupOutCome := Continued | SessionReady | Close.

#[export] Instance outcome_eq_dec : EqDecision StartupOutCome.
Proof. solve_decision. Defined.

Definition SQLSTATE_FEATURE_NOT_SUPPORTED : bytes := #"0A000".

Definition unsupported_protocol_message (version : Z) : bytes :=
  #"unsupported frontend protocol " ++ show_uint (Z.shiftr version 16) ++ #"."
  ++ show_uint (Z.land version 65535) ++ #": server supports 3.0 to 3.0".

(** A StartupMessage's parameters, read into the session's map; [true] is the
    terminator.  Each turn consumes a byte of the body. *)
Fixpoint read_params (fuel : nat) (message_reader : MessageReader)
    : IO Conn ProxyError (bool * MessageReader) :=
  match fuel with
  | O => mret (false, message_reader)
  | S fuel =>
      if 0 <? remaining message_reader then
        '(key, message_reader) ← io_local message_reader read_string;
        if bool_decide (key = []) then mret (true, message_reader)
        else
          '(value, message_reader) ← io_local message_reader read_string;
          io_modify (fun c => set_params (<[key := value]> (co_params c)) c);;
          read_params fuel message_reader
      else mret (false, message_reader)
  end.

(** [parsed.remove("replication"); params.extend(parsed); params.remove("options")]. *)
Definition merge_options (parsed params : gmap bytes bytes) : gmap bytes bytes :=
  delete #"options" (delete #"replication" parsed ∪ params).

Section handlers.
Context {P : Primitives} {A : Alloc}.
Variable env : ConnEnv.

(** ** Encryption requests *)

(** [write_all] and [flush] of one byte. *)
Definition answer (b : byte) : IO Conn ProxyError unit :=
  io_map_err proxy_io (write_flush [b]).

Definition handle_gssnc_request : IO Conn ProxyError unit :=
  c ← io_get;
  if co_gss_done c then io_fail (connection_error GssAlreadyDone)
  else
    io_modify (set_gss_done true);;
    answer x4e.

(** The stream without the plaintext the reader had buffered, for TLS. *)
Definition unread_socket (x : Stream) : Stream :=
  mkStream (drop (ce_buffered env x) (st_in x)) (st_in_end x) (st_out x) (st_room x) (st_out_end x).

(** The encrypted stream, behind what was already written. *)
Definition over_tls (x tls : Stream) : Stream :=
  mkStream (st_in tls) (st_in_end tls) (st_out x) (st_room tls) (st_out_end tls).

Definition tls_accept (tcp : Stream) : IO Conn ProxyError Stream :=
  match ce_accept env tcp with
  | Some r => io_lift (map_err proxy_io r)
  | None => io_pending
  end.

Definition promote_to_tls : IO Conn ProxyError unit :=
  c ← io_get;
  let tcp := unread_socket (co_stream c) in
  io_modify (set_transport HalvesEmpty);;
  io_modify (set_stream (empty_halves (co_stream c)));;
  match co_transport c with
  | HalvesPlain =>
      io_lift (ok_or (co_frontend_tls c) (Internal (BoxedStr #"TLS acceptor not set")));;
      tls ← tls_accept tcp;
      io_modify (set_stream (over_tls tcp tls));;
      io_modify (set_transport HalvesTls)
  | _ => io_fail (connection_error InvalidData)
  end.

Definition handle_ssl_request : IO Conn ProxyError unit :=
  c ← io_get;
  if co_ssl_done c then io_fail (connection_error TlsAlreadyDone)
  else
    io_modify (set_ssl_done true);;
    if is_some (co_frontend_tls c) then answer x53;; promote_to_tls
    else answer x4e.

(** ** Cancel requests *)

(** [send_cancel_request], of which only an error is logged. *)
Definition forward_cancel (backend : Backend) (key : BackendKeyData) : IO Conn ProxyError unit :=
  fun c =>
    let '(r, written) := send_cancel_request (ce_cancel env) backend key in
    let c := set_forwarded (co_forwarded c ++ [written]) c in
    match r with
    | Ready _ => (Ready (Ok tt), c)
    | Pending => (Pending, c)
    | Crashed cr => (Crashed cr, c)
    end.

Definition handle_cancel_request (message_reader : MessageReader) : IO Conn ProxyError unit :=
  if negb (remaining message_reader =? 8) then io_fail (connection_error InvalidMessageLength)
  else
    '(pid, message_reader) ← io_local message_reader read_u32;
    '(secret, _) ← io_local message_reader read_u32;
    c ← io_get;
    match lookup_by_key (mkKeySecret (as_i32 pid) (as_i32 secret)) (co_backend_registry c) with
    | Some backend =>
        match ba_backend_key backend with
        | Some backend_key => forward_cancel backend backend_key
        | None => mret tt
        end
    | None => mret tt
    end.

(** ** The end of a successful startup *)

Definition send_notification (n : StartupNotification) : IO Conn ProxyError unit :=
  match n with
  | ParameterStatus name value =>
      io_map_err Internal (write_message MSG_PARAMETER_STATUS (put_cstr (put_cstr [] name) value))
  | Notice body => io_map_err Internal (write_message MSG_NOTICE body)
  end.

Fixpoint send_notifications (ns : list StartupNotification) : IO Conn ProxyError unit :=
  match ns with
  | [] => mret tt
  | n :: ns => send_notification n;; send_notifications ns
  end.

Definition send_startup_notifications : IO Conn ProxyError unit :=
  c ← io_get;
  backend ← io_lift (ok_or (co_backend c) (connection_error InvalidData));
  send_notifications (ba_startup_notifications backend).

Definition send_key_secret : IO Conn ProxyError unit :=
  c ← io_get;
  session_key_secret ← io_lift (ok_or (co_session_key_secret c) (connection_error InvalidState));
  io_map_err Internal (write_message MSG_KEY_SECRET
    (u32_to_be (as_u32 (ks_key session_key_secret))
     ++ u32_to_be (as_u32 (ks_secret session_key_secret)))).

Definition send_ready_signal : IO Conn ProxyError unit :=
  c ← io_get;
  let status := match co_backend c with Some backend => ba_ready_status backend | None => x49 end in
  io_map_err Internal (write_message MSG_READY_ACCEPT_QUERY [status]).

(** ** The StartupMessage *)

(** The part of [handle_startup_packet] before authentication. *)
Definition read_startup_params (message_reader : MessageReader) : IO Conn ProxyError unit :=
  '(saw_terminator, message_reader) ←
    read_params (S (length (mr_buf message_reader))) message_reader;
  if negb saw_terminator || negb (remaining message_reader =? 0) then
    io_fail (connection_error InvalidStartupLayout)
  else
    c ← io_get;
    match co_params c !! #"options" with
    | Some value =>
        parsed ← io_lift (parse_options value);
        io_modify (fun c => set_params (merge_options parsed (co_params c)) c)
    | None => mret tt
    end;;
    c ← io_get;
    user ← io_lift (ok_or (co_params c !! #"user" ≫= non_empty) (connection_error MissingUser));
    io_modify (set_user (Some user));;
    io_modify (set_database (Some (default user (co_params c !! #"database" ≫= non_empty))));;
    match co_params c !! #"replication" with
    | Some value =>
        replication_mode ← io_lift (parse_replication_mode value);
        io_modify (set_replication_mode replication_mode)
    | None => mret tt
    end.

Definition session_pg_config (c : Conn) (client_key : bytes) (verifier : Verifier)
    (user database host : bytes) (port : Z) : PgConfig :=
  let backend := cf_backend (co_config c) in
  let tls := bc_tls backend in
  let tls := match bt_domain tls with
             | Some _ => tls
             | None => mkBackendTlsConfig (bt_mode tls) (bt_root_cert_file tls)
                         (bt_channel_binding tls) (tls_server_name backend host)
             end in
  mkPgConfig (Some client_key) (Some (v_server_key verifier)) (Some (v_stored_key verifier))
    (v_password verifier) user database (connect_timeout backend) (startup_timeout backend)
    host port tls (v_salt verifier) (v_iterations verifier) (ce_iter env (co_params c)).

Definition link_backend (pg_config : PgConfig) : IO Conn ProxyError Backend :=
  match ce_backend env with
  | Some backend_env => io_map_err proxy_error_from_pg (backend_new backend_env pg_config)
  | None => io_pending
  end.

(** The [for _ in 0..64] loop. *)
Fixpoint register_session (backend : Backend) (i tries : nat)
    : IO Conn ProxyError (SessionKeySecret * SessionGuard) :=
  match tries with
  | O => io_fail (connection_error InvalidState)
  | S tries =>
      c ← io_get;
      let candidate := session_key_secret_new (ce_draws env i) in
      match register backend (co_conn_id c) candidate (co_backend_registry c) with
      | (Ok guard, r) => io_modify (set_backend_registry r);; mret (candidate, guard)
      | (Err _, r) => io_modify (set_backend_registry r);; register_session backend (S i) tries
      end
  end.

Definition start_session (client_key : bytes) : IO Conn ProxyError StartupOutCome :=
  c ← io_get;
  user ← io_lift (ok_or (co_user c) (connection_error InvalidState));
  database ← io_lift (ok_or (co_database c) (connection_error InvalidState));
  found ← io_map_err (fun '(Unavailable reason) => Internal (BoxedProvider reason))
            (provider_lookup (ce_lookup2 env) user);
  verifier ← io_lift (ok_or found (connection_error InvalidState));
  '(host, port) ← io_lift (map_err (fun e => Internal (BoxedConfig e))
                             (backend_host_port (co_config c)));
  backend ← link_backend (session_pg_config c client_key verifier user database host port);
  '(session_key_secret, guard) ← register_session backend 0 64;
  io_modify (set_session session_key_secret backend guard);;
  send_startup_notifications;;
  send_key_secret;;
  send_ready_signal;;
  mret SessionReady.

Definition handle_startup_packet (protocol_version : Z) (message_reader : MessageReader)
    : IO Conn ProxyError StartupOutCome :=
  io_modify (set_protocol_version (Some protocol_version));;
  read_startup_params message_reader;;
  client_key ← handle_authentication env;
  match client_key with
  | None => mret Close
  | Some client_key => start_session client_key
  end.

(** ** The driver *)

(** The [match] on the code that opens a packet. *)
Definition dispatch (buf : bytes) : IO Conn ProxyError StartupOutCome :=
  '(protocol_code, message_reader) ← io_local (reader_new buf) read_u32;
  if protocol_code =? SSL_REQUEST_CODE then handle_ssl_request;; mret Continued
  else if protocol_code =? GSSENC_REQUEST_CODE then handle_gssnc_request;; mret Continued
  else if protocol_code =? CANCEL_REQUEST_CODE then
    handle_cancel_request message_reader;; mret Close
  else if protocol_code =? PROTOCOL_VERSION_NUMBER then
    c ← io_get;
    if co_required_tls c && negb (co_ssl_done c) then io_fail (connection_error TlsRequired)
    else handle_startup_packet protocol_code message_reader
  else io_fail (protocol_error SQLSTATE_FEATURE_NOT_SUPPORTED
                  (unsupported_protocol_message protocol_code)).

Definition handle_startup : IO Conn ProxyError StartupOutCome := with_startup_packet dispatch.

(** The loop; [None] is a loop that has not ended within the fuel. *)
Fixpoint drive (fuel : nat) : IO Conn InternalError (option unit) :=
  match fuel with
  | O => mret None
  | S fuel =>
      r ← io_try handle_startup;
      match r with
      | Ok Continued => drive fuel
      | Ok SessionReady | Ok Close => mret (Some tt)
      | Err (Internal err) => io_fail err
      | Err (ConnectionError err) =>
          send_error_message (client_code err) (client_message err);; mret (Some tt)
      end
  end.

(** An SSLRequest and a GSSENCRequest are each answered once. *)
Definition drive_startup_until_ready : IO Conn InternalError unit := drive 3;; mret tt.

(** The deadline fires when the startup waits for ever. *)
Definition startup_with_deadline : IO Conn InternalError unit :=
  fun c => match drive_startup_until_ready c with
           | (Pending, c) => send_error_message (connection_error_code AuthTimeout)
                               (connection_error_message AuthTimeout) c
           | x => x
           end.

(** [handle]: the permit is dropped when the function returns or unwinds. *)
Definition handle : IO Conn InternalError unit :=
  fun c =>
    match try_acquire (co_conn_registry c) with
    | (false, r) => send_error_message (connection_error_code TooManyRequest)
                      (connection_error_message TooManyRequest) (set_conn_registry r c)
    | (true, r) =>
        match startup_with_deadline (set_conn_registry r c) with
        | (Pending, c) => (Pending, c)
        | (p, c) => (p, set_conn_registry (permit_drop (co_conn_registry c)) c)
        end
    end.

(** The session task and its end: the guard is dropped with the [Conn]. *)
Definition conn_drop (c : Conn) : Conn :=
  match co_session_guard c with
  | Some g => set_backend_registry (guard_drop g (co_backend_registry c)) c
  | None => c
  end.

End handlers.
