(* ===== verification/ConnSafety.v ===== *)
(** The frontend session never panics, keeps the buffer pool whole, ends its
    startup loop and reports at most one error. *)
From S2P Require Import Prelude Words RustStr Errors BufferPool Packet StartupOptions Crypto.
From S2P Require Import ToyCrypto Tls Verifier ScramServer LookupCache CredentialFile.
From S2P Require Import AuthQuery CredentialStore Config BackendPolicy Transport PgClient.
From S2P Require Import Backend Registry ConnState ConnAuth Conn.
Local Open Scope Z_scope.

(** ** Readers on a rented body *)

(** The cursor is inside the body: no read can then be out of range. *)
Definition reader_in (r : MessageReader) : Prop := (mr_pos r <= length (mr_buf r))%nat.

Definition reads_safely {E T} (m : IO MessageReader E T) : Prop :=
  forall r, reader_in r ->
    exists v r', m r = (Ready v, r') /\ reader_in r' /\ mr_buf r' = mr_buf r /\
      (mr_pos r <= mr_pos r')%nat.

Lemma remaining_le r : reader_in r -> 0 <= remaining r <= Z.of_nat (length (mr_buf r) - mr_pos r).
Proof.
  intros H. unfold reader_in in H. unfold remaining, as_usize.
  pose proof (Z.mod_pos_bound (Z.of_nat (length (mr_buf r)) - Z.of_nat (mr_pos r)) (2 ^ 64)).
  pose proof (Z.mod_le (Z.of_nat (length (mr_buf r)) - Z.of_nat (mr_pos r)) (2 ^ 64)). lia.
Qed.

Lemma safely_read_u32 : reads_safely read_u32.
Proof.
  intros r Hr. pose proof (remaining_le r Hr) as Hle. unfold reader_in in *.
  unfold read_u32, mbind, io_bind, io_get, io_modify, io_fail, io_lift, mret, io_ret. cbn beta iota.
  destruct (Z.ltb_spec (remaining r) 4).
  - eexists _, _. split; [reflexivity|]. done.
  - do 4 read_step. eexists _, _. split; [reflexivity|]. simpl. repeat split; lia.
Qed.

Lemma safely_read_string : reads_safely read_string.
Proof.
  intros r Hr. unfold reader_in in *.
  unfold read_string, mbind, io_bind, io_get, io_modify, io_fail, io_lift. cbn beta iota.
  destruct (find_nul (drop (mr_pos r) (mr_buf r))) as [n|] eqn:Hn.
  - apply find_nul_Some in Hn. rewrite length_drop in Hn.
    rewrite buf_slice_ok by (simpl; lia). destruct (from_utf8 _); cbn [ok_or];
      eexists _, _; (split; [reflexivity|]); simpl; repeat split; lia.
  - eexists _, _. split; [reflexivity|]. simpl. repeat split; lia.
Qed.

Lemma safely_read_fixed n : reads_safely (read_string_fixed_size n).
Proof.
  intros r Hr. pose proof (remaining_le r Hr) as Hle. unfold reader_in in *.
  unfold read_string_fixed_size, mbind, io_bind, io_get, io_modify, io_fail, io_lift. cbn beta iota.
  assert (0 <= as_usize n) by (apply Z.mod_pos_bound; lia).
  destruct (Z.ltb_spec (remaining r) (as_usize n)).
  - eexists _, _. split; [reflexivity|]. done.
  - rewrite buf_slice_ok by (simpl; lia). destruct (from_utf8 _); cbn [ok_or];
      eexists _, _; (split; [reflexivity|]); simpl; repeat split; lia.
Qed.

Lemma safely_map_err {E E' T} (f : E -> E') (m : IO MessageReader E T) :
  reads_safely m -> reads_safely (io_map_err f m).
Proof.
  intros Hm r Hr. destruct (Hm r Hr) as (v & r' & Heq & H). unfold io_map_err. rewrite Heq. eauto.
Qed.

Lemma reader_new_in buf : reader_in (reader_new buf).
Proof. unfold reader_in. simpl. lia. Qed.

Create HintDb reads discriminated.
#[export] Hint Resolve safely_read_u32 safely_read_string safely_read_fixed safely_map_err
  reader_new_in : reads.

Section safety.
Context {A : Alloc} {AOk : AllocOk A}.

(** Reading from a local cursor, and going on with the cursor it leaves. *)
Lemma pool_safe_read_bind {E T U} r (m : IO MessageReader E T)
    (k : T * MessageReader -> IO Conn E U) :
  reads_safely m -> reader_in r ->
  (forall x r', reader_in r' -> mr_buf r' = mr_buf r -> pool_safe (k (x, r'))) ->
  pool_safe (io_local r m ≫= k).
Proof.
  intros Hm Hr Hk c Hc. unfold mbind, io_bind, io_local.
  destruct (Hm r Hr) as (v & r' & -> & Hr' & Hb & _). destruct v as [x|e]; [|done].
  by apply (Hk x r').
Qed.

Lemma pool_safe_local_bind {L E T U} (l : L) (m : IO L E T) (k : T * L -> IO Conn E U) :
  (match (m l).1 with Crashed _ => False | _ => True end) ->
  (forall x l', pool_safe (k (x, l'))) -> pool_safe (io_local l m ≫= k).
Proof. intros Hm Hk. apply pool_safe_bind; [by apply pool_safe_local|]. intros [x l']. apply Hk. Qed.

Lemma safe_conn_write_message tag body : pool_safe (write_message tag body).
Proof. unfold write_message, write_raw. repeat pool_safe_step. Qed.

Lemma safe_send_error code message : pool_safe (send_error_message code message).
Proof. apply safe_conn_write_message. Qed.

Hint Resolve safe_conn_write_message safe_send_error : pool_safe.

Lemma read_message_length_pos c n c' :
  read_message_length c = (Ready (Ok n), c') -> 0 <= n < 2 ^ 32.
Proof.
  unfold read_message_length, mbind, io_bind, io_map_err.
  destruct (read_exact 4 c) as [[[hdr|e]| |cr] c1]; cbn [map_err]; try done.
  destruct hdr as [|b0 [|b1 [|b2 [|b3 [|? ?]]]]]; cbn beta iota; try done.
  destruct (Z.ltb_spec (u32_from_be b0 b1 b2 b3) 4); [done|]. intros [= <- _].
  pose proof (u32_from_be_range b0 b1 b2 b3) as [? ?]. lia.
Qed.

Lemma safe_message_length : pool_safe read_message_length.
Proof.
  unfold read_message_length. repeat first [pool_safe_step | case_match].
Qed.

Hint Resolve safe_message_length : pool_safe.

(** A body is read only after its length was checked against the pool. *)
Lemma safe_message_body {E T} (inject : ProxyError -> E) n (k : option bytes -> IO Conn E T) :
  0 <= n -> (forall d, pool_safe (k d)) -> pool_safe (with_message_body inject n k).
Proof.
  intros Hn Hk. unfold with_message_body. destruct (n =? 0); [apply Hk|].
  apply pool_safe_get_bind. intros c Hc.
  destruct (Z.ltb_spec (max_capacity (co_pool c)) n); [done|].
  apply pool_safe_with_pooled; try done.
  - apply pool_safe_map_err, pool_safe_read.
  - intros s d s' Hr. unfold io_map_err in Hr.
    destruct (read_exact (Z.to_nat n) s) as [[[x|e]| |cr] s1] eqn:Hx; try done.
    injection Hr as -> ->. apply read_exact_Ok in Hx as (_ & Hl & _). lia.
Qed.

(** Length first, then the body. *)
Lemma safe_length_bind {E T} (f : ProxyError -> E) (k : Z -> IO Conn E T) :
  (forall n, 0 <= n -> pool_safe (k n)) ->
  pool_safe (io_map_err f read_message_length ≫= k).
Proof.
  intros Hk c Hc. pose proof (safe_message_length c Hc) as Hs. unfold mbind, io_bind, io_map_err.
  destruct (read_message_length c) as [[[n|e]| |cr] c1] eqn:Hr; cbn [map_err]; try done.
  apply read_message_length_pos in Hr. destruct Hs as (_ & Hp & Hz).
  specialize (Hk n ltac:(lia) c1 Hp). destruct (k n c1) as [r c2]. destruct Hk as (? & ? & ?).
  repeat split; try done; try apply H0. by etrans.
Qed.

End safety.

#[export] Hint Resolve safe_conn_write_message safe_send_error safe_message_length : pool_safe.

(** A step of a computation over a session: a read from a local cursor keeps the
    cursor inside its body. *)
Ltac conn_step :=
  idtac; first
  [ lazymatch goal with
    | |- pool_safe (_ ≫= _) =>
        first
        [ apply pool_safe_read_bind; [solve [eauto 3 with reads]|solve [eauto with reads]|intros ? ? ? ?]
        | apply safe_length_bind; intros ? ? ]
    end
  | pool_safe_step
  | apply safe_message_body; [lia|intros ?]
  | apply pool_safe_pending ].

Ltac conn_safe := repeat first [progress cbv beta iota zeta | conn_step | case_match; simplify_eq].

Section sessions.
Context {P : Primitives} {A : Alloc} {AOk : AllocOk A} (env : ConnEnv).

(** A lookup answers, changing the store only. *)
Lemma store_lookup_ready d user s : exists r, (store_lookup d user s).1 = Ready r.
Proof.
  unfold store_lookup, mbind, io_bind, io_try, io_modify, io_lift.
  assert (H : exists r, (lookup_source d user s).1 = Ready r).
  { unfold lookup_source. destruct (cs_source s) as [| | |src]; simpl; eauto.
    unfold auth_query_lookup, mbind, io_bind, io_get, io_modify, io_lift, mret, io_ret.
    cbn beta iota. destruct (cache_get user (de_now d) (as_cache src)) as [[cached|] cache];
      simpl; eauto.
    rewrite query_backend_eq. cbn beta iota.
    destruct (backend_row d _) as [[secret|]|]; cbn [map_err]; cbn beta iota; simpl; eauto.
    destruct (from_pg_secret secret); simpl; eauto. }
  destruct H as [r Hr]. destruct (lookup_source d user s) as [p s1]. simpl in Hr. subst p.
  simpl. eauto.
Qed.

Lemma safe_provider_lookup d user : pool_safe (provider_lookup d user).
Proof.
  intros c Hc. unfold provider_lookup. destruct d as [d|]; [|done].
  destruct (store_lookup_ready d user (co_provider c)) as [r Hr].
  destruct (store_lookup d user (co_provider c)) as [p s]. simpl in Hr. by subst p.
Qed.

Lemma safe_auth_message n data : pool_safe (send_auth_message n data).
Proof. unfold send_auth_message. eauto with pool_safe. Qed.

Hint Resolve safe_provider_lookup safe_auth_message : pool_safe.

Lemma safe_auth_sasl ms : pool_safe (send_auth_sasl ms).
Proof. unfold send_auth_sasl. conn_safe. Qed.

Lemma safe_sasl_response {T} (k : bytes -> IO Conn AuthFailure T) :
  (forall b, pool_safe (k b)) -> pool_safe (with_sasl_response k).
Proof. intros Hk. unfold with_sasl_response. conn_safe. Qed.

Lemma safe_initial_response ms : pool_safe (read_sasl_initial_response ms).
Proof. unfold read_sasl_initial_response. apply safe_sasl_response. intros b. conn_safe. Qed.

Lemma safe_final_response : pool_safe read_sasl_final_response.
Proof. unfold read_sasl_final_response. apply safe_sasl_response. intros b. conn_safe. Qed.

Hint Resolve safe_auth_sasl safe_initial_response safe_final_response : pool_safe.

(** The authenticator's steps answer. *)
Lemma client_first_answers nb m cf u a :
  match (io_map_err rejected (handle_client_first nb m cf u) a).1 with
  | Crashed _ => False | _ => True end.
Proof.
  unfold io_map_err. destruct (handle_client_first nb m cf u a) as [r a'] eqn:H.
  by destruct (handle_client_first_other _ _ _ _ _ _ _ H) as [[sf ->]|[[e ->] _]].
Qed.

Lemma client_final_answers cf u a :
  match (io_map_err rejected (handle_client_final cf u) a).1 with
  | Crashed _ => False | _ => True end.
Proof.
  unfold io_map_err. rewrite handle_client_final_eq. case_bool_decide; [|done].
  by destruct (final_check a cf u) as [[? ?]|].
Qed.

Lemma safe_scram_auth : pool_safe (handle_scram_auth env).
Proof.
  unfold handle_scram_auth.
  repeat first
    [ progress cbv beta iota zeta
    | apply pool_safe_local_bind; [apply client_first_answers || apply client_final_answers|intros ? ?]
    | conn_step | case_match; simplify_eq ].
Qed.

Lemma safe_authentication : pool_safe (handle_authentication env).
Proof. pose proof safe_scram_auth. unfold handle_authentication. conn_safe. Qed.

Lemma safe_answer b : pool_safe (answer b).
Proof. unfold answer. conn_safe. Qed.

Lemma safe_tls_accept x : pool_safe (tls_accept env x : IO Conn ProxyError Stream).
Proof. unfold tls_accept. conn_safe. Qed.

Hint Resolve safe_authentication safe_provider_lookup safe_answer safe_tls_accept : pool_safe.

Lemma safe_ssl : pool_safe (handle_ssl_request env).
Proof. unfold handle_ssl_request, promote_to_tls. conn_safe. Qed.

Lemma safe_gss : pool_safe handle_gssnc_request.
Proof. unfold handle_gssnc_request. conn_safe. Qed.

Lemma safe_forward_cancel b key : pool_safe (forward_cancel env b key).
Proof.
  intros c Hc. unfold forward_cancel, send_cancel_request.
  destruct (dial _ _) as [x|]; [|done]. unfold stream_write, ended.
  destruct (st_room x) as [[|n]|]; [destruct (st_out_end x)|..]; done.
Qed.

Hint Resolve safe_ssl safe_gss safe_forward_cancel : pool_safe.

Lemma safe_cancel r : reader_in r -> pool_safe (handle_cancel_request env r).
Proof. intros Hr. unfold handle_cancel_request. conn_safe. Qed.

Lemma safe_read_params_bind {T} f r (k : bool * MessageReader -> IO Conn ProxyError T) :
  reader_in r -> (forall b r', reader_in r' -> pool_safe (k (b, r'))) ->
  pool_safe (read_params f r ≫= k).
Proof.
  intros Hr Hk.
  assert (H : forall c, pool_ok (co_pool c) ->
    let '(p, c') := read_params f r c in
    match p with
    | Ready (Ok (_, r')) => reader_in r'
    | Crashed _ => False
    | _ => True
    end /\ pool_ok (co_pool c') /\ pool_moves (co_pool c) (co_pool c')).
  { revert r Hr. induction f as [|f IH]; intros r Hr c Hc; cbn [read_params]; [done|].
    destruct (0 <? remaining r); [|done]. unfold mbind, io_bind, io_local.
    destruct (safely_read_string r Hr) as (v & r1 & -> & Hr1 & _). destruct v as [key|]; [|done].
    cbn beta iota. case_bool_decide; [done|].
    destruct (safely_read_string r1 Hr1) as (v & r2 & -> & Hr2 & _). destruct v as [value|]; [|done].
    exact (IH r2 Hr2 (set_params (<[key := value]> (co_params c)) c) Hc). }
  intros c Hc. specialize (H c Hc). unfold mbind, io_bind.
  destruct (read_params f r c) as [[[[b r']|e]| |cr] c']; try done. destruct H as (Hr' & Hp & Hz).
  specialize (Hk b r' Hr' c' Hp). destruct (k (b, r') c') as [p c2]. destruct Hk as (? & ? & ?).
  split; [done|]. split; [done|]. simpl in *. by etrans.
Qed.

Lemma safe_startup_params r : reader_in r -> pool_safe (read_startup_params r).
Proof.
  intros Hr. unfold read_startup_params. apply safe_read_params_bind; [done|]. intros b r' Hr'.
  conn_safe.
Qed.

Lemma safe_link config : pool_safe (link_backend env config).
Proof.
  unfold link_backend. destruct (ce_backend env); [|apply pool_safe_pending].
  apply pool_safe_map_err. apply safe_backend_new.
  all: typeclasses eauto.
Qed.

Lemma safe_register b i t : pool_safe (register_session env b i t).
Proof.
  revert i. induction t as [|t IH]; intros i; cbn [register_session]; conn_safe.
Qed.

Lemma safe_notifications ns : pool_safe (send_notifications ns).
Proof.
  induction ns as [|n ns IH]; cbn [send_notifications]; unfold send_notification; conn_safe.
Qed.

Hint Resolve safe_link safe_register safe_notifications : pool_safe.

Lemma safe_start_session key : pool_safe (start_session env key).
Proof.
  unfold start_session, send_startup_notifications, send_key_secret, send_ready_signal. conn_safe.
Qed.

Hint Resolve safe_start_session safe_startup_params safe_cancel : pool_safe.

Lemma safe_startup_packet v r : reader_in r -> pool_safe (handle_startup_packet env v r).
Proof. intros Hr. unfold handle_startup_packet. conn_safe. Qed.

Hint Resolve safe_startup_packet : pool_safe.

Lemma safe_with_startup_packet {T} (k : bytes -> IO Conn ProxyError T) :
  (forall b, pool_safe (k b)) -> pool_safe (with_startup_packet k).
Proof.
  intros Hk. unfold with_startup_packet. intros c Hc. unfold mbind, io_bind.
  pose proof (safe_message_length c Hc) as Hs.
  destruct (read_message_length c) as [[[n|e]| |cr] c1] eqn:Hr; try done.
  apply read_message_length_pos in Hr. destruct Hs as (_ & Hp & Hz).
  cbn beta iota zeta. unfold io_get. destruct (_ <? _); [done|].
  assert (Hb : pool_safe (with_message_body id n (fun message => match message with
    | Some message => k message | None => io_fail (connection_error EmptyMessageBody) end))).
  { apply safe_message_body; [lia|]. intros [b|]; [apply Hk|apply pool_safe_fail]. }
  specialize (Hb c1 Hp). destruct (with_message_body _ _ _ c1) as [r c2].
  destruct Hb as (? & ? & ?). split; [done|]. split; [done|by etrans].
Qed.

Lemma safe_dispatch b : pool_safe (dispatch env b).
Proof. unfold dispatch. conn_safe. Qed.

Lemma safe_handle_startup : pool_safe (handle_startup env).
Proof. apply safe_with_startup_packet, safe_dispatch. Qed.

Hint Resolve safe_handle_startup : pool_safe.

Lemma safe_drive f : pool_safe (drive env f).
Proof. induction f as [|f IH]; cbn [drive]; conn_safe. Qed.

Lemma safe_deadline : pool_safe (startup_with_deadline env).
Proof.
  intros c Hc. unfold startup_with_deadline, drive_startup_until_ready.
  assert (H : pool_safe (drive env 3;; mret tt)) by (pose proof safe_drive; conn_safe).
  specialize (H c Hc). destruct ((drive env 3;; mret tt) c) as [[r| |cr] c1]; try done.
  destruct H as (_ & Hp & Hz).
  pose proof (safe_send_error (connection_error_code AuthTimeout)
    (connection_error_message AuthTimeout) c1 Hp) as Hs.
  destruct (send_error_message _ _ c1) as [p c2]. destruct Hs as (? & ? & ?).
  split; [done|]. split; [done|by etrans].
Qed.

Lemma safe_handle : pool_safe (handle env).
Proof.
  intros c Hc. unfold handle. destruct (try_acquire _) as [[] r].
  - pose proof (safe_deadline (set_conn_registry r c) Hc) as H.
    by destruct (startup_with_deadline env (set_conn_registry r c)) as [[| |] c1].
  - exact (safe_send_error _ _ (set_conn_registry r c) Hc).
Qed.

End sessions.
