(* ===== verification/ConnOutput.v ===== *)
(** What a session says: the messages written to the client, checked by an
    automaton that stands for the startup phase of the wire protocol as a client
    sees it.

    The automaton is the specification.  It reads one flush at a time, checks the
    framing of each message and the order of the messages; that every handler of
    [Conn] follows it, whatever the peer does and wherever it is cut off, is
    proved handler by handler. *)
From S2P Require Import Prelude Words RustStr Errors BufferPool Packet StartupOptions Crypto.
From S2P Require Import ToyCrypto Tls Verifier ScramServer LookupCache CredentialFile.
From S2P Require Import AuthQuery CredentialStore Config BackendPolicy Transport PgClient.
From S2P Require Import Backend Registry ConnState ConnAuth Conn ConnSafety.
Local Open Scope Z_scope.

(** ** The automaton *)

(** The encryption answers, the four SASL messages with the parameters that
    follow the last one, the cancel key, and the two ends. *)
Inductive OutPhase :=
| OutStart (answers : nat)
| OutSasl (messages : nat)
| OutKeyed
| OutReady
| OutError.

#[export] Instance out_phase_eq_dec : EqDecision OutPhase.
Proof. solve_decision. Defined.

(** An ErrorResponse may still be sent. *)
Definition open (p : OutPhase) : bool :=
  match p with OutReady | OutError => false | _ => true end.

Definition auth_code (body : bytes) : option Z :=
  match body with
  | b0 :: b1 :: b2 :: b3 :: _ => Some (u32_from_be b0 b1 b2 b3)
  | _ => None
  end.

(** The subcode of the authentication message that is due. *)
Definition next_auth (p : OutPhase) : option (Z * OutPhase) :=
  match p with
  | OutStart _ => Some (AUTH_SASL, OutSasl 1)
  | OutSasl 1 => Some (AUTH_SASL_CONTINUE, OutSasl 2)
  | OutSasl 2 => Some (AUTH_SASL_FINAL, OutSasl 3)
  | OutSasl 3 => Some (AUTH_SASL_OK, OutSasl 4)
  | _ => None
  end.

Definition speak_message (p : OutPhase) (tag : byte) (body : bytes) : option OutPhase :=
  if bool_decide (tag = MSG_ERROR) then if open p then Some OutError else None
  else if bool_decide (tag = MSG_AUTH) then
    '(code, q) ← next_auth p;
    if bool_decide (auth_code body = Some code) then Some q else None
  else if bool_decide (tag = MSG_PARAMETER_STATUS) || bool_decide (tag = MSG_NOTICE) then
    if bool_decide (p = OutSasl 4) then Some p else None
  else if bool_decide (tag = MSG_KEY_SECRET) then
    if bool_decide (p = OutSasl 4) && (length body =? 8)%nat then Some OutKeyed else None
  else if bool_decide (tag = MSG_READY_ACCEPT_QUERY) then
    if bool_decide (p = OutKeyed) && (length body =? 1)%nat then Some OutReady else None
  else None.

(** One flush: a single byte that answers an encryption request, or a message
    with its tag and its length. *)
Definition speak (p : OutPhase) (w : bytes) : option OutPhase :=
  match w with
  | [b] =>
      match p with
      | OutStart n => if (n <? 2)%nat && (bool_decide (b = x53) || bool_decide (b = x4e))
                      then Some (OutStart (S n)) else None
      | _ => None
      end
  | tag :: b0 :: b1 :: b2 :: b3 :: body =>
      if u32_from_be b0 b1 b2 b3 =? as_u32 (Z.of_nat (length body) + 4)
      then speak_message p tag body else None
  | _ => None
  end.

Definition conforms (ws : list bytes) : option OutPhase :=
  foldl (fun o w => p ← o; speak p w) (Some (OutStart 0)) ws.

Lemma conforms_snoc ws w : conforms (ws ++ [w]) = (p ← conforms ws; speak p w).
Proof. unfold conforms. by rewrite foldl_app. Qed.

(** Nothing conforms after the automaton has stopped. *)
Lemma conforms_app ws ws' :
  conforms (ws ++ ws') = foldl (fun o w => p ← o; speak p w) (conforms ws) ws'.
Proof. unfold conforms. by rewrite foldl_app. Qed.

Lemma speak_nothing ws : foldl (fun o w => p ← o; speak p w) None ws = None.
Proof. by induction ws. Qed.

(** No message follows an ErrorResponse or the ready signal. *)
Lemma speak_closed p w : open p = false -> speak p w = None.
Proof.
  intros Hp. destruct p; try done; unfold speak;
    destruct w as [|tag [|b0 [|b1 [|b2 [|b3 body]]]]]; try done;
    destruct (_ =? _); try done; unfold speak_message; repeat case_bool_decide; done.
Qed.

Lemma conforms_closed pre w post q :
  conforms (pre ++ w :: post) = Some q ->
  exists p p', speak p w = Some p' /\ (open p' = false -> post = []).
Proof.
  change (w :: post) with ([w] ++ post). rewrite app_assoc, conforms_app, conforms_snoc.
  destruct (conforms pre) as [p|]; cbn [mbind option_bind]; [|by rewrite speak_nothing].
  destruct (speak p w) as [p'|] eqn:Hs; [|by rewrite speak_nothing]. intros H.
  exists p, p'. split; [done|]. intros Hp. destruct post as [|w' post]; [done|]. exfalso.
  cbn [foldl mbind option_bind] in H. by rewrite (speak_closed p' w' Hp), speak_nothing in H.
Qed.

Lemma speak_error p w q : speak p w = Some q -> head w = Some MSG_ERROR -> q = OutError.
Proof.
  intros Hs Hw. destruct w as [|tag rest]; [done|]. injection Hw as ->. unfold speak in Hs.
  destruct rest as [|b0 [|b1 [|b2 [|b3 body]]]]; try done.
  - destruct p; try done. by rewrite andb_false_r in Hs.
  - destruct (_ =? _); [|done]. unfold speak_message in Hs.
    rewrite bool_decide_eq_true_2 in Hs by done. destruct (open p); congruence.
Qed.

(** ** Sessions *)

(** The encryption requests a session can still answer. *)
Definition requests_left (c : Conn) : nat :=
  (if co_ssl_done c then 0 else 1) + (if co_gss_done c then 0 else 1).

Definition at_phase (p : OutPhase) (c : Conn) : Prop :=
  conforms (st_out (co_stream c)) = Some p /\
  match p with OutStart n => (n + requests_left c <= 2)%nat | _ => True end.

(** From phase [p] a value comes with a phase that [post] allows; a failure or a
    silent peer leaves the conversation open for an ErrorResponse. *)
Definition says_at {E T} (c : Conn) (post : T -> OutPhase -> Prop) (m : IO Conn E T) : Prop :=
  exists q, at_phase q (m c).2 /\
    match (m c).1 with
    | Ready (Ok x) => post x q
    | Crashed _ => True
    | _ => open q = true
    end.

Definition says {E T} (p : OutPhase) (post : T -> OutPhase -> Prop) (m : IO Conn E T) : Prop :=
  forall c, at_phase p c -> says_at c post m.

(** A computation that says nothing. *)
Definition silent {E T} (m : IO Conn E T) : Prop :=
  forall p, open p = true -> says p (fun _ q => q = p) m.

Section rules.
Context {A : Alloc}.

Lemma silent_same {E T} (m : IO Conn E T) :
  (forall c, st_out (co_stream (m c).2) = st_out (co_stream c) /\
             (requests_left (m c).2 <= requests_left c)%nat) -> silent m.
Proof.
  intros Hm p Hp c [Hc Hn]. destruct (Hm c) as [Ho Hl]. exists p. split.
  - split; [by rewrite Ho|]. destruct p; try done. lia.
  - by destruct ((m c).1) as [[|]| |].
Qed.

Lemma silent_ret {E T} (x : T) : silent (mret x : IO Conn E T).
Proof. by apply silent_same. Qed.

Lemma silent_lift {E T} (r : result E T) : silent (io_lift r).
Proof. by apply silent_same. Qed.

Lemma silent_fail {E T} (e : E) : silent (io_fail e : IO Conn E T).
Proof. by apply silent_same. Qed.

Lemma silent_get {E} : silent (io_get : IO Conn E Conn).
Proof. by apply silent_same. Qed.

Lemma silent_pending {E T} : silent (io_pending : IO Conn E T).
Proof. by apply silent_same. Qed.

Lemma silent_modify {E} (f : Conn -> Conn) :
  (forall c, st_out (co_stream (f c)) = st_out (co_stream c) /\
             (requests_left (f c) <= requests_left c)%nat) ->
  silent (io_modify f : IO Conn E unit).
Proof. intros Hf. by apply silent_same. Qed.

Lemma silent_local {L E T} (l : L) (m : IO L E T) : silent (io_local l m : IO Conn E (T * L)).
Proof. apply silent_same. intros c. unfold io_local. by destruct (m l) as [[[|]| |] l']. Qed.

Lemma silent_read n : silent (read_exact n : IO Conn IoError bytes).
Proof.
  apply silent_same. intros c. unfold read_exact, stream_read.
  by destruct (_ <=? _)%nat.
Qed.

Lemma says_post {E T} p (Q R : T -> OutPhase -> Prop) (m : IO Conn E T) :
  says p Q m -> (forall x q, Q x q -> R x q) -> says p R m.
Proof.
  intros Hm HQ c Hc. destruct (Hm c Hc) as (q & Hq & Hr). exists q. split; [done|].
  destruct ((m c).1) as [[x|e]| |]; auto.
Qed.

Lemma says_fail {E T} p R (e : E) : open p = true -> says p R (io_fail e : IO Conn E T).
Proof. intros Hp c Hc. by exists p. Qed.

Lemma says_pending {E T} p R : open p = true -> says p R (io_pending : IO Conn E T).
Proof. intros Hp c Hc. by exists p. Qed.

Lemma says_ret {E T} p (R : T -> OutPhase -> Prop) x :
  R x p -> says p R (mret x : IO Conn E T).
Proof. intros Hx c Hc. by exists p. Qed.

Lemma says_silent {E T} p (R : T -> OutPhase -> Prop) (m : IO Conn E T) :
  open p = true -> silent m -> (forall x, R x p) -> says p R m.
Proof. intros Hp Hm HR. eapply says_post; [by apply Hm|]. by intros x q ->. Qed.

Lemma says_at_bind {E T U} c Q R (m : IO Conn E T) (k : T -> IO Conn E U) :
  says_at c Q m -> (forall x q, Q x q -> says q R (k x)) -> says_at c R (m ≫= k).
Proof.
  intros (q & Hq & Hr) Hk. unfold says_at, mbind, io_bind in *.
  destruct (m c) as [[[x|e]| |cr] c1]; simpl in *; [|by exists q..]. by apply (Hk x q).
Qed.

Lemma says_bind {E T U} p Q R (m : IO Conn E T) (k : T -> IO Conn E U) :
  says p Q m -> (forall x q, Q x q -> says q R (k x)) -> says p R (m ≫= k).
Proof. intros Hm Hk c Hc. eapply says_at_bind; [by apply Hm|exact Hk]. Qed.

Lemma says_silent_bind {E T U} p R (m : IO Conn E T) (k : T -> IO Conn E U) :
  open p = true -> silent m -> (forall x, says p R (k x)) -> says p R (m ≫= k).
Proof. intros Hp Hm Hk. eapply says_bind; [by apply Hm|]. intros x q ->. apply Hk. Qed.

Lemma silent_bind {E T U} (m : IO Conn E T) (k : T -> IO Conn E U) :
  silent m -> (forall x, silent (k x)) -> silent (m ≫= k).
Proof. intros Hm Hk p Hp. apply says_silent_bind; [done..|]. intros x. by apply Hk. Qed.

Lemma says_map_err {E E' T} p R (f : E -> E') (m : IO Conn E T) :
  says p R m -> says p R (io_map_err f m).
Proof.
  intros Hm c Hc. destruct (Hm c Hc) as (q & Hq & Hr). exists q. unfold io_map_err.
  by destruct (m c) as [[[|]| |] c'].
Qed.

Lemma silent_map_err {E E' T} (f : E -> E') (m : IO Conn E T) :
  silent m -> silent (io_map_err f m).
Proof. intros Hm p Hp. by apply says_map_err, Hm. Qed.

Lemma says_try {E E' T} p R (m : IO Conn E T) :
  says p R m ->
  says p (fun r q => match r with Ok x => R x q | Err _ => open q = true end)
    (io_try m : IO Conn E' (result E T)).
Proof.
  intros Hm c Hc. destruct (Hm c Hc) as (q & Hq & Hr). exists q. unfold io_try.
  by destruct (m c) as [[[|]| |] c'].
Qed.

Lemma says_finally {E T} p R pb (m : IO Conn E T) :
  says p R m -> says p R (io_finally (drop_pooled pb) m).
Proof.
  intros Hm c Hc. destruct (Hm c Hc) as (q & Hq & Hr). exists q. unfold io_finally, drop_pooled.
  destruct (m c) as [r c1]. destruct (pooled_drop _ _) as [pool|cr]; simpl in *; [|done].
  split; [exact Hq|exact Hr].
Qed.

Lemma says_with_pooled {E T} p R n (read : IO Conn E bytes) (k : bytes -> IO Conn E T) :
  open p = true -> silent read -> (forall d, says p R (k d)) -> says p R (with_pooled n read k).
Proof.
  intros Hp Hr Hk c Hc. unfold says_at, with_pooled.
  destruct (pool_get _ _) as [[pb pool]|]; [|by exists p]. cbn [sess_pool conn_session].
  destruct (Hr p Hp (set_pool pool c) Hc) as (q & Hq & Hres).
  change (set_sess_pool pool c) with (set_pool pool c).
  destruct (read (set_pool pool c)) as [[[d|e]| |] c1]; cbn [fst snd] in Hq, Hres.
  - subst q. by apply (says_finally p R).
  - exists q. unfold io_finally, drop_pooled. cbn.
    destruct (pooled_drop _ _) as [pool'|]; simpl; done.
  - exists q. unfold io_finally, drop_pooled. cbn.
    destruct (pooled_drop _ _) as [pool'|]; simpl; done.
  - by exists q.
Qed.

Lemma silent_with_pooled {E T} n (read : IO Conn E bytes) (k : bytes -> IO Conn E T) :
  silent read -> (forall d, silent (k d)) -> silent (with_pooled n read k).
Proof. intros Hr Hk p Hp. apply says_with_pooled; [done..|]. intros d. by apply Hk. Qed.

(** ** Messages *)

Lemma speak_frame p tag body :
  speak p (tag :: u32_to_be (as_u32 (Z.of_nat (length body) + 4)) ++ body) =
  speak_message p tag body.
Proof.
  unfold u32_to_be. cbn [app speak]. rewrite u32_from_to_be, as_u32_id by apply as_u32_range.
  by rewrite Z.eqb_refl.
Qed.

(** A write is taken, or nothing was said and the connection may be closed. *)
Lemma says_write p q data :
  open p = true -> speak p data = Some q -> (forall n, q <> OutStart n) ->
  says p (fun _ x => x = q) (write_flush data : IO Conn IoError unit).
Proof.
  intros Hp Hs Hq c [Hc Hn]. unfold says_at, write_flush, stream_write, ended. simpl.
  assert (Ho : conforms (st_out (co_stream c) ++ [data]) = Some q)
    by (by rewrite conforms_snoc, Hc).
  destruct (st_room (co_stream c)) as [[|n]|].
  - exists p. split; [done|]. by destruct (st_out_end _).
  - exists q. split; [|done]. split; [exact Ho|]. destruct q as [k| | | |]; [by destruct (Hq k)|done..].
  - exists q. split; [|done]. split; [exact Ho|]. destruct q as [k| | | |]; [by destruct (Hq k)|done..].
Qed.

Lemma says_message p q tag body :
  open p = true -> speak_message p tag body = Some q -> (forall n, q <> OutStart n) ->
  says p (fun _ x => x = q) (write_message tag body).
Proof.
  intros Hp Hs Hq. apply says_map_err, says_write; [done| |done]. by rewrite speak_frame.
Qed.

Lemma says_error p code message :
  open p = true -> says p (fun _ q => q = OutError) (send_error_message code message).
Proof.
  intros Hp. apply says_message; [done| |done]. unfold speak_message.
  by rewrite bool_decide_eq_true_2, Hp.
Qed.

Lemma auth_code_app z data : auth_code (u32_to_be z ++ data) = Some (as_u32 z).
Proof. unfold u32_to_be. cbn [app auth_code]. by rewrite u32_from_to_be. Qed.

Lemma says_auth p q code data :
  next_auth p = Some (code, q) -> 0 <= code < 2 ^ 32 ->
  says p (fun _ x => x = q) (send_auth_message code data).
Proof.
  intros Hn Hc.
  assert (open p = true /\ forall n, q <> OutStart n) as [Hp Hq].
  { destruct p as [|[|[|[|[|n]]]]| | |]; simpl in Hn; by simplify_eq. }
  apply says_message; [done| |done]. unfold speak_message.
  rewrite (bool_decide_eq_false_2 (_ = MSG_ERROR)), (bool_decide_eq_true_2 (_ = MSG_AUTH)) by done.
  rewrite Hn. cbn [mbind option_bind]. rewrite auth_code_app, !as_u32_id by (done || apply as_u32_range).
  by rewrite bool_decide_eq_true_2.
Qed.

End rules.

Create HintDb silent discriminated.

Ltac silent_step :=
  first
  [ solve [eauto 2 with silent]
  | apply silent_ret | apply silent_lift | apply silent_fail | apply silent_get
  | apply silent_pending
  | apply silent_modify; intros; (split; [done|]); unfold requests_left; simpl;
      repeat case_match; lia
  | apply silent_bind; [|intros ?] | apply silent_map_err | apply silent_local
  | apply silent_read | apply silent_with_pooled; [|intros ?] ].

Ltac silent_tac :=
  repeat first [progress cbv beta iota zeta | silent_step | case_match; simplify_eq].

(** A step of a computation that speaks: what is silent is passed over. *)
Ltac says_step :=
  first
  [ progress cbv beta iota zeta
  | apply says_silent_bind; [reflexivity|solve [silent_tac]|intros ?]
  | apply says_fail; reflexivity
  | match goal with |- says _ _ (match ?x with _ => _ end) => destruct x end ].

Section handlers.
Context {P : Primitives} {A : Alloc} (env : ConnEnv).

Lemma silent_message_length : silent read_message_length.
Proof. unfold read_message_length. silent_tac. Qed.

Hint Resolve silent_message_length : silent.

Lemma says_message_body {E T} p R (inject : ProxyError -> E) n (k : option bytes -> IO Conn E T) :
  open p = true -> (forall d, says p R (k d)) -> says p R (with_message_body inject n k).
Proof.
  intros Hp Hk. unfold with_message_body. destruct (n =? 0); [apply Hk|].
  apply says_silent_bind; [done|apply silent_get|]. intros c.
  destruct (_ <? n); [by apply says_fail|].
  apply says_with_pooled; [done|silent_tac|]. intros d. apply Hk.
Qed.

Lemma silent_message_body {E T} (inject : ProxyError -> E) n (k : option bytes -> IO Conn E T) :
  (forall d, silent (k d)) -> silent (with_message_body inject n k).
Proof. intros Hk p Hp. apply says_message_body; [done|]. intros d. by apply Hk. Qed.

(** *** Authentication *)

Lemma silent_lookup d user : silent (provider_lookup d user).
Proof.
  apply silent_same. intros c. unfold provider_lookup. destruct d as [d|]; [|done].
  by destruct (store_lookup d user (co_provider c)).
Qed.

Lemma silent_sasl_response {T} (k : bytes -> IO Conn AuthFailure T) :
  (forall b, silent (k b)) -> silent (with_sasl_response k).
Proof.
  intros Hk. unfold with_sasl_response. silent_tac. apply silent_message_body.
  intros [b|]; silent_tac.
Qed.

Lemma silent_initial_response ms : silent (read_sasl_initial_response ms).
Proof. unfold read_sasl_initial_response. apply silent_sasl_response. intros b. silent_tac. Qed.

Lemma silent_final_response : silent read_sasl_final_response.
Proof. unfold read_sasl_final_response. apply silent_sasl_response. intros b. silent_tac. Qed.

Hint Resolve silent_lookup silent_initial_response silent_final_response : silent.

(** The four messages of the exchange. *)
Lemma says_scram_auth n :
  says (OutStart n) (fun _ q => q = OutSasl 4) (handle_scram_auth env).
Proof.
  unfold handle_scram_auth. repeat says_step.
  eapply says_bind.
  { unfold send_auth_sasl. apply says_map_err, says_map_err, says_auth; [reflexivity|done]. }
  intros _ q ->. repeat says_step.
  eapply says_bind; [apply says_map_err, says_auth; [reflexivity|done]|].
  intros _ q ->. repeat says_step.
  eapply says_bind; [apply says_map_err, says_auth; [reflexivity|done]|].
  intros _ q ->.
  eapply says_bind; [apply says_map_err, says_auth; [reflexivity|done]|].
  intros _ q ->. by apply says_ret.
Qed.

(** A value [None] ends the startup. *)
Lemma says_authentication n :
  says (OutStart n) (fun r q => is_Some r -> q = OutSasl 4) (handle_authentication env).
Proof.
  unfold handle_authentication.
  eapply says_bind; [apply says_try, says_scram_auth|].
  intros [key|[e|e]] q Hq; simpl in Hq.
  - subst q. by apply says_ret.
  - eapply says_bind; [by apply says_map_err, says_error|]. intros _ q' ->.
    apply says_ret. by intros [].
  - by apply says_fail.
Qed.

(** *** Encryption *)

Lemma speak_answer n b :
  (n < 2)%nat -> b = x53 \/ b = x4e -> speak (OutStart n) [b] = Some (OutStart (S n)).
Proof.
  intros Hn Hb. unfold speak. rewrite (proj2 (Nat.ltb_lt _ _) Hn). by destruct Hb as [->| ->].
Qed.

(** An answer to a request that has just been marked as done. *)
Lemma says_answer n b c :
  b = x53 \/ b = x4e -> conforms (st_out (co_stream c)) = Some (OutStart n) ->
  (S n + requests_left c <= 2)%nat -> says_at c (fun _ q => q = OutStart (S n)) (answer b).
Proof.
  intros Hb Hc Hn. unfold says_at, answer, io_map_err, write_flush, stream_write, ended. simpl.
  assert (Ho : conforms (st_out (co_stream c) ++ [[b]]) = Some (OutStart (S n))).
  { rewrite conforms_snoc, Hc. apply speak_answer; [lia|done]. }
  destruct (st_room (co_stream c)) as [[|m]|]; [|by exists (OutStart (S n))..].
  exists (OutStart n). split; [|by destruct (st_out_end _)].
  assert (at_phase (OutStart n) (set_stream (co_stream c) c)).
  { split; [done|]. change (requests_left (set_stream _ c)) with (requests_left c). lia. }
  by destruct (st_out_end _).
Qed.

Lemma silent_promote : silent (promote_to_tls env).
Proof.
  apply silent_same. intros c.
  unfold promote_to_tls, mbind, io_bind, io_get, io_modify, io_lift, io_fail, tls_accept.
  cbn beta iota. unfold requests_left. destruct (co_transport c); simpl; [done| |done].
  destruct (co_frontend_tls c); simpl; [|done].
  destruct (ce_accept env _) as [[x|e]|]; done.
Qed.

Hint Resolve silent_promote : silent.

Lemma says_ssl n : says (OutStart n) (fun _ q => q = OutStart (S n)) (handle_ssl_request env).
Proof.
  intros c [Hc Hn]. unfold handle_ssl_request. unfold says_at, mbind at 1 4, io_bind at 1 4, io_get.
  cbn beta iota. destruct (co_ssl_done c) eqn:Hd; [by exists (OutStart n)|].
  set (c1 := set_ssl_done true c).
  assert (Hl : (S n + requests_left c1 <= 2)%nat).
  { unfold requests_left in *. simpl. rewrite Hd in Hn. lia. }
  change (says_at c1 (fun _ q => q = OutStart (S n))
    (if is_some (co_frontend_tls c) then answer x53;; promote_to_tls env else answer x4e)).
  destruct (is_some _).
  - eapply says_at_bind; [apply says_answer; [by left|exact Hc|exact Hl]|].
    intros _ q ->. by apply silent_promote.
  - apply says_answer; [by right|exact Hc|exact Hl].
Qed.

Lemma says_gss n : says (OutStart n) (fun _ q => q = OutStart (S n)) handle_gssnc_request.
Proof.
  intros c [Hc Hn]. unfold handle_gssnc_request. unfold says_at, mbind at 1 3, io_bind at 1 3, io_get.
  cbn beta iota. destruct (co_gss_done c) eqn:Hd; [by exists (OutStart n)|].
  change (says_at (set_gss_done true c) (fun _ q => q = OutStart (S n)) (answer x4e)).
  apply says_answer; [by right|exact Hc|]. unfold requests_left in *. simpl. rewrite Hd in Hn. lia.
Qed.

(** *** The rest of the startup phase *)

Lemma silent_cancel r : silent (handle_cancel_request env r).
Proof.
  assert (Hf : forall b key, silent (forward_cancel env b key)).
  { intros b key. apply silent_same. intros c. unfold forward_cancel.
    by destruct (send_cancel_request _ _ _) as [[[|]| |] w]. }
  unfold handle_cancel_request. silent_tac.
Qed.

Lemma silent_read_params f r : silent (read_params f r).
Proof. revert r. induction f as [|f IH]; intros r; cbn [read_params]; silent_tac. Qed.

Hint Resolve silent_read_params : silent.

Lemma silent_startup_params r : silent (read_startup_params r).
Proof. unfold read_startup_params. silent_tac. Qed.

Lemma silent_link config : silent (link_backend env config).
Proof.
  unfold link_backend. destruct (ce_backend env) as [be|]; [|apply silent_pending].
  apply silent_map_err, silent_same. intros c. unfold backend_new.
  by destruct (connect _ _ _) as [[[|]| |] x].
Qed.

Lemma silent_register b i t : silent (register_session env b i t).
Proof. revert i. induction t as [|t IH]; intros i; cbn [register_session]; silent_tac. Qed.

Hint Resolve silent_cancel silent_startup_params silent_link silent_register : silent.

Lemma says_notifications ns :
  says (OutSasl 4) (fun _ q => q = OutSasl 4) (send_notifications ns).
Proof.
  induction ns as [|n ns IH]; cbn [send_notifications]; [by apply says_ret|].
  eapply says_bind with (Q := fun _ q => q = OutSasl 4); [|by intros _ q ->].
  destruct n; apply says_map_err, says_message; done.
Qed.

Lemma says_start_session key :
  says (OutSasl 4) (fun o q => o = SessionReady /\ q = OutReady) (start_session env key).
Proof.
  unfold start_session, send_startup_notifications, send_key_secret, send_ready_signal.
  repeat says_step. eapply says_bind; [repeat says_step; apply says_notifications|].
  intros _ q ->. eapply says_bind with (Q := fun _ q => q = OutKeyed).
  { repeat says_step. by apply says_map_err, says_message. }
  intros _ q ->. eapply says_bind with (Q := fun _ q => q = OutReady).
  { repeat says_step. by apply says_map_err, says_message. }
  intros _ q ->. by apply says_ret.
Qed.

(** What a packet leaves: a loop that goes on has only answered a request. *)
Definition after_packet (o : StartupOutCome) (q : OutPhase) : Prop :=
  match o with
  | Continued => exists n, q = OutStart n
  | SessionReady => q = OutReady
  | Close => True
  end.

Lemma says_startup_packet v r n :
  says (OutStart n) after_packet (handle_startup_packet env v r).
Proof.
  unfold handle_startup_packet. repeat says_step.
  eapply says_bind; [apply says_authentication|]. intros [key|] q Hq.
  - rewrite Hq by done. eapply says_post; [apply says_start_session|]. by intros o q' [-> ->].
  - by apply says_ret.
Qed.

Lemma says_startup n : says (OutStart n) after_packet (handle_startup env).
Proof.
  unfold handle_startup, with_startup_packet. repeat says_step. apply says_message_body; [done|].
  intros [b|]; [|by apply says_fail]. unfold dispatch. repeat first [apply says_startup_packet | says_step].
  - eapply says_bind; [apply says_ssl|]. intros _ q ->. apply says_ret. by eexists.
  - eapply says_bind; [apply says_gss|]. intros _ q ->. apply says_ret. by eexists.
  - by apply says_ret.
Qed.

(** A driver that still waits can be cut off with an ErrorResponse. *)
Lemma says_drive f n : says (OutStart n) (fun _ _ => True) (drive env f).
Proof.
  revert n. induction f as [|f IH]; intros n; cbn [drive]; [by apply says_ret|].
  eapply says_bind; [apply says_try, says_startup|].
  intros [[]|[e|e]] q Hq; simpl in Hq.
  - destruct Hq as [m ->]. apply IH.
  - by apply says_ret.
  - by apply says_ret.
  - by apply says_fail.
  - eapply says_bind; [by apply says_error|]. intros _ q' _. by apply says_ret.
Qed.

Lemma says_deadline n : says (OutStart n) (fun _ _ => True) (startup_with_deadline env).
Proof.
  intros c Hc. unfold startup_with_deadline, drive_startup_until_ready, says_at, mbind, io_bind.
  destruct (says_drive 3 n c Hc) as (q & Hq & Hr).
  destruct (drive env 3 c) as [[[o|e]| |cr] c1]; simpl in Hq, Hr; [by exists q..| |by exists q].
  destruct (says_error q (connection_error_code AuthTimeout)
    (connection_error_message AuthTimeout) Hr c1 Hq) as (q' & Hq' & Hr'). exists q'.
  by destruct (send_error_message _ _ c1) as [[[]| |] c2].
Qed.

Lemma handle_says c :
  st_out (co_stream c) = [] -> exists q, conforms (st_out (co_stream (handle env c).2)) = Some q.
Proof.
  intros Hc. assert (H0 : forall r, at_phase (OutStart 0) (set_conn_registry r c)).
  { intros r. split; [simpl; by rewrite Hc|]. unfold requests_left. repeat case_match; lia. }
  unfold handle. destruct (try_acquire _) as [[] r].
  - destruct (says_deadline 0 _ (H0 r)) as (q & [Hq _] & _). exists q.
    by destruct (startup_with_deadline env _) as [[| |] c1].
  - destruct (says_error (OutStart 0) (connection_error_code TooManyRequest)
      (connection_error_message TooManyRequest) eq_refl _ (H0 r)) as (q & [Hq _] & _). by exists q.
Qed.

(** C4: What a session writes is always well formed: each message carries its own
    length, and their order is that of the startup phase: at most two answers to
    encryption requests, the four SASL messages with their subcodes in turn, then
    parameters and notices, one cancel key and one ready signal; an ErrorResponse
    may cut this short anywhere before the ready signal and is the end of it.
    This holds wherever the session is refused, rejected, timed out, abandoned
    by the peer or brought down. *)
Theorem session_speaks_the_protocol c :
  st_out (co_stream c) = [] -> is_Some (conforms (st_out (co_stream (handle env c).2))).
Proof. intros Hc. destruct (handle_says c Hc) as [q ->]. done. Qed.

End handlers.
