(* ===== verification/ConnDriver.v ===== *)
(** How the startup phase of a session ends: the driver loop terminates, reports
    at most one error, and leaves the shared state whole. *)
From S2P Require Import Prelude Words RustStr Errors BufferPool Packet StartupOptions Crypto.
From S2P Require Import ToyCrypto Tls Verifier ScramServer LookupCache CredentialFile.
From S2P Require Import AuthQuery CredentialStore Config BackendPolicy Transport PgClient.
From S2P Require Import Backend Registry ConnState ConnAuth Conn ConnSafety ConnOutput.
Local Open Scope Z_scope.

(** The session differs in its buffers and its stream only. *)
Definition same_session (c c' : Conn) : Prop :=
  c' = set_pool (co_pool c') (set_stream (co_stream c') c).

Lemma same_session_trans c1 c2 c3 :
  same_session c1 c2 -> same_session c2 c3 -> same_session c1 c3.
Proof. unfold same_session. intros -> ->. done. Qed.

Section runs.
Context {P : Primitives} {A : Alloc}.

Lemma read_exact_same n c d c' : read_exact n c = (Ready (Ok d), c') -> same_session c c'.
Proof.
  unfold read_exact, same_session. destruct (stream_read _ _) as [r x]. intros [= _ <-].
  by destruct c.
Qed.

Lemma message_length_Ok c n c' :
  read_message_length c = (Ready (Ok n), c') -> same_session c c'.
Proof.
  unfold read_message_length. intros H. io_inv H.
  destruct a as [|b0 [|b1 [|b2 [|b3 [|? ?]]]]]; try done. destruct (_ <? 4); [done|]. io_inv H.
  by eapply read_exact_same.
Qed.

Lemma message_body_Ok {E T} (inject : ProxyError -> E) n (k : option bytes -> IO Conn E T) c x c' :
  with_message_body inject n k c = (Ready (Ok x), c') ->
  exists d c1 c2, k d c1 = (Ready (Ok x), c2) /\ same_session c c1 /\
    c' = set_pool (co_pool c') c2.
Proof.
  unfold with_message_body. destruct (n =? 0).
  { intros H. exists None, c, c'. split; [done|]. by destruct c, c'. }
  intros H. apply io_bind_Ok in H as (c0 & s & H1 & H). apply io_get_Ok in H1 as [-> ->].
  destruct (_ <? n); [done|].
  apply with_pooled_Ok in H as (p & data & buf & s1 & s2 & p2 & Hr & Hk & ->).
  apply io_map_err_Ok, read_exact_same in Hr. exists (Some buf), s1, s2. split; [done|].
  split; [|done]. eapply same_session_trans; [|exact Hr]. by destruct c.
Qed.

Lemma startup_packet_Ok {T} (k : bytes -> IO Conn ProxyError T) c x c' :
  with_startup_packet k c = (Ready (Ok x), c') ->
  exists b c1 c2, k b c1 = (Ready (Ok x), c2) /\ same_session c c1 /\
    c' = set_pool (co_pool c') c2.
Proof.
  unfold with_startup_packet. intros H. io_inv H. apply message_length_Ok in H0.
  destruct (_ <? _); [done|]. apply message_body_Ok in H as (d & c1 & c2 & Hk & Hs & Hp).
  destruct d as [b|]; [|done]. exists b, c1, c2. split; [done|]. split; [|done].
  by eapply same_session_trans.
Qed.

Variable env : ConnEnv.

(** ** The loop ends *)

Lemma same_requests c c' : same_session c c' -> requests_left c' = requests_left c.
Proof. by intros ->. Qed.

Lemma start_session_ready key c x c' :
  start_session env key c = (Ready (Ok x), c') -> x = SessionReady.
Proof.
  unfold start_session. intros H. repeat (io_inv H; try match type of H with
    context [match ?y with _ => _ end] => destruct y end). done.
Qed.

Lemma startup_packet_never_continues v r c c' :
  handle_startup_packet env v r c <> (Ready (Ok Continued), c').
Proof.
  unfold handle_startup_packet. intros H. io_inv H. destruct a1 as [key|]; [|io_inv H; done].
  by apply start_session_ready in H.
Qed.

Lemma answer_Ok b c u c' : answer b c = (Ready (Ok u), c') -> same_session c c'.
Proof.
  unfold answer, same_session. intros H. apply io_map_err_Ok in H. unfold write_flush in H.
  destruct (stream_write _ _) as [r x]. injection H as _ <-. by destruct c.
Qed.

Lemma tls_accept_Ok tcp (c : Conn) x c' :
  tls_accept env tcp c = (Ready (Ok x), c') -> c' = c /\ ce_accept env tcp = Some (Ok x).
Proof.
  unfold tls_accept. destruct (ce_accept env tcp) as [r|]; [|done]. intros H. io_inv H.
  destruct r; simpl in *; [split; congruence|done].
Qed.

Lemma ssl_consumes c u c' :
  handle_ssl_request env c = (Ready (Ok u), c') -> (requests_left c' < requests_left c)%nat.
Proof.
  unfold handle_ssl_request. intros H. io_inv H.
  destruct (co_ssl_done _) eqn:Hd; [done|]. unfold requests_left at 2. rewrite Hd.
  assert (Ha : forall c1, same_session (set_ssl_done true c) c1 ->
    (requests_left c1 < 1 + (if co_gss_done c then 0 else 1))%nat).
  { intros c1 ->. unfold requests_left. simpl. lia. }
  io_inv H. destruct (is_some _); io_inv H; [|by eapply Ha, answer_Ok].
  unfold promote_to_tls in H. io_inv H. destruct (co_transport _); [done| |done]. io_inv H.
  apply answer_Ok in H0. apply tls_accept_Ok in H2 as [-> _]. exact (Ha _ H0).
Qed.

Lemma gss_consumes c u c' :
  handle_gssnc_request c = (Ready (Ok u), c') -> (requests_left c' < requests_left c)%nat.
Proof.
  unfold handle_gssnc_request. intros H. io_inv H.
  destruct (co_gss_done _) eqn:Hd; [done|]. io_inv H. apply answer_Ok in H as ->.
  unfold requests_left. rewrite Hd. simpl. lia.
Qed.

Lemma continued_consumes c c' :
  handle_startup env c = (Ready (Ok Continued), c') -> (requests_left c' < requests_left c)%nat.
Proof.
  unfold handle_startup. intros H. apply startup_packet_Ok in H as (b & c1 & c2 & H & Hs & ->).
  unfold dispatch in H.
  change (requests_left (set_pool _ c2)) with (requests_left c2).
  rewrite <- (same_requests c c1 Hs). io_inv H. rename a0 into code.
  destruct (code =? SSL_REQUEST_CODE).
  { io_inv H. by eapply ssl_consumes. }
  destruct (code =? GSSENC_REQUEST_CODE).
  { io_inv H. by eapply gss_consumes. }
  destruct (code =? CANCEL_REQUEST_CODE); [io_inv H; done|].
  destruct (code =? PROTOCOL_VERSION_NUMBER); [|done]. io_inv H.
  destruct (_ && _); [done|]. by apply startup_packet_never_continues in H.
Qed.

(** C17: The startup loop ends: whatever the client sends, at most two encryption
    requests are answered, so that within three packets the session is ready,
    closed, failed or waiting; with one unit of fuel per answerable request and
    one more the loop is never cut off. *)
Theorem startup_loop_terminates fuel c c' :
  (requests_left c < fuel)%nat -> drive env fuel c <> (Ready (Ok None), c').
Proof.
  revert c. induction fuel as [|fuel IH]; intros c Hf; [lia|]. cbn [drive].
  unfold mbind, io_bind, io_try at 1.
  destruct (handle_startup env c) as [[[[]|[e|e]]| |cr] c1] eqn:Hh; cbn beta iota; try done.
  - apply continued_consumes in Hh. apply IH. lia.
  - destruct (send_error_message _ _ c1) as [[[]| |] c2]; done.
Qed.

End runs.

(** ** One error *)

Section reporting.
Context {P : Primitives} {A : Alloc} (env : ConnEnv).

(** A session reports at most one error and says nothing after it: however
    it ends, refused, timed out, rejected or failed, an ErrorResponse among the
    messages written to the client is the last of them. *)
Theorem error_response_is_last c pre w post :
  st_out (co_stream c) = [] ->
  st_out (co_stream (handle env c).2) = pre ++ w :: post ->
  head w = Some MSG_ERROR -> post = [].
Proof.
  intros Hnew Hout Hw. destruct (handle_says env c Hnew) as [q Hq]. rewrite Hout in Hq.
  apply conforms_closed in Hq as (p & p' & Hs & Hpost). apply Hpost.
  by rewrite (speak_error _ _ _ Hs Hw).
Qed.

(** *** Every session ends *)

(** A write that would wait for ever. *)
Definition reader_stalled (x : Stream) : Prop := st_room x = Some 0%nat /\ st_out_end x = Stalls.

Lemma error_pending code message c c' :
  send_error_message code message c = (Pending, c') -> reader_stalled (co_stream c').
Proof.
  unfold send_error_message, write_message, write_raw, io_map_err, write_flush, stream_write, ended.
  simpl. destruct (st_room (co_stream c)) as [[|n]|] eqn:Hr; simpl; [|done..].
  destruct (st_out_end (co_stream c)) eqn:He; simpl; [done|]. intros [= <-]. done.
Qed.

(** C15: Every session ends.  A client, a lookup, a TLS peer or a backend that stays
    silent is cut off by the startup deadline; only a client that stops reading
    can keep a session, and then at the write of its last error. *)
Theorem session_ends {AOk : AllocOk A} c r c' :
  pool_ok (co_pool c) -> handle env c = (r, c') ->
  (exists x, r = Ready x) \/ (r = Pending /\ reader_stalled (co_stream c')).
Proof.
  intros Hp Hh. pose proof (safe_handle env c Hp) as Hs. rewrite Hh in Hs.
  destruct r as [x| |cr]; [by left; eexists| |by destruct Hs]. right. split; [done|].
  unfold handle in Hh. destruct (try_acquire _) as [[] reg]; [|by eapply error_pending].
  unfold startup_with_deadline in Hh.
  destruct (drive_startup_until_ready env _) as [[y| |cr] c1]; [done| |done].
  destruct (send_error_message _ _ c1) as [[y| |cr] c2] eqn:He; [done| |done].
  injection Hh as <-. by eapply error_pending.
Qed.

End reporting.

(** ** What each phase assigns *)

(** Reading the parameters. *)
Definition params_phase (c c' : Conn) : Prop :=
  c' = set_params (co_params c') (set_user (co_user c') (set_database (co_database c')
         (set_replication_mode (co_replication_mode c') c))).

(** Authentication, lookups and the backend link. *)
Definition auth_phase (c c' : Conn) : Prop :=
  c' = set_pool (co_pool c') (set_stream (co_stream c') (set_provider (co_provider c') c)).

(** What the whole startup leaves alone. *)
Definition fixed_part (c c' : Conn) : Prop :=
  (co_conn_id c', co_required_tls c', co_frontend_tls c', co_conn_registry c', co_config c') =
  (co_conn_id c, co_required_tls c, co_frontend_tls c, co_conn_registry c, co_config c).

#[export] Instance params_phase_preorder : PreOrder params_phase.
Proof. split; [intros c; by destruct c|]. unfold params_phase. intros x y z -> ->. done. Qed.

#[export] Instance auth_phase_preorder : PreOrder auth_phase.
Proof. split; [intros c; by destruct c|]. unfold auth_phase. intros x y z -> ->. done. Qed.

#[export] Instance fixed_part_preorder : PreOrder fixed_part.
Proof. split; [done|]. intros x y z Hxy Hyz. unfold fixed_part in *. congruence. Qed.

Lemma same_session_auth c c' : same_session c c' -> auth_phase c c'.
Proof. intros ->. by destruct c. Qed.

Lemma preserves_weaken {E T} (R R' : Conn -> Conn -> Prop) (m : IO Conn E T) :
  (forall c c', R c c' -> R' c c') -> io_preserves R m -> io_preserves R' m.
Proof. intros Hi Hm c. apply Hi, Hm. Qed.

Ltac phase_tac :=
  repeat first [ progress cbv beta iota zeta | preserves_step | case_match; simplify_eq ].

Section phases.
Context {P : Primitives} {A : Alloc} (env : ConnEnv).

(** *** Parameters *)

Lemma params_read f r : io_preserves params_phase (read_params f r).
Proof.
  revert r. induction f as [|f IH]; intros r; cbn [read_params]; phase_tac; done.
Qed.

Hint Resolve params_read : preserves.

Lemma params_startup r : io_preserves params_phase (read_startup_params r).
Proof. unfold read_startup_params. phase_tac. Qed.

(** *** Authentication *)

Lemma auth_read n : io_preserves auth_phase (read_exact n : IO Conn IoError bytes).
Proof. apply preserves_read. intros x c. by destruct c. Qed.

Lemma auth_write data : io_preserves auth_phase (write_flush data : IO Conn IoError unit).
Proof. apply preserves_write. intros x c. by destruct c. Qed.

Hint Resolve auth_read auth_write : preserves.

Lemma auth_message tag body : io_preserves auth_phase (write_message tag body).
Proof. unfold write_message, write_raw. phase_tac. Qed.

Lemma auth_send_error code message : io_preserves auth_phase (send_error_message code message).
Proof. apply auth_message. Qed.

Lemma auth_message_length : io_preserves auth_phase read_message_length.
Proof. unfold read_message_length. phase_tac. Qed.

Hint Resolve auth_message auth_send_error auth_message_length : preserves.

Lemma auth_lookup d user : io_preserves auth_phase (provider_lookup d user).
Proof.
  intros c. unfold provider_lookup. destruct d as [d|]; [|by destruct c].
  destruct (store_lookup d user (co_provider c)). by destruct c.
Qed.

Hint Resolve auth_lookup : preserves.

Lemma auth_link config : io_preserves auth_phase (link_backend env config).
Proof.
  unfold link_backend. phase_tac. intros c. unfold backend_new.
  destruct (connect _ _ _) as [[[|]| |] x]; by destruct c.
Qed.

Lemma body_preserves {E T} R (inject : ProxyError -> E) n (k : option bytes -> IO Conn E T) :
  PreOrder R -> (forall c c', auth_phase c c' -> R c c') ->
  (forall d, io_preserves R (k d)) -> io_preserves R (with_message_body inject n k).
Proof.
  intros HR Hi Hk. unfold with_message_body. destruct (n =? 0); [apply Hk|].
  apply preserves_bind; [done|by apply preserves_get|]. intros c.
  destruct (_ <? n); [by apply preserves_fail|].
  apply preserves_with_pooled; [done| | |intros d; apply Hk].
  - intros p c1. apply Hi. by destruct c1.
  - apply preserves_map_err, (preserves_weaken auth_phase); [done|apply auth_read].
Qed.

Lemma auth_scram : io_preserves auth_phase (handle_scram_auth env).
Proof.
  unfold handle_scram_auth, send_auth_sasl, send_auth_message, read_sasl_initial_response,
    read_sasl_final_response, with_sasl_response.
  repeat first [ progress cbv beta iota zeta | preserves_step
               | apply body_preserves; [exact _|done|intros ?] | case_match; simplify_eq ].
Qed.

Hint Resolve auth_scram auth_link : preserves.

Lemma auth_authentication : io_preserves auth_phase (handle_authentication env).
Proof. unfold handle_authentication. phase_tac. Qed.

(** *** The whole startup *)

Lemma fixed_auth {E T} (m : IO Conn E T) : io_preserves auth_phase m -> io_preserves fixed_part m.
Proof. apply preserves_weaken. by intros c c' ->. Qed.

Lemma fixed_params {E T} (m : IO Conn E T) :
  io_preserves params_phase m -> io_preserves fixed_part m.
Proof. apply preserves_weaken. by intros c c' ->. Qed.

Ltac fixed_tac :=
  repeat first
    [ progress cbv beta iota zeta
    | solve [apply fixed_auth; eauto 2 with preserves]
    | preserves_step | case_match; simplify_eq ].

Lemma fixed_ssl : io_preserves fixed_part (handle_ssl_request env).
Proof. unfold handle_ssl_request, promote_to_tls, answer, tls_accept. fixed_tac. Qed.

Lemma fixed_gss : io_preserves fixed_part handle_gssnc_request.
Proof. unfold handle_gssnc_request, answer. fixed_tac. Qed.

Lemma fixed_cancel r : io_preserves fixed_part (handle_cancel_request env r).
Proof.
  unfold handle_cancel_request. fixed_tac. intros c. unfold forward_cancel.
  by destruct (send_cancel_request _ _ _) as [[| |] w].
Qed.

Lemma fixed_register b i t : io_preserves fixed_part (register_session env b i t).
Proof. revert i. induction t as [|t IH]; intros i; cbn [register_session]; fixed_tac; done. Qed.

Lemma fixed_notifications ns : io_preserves fixed_part (send_notifications ns).
Proof.
  induction ns as [|n ns IH]; cbn [send_notifications]; unfold send_notification; fixed_tac; done.
Qed.

Hint Resolve fixed_ssl fixed_gss fixed_cancel fixed_register fixed_notifications : preserves.

Lemma fixed_start_session key : io_preserves fixed_part (start_session env key).
Proof.
  unfold start_session, send_startup_notifications, send_key_secret, send_ready_signal. fixed_tac.
Qed.

Hint Resolve fixed_start_session auth_authentication : preserves.

Lemma fixed_startup : io_preserves fixed_part (handle_startup env).
Proof.
  unfold handle_startup, dispatch, with_startup_packet, handle_startup_packet.
  repeat first
    [ progress cbv beta iota zeta
    | solve [apply fixed_auth; eauto 2 with preserves]
    | solve [apply fixed_params, params_startup]
    | preserves_step | apply body_preserves; [exact _|by intros ? ? ->|intros ?]
    | case_match; simplify_eq ].
Qed.

Hint Resolve fixed_startup : preserves.

Lemma fixed_drive f : io_preserves fixed_part (drive env f).
Proof. induction f as [|f IH]; cbn [drive]; fixed_tac; done. Qed.

Lemma fixed_deadline : io_preserves fixed_part (startup_with_deadline env).
Proof.
  intros c. unfold startup_with_deadline, drive_startup_until_ready, mbind, io_bind.
  pose proof (fixed_drive 3 c) as H. destruct (drive env 3 c) as [[[o|e]| |cr] c1]; try done.
  etrans; [exact H|]. apply fixed_auth, auth_send_error.
Qed.

(** Pool and slot after a session. *)
Lemma handle_shares {AOk : AllocOk A} c :
  pool_ok (co_pool c) -> 0 <= cr_live (co_conn_registry c) ->
  let '(r, c') := handle env c in
  pool_ok (co_pool c') /\ sizes (co_pool c') = sizes (co_pool c) /\
  nothing_lost (co_pool c) (co_pool c') /\
  match r with
  | Ready _ => co_conn_registry c' = co_conn_registry c
  | Pending => True
  | Crashed _ => False
  end.
Proof.
  intros Hp Hl. pose proof (safe_handle env c Hp) as Hs. unfold handle in *.
  unfold try_acquire in *. destruct (_ <=? _).
  - pose proof (auth_send_error (connection_error_code TooManyRequest)
      (connection_error_message TooManyRequest) (set_conn_registry (co_conn_registry c) c)) as Hr.
    destruct (send_error_message _ _ _) as [r c1]. simpl in Hr. destruct Hs as (? & ? & Hm).
    split; [done|]. split; [by apply pool_moves_sizes|]. split; [by apply pool_moves_lose_nothing|].
    destruct r; try done. by rewrite Hr.
  - set (c0 := set_conn_registry _ c) in *. pose proof (fixed_deadline c0) as Hr.
    destruct (startup_with_deadline env c0) as [[r| |cr] c1]; simpl in Hs, Hr;
      destruct Hs as (? & ? & Hm); try done;
      (split; [done|]; split; [by apply pool_moves_sizes|];
       split; [by apply (pool_moves_lose_nothing (co_pool c))|]); [|done].
    simpl. injection Hr as _ _ _ -> _. unfold permit_drop, c0. simpl. destruct (co_conn_registry c). simpl in *.
    f_equal. lia.
Qed.

(** C13: A session takes nothing away from the others: whatever the client, the
    credential store and the backend do, it never panics; the shared buffer pool
    is well formed, with the sizes it had, and no bucket keeps fewer buffers than
    before; and once the session has ended its connection slot is free. *)
Theorem session_returns_what_it_shares {AOk : AllocOk A} c :
  pool_ok (co_pool c) -> 0 <= cr_live (co_conn_registry c) ->
  let '(r, c') := handle env c in
  pool_ok (co_pool c') /\ sizes (co_pool c') = sizes (co_pool c) /\
  nothing_lost (co_pool c) (co_pool c') /\
  match r with
  | Ready _ => co_conn_registry c' = co_conn_registry c
  | Pending => True
  | Crashed _ => False
  end.
Proof. apply handle_shares. Qed.

End phases.
