(* ===== verification/ConnReady.v ===== *)
(** What a session that becomes ready has gone through, what a cancel request
    does, the startup packet both sides agree on, and the switch to TLS. *)
From S2P Require Import Prelude Words RustStr Errors BufferPool Packet StartupOptions Crypto.
From S2P Require Import ToyCrypto Tls Verifier ScramServer LookupCache CredentialFile.
From S2P Require Import AuthQuery CredentialStore Config BackendPolicy Transport PgClient.
From S2P Require Import Backend Registry ConnState ConnAuth Conn ConnSafety ConnDriver.
Local Open Scope Z_scope.

(** A message as one write. *)
Definition message (tag : byte) (body : bytes) : bytes :=
  tag :: u32_to_be (as_u32 (Z.of_nat (length body) + 4)) ++ body.

Definition notification_message (n : StartupNotification) : bytes :=
  match n with
  | ParameterStatus name value =>
      message MSG_PARAMETER_STATUS (put_cstr (put_cstr [] name) value)
  | Notice body => message MSG_NOTICE body
  end.

Definition key_message (k : SessionKeySecret) : bytes :=
  message MSG_KEY_SECRET (u32_to_be (as_u32 (ks_key k)) ++ u32_to_be (as_u32 (ks_secret k))).

Definition ready_message (b : Backend) : bytes :=
  message MSG_READY_ACCEPT_QUERY [ba_ready_status b].

Section ready.
Context {P : Primitives} {A : Alloc} (env : ConnEnv).

(** A successful write appends its message and changes nothing else. *)
Lemma write_message_Ok tag body c u c' :
  write_message tag body c = (Ready (Ok u), c') ->
  st_out (co_stream c') = st_out (co_stream c) ++ [message tag body] /\ same_session c c'.
Proof.
  unfold write_message, write_raw. intros H. apply io_map_err_Ok in H.
  unfold write_flush, stream_write, ended in H. simpl in H.
  destruct (st_room (co_stream c)) as [[|n]|].
  - by destruct (st_out_end (co_stream c)).
  - injection H as _ <-. split; [done|]. by destruct c.
  - injection H as _ <-. split; [done|]. by destruct c.
Qed.

Lemma notifications_Ok ns c u c' :
  send_notifications ns c = (Ready (Ok u), c') ->
  st_out (co_stream c') = st_out (co_stream c) ++ map notification_message ns /\
  same_session c c'.
Proof.
  revert c. induction ns as [|n ns IH]; intros c H; cbn [send_notifications] in H.
  - io_inv H. simpl. rewrite app_nil_r. split; [done|]. by destruct c.
  - io_inv H. apply IH in H as [Ho Hs].
    assert (Hn : st_out (co_stream s) = st_out (co_stream c) ++ [notification_message n] /\
                 same_session c s).
    { destruct n; unfold send_notification in H0; io_inv H0; by apply write_message_Ok in H0. }
    destruct Hn as [Hn Hs2]. split.
    + rewrite Ho, Hn. by rewrite <- app_assoc.
    + by eapply same_session_trans.
Qed.

(** The key of a login is a key of the authenticator's verifier. *)
Lemma login_key v h nb mechanism client_first user sf a1 client_final user' out a2 key :
  handle_client_first nb mechanism client_first user (authenticator_new v h)
    = (Ready (Ok sf), a1) ->
  handle_client_final client_final user' a1 = (Ready (Ok out), a2) ->
  sa_extracted_client_key a2 = Some key -> v_dummy v = false /\ sha256 key = v_stored_key v.
Proof.
  intros (? & ? & ? & _ & _ & _ & _ & _ & _ & _ & _ & ->)%handle_client_first_Ok.
  rewrite handle_client_final_eq. case_bool_decide; [|done].
  destruct (final_check _ client_final user') as [[k o]|] eqn:Hf; [|done]. intros [= _ <-].
  apply final_check_Ok in Hf as (? & ? & ? & ? & ? & Hf). destruct_and! Hf. simpl in *.
  intros [= <-]. done.
Qed.

(** A login is one of a user the store knows. *)
Lemma scram_auth_Ok c key c' :
  handle_scram_auth env c = (Ready (Ok (Some key)), c') ->
  exists user d v s, co_user c = Some user /\ ce_lookup1 env = Some d /\
    store_lookup d user (co_provider c) = (Ready (Ok (Some v)), s) /\
    v_dummy v = false /\ sha256 key = v_stored_key v.
Proof.
  unfold handle_scram_auth. intros H. io_inv H. symmetry in H10.
  destruct (login_key _ _ _ _ _ _ _ _ _ _ _ _ _ H4 H7 H10) as [Hd Hk].
  apply ok_or_Ok, bind_Some in H0 as (user & Hu & Hne). unfold non_empty in Hne.
  case_bool_decide; [done|]. injection Hne as ->.
  unfold provider_lookup in H1. destruct (ce_lookup1 env) as [d|] eqn:Hl; [|done].
  destruct (store_lookup d a (co_provider c)) as [r st] eqn:Hs. injection H1 as -> _.
  destruct a0 as [v|]; [|by simpl in Hd]. exists a, d, v, st. done.
Qed.

Lemma authentication_Ok c key c' :
  handle_authentication env c = (Ready (Ok (Some key)), c') ->
  handle_scram_auth env c = (Ready (Ok (Some key)), c').
Proof.
  unfold handle_authentication, mbind, io_bind, io_try.
  destruct (handle_scram_auth env c) as [[[k|[e|e]]| |cr] c1]; cbn beta iota; try done.
  { by intros [= -> ->]. }
  unfold io_map_err.
  by destruct (send_error_message (auth_error_code e) (auth_error_message e) c1) as [[[]| |] c2].
Qed.

Lemma lookup_ok d user c found c' :
  provider_lookup d user c = (Ready (Ok found), c') ->
  exists dr s, d = Some dr /\ store_lookup dr user (co_provider c) = (Ready (Ok found), s).
Proof.
  unfold provider_lookup. destruct d as [dr|]; [|done].
  destruct (store_lookup dr user (co_provider c)) as [r s] eqn:H. intros [= -> _]. eauto.
Qed.

(** The key that was registered was free, and now leads to the backend. *)
Lemma register_session_Ok b i t c k g c' :
  register_session env b i t c = (Ready (Ok (k, g)), c') ->
  lookup_by_key k (co_backend_registry c) = None /\
  lookup_by_key k (co_backend_registry c') = Some b /\
  g = mkGuard (co_conn_id c) k /\ ks_secret k <> 0 /\
  c' = set_backend_registry (co_backend_registry c') c.
Proof.
  revert i c. induction t as [|t IH]; intros i c H; cbn [register_session] in H; [done|].
  io_inv H. unfold register in H.
  destruct (in_key_secret_backend (co_backend_registry c) !!
              session_key_secret_new (ce_draws env i)) eqn:Hf.
  - cbv beta iota zeta in H. io_inv H. apply IH in H. by destruct c.
  - cbv beta iota zeta in H. io_inv H. simplify_eq. split; [done|]. split; [apply lookup_insert_eq|]. split; [done|].
    split; [|by destruct c]. unfold session_key_secret_new.
    destruct (draw_key (ce_draws env i) 0 64) as [x|] eqn:Hd; [by eapply draw_key_nonzero|].
    destruct (ce_draws env i 64) as [ks sc]. simpl. intros Hz%Z.lor_eq_0_iff. lia.
Qed.

(** A link shares the pool and touches nothing else of the session. *)
Lemma link_Ok config c b c' :
  link_backend env config c = (Ready (Ok b), c') ->
  exists be, ce_backend env = Some be /\ backend_new be config c = (Ready (Ok b), c').
Proof.
  unfold link_backend. destruct (ce_backend env) as [be|]; [|done].
  intros H%io_map_err_Ok. eauto.
Qed.

(** What a login has to go through to become a session. *)
Definition linked (c c' : Conn) (user key : bytes) : Prop :=
  exists be v2 database host port b k c1 c2 out,
    ce_backend env = Some be /\ backend_host_port (co_config c) = Ok (host, port) /\
    backend_new be (session_pg_config env c' key v2 user database host port) c1
      = (Ready (Ok b), c2) /\
    lookup_by_key k (co_backend_registry c) = None /\
    lookup_by_key k (co_backend_registry c') = Some b /\ ks_secret k <> 0 /\
    co_session_guard c' = Some (mkGuard (co_conn_id c) k) /\
    st_out (co_stream c') =
      out ++ map notification_message (ba_startup_notifications b) ++ [key_message k; ready_message b].

Lemma start_session_Ok key c x c' :
  start_session env key c = (Ready (Ok x), c') ->
  exists user, co_user c = Some user /\ co_user c' = Some user /\ linked c c' user key.
Proof.
  unfold start_session, send_startup_notifications, send_key_secret, send_ready_signal.
  intros H. io_inv H.
  repeat match goal with Hk : ok_or _ _ = Ok _ |- _ => apply ok_or_Ok in Hk end. subst.
  exists a. simpl in H8. simplify_eq.
  pose proof (auth_lookup (ce_lookup2 env) a c) as Hpl. rewrite H2 in Hpl.
  pose proof (auth_link env (session_pg_config env c key a2 a a0 a4 b) s) as Hpb.
  rewrite H5 in Hpb. apply link_Ok in H5 as (be & Hbe & Hnew).
  apply register_session_Ok in H6 as (Hfree & Hreg & -> & Hnz & Hs1).
  apply notifications_Ok in H7 as [Ho1 Hs2].
  apply write_message_Ok in H9 as [Ho2 Hs3], H11 as [Ho3 Hs4]. cbn [snd] in Hpl, Hpb.
  rewrite Hs2 in H10. injection H10 as <-.
  assert (Hb : co_backend s3 = Some a8) by (by rewrite Hs3, Hs2). rewrite Hb in Ho3.
  split; [done|]. split; [by rewrite Hs4, Hs3, Hs2, Hs1, Hpb, Hpl|].
  exists be, a2, a0, a4, b, a8, a6. do 2 eexists. exists (st_out (co_stream s1)).
  split; [exact Hbe|].
  split; [by destruct (backend_host_port (co_config c)) as [[? ?]|]; simplify_eq/=|].
  split.
  { assert (Hcfg : (co_params s4, co_config s4) = (co_params c, co_config c))
      by (by rewrite Hs4, Hs3, Hs2, Hs1, Hpb, Hpl).
    injection Hcfg as Hpar Hcfg. unfold session_pg_config. rewrite Hpar, Hcfg. exact Hnew. }
  split; [by rewrite <- Hfree, Hpb, Hpl|].
  split; [rewrite Hs4, Hs3, Hs2; exact Hreg|]. split; [done|].
  split; [rewrite Hs4, Hs3, Hs2, Hpb, Hpl; reflexivity|].
  unfold key_message, ready_message. rewrite Ho3, Ho2, Ho1, <- !app_assoc. f_equal.
Qed.

(** [linked] looks at the session's identity and registry before, and at
    everything but the pool after. *)
Lemma linked_same c1 c2 c' p user key :
  (co_config c1, co_backend_registry c1, co_conn_id c1) =
  (co_config c2, co_backend_registry c2, co_conn_id c2) ->
  linked c1 c' user key -> linked c2 (set_pool p c') user key.
Proof.
  intros [= Hc Hr Hi] (be & v2 & db & host & port & b & k & cb & cb' & out & H).
  exists be, v2, db, host, port, b, k, cb, cb', out. rewrite <- Hc, <- Hr, <- Hi. exact H.
Qed.

Lemma startup_packet_ready v r c c' :
  handle_startup_packet env v r c = (Ready (Ok SessionReady), c') ->
  exists user d vf s key,
    co_user c' = Some user /\ ce_lookup1 env = Some d /\
    store_lookup d user (co_provider c) = (Ready (Ok (Some vf)), s) /\
    v_dummy vf = false /\ sha256 key = v_stored_key vf /\
    linked c c' user key.
Proof.
  unfold handle_startup_packet. intros H. io_inv H.
  match goal with Hp : read_startup_params _ ?c0 = (_, ?c1) |- _ =>
    pose proof (params_startup r c0) as Hph; rewrite Hp in Hph end.
  match goal with Hp : handle_authentication _ ?c0 = (_, ?c1) |- _ =>
    pose proof (auth_authentication env c0) as Hau; rewrite Hp in Hau; rename Hp into Hlog end.
  cbn [snd] in Hph, Hau. destruct a1 as [key|]; [|io_inv H; done].
  apply authentication_Ok, scram_auth_Ok in Hlog as (user & d & vf & st & Hu & Hd & Hl & Hdm & Hk).
  apply start_session_Ok in H as (user' & Hu1 & Hu2 & Hlink).
  assert (user' = user) as -> by (rewrite Hau in Hu1; simpl in Hu1; congruence).
  exists user, d, vf, st, key. split; [done|]. split; [done|].
  split; [by rewrite Hph in Hl|]. split; [done|]. split; [done|].
  replace c' with (set_pool (co_pool c') c') by (by destruct c').
  eapply linked_same; [|exact Hlink]. by rewrite Hau, Hph.
Qed.

(** C1: A session is ready only for a user the credential store knows, who
    proved possession of a key that hashes to the stored key, through a backend
    link made with that key, and under a fresh cancel key with a non-zero secret
    that now leads to that backend; the client was then sent the backend's
    startup messages in their order, the cancel key and the ready signal. *)
Theorem ready_session_is_authenticated c c' :
  handle_startup env c = (Ready (Ok SessionReady), c') ->
  exists user d v s key,
    co_user c' = Some user /\ ce_lookup1 env = Some d /\
    store_lookup d user (co_provider c) = (Ready (Ok (Some v)), s) /\
    v_dummy v = false /\ sha256 key = v_stored_key v /\
    linked c c' user key.
Proof.
  unfold handle_startup. intros H. apply startup_packet_Ok in H as (b & c1 & c2 & H & Hs & ->).
  unfold dispatch in H.
  io_inv H. rename a0 into code.
  destruct (code =? SSL_REQUEST_CODE); [io_inv H; done|].
  destruct (code =? GSSENC_REQUEST_CODE); [io_inv H; done|].
  destruct (code =? CANCEL_REQUEST_CODE); [io_inv H; done|].
  destruct (code =? PROTOCOL_VERSION_NUMBER); [|done]. io_inv H. destruct (_ && _); [done|].
  apply startup_packet_ready in H as (user & d & v & st & key & Hu & Hd & Hl & Hdm & Hk & Hlink).
  exists user, d, v, st, key. split; [done|]. split; [done|].
  split; [by rewrite Hs in Hl|]. split; [done|]. split; [done|].
  eapply linked_same; [|exact Hlink]. by rewrite Hs.
Qed.

End ready.

(** ** Packets as they arrive *)

Section packets.
Context {P : Primitives} {A : Alloc} {AOk : AllocOk A}.

Lemma read_exact_prefix data rest (c : Conn) n :
  length data = n -> st_in (co_stream c) = data ++ rest ->
  read_exact n c = (Ready (Ok data), set_stream (with_input rest (co_stream c)) c).
Proof.
  intros <- Hin. unfold read_exact, stream_read. simpl.
  rewrite Hin, length_app, (proj2 (Nat.leb_le _ _)) by lia.
  by rewrite take_app_length, drop_app_length.
Qed.

Lemma read_length_prefix len rest c :
  0 <= len -> 4 + len < 2 ^ 32 -> st_in (co_stream c) = u32_to_be (4 + len) ++ rest ->
  read_message_length c = (Ready (Ok len), set_stream (with_input rest (co_stream c)) c).
Proof.
  intros H0 Hlen Hin. unfold read_message_length, mbind, io_bind, io_map_err.
  rewrite (read_exact_prefix (u32_to_be (4 + len)) rest c 4) by done. cbn [map_err].
  unfold u32_to_be. cbn beta iota. rewrite u32_from_to_be, as_u32_id by (unfold is_u32; lia).
  rewrite (proj2 (Z.ltb_ge _ _)) by lia. unfold mret, io_ret. repeat f_equal. lia.
Qed.

(** A startup packet within the limits reaches its handler as its body. *)
Lemma startup_packet_delivered {T} (k : bytes -> IO Conn ProxyError T) body rest c :
  (forall d, pool_safe (k d)) -> pool_ok (co_pool c) -> body <> [] ->
  Z.of_nat (length body) <= max_capacity (co_pool c) ->
  4 + Z.of_nat (length body) <= max_startup_bytes (co_config c) ->
  4 + Z.of_nat (length body) < 2 ^ 32 ->
  st_in (co_stream c) = u32_to_be (4 + Z.of_nat (length body)) ++ body ++ rest ->
  exists p p',
    with_startup_packet k c =
    (let '(r, c2) := k body (set_stream (with_input rest (co_stream c)) (set_pool p c)) in
     (r, set_pool p' c2)).
Proof.
  intros Hk Hp Hne Hmax Hlim Hlen Hin. unfold with_startup_packet, mbind, io_bind, io_get.
  rewrite (read_length_prefix (Z.of_nat (length body)) (body ++ rest)) by (done || lia).
  cbn beta iota. cbn [co_config set_stream]. rewrite (proj2 (Z.ltb_ge _ _)) by lia.
  unfold with_message_body, mbind, io_bind, io_get.
  rewrite (proj2 (Z.eqb_neq _ _)) by (destruct body; simpl in *; [done|lia]).
  cbn beta iota. cbn [co_pool set_stream]. rewrite (proj2 (Z.ltb_ge _ _)) by lia.
  set (c0 := set_stream (with_input (body ++ rest) (co_stream c)) c).
  destruct (pool_get_spec (co_pool c) (Z.of_nat (length body)) Hp ltac:(lia))
    as (pb & p & Hget & Hbl & Hp1 & Hz1 & Hpb & _).
  rewrite Nat2Z.id.
  erewrite (with_pooled_data (Z.of_nat (length body)) _ _ c0 pb p body);
    [|exact Hget|done| |done].
  2: { unfold io_map_err. rewrite (read_exact_prefix body rest) by done. reflexivity. }
  exists p. unfold io_finally, c0.
  set (c1 := set_stream (with_input rest (co_stream c)) (set_pool p c)).
  change (set_stream _ (set_sess_pool _ _)) with c1.
  specialize (Hk body c1 Hp1). destruct (k body c1) as [r c2]. destruct Hk as (_ & Hp2 & Hz2).
  destruct (pooled_drop_spec (co_pool c2) (pb_fill pb body) Hp2) as (p' & Hd & _ & _).
  { apply (pooled_wf_sizes p); [by apply (pool_moves_sizes p) in Hz2|]. by apply pooled_wf_fill. }
  exists p'. unfold drop_pooled. simpl. by rewrite Hd.
Qed.

(** ** Startup messages *)

(** The parameters the backend client sends, in their order. *)
Definition sent_params (config : PgConfig) : list (bytes * bytes) :=
  let '(u, d, a) := startup_flags (pc_startup_params config) in
  pc_startup_params config
  ++ (if u : bool then [] else [( #"user", pc_user config)])
  ++ (if d : bool then [] else [( #"database", pc_database config)])
  ++ (if a : bool then [] else [( #"application_name", #"wirechaos")]).

Definition put_param (kv : bytes * bytes) : bytes := put_cstr (put_cstr [] kv.1) kv.2.

Definition put_params (kvs : list (bytes * bytes)) : bytes := concat (map put_param kvs).

Lemma put_params_fold kvs m :
  fold_left (fun m '(name, value) => put_cstr (put_cstr m name) value) kvs m =
  m ++ put_params kvs.
Proof.
  revert m. induction kvs as [|[name value] kvs IH]; intros m; simpl; [by rewrite app_nil_r|].
  rewrite IH. unfold put_params, put_param, put_cstr. simpl. by rewrite <- !app_assoc.
Qed.

Lemma startup_body_params config :
  startup_body config =
  u32_to_be PROTOCOL_VERSION_NUMBER ++ put_params (sent_params config) ++ [x00].
Proof.
  unfold startup_body, sent_params. rewrite put_params_fold.
  destruct (startup_flags (pc_startup_params config)) as [[u d] a].
  unfold put_params. rewrite !map_app, !concat_app.
  destruct u, d, a; unfold put_param, put_cstr; simpl;
    repeat (rewrite ?app_nil_r, <- ?app_assoc; simpl); done.
Qed.

Definition param_ok (kv : bytes * bytes) : Prop :=
  kv.1 <> [] /\ x00 ∉ kv.1 /\ is_utf8 kv.1 = true /\ x00 ∉ kv.2 /\ is_utf8 kv.2 = true.

Lemma read_params_put kvs pre c fuel :
  Forall param_ok kvs -> (length kvs < fuel)%nat ->
  let buf := pre ++ put_params kvs ++ [x00] in
  Z.of_nat (length buf) < 2 ^ 63 ->
  read_params fuel (mkReader buf (length pre)) c =
  (Ready (Ok (true, mkReader buf (length buf))),
   set_params (foldl (fun m kv => <[kv.1 := kv.2]> m) (co_params c) kvs) c).
Proof.
  intros Hkvs. revert pre c fuel. induction Hkvs as [|[k v] kvs Hkv _ IH]; intros pre c fuel Hf buf Hlen;
    (destruct fuel as [|fuel]; [simpl in Hf; lia|]); cbn [read_params].
  - change buf with (pre ++ put_cstr [] [] ++ []) in *. clear buf.
    rewrite remaining_ok by (split; simpl; [rewrite length_app; lia|done]).
    cbn [mr_buf mr_pos]. rewrite (proj2 (Z.ltb_lt _ _)) by (rewrite !length_app; simpl; lia).
    unfold mbind, io_bind, io_local.
    rewrite read_string_put_cstr by (done || apply not_elem_of_nil). cbn beta iota.
    rewrite bool_decide_eq_true_2 by done. unfold mret, io_ret. destruct c.
    rewrite length_app. simpl. repeat f_equal; lia.
  - destruct Hkv as (Hk & Hk0 & Hku & Hv0 & Hvu). simpl in Hk, Hk0, Hku, Hv0, Hvu.
    set (rest := put_params kvs ++ [x00]).
    assert (Hb1 : buf = pre ++ put_cstr [] k ++ (put_cstr [] v ++ rest)).
    { unfold buf, rest, put_params, put_param, put_cstr. simpl. by rewrite <- !app_assoc. }
    assert (Hb2 : buf = (pre ++ put_cstr [] k) ++ put_cstr [] v ++ rest)
      by (by rewrite Hb1, <- app_assoc).
    assert (Hb3 : buf = ((pre ++ put_cstr [] k) ++ put_cstr [] v) ++ put_params kvs ++ [x00])
      by (rewrite Hb2; unfold rest; by rewrite (app_assoc (pre ++ put_cstr [] k))).
    rewrite remaining_ok by (split; simpl; [rewrite Hb1, length_app; lia|done]).
    cbn [mr_buf mr_pos]. rewrite (proj2 (Z.ltb_lt _ _))
      by (rewrite Hb1, !length_app; unfold put_cstr; rewrite !length_app; simpl; lia).
    unfold mbind, io_bind, io_local. rewrite Hb1 at 1. rewrite read_string_put_cstr by done.
    cbn beta iota. rewrite bool_decide_eq_false_2 by done. rewrite <- Hb1.
    replace (length pre + length k + 1)%nat with (length (pre ++ put_cstr [] k))
      by (unfold put_cstr; rewrite !length_app; simpl; lia).
    rewrite Hb2 at 1. rewrite read_string_put_cstr by done. cbn beta iota. rewrite <- Hb2.
    unfold io_modify. cbn beta iota.
    replace (length (pre ++ put_cstr [] k) + length v + 1)%nat
      with (length ((pre ++ put_cstr [] k) ++ put_cstr [] v))
      by (unfold put_cstr; rewrite !length_app; simpl; lia).
    rewrite Hb3 in Hlen |- *. rewrite IH; [done|simpl in Hf; lia|done].
Qed.

(** C20: The two halves of the proxy speak the same startup protocol: the startup
    message the backend client writes is read by the frontend session as
    protocol 3.0 with exactly the parameters sent, the user, the database and
    the application name completed, up to its terminator. *)
Theorem startup_message_roundtrip config c :
  Forall param_ok (sent_params config) -> Z.of_nat (length (startup_body config)) < 2 ^ 63 ->
  exists r,
    read_u32 (reader_new (startup_body config)) = (Ready (Ok PROTOCOL_VERSION_NUMBER), r) /\
    read_params (S (length (mr_buf r))) r c =
    (Ready (Ok (true, mkReader (startup_body config) (length (startup_body config)))),
     set_params (foldl (fun m kv => <[kv.1 := kv.2]> m) (co_params c) (sent_params config)) c).
Proof.
  intros Hok Hlen. rewrite startup_body_params in *.
  exists (mkReader (u32_to_be PROTOCOL_VERSION_NUMBER ++ put_params (sent_params config) ++ [x00]) 4).
  split.
  - exact (read_u32_to_be [] PROTOCOL_VERSION_NUMBER _ Hlen).
  - apply (read_params_put (sent_params config) (u32_to_be PROTOCOL_VERSION_NUMBER)); try done.
    simpl. rewrite length_app. simpl.
    assert (H : forall kvs, (length kvs <= length (put_params kvs))%nat).
    { induction kvs as [|kv kvs IH]; [done|]. unfold put_params in *. simpl. unfold put_param at 1, put_cstr.
      rewrite !length_app. simpl. lia. }
    specialize (H (sent_params config)). lia.
Qed.

(** ** Cancel requests *)

(** The backend key a cancel request stands for. *)
Definition cancelled (k : SessionKeySecret) (r : Inner) : list (list bytes) :=
  match lookup_backend_key k r with
  | Some key => [[cancel_packet key]]
  | None => []
  end.

(** C21: A cancel request is routed by its key alone: the proxy sends the cancel
    packet of the session registered under exactly that key, and nothing for a
    key no session has; in both cases the client is told nothing and its
    connection is closed. *)
Theorem cancel_request_is_routed env pid secret rest c :
  is_i32 pid -> is_i32 secret ->
  pool_ok (co_pool c) -> 12 <= max_capacity (co_pool c) -> 16 <= max_startup_bytes (co_config c) ->
  st_in (co_stream c) = cancel_packet (mkBackendKeyData pid secret) ++ rest ->
  (forall addr, exists x, be_dial (ce_cancel env) addr = Some (Ok x) /\
     st_out x = [] /\ st_room x = None) ->
  exists c', handle_startup env c = (Ready (Ok Close), c') /\
    st_out (co_stream c') = st_out (co_stream c) /\
    co_backend_registry c' = co_backend_registry c /\
    co_forwarded c' =
      co_forwarded c ++ cancelled (mkKeySecret pid secret) (co_backend_registry c).
Proof.
  intros Hpid Hsec Hp Hmax Hlim Hin Hdial.
  set (body := u32_to_be CANCEL_REQUEST_CODE ++ u32_to_be (as_u32 pid) ++ u32_to_be (as_u32 secret)).
  destruct (startup_packet_delivered (dispatch env) body rest c) as (p & p' & Heq); try done.
  { intros d. apply safe_dispatch. }
  assert (H1 : read_u32 (reader_new body) = (Ready (Ok CANCEL_REQUEST_CODE), mkReader body 4))
    by exact (read_u32_to_be [] CANCEL_REQUEST_CODE (u32_to_be (as_u32 pid) ++ u32_to_be (as_u32 secret))
                (@eq_refl comparison Lt)).
  assert (H2 : read_u32 (mkReader body 4) = (Ready (Ok (as_u32 (as_u32 pid))), mkReader body 8))
    by exact (read_u32_to_be (u32_to_be CANCEL_REQUEST_CODE) (as_u32 pid)
                (u32_to_be (as_u32 secret)) (@eq_refl comparison Lt)).
  assert (H3 : read_u32 (mkReader body 8) = (Ready (Ok (as_u32 (as_u32 secret))), mkReader body 12))
    by exact (read_u32_to_be (u32_to_be CANCEL_REQUEST_CODE ++ u32_to_be (as_u32 pid))
                (as_u32 secret) [] (@eq_refl comparison Lt)).
  rewrite as_u32_id in H2, H3 by apply as_u32_range.
  unfold handle_startup. rewrite Heq. clear Heq. unfold dispatch, mbind, io_bind, io_local.
  rewrite H1. cbn beta iota.
  rewrite (proj2 (Z.eqb_neq CANCEL_REQUEST_CODE SSL_REQUEST_CODE)) by done.
  rewrite (proj2 (Z.eqb_neq CANCEL_REQUEST_CODE GSSENC_REQUEST_CODE)) by done.
  rewrite Z.eqb_refl. unfold handle_cancel_request, mbind, io_bind, io_local, io_get.
  change (remaining (mkReader body 4)) with 8. cbn [negb Z.eqb Pos.eqb]. cbn beta iota.
  rewrite H2. cbn beta iota. rewrite H3. cbn beta iota. cbn [co_backend_registry set_stream set_pool].
  rewrite !as_i32_as_u32 by done. unfold cancelled, lookup_backend_key.
  destruct (lookup_by_key (mkKeySecret pid secret) (co_backend_registry c)) as [b|]; simpl.
  2: { eexists. split; [reflexivity|]. simpl. by rewrite app_nil_r. }
  destruct (ba_backend_key b) as [key|].
  2: { eexists. split; [reflexivity|]. simpl. by rewrite app_nil_r. }
  unfold forward_cancel, send_cancel_request, dial.
  destruct (Hdial (addr_of (ba_host b) (ba_port b))) as (x & -> & Hx & Hr).
  unfold stream_write. rewrite Hr. eexists. split; [reflexivity|]. simpl. by rewrite Hx.
Qed.

(** ** The switch to TLS *)

Definition with_output (out : list bytes) (room : option nat) (x : Stream) : Stream :=
  mkStream (st_in x) (st_in_end x) out room (st_out_end x).

(** What is still in the socket, behind the bytes the reader has buffered. *)
Definition in_socket (env : ConnEnv) (x : Stream) : bytes := drop (ce_buffered env x) (st_in x).

(** The switch does not look at the plaintext the reader holds. *)
Lemma promote_same env d x y :
  unread_socket env x = unread_socket env y -> st_out x = st_out y ->
  promote_to_tls env (set_stream x d) = promote_to_tls env (set_stream y d).
Proof.
  intros Hu Ho. unfold promote_to_tls, mbind, io_bind, io_get, io_modify, io_lift, io_fail.
  cbn [co_stream set_stream set_transport co_transport co_frontend_tls]. rewrite Hu.
  unfold empty_halves. by rewrite Ho.
Qed.

(** C14: No plaintext crosses into an encrypted session.  Whatever an attacker on the
    network appends to the SSLRequest, as long as the reader had buffered it, the
    request ends the same way, and a session that was switched to TLS is the same
    session: what it reads next comes from the TLS peer alone. *)
Theorem plaintext_never_crosses_into_tls env c x :
  co_frontend_tls c <> None ->
  x = with_input (st_in x) (co_stream c) ->
  (forall out room, in_socket env (with_output out room x) =
                    in_socket env (with_output out room (co_stream c))) ->
  let honest := handle_ssl_request env c in
  let injected := handle_ssl_request env (set_stream x c) in
  injected.1 = honest.1 /\ (honest.1 = Ready (Ok tt) -> injected.2 = honest.2).
Proof.
  intros Htls -> Hsame. set (y := co_stream c) in *.
  set (out := st_out y ++ [[x53]]). set (d := set_ssl_done true c).
  assert (Hunread : forall room, unread_socket env (with_output out room (with_input (st_in x) y)) =
                                 unread_socket env (with_output out room y)).
  { intros room. unfold unread_socket. unfold in_socket in Hsame.
    by rewrite Hsame. }
  pose proof (fun room => promote_same env d _ _ (Hunread room) eq_refl) as Hpro.
  unfold handle_ssl_request, mbind, io_bind, io_get, io_fail, io_lift.
  cbn [co_ssl_done set_stream]. destruct (co_ssl_done c); [done|].
  unfold io_modify. cbn [co_frontend_tls set_ssl_done set_stream].
  destruct (co_frontend_tls c) as [ft|] eqn:Hft; [|done]. cbn [is_some].
  unfold answer, io_map_err, write_flush, stream_write. cbn [sess_stream conn_session co_stream
    set_ssl_done set_stream with_input st_room st_out_end]. fold y.
  destruct (st_room y) as [[|n]|]; cbn beta iota; cbn [map_err fmap option_fmap option_map].
  - unfold ended. by destruct (st_out_end y).
  - specialize (Hpro (Some n)). by split; [exact (f_equal fst Hpro)|intros _; exact (f_equal snd Hpro)].
  - specialize (Hpro None). by split; [exact (f_equal fst Hpro)|intros _; exact (f_equal snd Hpro)].
Qed.

End packets.
