(* ===== verification/StartupReplay.v ===== *)
(** What a backend says at the end of its startup, as the client of the proxy
    reads it: the handshake loop of [backend/pg_client.rs] followed by
    [send_startup_notifications] of [conn.rs]. *)
From S2P Require Import Prelude Words RustStr Errors BufferPool Packet Crypto ToyCrypto Verifier.
From S2P Require Import Config BackendPolicy Transport PgClient Backend ConnReady.
Local Open Scope Z_scope.

(** The messages a backend sends between the last authentication message and
    [ReadyForQuery]. *)
Inductive BackendMessage :=
| BmAuthOk
| BmParameter (name value : bytes)
| BmNotice (body : bytes)
| BmKeyData (key : BackendKeyData).

Definition bm_tag (m : BackendMessage) : byte :=
  match m with BmAuthOk => x52 | BmParameter _ _ => x53 | BmNotice _ => x4e | BmKeyData _ => x4b end.

Definition bm_body (m : BackendMessage) : bytes :=
  match m with
  | BmAuthOk => u32_to_be 0
  | BmParameter name value => put_cstr (put_cstr [] name) value
  | BmNotice body => body
  | BmKeyData key => u32_to_be (as_u32 (bk_pid key)) ++ u32_to_be (as_u32 (bk_secret key))
  end.

Definition bm_frame (m : BackendMessage) : bytes := frame (bm_tag m) (bm_body m).

(** A message as PostgreSQL writes it, that a buffer of [max] bytes can hold. *)
Definition bm_ok (max : Z) (m : BackendMessage) : Prop :=
  Z.of_nat (length (bm_body m)) <= max /\ 4 + Z.of_nat (length (bm_body m)) < 2 ^ 31 /\
  match m with
  | BmParameter name value =>
      x00 ∉ name /\ x00 ∉ value /\ is_utf8 name = true /\ is_utf8 value = true
  | BmKeyData key => is_i32 (bk_pid key) /\ is_i32 (bk_secret key)
  | _ => True
  end.

(** What it does to the client. *)
Definition bm_apply (c : PgClient) (m : BackendMessage) : PgClient :=
  match m with
  | BmAuthOk => c
  | BmParameter name value => push_notification (ParameterStatus name value) c
  | BmNotice body => push_notification (Notice body) c
  | BmKeyData key => set_backend_key key c
  end.

(** What is passed on to the proxy's client, and what is kept from it. *)
Definition bm_notification (m : BackendMessage) : option StartupNotification :=
  match m with
  | BmParameter name value => Some (ParameterStatus name value)
  | BmNotice body => Some (Notice body)
  | _ => None
  end.

Definition bm_key (m : BackendMessage) : option BackendKeyData :=
  match m with BmKeyData key => Some key | _ => None end.

Lemma bm_apply_notifications ms c :
  cl_startup_notifications (fold_left bm_apply ms c) =
  cl_startup_notifications c ++ omap bm_notification ms.
Proof.
  revert c. induction ms as [|m ms IH]; intros c; simpl; [by rewrite app_nil_r|].
  rewrite IH. destruct m; simpl; by rewrite <- ?app_assoc.
Qed.

Lemma bm_apply_key ms c :
  cl_backend_key (fold_left bm_apply ms c) =
  match last (omap bm_key ms) with Some key => Some key | None => cl_backend_key c end.
Proof.
  revert c. induction ms as [|m ms IH]; intros c; [done|]. cbn [fold_left]. rewrite IH.
  destruct m as [| | |key]; try done. simpl. rewrite last_cons. by destruct (last _).
Qed.

Lemma bm_apply_place ms c :
  cl_pool (fold_left bm_apply ms c) = cl_pool c /\
  cl_stream (fold_left bm_apply ms c) = cl_stream c.
Proof.
  revert c. induction ms as [|m ms IH]; intros c; [done|]. cbn [fold_left].
  destruct (IH (bm_apply c m)) as [-> ->]. by destruct m.
Qed.

Lemma bm_apply_login ms c :
  cl_server_signature_verified (fold_left bm_apply ms c) = cl_server_signature_verified c /\
  cl_peer_cert_hash (fold_left bm_apply ms c) = cl_peer_cert_hash c.
Proof.
  revert c. induction ms as [|m ms IH]; intros c; [done|]. cbn [fold_left].
  destruct (IH (bm_apply c m)) as [-> ->]. by destruct m.
Qed.

Lemma bm_apply_set_pool p c m : bm_apply (set_cl_pool p c) m = set_cl_pool p (bm_apply c m).
Proof. by destruct m. Qed.

Lemma bm_apply_set_stream x c m : bm_apply (set_cl_stream x c) m = set_cl_stream x (bm_apply c m).
Proof. by destruct m. Qed.

Lemma bm_apply_all_place ms p x c :
  fold_left bm_apply ms (set_cl_pool p (set_cl_stream x c)) =
  set_cl_pool p (set_cl_stream x (fold_left bm_apply ms c)).
Proof.
  revert c. induction ms as [|m ms IH]; intros c; [done|]. cbn [fold_left].
  by rewrite bm_apply_set_pool, bm_apply_set_stream, IH.
Qed.

(** A message passed on is the message received. *)
Lemma forwarded_frame m n : bm_notification m = Some n -> notification_message n = bm_frame m.
Proof.
  intros Hn. unfold notification_message, bm_frame, message, frame.
  destruct m; simpl in Hn; simplify_eq; unfold bm_tag, bm_body;
    rewrite Z.add_comm, u32_to_be_as_u32; reflexivity.
Qed.

Lemma forwarded_frames ms :
  map notification_message (omap bm_notification ms) =
  map bm_frame (filter (fun m => is_Some (bm_notification m)) ms).
Proof.
  induction ms as [|m ms IH]; [done|]. cbn [omap list_omap]. rewrite filter_cons.
  destruct (bm_notification m) as [n|] eqn:Hn.
  - rewrite decide_True by eauto. simpl. by rewrite (forwarded_frame m), IH.
  - rewrite decide_False by (by intros [? ?]). done.
Qed.

Lemma frames_length ms : (length ms <= length (concat (map bm_frame ms)))%nat.
Proof.
  induction ms as [|m ms IH]; [done|]. simpl. rewrite length_app. simpl. lia.
Qed.

Section replay.
Context {P : Primitives} {A : Alloc} {AOk : AllocOk A} (env : BackendEnv) (config : PgConfig).

Lemma handle_parameter name value c :
  x00 ∉ name -> x00 ∉ value -> is_utf8 name = true -> is_utf8 value = true ->
  handle_parameter_status (put_cstr (put_cstr [] name) value) c =
  (Ready (Ok tt), push_notification (ParameterStatus name value) c).
Proof.
  intros Hn Hv Hnu Hvu. set (body := put_cstr (put_cstr [] name) value).
  assert (H1 : body = [] ++ put_cstr [] name ++ put_cstr [] value)
    by (unfold body, put_cstr; by rewrite <- !app_assoc).
  assert (H2 : body = put_cstr [] name ++ put_cstr [] value ++ [])
    by (rewrite H1; simpl; by rewrite app_nil_r).
  unfold handle_parameter_status, reader_new, mbind, io_bind, io_local, io_map_err.
  rewrite H1 at 1. rewrite (read_string_put_cstr [] name) by done. rewrite <- H1. cbn [map_err].
  cbn beta iota. replace (length (@nil byte) + length name + 1)%nat with (length (put_cstr [] name))
    by (unfold put_cstr; rewrite !length_app; simpl; lia).
  rewrite H2 at 1. by rewrite (read_string_put_cstr _ value) by done.
Qed.

Lemma handle_bm max m c :
  bm_ok max m -> handle_message env config (bm_tag m) (bm_body m) c = (Ready (Ok false), bm_apply c m).
Proof.
  intros (_ & _ & Hm). unfold handle_message, mbind, io_bind.
  destruct m as [|name value|body|key]; cbn [bm_tag].
  - done.
  - destruct Hm as (? & ? & ? & ?).
    rewrite bool_decide_eq_false_2, bool_decide_eq_true_2 by done.
    cbn [bm_body]. by rewrite handle_parameter by done.
  - done.
  - destruct Hm as [Hpid Hsec]. destruct key as [pid secret].
    do 3 rewrite bool_decide_eq_false_2 by done. rewrite bool_decide_eq_true_2 by done.
    unfold handle_key_data. cbn [bm_body bk_pid bk_secret] in *.
    rewrite !u32_to_be_as_u32. unfold u32_to_be. cbn [app].
    rewrite !u32_from_to_be. unfold io_modify. rewrite !as_i32_as_u32 by done.
    reflexivity.
Qed.

(** One iteration on one of these messages. *)
Lemma handshake_step_bm m rest c :
  pool_ok (cl_pool c) -> bm_ok (max_capacity (cl_pool c)) m ->
  st_in (cl_stream c) = bm_frame m ++ rest ->
  exists p, pool_ok p /\ max_capacity p = max_capacity (cl_pool c) /\
    handshake_step env config c =
    (Ready (Ok false), set_cl_pool p (set_cl_stream (with_input rest (cl_stream c)) (bm_apply c m))).
Proof.
  intros Hp Hm Hin. pose proof Hm as (Hmax & Hlen & _).
  destruct (message_delivered (handle_message env config) (bm_tag m) (bm_body m) rest c)
    as (p & p' & Heq); try done; [intros d; by apply safe_handle_message|].
  rewrite (handle_bm (max_capacity (cl_pool c))) in Heq by done.
  rewrite bm_apply_set_stream, bm_apply_set_pool in Heq.
  change (handshake_step env config c = (Ready (Ok false), set_cl_pool p'
    (set_cl_stream (with_input rest (cl_stream c)) (bm_apply c m)))) in Heq.
  pose proof (safe_handshake_step env config c Hp) as Hs. rewrite Heq in Hs.
  destruct Hs as (_ & Hp' & Hz%pool_moves_sizes). simpl in Hp', Hz.
  exists p'. split; [done|]. split; [|done]. by rewrite !max_capacity_sizes, Hz.
Qed.

Lemma handshake_loop_bms ms rest c f :
  pool_ok (cl_pool c) -> Forall (bm_ok (max_capacity (cl_pool c))) ms ->
  st_in (cl_stream c) = concat (map bm_frame ms) ++ rest ->
  exists p, pool_ok p /\ max_capacity p = max_capacity (cl_pool c) /\
    handshake_loop env (length ms + f) config c =
    handshake_loop env f config
      (set_cl_pool p (set_cl_stream (with_input rest (cl_stream c)) (fold_left bm_apply ms c))).
Proof.
  revert c. induction ms as [|m ms IH]; intros c Hp Hms Hin.
  - exists (cl_pool c). split; [done|]. split; [done|]. simpl in *. do 2 f_equal.
    destruct c as [pl [i ie o r oe]]. simpl in *. by subst i.
  - apply Forall_cons in Hms as [Hm Hms]. simpl in Hin. rewrite <- app_assoc in Hin.
    destruct (handshake_step_bm m _ c Hp Hm Hin) as (p & Hp1 & Hz & Hs).
    cbn [length Nat.add handshake_loop]. unfold mbind, io_bind. rewrite Hs. cbn beta iota.
    destruct (IH (set_cl_pool p (set_cl_stream (with_input (concat (map bm_frame ms) ++ rest)
      (cl_stream c)) (bm_apply c m)))) as (p' & Hp' & Hz' & Hl); [done|simpl; by rewrite Hz|done|].
    exists p'. split; [done|]. split; [simpl in Hz'; congruence|]. rewrite Hl.
    cbn [fold_left]. by rewrite bm_apply_all_place.
Qed.

(** C19: The proxy's client is shown the startup of the backend as it was: whatever
    parameters, notices and keys a backend sends before [ReadyForQuery], the
    handshake succeeds, and the messages that a session on this link replays are
    byte for byte the parameters and notices received, in their order; the
    backend's cancel key (the last one) and its transaction status are kept, not
    replayed; and nothing behind [ReadyForQuery] is consumed. *)
Theorem backend_startup_is_replayed ms status rest c :
  pool_ok (cl_pool c) -> 1 <= max_capacity (cl_pool c) ->
  Forall (bm_ok (max_capacity (cl_pool c))) ms -> cl_startup_notifications c = [] ->
  st_in (cl_stream c) = concat (map bm_frame ms) ++ frame x5a [status] ++ rest ->
  exists c', handle_startup_handshake env config c = (Ready (Ok tt), c') /\
    let b := backend_of c' in
    map notification_message (ba_startup_notifications b) =
      map bm_frame (filter (fun m => is_Some (bm_notification m)) ms) /\
    ba_backend_key b =
      match last (omap bm_key ms) with Some key => Some key | None => cl_backend_key c end /\
    ba_ready_status b = status /\
    st_in (cl_stream (ba_client b)) = rest /\ pool_ok (cl_pool (ba_client b)).
Proof.
  intros Hp Hmax Hms Hnew Hin.
  set (left := length (st_in (cl_stream c))).
  assert (Hleft : (length ms <= left)%nat).
  { unfold left. rewrite Hin, length_app. pose proof (frames_length ms). lia. }
  destruct (handshake_loop_bms ms _ c (S (left - length ms)) Hp Hms Hin) as (p & Hp1 & Hz & Hl).
  replace (length ms + S (left - length ms))%nat with (S left) in Hl by lia.
  set (c1 := set_cl_pool p _) in Hl.
  destruct (message_delivered (handle_message env config) x5a [status] rest c1)
    as (p1 & p2 & Heq); try done; [intros d; by apply safe_handle_message|simpl; lia|].
  set (c2 := set_cl_pool p2 (set_ready_status status
    (set_cl_stream (with_input rest (cl_stream c1)) (set_cl_pool p1 c1)))).
  assert (Hstep : handshake_step env config c1 = (Ready (Ok true), c2)) by exact Heq.
  pose proof (safe_handshake_step env config c1 Hp1) as Hs. rewrite Hstep in Hs.
  destruct Hs as (_ & Hp2 & _). exists c2. split.
  - unfold handle_startup_handshake, mbind, io_bind, io_get. fold left. rewrite Hl.
    cbn [handshake_loop]. unfold mbind, io_bind. by rewrite Hstep.
  - split; [|split; [|by split]]; simpl.
    + by rewrite bm_apply_notifications, Hnew, <- forwarded_frames.
    + apply bm_apply_key.
Qed.

End replay.

(** ** Witness *)

#[local] Existing Instance toy_crypto.
#[local] Existing Instance plain_alloc.
#[local] Existing Instance plain_alloc_ok.

Definition sample_startup : list BackendMessage :=
  [BmAuthOk; BmParameter #"tz" #"UTC"; BmKeyData (mkBackendKeyData 7 (-1)); BmNotice #"hi"].

Definition sample_started : PgClient :=
  set_cl_stream (sample_stream (concat (map bm_frame sample_startup) ++ frame x5a #"I" ++ #"x"))
    sample_pg_client.

Lemma backend_startup_is_replayed_witness :
  exists c', handle_startup_handshake (sample_env []) (sample_pg_config TlsDisable CbPrefer)
      sample_started = (Ready (Ok tt), c') /\
    map notification_message (ba_startup_notifications (backend_of c')) =
      [frame x53 ( #"tz" ++ [x00] ++ #"UTC" ++ [x00]); frame x4e #"hi"] /\
    ba_backend_key (backend_of c') = Some (mkBackendKeyData 7 (-1)).
Proof.
  destruct (backend_startup_is_replayed (sample_env []) (sample_pg_config TlsDisable CbPrefer)
    sample_startup x49 #"x" sample_started) as (c' & Hc & Hn & Hk & _).
  - apply small_pool_ok.
  - vm_compute. discriminate.
  - unfold sample_startup. repeat apply Forall_cons_2; try apply Forall_nil_2.
    all: split; [vm_compute; discriminate|split; [vm_compute; reflexivity|]]; cbn [bm_ok].
    + exact I.
    + split; [|split; [|split; vm_compute; reflexivity]];
        apply (bool_decide_unpack _); vm_compute; exact I.
    + split; unfold is_i32; simpl; lia.
    + exact I.
  - reflexivity.
  - reflexivity.
  - exists c'. split; [exact Hc|]. split; [exact Hn|exact Hk].
Defined.
