(* ===== verification/BackendLogin.v ===== *)
(** The proxy logs in to a backend: the whole dialogue of [PgClient::connect] with
    a server that holds the verifier the proxy's credentials open, to the end of
    its startup ([backend/pg_client.rs], [backend/scram_client.rs]). *)
From S2P Require Import Prelude Words RustStr Errors BufferPool Packet Crypto ToyCrypto Tls.
From S2P Require Import Verifier ScramServer ScramClient ScramExchange Config BackendPolicy.
From S2P Require Import Transport Dialogue PgClient Backend ConnReady StartupReplay.
Local Open Scope Z_scope.

#[export] Instance pg_session_frame : SessionFrame PgClient pg_session.
Proof. split; intros; by destruct s. Qed.

Section login.
Context {P : Primitives} {HP : PrimitivesOk P} {A : Alloc} {AOk : AllocOk A}.
Variables (env : BackendEnv) (config : PgConfig) (sz : list Z).

(** A body that a buffer of the pool can hold, in a frame whose length is positive. *)
Definition fits (body : bytes) : Prop :=
  Z.of_nat (length body) <= default 0 (last sz) /\ 4 + Z.of_nat (length body) < 2 ^ 31.

Lemma talks_ts_read d data n :
  length data = n -> talks sz d (ts_read_exact n) data [] data d.
Proof. intros Hn. by apply talks_timeout, talks_map_err, talks_read. Qed.

Lemma talks_header d tag body :
  fits body ->
  talks sz d read_message_header (tag :: u32_to_be (4 + Z.of_nat (length body))) []
    (tag, Z.of_nat (length body)) d.
Proof.
  intros [_ Hlen]. rewrite <- (app_nil_r (tag :: _)).
  eapply talks_bind with (o1 := []); [by apply talks_ts_read|].
  unfold u32_to_be. cbn beta iota. rewrite u32_from_to_be, as_i32_as_u32 by (unfold is_i32; lia).
  rewrite (proj2 (Z.ltb_ge _ _)) by lia.
  replace (4 + Z.of_nat (length body) - 4) with (Z.of_nat (length body)) by lia. apply talks_ret.
Qed.

Lemma talks_body {T} d d' body i o x (k : bytes -> IO PgClient PgError T) :
  fits body -> talks sz d (k body) i o x d' ->
  talks sz d (with_message_body (Z.of_nat (length body)) k) (body ++ i) o x d'.
Proof.
  intros [Hmax _] Hk s rest Hf Hl Hin. pose proof Hl as (_ & Hz & _).
  unfold with_message_body, mbind, io_bind, io_get.
  change (cl_pool s) with (sess_pool s). rewrite max_capacity_sizes, Hz, (proj2 (Z.ltb_ge _ _)) by lia.
  eapply (talks_with_pooled sz d d' body); try done.
  apply talks_ts_read. lia.
Qed.

(** A framed message and what its handler goes on to do. *)
Lemma talks_frame {T} d d' tag body i o x (k : byte -> bytes -> IO PgClient PgError T) :
  fits body -> talks sz d (k tag body) i o x d' ->
  talks sz d ('(tag, n) ← read_message_header; with_message_body n (k tag))
    (frame tag body ++ i) o x d'.
Proof.
  intros Hb Hk.
  change (frame tag body ++ i) with
    ((tag :: u32_to_be (4 + Z.of_nat (length body))) ++ body ++ i).
  eapply talks_bind with (o1 := []); [by apply talks_header|]. cbn beta iota. by apply talks_body.
Qed.

Lemma talks_send d tag body :
  4 + Z.of_nat (length body) < 2 ^ 31 ->
  talks sz d (write_message tag body) [] [frame tag body] tt d.
Proof.
  intros Hlen. unfold write_message, write_raw. rewrite as_u32_id by (unfold is_u32; lia).
  apply talks_timeout, talks_map_err, talks_write.
Qed.

(** ** SASL *)

(** The SCRAM client of [handle_sasl]. *)
Definition scram_of (h : option CertHash) (chosen : SaslMechanism) : ScramClient :=
  let scram := scram_client_new (be_random env) (pc_client_key config) (pc_server_key config)
                 (pc_stored_key config) (pc_password config) in
  match chosen, h with
  | ScramSha256Plus, Some cert_hash => use_channel_binding (cbind_input cert_hash) scram
  | _, _ => scram
  end.

(** An authentication message of the backend. *)
Definition auth_frame (code : Z) (data : bytes) : bytes := frame x52 (u32_to_be code ++ data).

Lemma auth_type_code code data :
  is_u32 code -> auth_type (u32_to_be code ++ data) = Some (code, data).
Proof.
  intros Hc. unfold u32_to_be. cbn [app auth_type]. by rewrite u32_from_to_be, as_u32_id.
Qed.

Lemma talks_auth_data d code data :
  is_u32 code -> fits (u32_to_be code ++ data) ->
  talks sz d (read_authentication_data env code) (auth_frame code data) [] data d.
Proof.
  intros Hc Hb. unfold auth_frame. rewrite <- (app_nil_r (frame _ _)).
  apply (talks_frame d d x52 (u32_to_be code ++ data) []); [done|].
  rewrite bool_decide_eq_false_2 by done. rewrite bool_decide_eq_true_2 by done. cbn [negb]. rewrite auth_type_code by done.
  eapply talks_then; [apply talks_lift|]. cbn beta iota. rewrite Z.eqb_refl. apply talks_ret.
Qed.

(** The messages of the two sides. *)
Definition sasl_initial (chosen : SaslMechanism) (scram : ScramClient) : bytes :=
  put_cstr [] (sasl_name chosen) ++ u32_to_be (Z.of_nat (length (client_first_message scram)))
  ++ client_first_message scram.

Definition server_final_of (scram : ScramClient) (vb : Verifier) (server_nonce : bytes) : bytes :=
  #"v=" ++ b64_encode (hmac_sha256 (v_server_key vb) (auth_message_of scram vb server_nonce)).

Definition sasl_server (scram : ScramClient) (vb : Verifier) (server_nonce : bytes) : bytes :=
  auth_frame 11 (server_first_of scram vb server_nonce)
  ++ auth_frame 12 (server_final_of scram vb server_nonce).

Lemma select_plus_available mode available offered :
  select_mechanism mode available offered = Ok ScramSha256Plus -> available = true.
Proof.
  unfold select_mechanism. destruct available; [done|]. rewrite andb_false_r.
  by destruct mode; repeat case_bool_decide.
Qed.

(** An exchange the backend and the proxy can hold: the mechanism chosen is among
    those offered, the salt and the iterations are those of the captured keys,
    and the messages fit the buffers. *)
Record sasl_case (h : option CertHash) (mechs : bytes) (chosen : SaslMechanism) (vb : Verifier)
    (server_nonce key : bytes) : Prop := {
  sl_random : be_random env <> [];
  sl_offered : parse_sasl_mechanisms mechs <> [];
  sl_chosen : select_mechanism (bt_channel_binding (pc_tls config)) (is_some h)
    (parse_sasl_mechanisms mechs) = Ok chosen;
  sl_salt : pc_salt config = v_salt vb;
  sl_iterations : pc_iterations config = v_iterations vb;
  sl_u32 : is_u32 (v_iterations vb);
  sl_sends : 4 + Z.of_nat (length (sasl_initial chosen (scram_of h chosen))) < 2 ^ 31
    /\ 4 + Z.of_nat (length (client_final_of (scram_of h chosen) vb
         server_nonce key)) < 2 ^ 31;
  sl_fits : fits (u32_to_be 10 ++ mechs)
    /\ fits (u32_to_be 11 ++ server_first_of (scram_of h chosen) vb server_nonce)
    /\ fits (u32_to_be 12 ++ server_final_of (scram_of h chosen) vb server_nonce) }.

Lemma scram_of_nonce h chosen : sc_client_nonce (scram_of h chosen) = b64_url_encode (be_random env).
Proof. by destruct chosen, h. Qed.

Lemma server_first_text h chosen vb nonce :
  is_u32 (v_iterations vb) -> is_utf8 (server_first_of (scram_of h chosen) vb nonce) = true.
Proof.
  intros Hi. unfold server_first_of. rewrite scram_of_nonce. apply ascii_is_utf8.
  unfold is_u32 in Hi.
  solve_ascii.
Qed.

Lemma server_final_text h chosen vb nonce :
  is_utf8 (server_final_of (scram_of h chosen) vb nonce) = true.
Proof.
  apply ascii_is_utf8. unfold server_final_of.
  solve_ascii.
Qed.

(** The exchange itself. *)
Lemma talks_sasl d mechs chosen vb nonce key :
  let scram := scram_of (cl_peer_cert_hash d) chosen in
  sasl_case (cl_peer_cert_hash d) mechs chosen vb nonce key -> credentials_match scram vb key ->
  talks sz d (handle_sasl env config mechs) (sasl_server scram vb nonce)
    [frame x70 (sasl_initial chosen scram); frame x70 (client_final_of scram vb nonce key)]
    tt (set_verified (knows_server_key scram) d).
Proof.
  intros scram [Hr Ho Hch Hsalt Hit Hu [Hs1 Hs2] (_ & Hf1 & Hf2)] Hk.
  fold scram in Hs1, Hs2, Hf1, Hf2.
  assert (Hn : chr_comma ∉ sc_client_nonce scram)
    by (unfold scram; rewrite scram_of_nonce; by apply not_in_b64_url).
  unfold handle_sasl. rewrite bool_decide_eq_false_2 by done.
  apply talks_get. intros s (p & x & ->).
  change (cl_peer_cert_hash (set_sess_pool p (set_sess_stream x d))) with (cl_peer_cert_hash d).
  rewrite Hch. eapply talks_then; [apply talks_lift|]. cbn beta iota.
  eapply (talks_then sz _ _ _ _ _ scram).
  { unfold scram, scram_of. destruct chosen; [apply talks_ret|].
    apply select_plus_available in Hch. destruct (cl_peer_cert_hash d) as [h|]; [|done].
    eapply talks_then; [apply talks_lift|apply talks_ret]. }
  cbn beta iota zeta.
  rewrite as_u32_id by (unfold is_u32; unfold sasl_initial in Hs1; rewrite !length_app in Hs1; lia).
  eapply talks_says; [by apply talks_send|]. unfold sasl_server.
  eapply talks_hears; [by apply talks_auth_data|].
  eapply talks_then; [rewrite from_utf8_valid by (by apply server_first_text); apply talks_lift|].
  rewrite Hsalt, Hit. eapply talks_then; [by apply talks_local, client_answers|].
  cbn beta iota. eapply talks_says; [by apply talks_send|].
  eapply talks_hears_last; [by apply talks_auth_data|].
  eapply talks_then; [rewrite from_utf8_valid by (by apply server_final_text); apply talks_lift|].
  eapply (talks_then sz _ _ _ _ _ (knows_server_key scram)).
  { unfold server_final_of.
    assert (Hv : verify_server_final (#"v=" ++ b64_encode (hmac_sha256 (v_server_key vb)
        (auth_message_of scram vb nonce)))
        (set_server_key (exchange_server_key scram vb)
          (set_auth_message (auth_message_of scram vb nonce) scram)) = Ok (knows_server_key scram)).
    { destruct Hk as (_ & _ & Hk). unfold exchange_server_key, knows_server_key.
      destruct (sc_password scram); cbn [is_some orb]; [by apply signature_verified|].
      destruct Hk as (_ & _ & [-> | ->]); cbn [is_some orb];
        [by apply signature_verified|by apply signature_unverified]. }
    rewrite Hv. apply talks_lift. }
  apply (talks_modify sz d (set_verified (knows_server_key scram))); try done.
  intros t (p' & x' & ->). by exists p', x'.
Qed.

(** ** The handshake loop *)

Lemma talks_loop_more f f' d i o d' :
  (f <= f')%nat -> talks sz d (handshake_loop env f config) i o true d' ->
  talks sz d (handshake_loop env f' config) i o true d'.
Proof.
  intros Hle Hm s rest Hf Hl Hin. destruct (Hm s rest Hf Hl Hin) as (s' & Heq & Hs').
  exists s'. split; [|done]. clear Hm Hf Hl Hin Hs'. revert f' s Hle Heq.
  induction f as [|f IH]; intros [|f'] s Hle; try done; [lia|]. cbn [handshake_loop].
  unfold mbind, io_bind. destruct (handshake_step env config s) as [[[[]|]| |] s1]; try done.
  apply IH. lia.
Qed.

Lemma talks_loop_step f d d1 d2 i1 i2 o1 o2 :
  talks sz d (handshake_step env config) i1 o1 false d1 ->
  talks sz d1 (handshake_loop env f config) i2 o2 true d2 ->
  talks sz d (handshake_loop env (S f) config) (i1 ++ i2) (o1 ++ o2) true d2.
Proof. intros H1 H2. exact (talks_bind sz d d1 d2 i1 i2 o1 o2 false true _ _ H1 H2). Qed.

Lemma talks_bm m d :
  bm_ok (default 0 (last sz)) m ->
  talks sz d (handshake_step env config) (bm_frame m) [] false (bm_apply d m).
Proof.
  intros Hm. rewrite <- (app_nil_r (bm_frame m)).
  apply (talks_frame d _ (bm_tag m) (bm_body m) []); [split; apply Hm|].
  apply (talks_eq sz _ _ _ _ _ _ (io_modify (fun c => bm_apply c m);; mret false)).
  { intros s _. by rewrite (handle_bm _ _ (default 0 (last sz))) by done. }
  eapply talks_then; [|apply talks_ret].
  apply (talks_modify sz d (fun c => bm_apply c m)); [|by destruct m..].
  intros t (p & x & ->). exists p, x. by destruct m.
Qed.

Lemma talks_bms ms f d i o d' :
  Forall (bm_ok (default 0 (last sz))) ms ->
  talks sz (fold_left bm_apply ms d) (handshake_loop env f config) i o true d' ->
  talks sz d (handshake_loop env (length ms + f) config) (concat (map bm_frame ms) ++ i) o true d'.
Proof.
  intros Hms. revert d. induction Hms as [|m ms Hm _ IH]; intros d Hk; [done|].
  cbn [map concat]. rewrite <- app_assoc.
  by apply (talks_loop_step _ _ (bm_apply d m) _ _ _ [] o), IH; [apply talks_bm|].
Qed.

(** [ReadyForQuery] ends the loop. *)
Lemma talks_ready status d :
  1 <= default 0 (last sz) ->
  talks sz d (handshake_loop env 1 config) (frame x5a [status]) [] true (set_ready_status status d).
Proof.
  intros Hmax. rewrite <- (app_nil_r (frame _ _)).
  eapply talks_bind with (o1 := []) (x := true); [|apply talks_ret].
  rewrite <- (app_nil_r (frame _ _)).
  apply (talks_frame d _ x5a [status] []); [split; simpl; lia|].
  eapply talks_then; [apply talks_lift|]. eapply talks_then; [|apply talks_ret].
  apply (talks_modify sz d (set_ready_status status)); try done.
  intros t (p & x & ->). by exists p, x.
Qed.

(** What the backend says, from its request for SASL to the end of its startup. *)
Definition login_input (mechs : bytes) (scram : ScramClient) (vb : Verifier) (nonce : bytes)
    (ms : list BackendMessage) (status : byte) : bytes :=
  auth_frame 10 mechs ++ sasl_server scram vb nonce ++ concat (map bm_frame ms)
  ++ frame x5a [status].

Definition login_output (chosen : SaslMechanism) (scram : ScramClient) (vb : Verifier)
    (nonce key : bytes) : list bytes :=
  [frame x70 (sasl_initial chosen scram); frame x70 (client_final_of scram vb nonce key)].

Lemma talks_login d mechs chosen vb nonce key ms status :
  let scram := scram_of (cl_peer_cert_hash d) chosen in
  sasl_case (cl_peer_cert_hash d) mechs chosen vb nonce key -> credentials_match scram vb key ->
  Forall (bm_ok (default 0 (last sz))) ms -> 1 <= default 0 (last sz) ->
  talks sz d (handle_startup_handshake env config) (login_input mechs scram vb nonce ms status)
    (login_output chosen scram vb nonce key) tt
    (set_ready_status status (fold_left bm_apply ms (set_verified (knows_server_key scram) d))).
Proof.
  intros scram Hc Hk Hms Hmax. set (d' := set_ready_status _ _).
  assert (Hloop : talks sz d (handshake_loop env (S (length ms + 1)) config)
      (login_input mechs scram vb nonce ms status) (login_output chosen scram vb nonce key) true d').
  { unfold login_input. rewrite app_assoc, <- (app_nil_r (login_output _ _ _ _ _)).
    eapply talks_loop_step with (d1 := set_verified (knows_server_key scram) d).
    - apply talks_frame; [apply Hc|].
      rewrite <- (app_nil_r (sasl_server _ _ _)), <- (app_nil_r (login_output _ _ _ _ _)).
      eapply talks_bind; [|apply talks_ret].
      eapply talks_then; [rewrite auth_type_code by done; apply talks_lift|]. by apply talks_sasl.
    - by apply talks_bms, talks_ready. }
  intros s rest Hf Hl Hin. set (left := length (st_in (cl_stream s))).
  assert (Hleft : (length ms + 1 <= left)%nat).
  { unfold left. change (cl_stream s) with (sess_stream s). rewrite Hin. unfold login_input.
    rewrite !length_app. pose proof (frames_length ms). simpl. lia. }
  apply (talks_loop_more _ (S left)) in Hloop; [|lia].
  destruct (Hloop s rest Hf Hl Hin) as (s' & Heq & Hs'). exists s'. split; [|done].
  unfold handle_startup_handshake, mbind, io_bind, io_get. fold left. by rewrite Heq.
Qed.

(** ** Connecting *)

(** What becomes of a dialled stream [x] before the startup packet: the stream
    [y] the session goes on, and the hash of the peer's certificate. *)
Inductive secured (x : Stream) : option CertHash -> Stream -> Prop :=
| secured_off :
    bt_mode (pc_tls config) = TlsDisable -> secured x None x
| secured_declined answer rest :
    bt_mode (pc_tls config) = TlsPrefer -> answer <> x53 -> st_in x = answer :: rest ->
    secured x None (with_input rest (stream_write (u32_to_be 8 ++ u32_to_be SSL_REQUEST_CODE) x).2)
| secured_tls rest name policy certs y :
    bt_mode (pc_tls config) <> TlsDisable -> st_in x = x53 :: rest ->
    pg_tls_server_name config = Some name -> be_server_name_ok env name = true ->
    build_tls_config env config = Ok policy ->
    be_tls env policy name
      (with_input rest (stream_write (u32_to_be 8 ++ u32_to_be SSL_REQUEST_CODE) x).2)
      = Some (Ok (certs, y)) ->
    secured x (peer_cert_hash certs) y.

Lemma request_tls_answer answer rest x c :
  st_room x = None -> st_in x = answer :: rest -> cl_stream c = x ->
  request_tls c = (Ready (Ok (bool_decide ([answer] = [x53]))),
    set_cl_stream (with_input rest (stream_write (u32_to_be 8 ++ u32_to_be SSL_REQUEST_CODE) x).2) c).
Proof.
  destruct x as [i e o r oe]. cbn. intros -> -> Hx.
  unfold request_tls, io_timeout, io_map_err, mbind, io_bind, write_flush, read_exact, stream_write,
    stream_read. cbn. rewrite Hx. cbn. by rewrite drop_0.
Qed.

Lemma try_tls_secured x h y c :
  secured x h y -> st_room x = None -> cl_stream c = x -> cl_peer_cert_hash c = None ->
  try_tls env config c = (Ready (Ok tt), set_peer_cert_hash h (set_cl_stream y c)).
Proof.
  intros Hs Hr Hx Hh. unfold try_tls. destruct Hs as [Hm|answer rest Hm Ha Hin|rest name policy certs y Hm Hin Hn Hok Hp Ht].
  - rewrite bool_decide_eq_true_2 by done. destruct c. cbn in *. by subst.
  - rewrite bool_decide_eq_false_2 by congruence. unfold mbind, io_bind.
    rewrite (request_tls_answer answer rest x) by done.
    rewrite bool_decide_eq_false_2 by congruence. cbn [negb]. rewrite Hm.
    destruct c. cbn in *. by subst.
  - rewrite bool_decide_eq_false_2 by done. unfold mbind, io_bind.
    rewrite (request_tls_answer x53 rest x) by done.
    rewrite bool_decide_eq_true_2 by done. cbn [negb]. rewrite Hn. cbn [option_bind]. rewrite Hok.
    unfold io_lift. cbn [ok_or]. rewrite Hp. unfold tls_connect. cbn [set_cl_stream cl_stream].
    rewrite Ht. reflexivity.
Qed.

(** The name the proxy's own authenticator has for the mechanism. *)
Definition authenticator_name (m : SaslMechanism) : bytes :=
  match m with ScramSha256 => SCRAM_SHA_256 | ScramSha256Plus => PLUS end.

(** A server with this verifier answers the client as in [sasl_server]. *)
Lemma server_plays_along h mechs chosen vb nonce key user :
  let scram := scram_of h chosen in
  sasl_case h mechs chosen vb nonce key -> credentials_match scram vb key ->
  v_dummy vb = false -> user <> [] ->
  exists a1 a2,
    handle_client_first nonce (authenticator_name chosen) (client_first_message scram) user
      (authenticator_new vb h) = (Ready (Ok (server_first_of scram vb nonce)), a1) /\
    handle_client_final (client_final_of scram vb nonce key) user a1 =
      (Ready (Ok (server_final_of scram vb nonce)), a2) /\
    sa_extracted_client_key a2 = Some key.
Proof.
  intros scram [Hr Ho Hch _ _ _ _ _] Hk Hd Hu.
  assert (Hn : chr_comma ∉ sc_client_nonce scram)
    by (unfold scram; rewrite scram_of_nonce; by apply not_in_b64_url).
  assert (Hne : sc_client_nonce scram <> [])
    by (unfold scram; rewrite scram_of_nonce; by apply b64_url_nonempty).
  assert (Hb : binding_match scram h (authenticator_name chosen)).
  { unfold scram, scram_of. destruct chosen; [by destruct h|]. apply select_plus_available in Hch.
    destruct h as [ch|]; [|done]. split; [done|]. by exists ch. }
  destruct (first_accepted scram vb h nonce (authenticator_name chosen) user Hb Hu Hn Hne)
    as (gs2 & a1 & Hf & Ha & Hcb).
  exists a1, (set_client_key key (set_state Done a1)). split; [exact Hf|]. split; [|done].
  by rewrite (final_accepted a1 scram vb key nonce user) by (done || by rewrite Ha).
Qed.

End login.

Section connect.
Context {P : Primitives} {HP : PrimitivesOk P} {A : Alloc} {AOk : AllocOk A}.
Variables (env : BackendEnv) (config : PgConfig).

(** A backend that can be reached under the address [x] answers on, and that holds
    the verifier [vb]: what it says on the stream [y] is its side of the
    login, its startup [ms], and [rest]. *)
Record willing_backend (sizes : list Z) (x : Stream) (h : option CertHash) (y : Stream)
    (mechs : bytes) (chosen : SaslMechanism) (vb : Verifier) (nonce key : bytes)
    (ms : list BackendMessage) (status : byte) (rest : bytes) : Prop := {
  wb_dial : be_dial env (addr_of (pc_host config) (pc_port config)) = Some (Ok x);
  wb_room : st_room x = None;
  wb_secured : secured env config x h y;
  wb_secured_room : st_room y = None;
  wb_sasl : sasl_case env config sizes h mechs chosen vb nonce key;
  wb_capacity : 1 <= default 0 (last sizes);
  wb_startup : Forall (bm_ok (default 0 (last sizes))) ms;
  wb_says : st_in y = login_input mechs (scram_of env config h chosen) vb nonce ms status ++ rest }.

(** What the client holds after a login to such a backend. *)
Record logged_in (c' : PgClient) (h : option CertHash) (y : Stream) (chosen : SaslMechanism)
    (vb : Verifier) (nonce key : bytes) (ms : list BackendMessage) (status : byte) (rest : bytes)
    : Prop := {
  li_unread : st_in (cl_stream c') = rest;
  li_sent : st_out (cl_stream c') =
    st_out y ++ startup_packet config
      :: login_output chosen (scram_of env config h chosen) vb nonce key;
  li_verified : cl_server_signature_verified c' = knows_server_key (scram_of env config h chosen);
  li_hash : cl_peer_cert_hash c' = h;
  li_status : cl_ready_status c' = Some status;
  li_notifications : cl_startup_notifications c' = omap bm_notification ms;
  li_key : cl_backend_key c' = last (omap bm_key ms) }.

Lemma backend_connects pool x h y mechs chosen vb nonce key ms status rest :
  pool_ok pool -> willing_backend (sizes pool) x h y mechs chosen vb nonce key ms status rest ->
  credentials_match (scram_of env config h chosen) vb key ->
  exists c', connect env config (new_client config pool no_stream) = (Ready (Ok tt), c') /\
    logged_in c' h y chosen vb nonce key ms status rest /\
    pool_ok (cl_pool c') /\ sizes (cl_pool c') = sizes pool.
Proof.
  intros Hp [Hdial Hrx Hsec Hry Hc Hmax Hms Hin] Hkey.
  set (scram := scram_of env config h chosen) in *.
  set (d := set_peer_cert_hash h (set_cl_stream y (new_client config pool no_stream))).
  assert (Htalk : talks (sizes pool) d
    (write_startup_message config;; io_timeout StartupTimeout (handle_startup_handshake env config))
    (login_input mechs scram vb nonce ms status)
    (startup_packet config :: login_output chosen scram vb nonce key) tt
    (set_ready_status status (fold_left bm_apply ms (set_verified (knows_server_key scram) d)))).
  { eapply talks_says; [apply talks_timeout, talks_map_err, talks_write|].
    by apply talks_timeout, talks_login. }
  destruct (Htalk d rest) as (c' & Heq & (p & x' & ->) & (Hp' & Hz' & _) & Hi & Ho);
    [reflexivity|done|exact Hin|].
  destruct (bm_apply_login ms (set_verified (knows_server_key scram) d)) as [Hv Hh].
  pose proof (bm_apply_notifications ms (set_verified (knows_server_key scram) d)) as Hn.
  pose proof (bm_apply_key ms (set_verified (knows_server_key scram) d)) as Hk.
  assert (Hk' : cl_backend_key (fold_left bm_apply ms (set_verified (knows_server_key scram) d))
    = last (omap bm_key ms)) by (rewrite Hk; by destruct (last (omap bm_key ms))).
  eexists. split.
  2: { split; [|split; [exact Hp'|exact Hz']].
       split; [exact Hi|exact Ho|exact Hv|exact Hh|reflexivity|exact Hn|exact Hk']. }
  unfold connect, dial. rewrite Hdial. unfold mbind, io_bind, io_modify.
  change (io_lift (Ok x) (new_client config pool no_stream))
    with (Ready (Ok x : result PgError Stream), new_client config pool no_stream).
  cbn beta iota. rewrite (try_tls_secured env config x h y) by done. cbn beta iota. exact Heq.
Qed.

(** C18: The proxy gets into its backend: when the backend can be reached, its answer
    to the TLS request suits the configured mode, it offers a mechanism the
    proxy may use and holds a verifier that the proxy's credentials open, then
    [PgClient::connect] succeeds.  What it sent is exactly the startup packet
    and the two SCRAM messages, which that server, running the proxy's own
    authenticator (which calls the binding mechanism [-PLUS]), accepts; the
    server's signature is verified when the server key is known; and the client
    holds what the backend announced. *)
Theorem backend_login_completes pool x h y mechs chosen vb nonce key ms status rest :
  let scram := scram_of env config h chosen in
  pool_ok pool -> willing_backend (sizes pool) x h y mechs chosen vb nonce key ms status rest ->
  credentials_match scram vb key -> v_dummy vb = false -> pc_user config <> [] ->
  (exists c', connect env config (new_client config pool no_stream) = (Ready (Ok tt), c') /\
    logged_in c' h y chosen vb nonce key ms status rest /\
    pool_ok (cl_pool c') /\ sizes (cl_pool c') = sizes pool) /\
  exists a1 a2,
    handle_client_first nonce (authenticator_name chosen) (client_first_message scram)
      (pc_user config) (authenticator_new vb h) = (Ready (Ok (server_first_of scram vb nonce)), a1) /\
    handle_client_final (client_final_of scram vb nonce key) (pc_user config) a1 =
      (Ready (Ok (server_final_of scram vb nonce)), a2) /\
    sa_extracted_client_key a2 = Some key.
Proof.
  intros scram Hp Hw Hk Hd Hu. split; [by eapply backend_connects|].
  destruct Hw. by apply (server_plays_along env config (sizes pool) h mechs).
Qed.

End connect.
