(* ===== verification/ConnLogin.v ===== *)
(** A client logs in and its session becomes ready: the whole dialogue of
    [Conn::handle] with a client whose credentials open the verifier of the
    store, through to a backend that holds the same keys ([proxy/conn.rs],
    [auth/handler.rs], [auth/scram/handler.rs]). *)
From S2P Require Import Prelude Words RustStr Errors BufferPool Packet StartupOptions Crypto.
From S2P Require Import Tls Verifier ScramServer ScramClient ScramExchange LookupCache.
From S2P Require Import CredentialFile AuthQuery CredentialStore Config BackendPolicy.
From S2P Require Import Transport Dialogue PgClient Backend Registry ConnState ConnAuth Conn.
From S2P Require Import ConnReady StartupReplay BackendLogin.
Local Open Scope Z_scope.

#[export] Instance conn_session_frame : SessionFrame Conn conn_session.
Proof. split; intros; by destruct s. Qed.

(** An assignment to another field of the session. *)
Ltac other_field := intros s0 (p0 & x0 & ->); by exists p0, x0.

(** A packet without a tag. *)
Definition packet (body : bytes) : bytes := u32_to_be (4 + Z.of_nat (length body)) ++ body.

Section login.
Context {P : Primitives} {HP : PrimitivesOk P} {A : Alloc} {AOk : AllocOk A}.
Variables (env : ConnEnv) (sz : list Z).

(** ** Framing *)

Lemma talks_length d len :
  0 <= len -> 4 + len < 2 ^ 32 ->
  talks sz d read_message_length (u32_to_be (4 + len)) [] len d.
Proof.
  intros H0 Hlen. rewrite <- (app_nil_r (u32_to_be _)).
  eapply talks_hears; [by apply talks_map_err, talks_read|].
  unfold u32_to_be. cbn beta iota. rewrite u32_from_to_be, as_u32_id by (unfold is_u32; lia).
  rewrite (proj2 (Z.ltb_ge _ _)) by lia.
  replace (4 + len - 4) with len by lia. apply talks_ret.
Qed.

Lemma leads_message_body {E T} (inject : ProxyError -> E) d body i o
    (k : option bytes -> IO Conn E T) Q :
  fits sz body -> body <> [] -> leads sz d (k (Some body)) i o Q ->
  leads sz d (with_message_body inject (Z.of_nat (length body)) k) (body ++ i) o Q.
Proof.
  intros [Hmax _] Hne Hk s rest Hf Hl Hin. pose proof Hl as (_ & Hz & _).
  unfold with_message_body. rewrite (proj2 (Z.eqb_neq _ _)) by (by destruct body).
  unfold mbind, io_bind, io_get. change (co_pool s) with (sess_pool s).
  rewrite max_capacity_sizes, Hz, (proj2 (Z.ltb_ge _ _)) by lia.
  eapply (leads_with_pooled sz d body); try done. apply talks_map_err, talks_read. lia.
Qed.

Lemma leads_startup_packet {T} d body i o (k : bytes -> IO Conn ProxyError T) Q :
  fits sz body -> body <> [] -> Z.of_nat (length body) + 4 <= max_startup_bytes (co_config d) ->
  leads sz d (k body) i o Q -> leads sz d (with_startup_packet k) (packet body ++ i) o Q.
Proof.
  intros Hb Hne Hlim Hk. unfold packet. rewrite <- app_assoc.
  apply (leads_bind sz d _ _ [] o _ _ (fun n e => n = Z.of_nat (length body) /\ e = d)).
  { eapply leads_talks; [apply talks_length; destruct Hb; lia|done]. }
  intros ? ? [-> ->]. apply leads_get. intros s (p & y & ->).
  change (co_config (set_sess_pool p (set_sess_stream y d))) with (co_config d).
  rewrite (proj2 (Z.ltb_ge _ _)) by lia. by apply leads_message_body.
Qed.

Lemma talks_write_message d tag body :
  talks sz d (write_message tag body) [] [message tag body] tt d.
Proof. apply talks_map_err, talks_write. Qed.

(** ** SASL *)

Definition auth_message (code : Z) (data : bytes) : bytes :=
  message MSG_AUTH (u32_to_be (as_u32 code) ++ data).

Lemma talks_sasl_response {T} d d' body i o x (k : bytes -> IO Conn AuthFailure T) :
  fits sz body -> (4 <= length body)%nat -> talks sz d (k body) i o x d' ->
  talks sz d (with_sasl_response k) (frame x70 body ++ i) o x d'.
Proof.
  intros Hb H4 Hk. change (frame x70 body ++ i) with ([x70] ++ (packet body ++ i)).
  eapply talks_hears; [by apply talks_map_err, talks_read|].
  rewrite bool_decide_eq_true_2 by done. cbn [negb]. unfold packet. rewrite <- app_assoc.
  eapply talks_hears; [apply talks_map_err, talks_length; destruct Hb; lia|].
  rewrite (proj2 (Z.ltb_ge _ _)) by lia.
  apply talks_leads, leads_message_body; [done| |by eapply leads_talks].
  intros ->. simpl in H4. lia.
Qed.

(** The body of the client's first SASL message. *)
Definition initial_response (mechanism first : bytes) : bytes :=
  put_cstr [] mechanism ++ u32_to_be (Z.of_nat (length first)) ++ first.

Lemma talks_initial d mechanics mechanism first :
  mechanism ∈ mechanics -> x00 ∉ mechanism -> is_utf8 mechanism = true -> is_utf8 first = true ->
  fits sz (initial_response mechanism first) ->
  talks sz d (read_sasl_initial_response mechanics) (frame x70 (initial_response mechanism first))
    [] (mechanism, first) d.
Proof.
  intros Hin H0 Hm Hf Hb. set (body := initial_response mechanism first).
  assert (Hlen : Z.of_nat (length body) < 2 ^ 31) by (destruct Hb as [_ Hb]; unfold body; lia).
  assert (H1 : body = [] ++ put_cstr [] mechanism ++ u32_to_be (Z.of_nat (length first)) ++ first)
    by done.
  assert (H3 : body = put_cstr [] mechanism ++ u32_to_be (Z.of_nat (length first)) ++ first) by done.
  assert (H2 : body = (put_cstr [] mechanism ++ u32_to_be (Z.of_nat (length first))) ++ first ++ [])
    by (rewrite H1, app_nil_r; simpl; by rewrite <- app_assoc).
  rewrite <- (app_nil_r (frame _ _)). apply talks_sasl_response; [done| |].
  { unfold body, initial_response. rewrite !length_app. simpl. lia. }
  unfold reader_new. eapply talks_then.
  { apply talks_local. unfold io_map_err. rewrite H1 at 1.
    rewrite (read_string_put_cstr [] mechanism) by done. reflexivity. }
  cbn beta iota. rewrite bool_decide_eq_true_2 by done. cbn [negb]. rewrite <- H1.
  replace (length (@nil byte) + length mechanism + 1)%nat with (length (put_cstr [] mechanism))
    by (unfold put_cstr; rewrite !length_app; simpl; lia).
  eapply talks_then.
  { apply talks_local. unfold io_map_err. rewrite H3 at 1.
    rewrite (read_u32_to_be (put_cstr [] mechanism)) by (rewrite <- H3; lia). reflexivity. }
  cbn beta iota. rewrite <- H3.
  assert (Hfl : 0 <= Z.of_nat (length first) < 2 ^ 31)
    by (rewrite H3, !length_app in Hlen; lia).
  rewrite as_i32_as_u32 by (unfold is_i32; lia).
  rewrite (proj2 (Z.ltb_ge _ _)) by lia.
  replace (length (put_cstr [] mechanism) + 4)%nat
    with (length (put_cstr [] mechanism ++ u32_to_be (Z.of_nat (length first))))
    by (by rewrite length_app).
  eapply talks_then.
  { apply talks_local. unfold io_map_err. rewrite H2 at 1.
    rewrite read_string_fixed_app by (done || by rewrite <- H2). reflexivity. }
  apply talks_ret.
Qed.

Lemma talks_lookup d driver dr user found s1 :
  driver = Some dr -> store_lookup dr user (co_provider d) = (Ready (Ok found), s1) ->
  talks sz d (provider_lookup driver user) [] [] found (set_provider s1 d).
Proof.
  intros -> Hl. apply (talks_eq sz _ _ _ _ _ _ (io_modify (set_provider s1);; mret found)).
  { intros s (p & x & ->). unfold provider_lookup.
    change (co_provider (set_sess_pool p (set_sess_stream x d))) with (co_provider d).
    by rewrite Hl. }
  eapply talks_then; [|apply talks_ret]. apply (talks_modify sz d (set_provider s1)); [|done..].
  other_field.
Qed.

Lemma non_empty_user (user : bytes) : user <> [] -> Some user ≫= non_empty = Some user.
Proof. intros Hu. cbn. unfold non_empty. by rewrite bool_decide_eq_false_2. Qed.

Lemma talks_auth_message d code data :
  talks sz d (send_auth_message code data) [] [auth_message code data] tt d.
Proof. apply talks_write_message. Qed.

(** A client of the proxy: its SCRAM state, the name it has for the mechanism it
    chose, and the key of its credentials, which open the verifier [v] that the
    store has for the user. *)
Record client_login (d : Conn) (user : bytes) (v : Verifier) (store : CredentialStore)
    (c : ScramClient) (mechanism random key : bytes) : Prop := {
  cl_named : user <> [];
  cl_known : exists dr, ce_lookup1 env = Some dr /\
    store_lookup dr user (co_provider d) = (Ready (Ok (Some v)), store);
  cl_real : v_dummy v = false;
  cl_u32 : is_u32 (v_iterations v);
  cl_nonce : sc_client_nonce c = b64_url_encode random;
  cl_random : random <> [];
  cl_key : credentials_match c v key;
  cl_binding : binding_match c (session_cert_hash d) mechanism;
  cl_fits : fits sz (initial_response mechanism (client_first_message c)) /\
    fits sz (client_final_of c v (ce_nonce env) key) }.

(** What the client sends and what it is sent. *)
Definition client_input (c : ScramClient) (mechanism : bytes) (v : Verifier) (key : bytes) : bytes :=
  frame x70 (initial_response mechanism (client_first_message c))
  ++ frame x70 (client_final_of c v (ce_nonce env) key).

Definition sasl_output (h : option CertHash) (c : ScramClient) (v : Verifier) : list bytes :=
  [auth_message AUTH_SASL (fold_left put_cstr (mechanisms (authenticator_new v h)) [] ++ [x00]);
   auth_message AUTH_SASL_CONTINUE (server_first_of c v (ce_nonce env));
   auth_message AUTH_SASL_FINAL (#"v=" ++ b64_encode (hmac_sha256 (v_server_key v)
     (auth_message_of c v (ce_nonce env))));
   auth_message AUTH_SASL_OK []].

Lemma mechanism_named c v h mechanism :
  binding_match c h mechanism ->
  mechanism ∈ mechanisms (authenticator_new v h) /\ x00 ∉ mechanism /\ is_utf8 mechanism = true.
Proof.
  unfold binding_match, mechanisms.
  assert (H : x00 ∉ SCRAM_SHA_256 /\ x00 ∉ PLUS)
    by (split; apply (bool_decide_unpack _); vm_compute; exact I).
  destruct (sc_mechanism c); [intros [-> _]|intros (-> & ch & -> & _)].
  - split; [destruct (is_some _); set_solver|]. split; [apply H|reflexivity].
  - split; [set_solver|]. split; [apply H|reflexivity].
Qed.

Lemma client_first_text c random :
  sc_client_nonce c = b64_url_encode random -> is_utf8 (client_first_message c) = true.
Proof.
  intros Hn. unfold client_first_message. rewrite Hn. apply ascii_is_utf8.
  destruct (sc_mechanism c); solve_ascii.
Qed.

Lemma client_final_text c v nonce key random :
  sc_client_nonce c = b64_url_encode random -> is_utf8 (client_final_of c v nonce key) = true.
Proof.
  intros Hn. unfold client_final_of, without_proof_of. rewrite Hn. apply ascii_is_utf8. solve_ascii.
Qed.

(** The exchange, from the proxy's offer to its last message. *)
Lemma talks_scram d user v store c mechanism random key :
  co_user d = Some user -> client_login d user v store c mechanism random key ->
  talks sz d (handle_scram_auth env) (client_input c mechanism v key)
    (sasl_output (session_cert_hash d) c v) (Some key) (set_provider store d).
Proof.
  intros Hu [Hne (dr & Hdr & Hl) Hreal Hi Hn Hr Hk Hb [Hf1 Hf2]].
  assert (Hcomma : chr_comma ∉ sc_client_nonce c) by (rewrite Hn; by apply not_in_b64_url).
  assert (Hnonce : sc_client_nonce c <> []) by (rewrite Hn; by apply b64_url_nonempty).
  destruct (mechanism_named c v (session_cert_hash d) mechanism Hb) as (Hin & H0 & Hmu).
  destruct (first_accepted c v (session_cert_hash d) (ce_nonce env) mechanism user Hb Hne Hcomma Hnonce)
    as (gs2 & a1 & Hfirst & Ha & Hcb).
  unfold handle_scram_auth. apply talks_get. intros s (p & x & ->).
  change (co_user (set_sess_pool p (set_sess_stream x d))) with (co_user d).
  rewrite Hu, non_empty_user by done.
  eapply talks_then; [apply talks_lift|].
  eapply talks_then; [by eapply talks_map_err, talks_lookup|].
  apply talks_get. intros s (p' & x' & ->). cbn beta iota zeta.
  change (session_cert_hash _) with (session_cert_hash d).
  eapply talks_says; [apply talks_map_err, talks_map_err, talks_auth_message|].
  eapply talks_hears; [apply talks_initial; try done; by eapply client_first_text|].
  cbn beta iota. eapply talks_then.
  { apply talks_local. unfold io_map_err. rewrite Hfirst. reflexivity. }
  cbn beta iota. eapply talks_says; [apply talks_map_err, talks_auth_message|].
  eapply talks_hears_last.
  { rewrite <- (app_nil_r (frame _ _)). apply talks_sasl_response; [done| |].
    - unfold client_final_of, without_proof_of. rewrite !length_app. simpl. lia.
    - rewrite from_utf8_valid by (by eapply client_final_text). apply talks_lift. }
  eapply talks_then.
  { apply talks_local. unfold io_map_err.
    rewrite (final_accepted a1 c v key) by (done || by rewrite Ha). reflexivity. }
  cbn beta iota. eapply talks_says; [apply talks_map_err, talks_auth_message|].
  eapply talks_says; [apply talks_map_err, talks_auth_message|]. apply talks_ret.
Qed.

Lemma talks_authentication d user v store c mechanism random key :
  co_user d = Some user -> client_login d user v store c mechanism random key ->
  talks sz d (handle_authentication env) (client_input c mechanism v key)
    (sasl_output (session_cert_hash d) c v) (Some key) (set_provider store d).
Proof.
  intros Hu Hc. rewrite <- (app_nil_r (client_input _ _ _ _)), <- (app_nil_r (sasl_output _ _ _)).
  eapply talks_bind; [by eapply talks_try, talks_scram|apply talks_ret].
Qed.

(** ** The startup message *)

(** A StartupMessage of these parameters, in this order. *)
Definition startup_request (kvs : list (bytes * bytes)) : bytes :=
  u32_to_be PROTOCOL_VERSION_NUMBER ++ put_params kvs ++ [x00].

(** The session settings it stands for: a later parameter replaces an earlier one,
    and [options] is parsed and merged. *)
Record startup_case (kvs : list (bytes * bytes)) (params : gmap bytes bytes) (user : bytes)
    (mode : ReplicationMode) : Prop := {
  su_params : Forall param_ok kvs;
  su_merged :
    let sent := foldl (fun m kv => <[kv.1 := kv.2]> m) ∅ kvs in
    match sent !! #"options" with
    | Some value => exists parsed, parse_options value = Ok parsed /\ params = merge_options parsed sent
    | None => params = sent
    end;
  su_user : params !! #"user" = Some user;
  su_named : user <> [];
  su_mode :
    match params !! #"replication" with
    | Some value => parse_replication_mode value = Ok mode
    | None => mode = Off
    end }.

(** The session after its parameters are read. *)
Definition started (params : gmap bytes bytes) (user : bytes) (mode : ReplicationMode) (d : Conn)
    : Conn :=
  set_replication_mode mode
    (set_database (Some (default user (params !! #"database" ≫= non_empty)))
       (set_user (Some user) (set_params params d))).

Lemma put_params_length kvs : (length kvs <= length (put_params kvs))%nat.
Proof.
  unfold put_params. induction kvs as [|kv kvs IH]; [done|]. cbn [map concat length].
  rewrite length_app. unfold put_param at 1, put_cstr. rewrite !length_app. simpl length. lia.
Qed.

Lemma talks_params d kvs params user mode :
  startup_case kvs params user mode -> co_params d = ∅ -> co_replication_mode d = Off ->
  Z.of_nat (length (startup_request kvs)) < 2 ^ 31 ->
  talks sz d (read_startup_params (mkReader (startup_request kvs) 4)) [] [] tt
    (started params user mode d).
Proof.
  intros [Hok Hm Hu Hne Hmode] Hp0 Hr0 Hlen. cbn zeta in Hm.
  set (sent := foldl (fun m kv => <[kv.1 := kv.2]> m) ∅ kvs) in Hm.
  set (body := startup_request kvs).
  assert (Hread : talks sz d (read_params (S (length (mr_buf (mkReader body 4)))) (mkReader body 4))
    [] [] (true, mkReader body (length body)) (set_params sent d)).
  { apply (talks_eq sz _ _ _ _ _ _ (io_modify (set_params sent);; mret (true, mkReader body (length body)))).
    - intros s (p & x & ->). cbn [mr_buf].
      rewrite (read_params_put kvs (u32_to_be PROTOCOL_VERSION_NUMBER)); try done.
      + change (co_params (set_sess_pool p (set_sess_stream x d))) with (co_params d). by rewrite Hp0.
      + unfold body, startup_request. rewrite !length_app. pose proof (put_params_length kvs). lia.
      + fold (startup_request kvs). lia.
    - eapply talks_then; [|apply talks_ret]. apply (talks_modify sz d (set_params sent)); [|done..].
      other_field. }
  unfold read_startup_params. eapply talks_then; [exact Hread|]. cbn beta iota.
  rewrite remaining_ok by (split; cbn [mr_buf mr_pos]; fold body in Hlen; lia). cbn [mr_buf mr_pos].
  rewrite Nat.sub_diag. cbn [negb orb Z.of_nat Z.eqb].
  apply talks_get. intros s (p & x & ->).
  change (co_params (set_sess_pool p (set_sess_stream x _))) with sent.
  eapply (talks_then sz _ (set_params params d) _ _ _ tt).
  { destruct (sent !! #"options") as [value|].
    - destruct Hm as (parsed & Hparse & ->). rewrite Hparse. eapply talks_then; [apply talks_lift|].
      apply (talks_modify sz (set_params sent d)
        (fun c => set_params (merge_options parsed (co_params c)) c)); [|done..].
      other_field.
    - rewrite Hm. apply talks_ret. }
  apply talks_get. clear p x. intros s (p & x & ->).
  change (co_params (set_sess_pool p (set_sess_stream x _))) with params.
  rewrite Hu, non_empty_user by done. eapply talks_then; [apply talks_lift|].
  eapply talks_then; [apply (talks_modify sz _ (set_user (Some user))); [other_field|done..]|].
  eapply talks_then.
  { apply (talks_modify sz _
      (set_database (Some (default user (params !! #"database" ≫= non_empty))))); [other_field|done..]. }
  destruct (params !! #"replication") as [value|].
  - rewrite Hmode. eapply talks_then; [apply talks_lift|].
    apply (talks_modify sz _ (set_replication_mode mode)); [other_field|done..].
  - subst mode. unfold started. destruct d. cbn in Hr0. subst. apply talks_ret.
Qed.

(** ** The session *)

(** The key [register_session] finds. *)
Fixpoint free_key (r : Inner) (i tries : nat) : option SessionKeySecret :=
  match tries with
  | O => None
  | S tries =>
      let candidate := session_key_secret_new (ce_draws env i) in
      match lookup_by_key candidate r with
      | Some _ => free_key r (S i) tries
      | None => Some candidate
      end
  end.

Lemma free_key_free r i tries k : free_key r i tries = Some k -> lookup_by_key k r = None.
Proof.
  revert i. induction tries as [|tries IH]; intros i; cbn [free_key]; [done|].
  destruct (lookup_by_key (session_key_secret_new (ce_draws env i)) r) eqn:Hl; [apply IH|].
  by intros [= <-].
Qed.

(** The registry with a session. *)
Definition registered (b : Backend) (id : Z) (k : SessionKeySecret) (r : Inner) : Inner :=
  mkInner (<[id := b]> (in_conn_backend r)) (<[k := b]> (in_key_secret_backend r)).

Lemma talks_register d b k i tries :
  free_key (co_backend_registry d) i tries = Some k ->
  talks sz d (register_session env b i tries) [] [] (k, mkGuard (co_conn_id d) k)
    (set_backend_registry (registered b (co_conn_id d) k (co_backend_registry d)) d).
Proof.
  revert i. induction tries as [|tries IH]; intros i; cbn [free_key]; [done|].
  intros Hk. cbn [register_session]. apply talks_get. intros s (p & x & ->).
  change (co_backend_registry (set_sess_pool p (set_sess_stream x d))) with (co_backend_registry d).
  change (co_conn_id (set_sess_pool p (set_sess_stream x d))) with (co_conn_id d).
  cbn zeta. unfold register. unfold lookup_by_key in Hk.
  destruct (in_key_secret_backend (co_backend_registry d) !! _).
  - eapply (talks_then sz d d); [|by apply IH].
    apply (talks_eq sz _ _ _ _ _ _ (mret tt)); [|apply talks_ret].
    intros s (p' & x' & ->). by destruct d.
  - injection Hk as <-. eapply talks_then; [|apply talks_ret].
    apply (talks_modify sz d (set_backend_registry _)); [other_field|done..].
Qed.

Lemma talks_notifications d ns :
  talks sz d (send_notifications ns) [] (map notification_message ns) tt d.
Proof.
  induction ns as [|n ns IH]; [apply talks_ret|]. cbn [send_notifications map].
  eapply talks_says; [|exact IH]. destruct n; apply talks_map_err, talks_write_message.
Qed.

(** The end of [start_session], for a backend and a registration. *)
Lemma talks_session_messages d k b g :
  talks sz (set_session k b g d)
    (send_startup_notifications;; send_key_secret;; send_ready_signal;; mret SessionReady)
    [] (map notification_message (ba_startup_notifications b) ++ [key_message k; ready_message b])
    SessionReady (set_session k b g d).
Proof.
  eapply (talks_bind sz _ _ _ [] []).
  { apply talks_get. intros s (p & x & ->). eapply talks_then; [apply talks_lift|].
    apply talks_notifications. }
  eapply talks_says.
  { apply talks_get. intros s (p & x & ->). eapply talks_then; [apply talks_lift|].
    apply talks_map_err, talks_write_message. }
  eapply talks_says; [|apply talks_ret].
  apply talks_get. intros s (p & x & ->). apply talks_map_err, talks_write_message.
Qed.

(** What the session finds behind the proxy: the user's verifier at the second
    lookup, a backend willing to be logged in to, and a free cancel key. *)
Record backend_case (d : Conn) (user key : bytes) (v : Verifier) (store : CredentialStore)
    (be : BackendEnv) (config : PgConfig) (k : SessionKeySecret)
    (x : Stream) (h : option CertHash) (y : Stream) (mechs : bytes) (chosen : SaslMechanism)
    (vb : Verifier) (nonce : bytes) (ms : list BackendMessage) (status : byte) (rest : bytes)
    : Prop := {
  bc_known : exists dr, ce_lookup2 env = Some dr /\
    store_lookup dr user (co_provider d) = (Ready (Ok (Some v)), store);
  bc_env : ce_backend env = Some be;
  bc_config : exists database host port, co_database d = Some database /\
    backend_host_port (co_config d) = Ok (host, port) /\
    config = session_pg_config env d key v user database host port;
  bc_free : free_key (co_backend_registry d) 0 64 = Some k;
  bc_willing : willing_backend be config sz x h y mechs chosen vb nonce key ms status rest }.

(** The verifier of the store and that of the backend are of the same secret. *)
Definition same_secret (v vb : Verifier) : Prop :=
  v_salt vb = v_salt v /\ v_iterations vb = v_iterations v /\
  v_stored_key vb = v_stored_key v /\ v_server_key vb = v_server_key v.

(** A password kept with the verifier is the one the key was derived from. *)
Definition passes_on (v : Verifier) (key : bytes) : Prop :=
  match v_password v with
  | Some pw =>
      key = hmac_sha256 (pbkdf2_sha256 pw (v_salt v) (v_iterations v)) #"Client Key" /\
      v_server_key v = hmac_sha256 (pbkdf2_sha256 pw (v_salt v) (v_iterations v)) #"Server Key"
  | None => True
  end.

(** The key captured from the client opens the backend. *)
Lemma captured_key_opens c v vb key be d user database host port h chosen :
  credentials_match c v key -> passes_on v key -> same_secret v vb ->
  credentials_match
    (scram_of be (session_pg_config env d key v user database host port) h chosen) vb key.
Proof.
  unfold same_secret, passes_on. intros (Hlen & Hst & _) Hpw (Hs & Hi & Hk & Hsk).
  split; [done|]. split; [congruence|]. rewrite Hs, Hi, Hk, Hsk.
  destruct chosen, h; cbn; destruct (v_password v); auto.
Qed.

Lemma leads_link d be config x h y mechs chosen vb nonce bkey ms status rest :
  ce_backend env = Some be ->
  willing_backend be config sz x h y mechs chosen vb nonce bkey ms status rest ->
  credentials_match (scram_of be config h chosen) vb bkey ->
  leads sz d (link_backend env config) [] [] (fun b d' => d' = d /\
    exists c', b = backend_of c' /\ logged_in be config c' h y chosen vb nonce bkey ms status rest).
Proof.
  intros He Hw Hk s rest' Hf (Hp & Hz & Hr) Hin. unfold link_backend. rewrite He.
  rewrite <- Hz in Hw.
  destruct (backend_connects be config (sess_pool s) x h y mechs chosen vb nonce bkey ms status rest)
    as (c' & Hc & Hlog & Hp' & Hz'); [done..|].
  exists (set_sess_pool (cl_pool c') s), (backend_of c'), d.
  unfold io_map_err, backend_new. rewrite Hc. split; [done|].
  split; [etrans; [exact Hf|apply io_frame_pool]|]. unfold live.
  rewrite pool_set_pool, stream_set_pool, app_nil_r. split; [split; [done|split; [congruence|done]]|].
  split; [done|]. split; [done|]. split; [done|]. by exists c'.
Qed.

Lemma logged_in_notifications be config c' h y chosen vb nonce bkey ms status rest :
  logged_in be config c' h y chosen vb nonce bkey ms status rest ->
  map notification_message (ba_startup_notifications (backend_of c')) =
    map bm_frame (filter (fun m => is_Some (bm_notification m)) ms) /\
  ready_message (backend_of c') = frame x5a [status].
Proof.
  intros H. unfold backend_of. cbn. rewrite (li_notifications _ _ _ _ _ _ _ _ _ _ _ _ H).
  split; [apply forwarded_frames|]. unfold ready_message. cbn.
  by rewrite (li_status _ _ _ _ _ _ _ _ _ _ _ _ H).
Qed.

(** What the client reads at the end of a successful startup. *)
Definition startup_output (ms : list BackendMessage) (k : SessionKeySecret) (status : byte)
    : list bytes :=
  map bm_frame (filter (fun m => is_Some (bm_notification m)) ms)
  ++ [key_message k; frame x5a [status]].

Lemma leads_start d c user key v store be config k x h y mechs chosen vb nonce ms status rest :
  co_user d = Some user ->
  backend_case d user key v store be config k x h y mechs chosen vb nonce ms status rest ->
  credentials_match c v key -> passes_on v key -> same_secret v vb ->
  leads sz d (start_session env key) [] (startup_output ms k status) (fun r d' =>
    r = SessionReady /\ exists c', let b := backend_of c' in
      logged_in be config c' h y chosen vb nonce key ms status rest /\
      d' = set_session k b (mkGuard (co_conn_id d) k)
             (set_backend_registry (registered b (co_conn_id d) k (co_backend_registry d))
                (set_provider store d))).
Proof.
  intros Hu [(dr & Hdr & Hl) He (database & host & port & Hdb & Hhp & ->) Hfree Hw] Hk Hp Hsame.
  pose proof (captured_key_opens c v vb key be d user database host port h chosen Hk Hp Hsame) as Hbk.
  unfold start_session. apply leads_get. intros s (p & z & ->).
  change (co_user (set_sess_pool p (set_sess_stream z d))) with (co_user d).
  change (co_database (set_sess_pool p (set_sess_stream z d))) with (co_database d).
  rewrite Hu, Hdb. do 2 (eapply leads_then; [apply talks_lift|]).
  eapply leads_then; [by eapply talks_map_err, talks_lookup|].
  eapply leads_then; [apply talks_lift|].
  change (co_config (set_sess_pool p (set_sess_stream z d))) with (co_config d).
  rewrite Hhp. eapply leads_then; [apply talks_lift|]. cbn beta iota.
  eapply (leads_bind sz _ [] [] []); [by eapply leads_link|].
  intros b d1 (-> & c' & -> & Hlog).
  eapply leads_then; [by apply talks_register|]. cbn beta iota.
  eapply leads_then; [apply (talks_modify sz _ (set_session k (backend_of c') _)); [other_field|done..]|].
  destruct (logged_in_notifications _ _ _ _ _ _ _ _ _ _ _ _ Hlog) as [Hn Hr].
  unfold startup_output. rewrite <- Hn, <- Hr.
  eapply leads_talks; [apply talks_session_messages|]. split; [done|]. by exists c'.
Qed.

(** ** From the startup packet to the ready signal *)

(** A session that has not read a startup message yet, and may. *)
Record unstarted (c : Conn) (kvs : list (bytes * bytes)) : Prop := {
  un_params : co_params c = ∅;
  un_mode : co_replication_mode c = Off;
  un_tls : co_required_tls c && negb (co_ssl_done c) = false;
  un_fits : fits sz (startup_request kvs);
  un_limit : Z.of_nat (length (startup_request kvs)) + 4 <= max_startup_bytes (co_config c) }.

Lemma read_startup_code kvs :
  fits sz (startup_request kvs) ->
  read_u32 (mkReader (startup_request kvs) 0) =
  (Ready (Ok PROTOCOL_VERSION_NUMBER), mkReader (startup_request kvs) 4).
Proof.
  intros [_ Hfit]. unfold startup_request in *.
  apply (read_u32_to_be [] PROTOCOL_VERSION_NUMBER (put_params kvs ++ [x00])).
  change ([] ++ u32_to_be PROTOCOL_VERSION_NUMBER ++ put_params kvs ++ [x00])
    with (u32_to_be PROTOCOL_VERSION_NUMBER ++ put_params kvs ++ [x00]). lia.
Qed.

Lemma leads_startup d kvs params user mode v store1 store2 c mechanism random key be config k
    x h y mechs chosen vb nonce ms status rest :
  unstarted d kvs -> startup_case kvs params user mode ->
  let d1 := started params user mode d in
  client_login d1 user v store1 c mechanism random key ->
  backend_case (set_provider store1 d1) user key v store2 be config k x h y mechs chosen vb nonce ms
    status rest ->
  passes_on v key -> same_secret v vb ->
  leads sz d (handle_startup env)
    (packet (startup_request kvs) ++ client_input c mechanism v key)
    (sasl_output (session_cert_hash d) c v ++ startup_output ms k status) (fun r d' =>
    r = SessionReady /\ exists c', let b := backend_of c' in
      logged_in be config c' h y chosen vb nonce key ms status rest /\
      d' = set_session k b (mkGuard (co_conn_id d) k)
             (set_backend_registry (registered b (co_conn_id d) k (co_backend_registry d))
                (set_provider store2
                   (started params user mode
                      (set_protocol_version (Some PROTOCOL_VERSION_NUMBER) d))))).
Proof.
  intros [Hp0 Hm0 Htls Hfit Hlim] Hs d1 Hc [Hk1 Hk2 Hk3 Hk4 Hk5] Hpw Hsame.
  set (d2 := set_protocol_version (Some PROTOCOL_VERSION_NUMBER) d).
  assert (Hc2 : client_login (started params user mode d2) user v store1 c mechanism random key)
    by (destruct Hc; split; assumption).
  assert (Hb2 : backend_case (set_provider store1 (started params user mode d2)) user key v store2
    be config k x h y mechs chosen vb nonce ms status rest) by (split; assumption).
  pose proof (cl_key _ _ _ _ _ _ _ _ Hc) as Hkey. clear Hc Hk1 Hk2 Hk3 Hk4 Hk5.
  unfold handle_startup. apply leads_startup_packet; [done|done|done|].
  unfold dispatch, reader_new. eapply leads_then.
  { apply talks_local. by apply read_startup_code. }
  cbn beta iota.
  apply leads_get. intros s (p & z & ->).
  change (co_required_tls _ && _) with (co_required_tls d && negb (co_ssl_done d)). rewrite Htls.
  unfold handle_startup_packet.
  eapply leads_then; [apply (talks_modify sz d (set_protocol_version _)); [other_field|done..]|].
  eapply leads_then; [apply talks_params; try done; destruct Hfit; lia|].
  rewrite <- (app_nil_r (client_input _ _ _ _)).
  change (session_cert_hash d) with (session_cert_hash (started params user mode d2)).
  apply (leads_bind sz _ _ _ _ _ _ _
    (fun r e => r = Some key /\ e = set_provider store1 (started params user mode d2))).
  { eapply leads_talks; [by apply (talks_authentication _ user v store1 c mechanism random key)|done]. }
  intros ? ? [-> ->].
  exact (leads_start (set_provider store1 (started params user mode d2)) c user key v store2 be config
    k x h y mechs chosen vb nonce ms status rest eq_refl Hb2 Hkey Hpw Hsame).
Qed.

End login.

(** ** The whole session *)

Section session.
Context {P : Primitives} {HP : PrimitivesOk P} {A : Alloc} {AOk : AllocOk A}.
Variable env : ConnEnv.

(** The state in which an admitted session reads its startup message: at once, or
    after one request for encryption. *)
Definition opens (c c1 : Conn) : Prop :=
  let admitted := set_conn_registry (try_acquire (co_conn_registry c)).2 c in
  c1 = admitted \/ handle_startup env admitted = (Ready (Ok Continued), c1).

Lemma handle_ready c c1 c2 :
  (try_acquire (co_conn_registry c)).1 = true -> opens c c1 ->
  handle_startup env c1 = (Ready (Ok SessionReady), c2) ->
  handle env c = (Ready (Ok tt), set_conn_registry (permit_drop (co_conn_registry c2)) c2).
Proof.
  unfold opens, handle. destruct (try_acquire (co_conn_registry c)) as [[] r]; [|done].
  intros _ Hopen Heq. cbn [snd] in Hopen. unfold startup_with_deadline, drive_startup_until_ready.
  change 3%nat with (S (S 1)). cbn [drive]. unfold mbind, io_bind, io_try.
  destruct Hopen as [<-|Hcont]; [by rewrite Heq|by rewrite Hcont, Heq].
Qed.

(** C2: The right password reaches the backend: a client that is admitted, sends a
    well-formed startup message and runs SCRAM with credentials that open the
    verifier of the store, bound as the session requires, gets a session
    whenever the backend holds the same secret, can be reached under the
    configured TLS and channel binding modes, and one of the 64 cancel keys
    drawn is free.  The client reads exactly the mechanisms, the two SCRAM
    answers, the success, the startup messages of the backend, its cancel key
    and the backend's transaction status; the backend read exactly the startup
    packet and a login made with the key captured from the client; and the
    cancel key leads to that backend. *)
Theorem right_password_reaches_the_backend c c1 kvs params user mode v store1 store2 client
    mechanism random key be config k x h y mechs chosen vb nonce ms status rest rest' :
  (try_acquire (co_conn_registry c)).1 = true -> opens c c1 ->
  pool_ok (co_pool c1) -> st_room (co_stream c1) = None ->
  unstarted (sizes (co_pool c1)) c1 kvs -> startup_case kvs params user mode ->
  let d1 := started params user mode c1 in
  client_login env (sizes (co_pool c1)) d1 user v store1 client mechanism random key ->
  backend_case env (sizes (co_pool c1)) (set_provider store1 d1) user key v store2 be config k x h y
    mechs chosen vb nonce ms status rest ->
  passes_on v key -> same_secret v vb ->
  st_in (co_stream c1) =
    packet (startup_request kvs) ++ client_input env client mechanism v key ++ rest' ->
  exists c' b,
    handle env c = (Ready (Ok tt), c') /\
    st_out (co_stream c') = st_out (co_stream c1)
      ++ sasl_output env (session_cert_hash c1) client v ++ startup_output ms k status /\
    st_in (co_stream c') = rest' /\ co_user c' = Some user /\ co_backend c' = Some b /\
    lookup_by_key k (co_backend_registry c1) = None /\
    lookup_by_key k (co_backend_registry c') = Some b /\
    (exists cl, b = backend_of cl /\ logged_in be config cl h y chosen vb nonce key ms status rest) /\
    pool_ok (co_pool c') /\ sizes (co_pool c') = sizes (co_pool c1).
Proof.
  intros Hadm Hopen Hp Hr Hun Hst d1 Hc Hb Hpw Hsame Hin.
  destruct (leads_startup env (sizes (co_pool c1)) c1 kvs params user mode v store1 store2 client
    mechanism random key be config k x h y mechs chosen vb nonce ms status rest Hun Hst Hc Hb Hpw Hsame
    c1 rest') as (c2 & r & d' & Heq & (p & z & ->) & (Hp2 & Hz2 & _) & Hi & Ho & -> & cl & Hlog & ->);
    [reflexivity|done|by rewrite <- app_assoc|].
  eexists _, (backend_of cl). split; [by eapply handle_ready|].
  split; [exact Ho|]. split; [exact Hi|]. split; [reflexivity|]. split; [reflexivity|].
  split; [by eapply free_key_free, Hb|]. split; [apply lookup_insert_eq|].
  split; [by exists cl|]. split; [exact Hp2|exact Hz2].
Qed.

End session.
