(* ===== verification/ConnTwins.v ===== *)
(** Two sessions side by side that differ only in their credential stores.

    [beside V m1 m2 c d] compares [m1] on the session [c] with [m2] on [d]: unless
    one of the clients has been told that its login was accepted, the two end
    alike, with values related by [V], and leave sessions that still differ only
    in their stores.  [blind m] is a computation that does not look at the
    store. *)
From S2P Require Import Prelude Words RustStr Errors BufferPool Packet StartupOptions Crypto.
From S2P Require Import Tls Verifier ScramServer LookupCache CredentialFile AuthQuery.
From S2P Require Import CredentialStore Config BackendPolicy Transport PgClient Backend.
From S2P Require Import Registry ConnState ConnAuth Conn ConnSafety ConnDriver ConnReady.
Local Open Scope Z_scope.

(** The message with the server's signature, which answers an accepted login. *)
Definition accepts_login (w : bytes) : Prop :=
  exists data, w = message MSG_AUTH (u32_to_be (as_u32 AUTH_SASL_FINAL) ++ data).

Definition told (c : Conn) : Prop := Exists accepts_login (st_out (co_stream c)).

Lemma accepts_login_code w : accepts_login w -> take 4 (drop 5 w) = u32_to_be AUTH_SASL_FINAL.
Proof. intros [data ->]. by rewrite u32_to_be_as_u32. Qed.

Lemma not_told c :
  forallb (fun w => negb (bool_decide (take 4 (drop 5 w) = u32_to_be AUTH_SASL_FINAL)))
    (st_out (co_stream c)) = true -> ~ told c.
Proof.
  intros Hall Ht. unfold told in Ht. rewrite Exists_exists in Ht. destruct Ht as (w & Hw & Ha).
  rewrite forallb_forall in Hall. specialize (Hall w). rewrite <- list_elem_of_In in Hall.
  apply Hall in Hw. by rewrite (accepts_login_code w Ha), bool_decide_eq_true_2 in Hw.
Qed.

(** What was written stays written. *)
Definition told_later (c c' : Conn) : Prop := told c -> told c'.

#[export] Instance told_later_preorder : PreOrder told_later.
Proof. split; [intros c H; exact H|]. intros x y z Hxy Hyz Hx. by apply Hyz, Hxy. Qed.

(** Two ends of a computation that look the same from outside. *)
Definition agree {E T1 T2} (V : T1 -> T2 -> Prop) (r1 : poll (result E T1)) (r2 : poll (result E T2))
    : Prop :=
  match r1, r2 with
  | Ready (Ok x), Ready (Ok y) => V x y
  | Ready (Err e), Ready (Err f) => e = f
  | Pending, Pending => True
  | Crashed a, Crashed b => a = b
  | _, _ => False
  end.

Lemma agree_refl {E T} (r : poll (result E T)) : agree eq r r.
Proof. by destruct r as [[]| |]. Qed.

Lemma agree_eq {E T} (r1 r2 : poll (result E T)) : agree eq r1 r2 -> r1 = r2.
Proof. destruct r1 as [[]| |], r2 as [[]| |]; simpl; congruence || done. Qed.

Section twins.
Context {A : Alloc} (Q : CredentialStore -> CredentialStore -> Prop).

Definition twins (c d : Conn) : Prop :=
  d = set_provider (co_provider d) c /\ Q (co_provider c) (co_provider d).

Definition beside {E T1 T2} (V : T1 -> T2 -> Prop) (m1 : IO Conn E T1) (m2 : IO Conn E T2)
    (c d : Conn) : Prop :=
  told (m1 c).2 \/ told (m2 d).2 \/
  (agree V (m1 c).1 (m2 d).1 /\ twins (m1 c).2 (m2 d).2).

Definition keeps {E T} (m : IO Conn E T) : Prop := io_preserves told_later m.

Definition blind {E T} (m : IO Conn E T) : Prop :=
  keeps m /\ forall c d, twins c d -> beside eq m m c d.

(** ** Rules *)

Lemma beside_bind {E T1 T2 U1 U2} V W (m1 : IO Conn E T1) (m2 : IO Conn E T2)
    (k1 : T1 -> IO Conn E U1) (k2 : T2 -> IO Conn E U2) c d :
  beside V m1 m2 c d -> (forall x, keeps (k1 x)) -> (forall y, keeps (k2 y)) ->
  (forall x y c' d', V x y -> twins c' d' -> beside W (k1 x) (k2 y) c' d') ->
  beside W (m1 ≫= k1) (m2 ≫= k2) c d.
Proof.
  unfold beside, mbind, io_bind. intros Hm Hk1 Hk2 Hk.
  destruct (m1 c) as [r1 c1], (m2 d) as [r2 d1]. cbn [fst snd] in Hm.
  destruct Hm as [Ht|[Ht|[Ha Ht]]].
  - left. destruct r1 as [[x|e]| |cr]; try done. by apply (Hk1 x c1).
  - right; left. destruct r2 as [[x|e]| |cr]; try done. by apply (Hk2 x d1).
  - destruct r1 as [[x|e]| |cr], r2 as [[y|f]| |cr']; try done; simpl in Ha.
    + by apply Hk.
    + subst. by right; right.
    + by right; right.
    + by right; right.
Qed.

Lemma beside_get {E U1 U2} W (k1 : Conn -> IO Conn E U1) (k2 : Conn -> IO Conn E U2) c d :
  beside W (k1 c) (k2 d) c d -> beside W (io_get ≫= k1) (io_get ≫= k2) c d.
Proof. done. Qed.

Lemma beside_map_err {E E' T1 T2} V (f : E' -> E) (m1 : IO Conn E' T1) (m2 : IO Conn E' T2) c d :
  beside V m1 m2 c d -> beside V (io_map_err f m1) (io_map_err f m2) c d.
Proof.
  unfold beside, io_map_err. destruct (m1 c) as [[[x|e]| |] c1], (m2 d) as [[[y|e']| |] d1]; simpl;
    naive_solver.
Qed.

Lemma beside_try {E E' T1 T2} V (m1 : IO Conn E T1) (m2 : IO Conn E T2) c d :
  beside V m1 m2 c d ->
  beside (E := E') (fun r1 r2 => agree V (Ready r1) (Ready r2)) (io_try m1) (io_try m2) c d.
Proof.
  unfold beside, io_try. destruct (m1 c) as [[[x|e]| |] c1], (m2 d) as [[[y|e']| |] d1]; simpl;
    naive_solver.
Qed.

Lemma blind_beside {E T} (m : IO Conn E T) c d : blind m -> twins c d -> beside eq m m c d.
Proof. intros [_ H]. apply H. Qed.

(** The same result, and states changed alike. *)
Lemma beside_same {E T} (m : IO Conn E T) c d :
  (m d).1 = (m c).1 -> twins (m c).2 (m d).2 -> beside eq m m c d.
Proof. intros Hr Ht. right; right. rewrite Hr. split; [apply agree_refl|done]. Qed.

Lemma blind_same {E T} (m : IO Conn E T) : (forall c, (m c).2 = c) -> (forall c d, (m c).1 = (m d).1) ->
  blind m.
Proof.
  intros Hs Hr. split; [intros c; by rewrite Hs|]. intros c d Ht. apply beside_same; [done|].
  by rewrite !Hs.
Qed.

Lemma blind_ret {E T} (x : T) : blind (mret x : IO Conn E T).
Proof. by apply blind_same. Qed.

Lemma blind_lift {E T} (r : result E T) : blind (io_lift r : IO Conn E T).
Proof. by apply blind_same. Qed.

Lemma blind_fail {E T} (e : E) : blind (io_fail e : IO Conn E T).
Proof. by apply blind_same. Qed.

Lemma blind_pending {E T} : blind (io_pending : IO Conn E T).
Proof. by apply blind_same. Qed.

Lemma blind_local {L E T} (l : L) (m : IO L E T) : blind (io_local l m : IO Conn E (T * L)).
Proof.
  apply blind_same; intros c; unfold io_local; [|intros d]; by destruct (m l) as [[[|]| |] l'].
Qed.

Lemma blind_modify {E} (f : Conn -> Conn) :
  (forall c, told_later c (f c)) -> (forall c pr, f (set_provider pr c) = set_provider pr (f c)) ->
  (forall c, co_provider (f c) = co_provider c) -> blind (io_modify f : IO Conn E unit).
Proof.
  intros Ht Hf Hp. split; [intros c; apply Ht|]. intros c d [Hd Hq]. apply beside_same; [done|].
  unfold io_modify, twins. cbn [snd]. rewrite !Hp. split; [|done]. by rewrite <- Hf, <- Hd.
Qed.

Lemma blind_bind {E T U} (m : IO Conn E T) (k : T -> IO Conn E U) :
  blind m -> (forall x, blind (k x)) -> blind (m ≫= k).
Proof.
  intros [Hm1 Hm2] Hk. split; [apply preserves_bind; [exact _|done|]; intros x; apply Hk|].
  intros c d Ht. eapply beside_bind; [by apply Hm2|intros x; apply Hk..|].
  intros x ? c' d' <- Ht'. by apply (proj2 (Hk x)).
Qed.

(** A computation may look at everything but the store. *)
Lemma blind_get {E U} (k : Conn -> IO Conn E U) :
  (forall c pr, k (set_provider pr c) = k c) -> (forall c, blind (k c)) -> blind (io_get ≫= k).
Proof.
  intros Heq Hk. split.
  - apply preserves_bind; [exact _|apply preserves_get; exact _|]. intros c. apply Hk.
  - intros c d Ht. apply beside_get. pose proof Ht as [Hd _].
    assert (k d = k c) as -> by (rewrite Hd; apply Heq). by apply (proj2 (Hk c)).
Qed.

Lemma blind_map_err {E E' T} (f : E' -> E) (m : IO Conn E' T) : blind m -> blind (io_map_err f m).
Proof.
  intros [H1 H2]. split; [by apply preserves_map_err|]. intros c d Ht. by apply beside_map_err, H2.
Qed.

Lemma blind_try {E E' T} (m : IO Conn E T) : blind m -> blind (io_try m : IO Conn E' (result E T)).
Proof.
  intros [H1 H2]. split; [by apply preserves_try|]. intros c d Ht.
  destruct (beside_try (E' := E') eq m m c d (H2 c d Ht)) as [?|[?|[Ha ?]]]; [by left|by right; left|].
  right; right. split; [|done]. unfold io_try in *.
  destruct (m c) as [[[|]| |] c1], (m d) as [[[|]| |] d1]; simpl in *; congruence || done.
Qed.

Lemma twins_stream c d x : twins c d -> twins (set_stream x c) (set_stream x d).
Proof. intros [Hd Hq]. split; [|done]. by rewrite Hd. Qed.

Lemma twins_pool c d p : twins c d -> twins (set_pool p c) (set_pool p d).
Proof. intros [Hd Hq]. split; [|done]. by rewrite Hd. Qed.

Lemma twins_same c d :
  twins c d -> co_stream d = co_stream c /\ co_pool d = co_pool c.
Proof. intros [Hd _]. rewrite Hd. done. Qed.

Lemma blind_read n : blind (read_exact n : IO Conn IoError bytes).
Proof.
  split.
  - intros c. unfold read_exact, stream_read. destruct (_ <=? _)%nat; intros H; exact H.
  - intros c d Ht. destruct (twins_same c d Ht) as [Hx _]. unfold read_exact.
    apply beside_same; unfold read_exact; change (sess_stream ?s) with (co_stream s); rewrite Hx;
      destruct (stream_read n (co_stream c)); [done|]. by apply twins_stream.
Qed.

Lemma blind_write data : blind (write_flush data : IO Conn IoError unit).
Proof.
  split.
  - intros c. unfold write_flush, stream_write, told_later, told. cbn.
    destruct (st_room (co_stream c)) as [[|n]|]; cbn; rewrite ?Exists_app; auto.
  - intros c d Ht. destruct (twins_same c d Ht) as [Hx _].
    apply beside_same; unfold write_flush; change (sess_stream ?s) with (co_stream s); rewrite Hx;
      destruct (stream_write data (co_stream c)); [done|]. by apply twins_stream.
Qed.

Lemma blind_finally {E T} pb (m : IO Conn E T) : blind m -> blind (io_finally (drop_pooled pb) m).
Proof.
  intros [H1 H2]. split; [apply preserves_finally; [exact _|intros p s H; exact H|done]|]. intros c d Ht. specialize (H2 c d Ht).
  specialize (H1 c) as Hc. specialize (H1 d) as Hd. unfold beside, io_finally, drop_pooled in *.
  destruct (m c) as [r1 c1], (m d) as [r2 d1]. cbn [fst snd] in *.
  change (sess_pool ?s) with (co_pool s). destruct H2 as [Ht1|[Ht1|[Ha Ht1]]].
  - left. by destruct (pooled_drop pb (co_pool c1)).
  - right; left. by destruct (pooled_drop pb (co_pool d1)).
  - right; right. destruct (twins_same c1 d1 Ht1) as [_ ->]. apply agree_eq in Ha as ->.
    destruct (pooled_drop pb (co_pool c1)); simpl; [|done]. split; [apply agree_refl|].
    by apply twins_pool.
Qed.

Lemma blind_after {E T} pb (m : IO Conn E T) c :
  blind m -> told c -> told (io_finally (drop_pooled pb) m c).2.
Proof. intros Hm. apply (proj1 (blind_finally pb m Hm) c). Qed.

Lemma blind_with_pooled {E T} n (read : IO Conn E bytes) (k : bytes -> IO Conn E T) :
  blind read -> (forall d, blind (k d)) -> blind (with_pooled n read k).
Proof.
  intros [Hr1 Hr2] Hk. split.
  { apply preserves_with_pooled; [exact _|intros p s H; exact H|done|intros d; apply Hk]. }
  intros c d Ht. unfold beside, with_pooled. change (sess_pool ?s) with (co_pool s).
  destruct (twins_same c d Ht) as [_ Hp]. rewrite Hp.
  destruct (pool_get (co_pool c) n) as [[pb p]|cr]; [|by right; right].
  specialize (Hr2 _ _ (twins_pool c d p Ht)). unfold beside in Hr2.
  change (set_sess_pool p ?s) with (set_pool p s).
  destruct (read (set_pool p c)) as [r1 c1], (read (set_pool p d)) as [r2 d1]. cbn [fst snd] in Hr2.
  destruct Hr2 as [Ht1|[Ht1|[Ha Ht1]]].
  - left. destruct r1 as [[x|e]| |cr]; [| | |done];
      (apply blind_after; [apply Hk || apply blind_fail || apply blind_pending|done]).
  - right; left. destruct r2 as [[x|e]| |cr]; [| | |done];
      (apply blind_after; [apply Hk || apply blind_fail || apply blind_pending|done]).
  - apply agree_eq in Ha as ->. destruct r2 as [[x|e]| |cr]; [| | |by right; right];
      (apply blind_finally; [apply Hk || apply blind_fail || apply blind_pending|done]).
Qed.

(** A part of an attempt whose failure is handled: the rest of the attempt is
    compared together with the handler. *)
Lemma beside_try_bind {E E' T1 T2 U W1} V W (m1 : IO Conn E T1) (m2 : IO Conn E T2)
    (k1 : T1 -> IO Conn E U) (k2 : T2 -> IO Conn E U) (h : result E U -> IO Conn E' W1) c d :
  beside V m1 m2 c d -> (forall x, keeps (k1 x)) -> (forall y, keeps (k2 y)) ->
  (forall r, keeps (h r)) ->
  (forall e c' d', twins c' d' -> beside W (h (Err e)) (h (Err e)) c' d') ->
  (forall x y c' d', V x y -> twins c' d' ->
     beside W (io_try (k1 x) ≫= h) (io_try (k2 y) ≫= h) c' d') ->
  beside W (io_try (m1 ≫= k1) ≫= h) (io_try (m2 ≫= k2) ≫= h) c d.
Proof.
  intros Hm Hk1 Hk2 Hh He Hk.
  assert (Hb : forall T (m : IO Conn E T) (k : T -> IO Conn E U) s,
    (io_try (m ≫= k) ≫= h : IO Conn E' W1) s =
    ((io_try m : IO Conn E' (result E T)) ≫= (fun r => match r with
                         | Ok x => io_try (k x) ≫= h
                         | Err e => h (Err e)
                         end)) s).
  { intros T m k s. unfold mbind, io_bind, io_try. by destruct (m s) as [[[x|e]| |] s1]. }
  unfold beside. rewrite !Hb. apply (beside_bind _ W _ _ _ _ c d (beside_try _ _ _ c d Hm)).
  - intros [x|e]; [|apply Hh]. apply preserves_bind; [exact _|apply preserves_try, Hk1|apply Hh].
  - intros [x|e]; [|apply Hh]. apply preserves_bind; [exact _|apply preserves_try, Hk2|apply Hh].
  - intros [x|e] [y|f] c' d' Hv Ht; simpl in Hv; [by apply Hk|done|done|]. subst. by apply He.
Qed.

End twins.

Create HintDb blind discriminated.

Ltac blind_step :=
  idtac; lazymatch goal with
  | |- blind _ (mret _) => apply blind_ret
  | |- blind _ (io_lift _) => apply blind_lift
  | |- blind _ (io_fail _) => apply blind_fail
  | |- blind _ io_pending => apply blind_pending
  | |- blind _ (io_local _ _) => apply blind_local
  | |- blind _ (io_modify _) =>
      apply blind_modify; [intros ? H; exact H|intros; reflexivity|intros; reflexivity]
  | |- blind _ (io_get ≫= _) => apply blind_get; [intros; reflexivity|intros ?]
  | |- blind _ (_ ≫= _) => apply blind_bind; [|intros ?]
  | |- blind _ (io_map_err _ _) => apply blind_map_err
  | |- blind _ (io_try _) => apply blind_try
  | |- blind _ (read_exact _) => apply blind_read
  | |- blind _ (write_flush _) => apply blind_write
  | |- blind _ (with_pooled _ _ _) => apply blind_with_pooled; [|intros ?]
  | |- blind _ (match ?x with _ => _ end) => destruct x
  | |- blind _ _ => solve [eauto 2 with blind]
  end.

Ltac blind_tac := repeat (cbv beta iota zeta; blind_step).
