(* ===== verification/ConnSecrecy.v ===== *)
(** A client that is not logged in learns nothing of the credential store: two
    sessions whose stores answer with the same salts and iteration counts look the
    same to it, whoever has an account and whatever the passwords are. *)
From S2P Require Import Prelude Words RustStr Errors BufferPool Packet StartupOptions Crypto.
From S2P Require Import Tls Verifier ScramServer LookupCache CredentialFile AuthQuery.
From S2P Require Import CredentialStore Config BackendPolicy Transport PgClient Backend.
From S2P Require Import Registry ConnState ConnAuth Conn ConnSafety ConnDriver ConnReady ConnTwins.
Local Open Scope Z_scope.

Section secrecy.
Context {P : Primitives} {A : Alloc} (env : ConnEnv).
Context (Q : CredentialStore -> CredentialStore -> Prop).

Abbreviation blind := (blind Q).
Abbreviation beside := (beside Q).

(** The verifier of a login, the dummy of an unknown user included, and what a
    client is told of it. *)
Definition resolve (s : CredentialStore) (user : bytes) (found : option Verifier) : Verifier :=
  match found with Some verifier => verifier | None => get_dummy_verifier s user end.

Definition salt_view (v : Verifier) : bytes * Z := (v_salt v, v_iterations v).

(** Related stores answer every lookup alike, or with verifiers that look alike, and
    stay related. *)
Definition stores_alike : Prop :=
  forall s t user dr, Q s t -> ce_lookup1 env = Some dr ->
    agree (fun f g => salt_view (resolve s user f) = salt_view (resolve t user g))
      (store_lookup dr user s).1 (store_lookup dr user t).1 /\
    Q (store_lookup dr user s).2 (store_lookup dr user t).2.

(** ** Everything but authentication *)

Lemma blind_write_message tag body : blind (write_message tag body).
Proof. unfold write_message, write_raw. blind_tac. Qed.

Lemma blind_send_error code message : blind (send_error_message code message).
Proof. apply blind_write_message. Qed.

Lemma blind_message_length : blind read_message_length.
Proof. unfold read_message_length. blind_tac. Qed.

Hint Resolve blind_write_message blind_send_error blind_message_length : blind.

Lemma blind_message_body {E T} (inject : ProxyError -> E) n (k : option bytes -> IO Conn E T) :
  (forall b, blind (k b)) -> blind (with_message_body inject n k).
Proof. intros Hk. unfold with_message_body. blind_tac; apply Hk. Qed.

Lemma blind_startup_packet {T} (k : bytes -> IO Conn ProxyError T) :
  (forall b, blind (k b)) -> blind (with_startup_packet k).
Proof.
  intros Hk. unfold with_startup_packet. blind_tac. apply blind_message_body. intros [b|]; [apply Hk|].
  apply blind_fail.
Qed.

(** The stream is replaced, behind what was written to it. *)
Lemma blind_promote : blind (promote_to_tls env).
Proof.
  unfold promote_to_tls, mbind, io_bind, io_get, io_modify, tls_accept. split.
  - intros c H. destruct (co_transport c); try exact H. destruct (co_frontend_tls c); [|exact H].
    cbn beta iota. destruct (ce_accept env _) as [[y|e]|]; exact H.
  - intros c d [Hd Hq]. rewrite Hd. right; right. cbn beta iota.
    change (co_stream (set_provider _ c)) with (co_stream c).
    change (co_transport (set_provider _ c)) with (co_transport c).
    change (co_frontend_tls (set_provider _ c)) with (co_frontend_tls c).
    destruct (co_transport c); try by split. destruct (co_frontend_tls c); [|by split].
    cbn beta iota. destruct (ce_accept env _) as [[y|e]|]; by split.
Qed.

Hint Resolve blind_promote : blind.

Lemma blind_ssl : blind (handle_ssl_request env).
Proof. unfold handle_ssl_request, answer. blind_tac. Qed.

Lemma blind_gss : blind handle_gssnc_request.
Proof. unfold handle_gssnc_request, answer. blind_tac. Qed.

Lemma blind_forward b key : blind (forward_cancel env b key).
Proof.
  split.
  - intros c. unfold forward_cancel. destruct (send_cancel_request _ _ _) as [[| |] w]; intros H; exact H.
  - intros c d [Hd Hq]. rewrite Hd. right; right. unfold forward_cancel.
    destruct (send_cancel_request _ _ _) as [[| |] w]; by split.
Qed.

Hint Resolve blind_ssl blind_gss blind_forward : blind.

Lemma blind_cancel r : blind (handle_cancel_request env r).
Proof. unfold handle_cancel_request. blind_tac. Qed.

Lemma blind_read_params f r : blind (read_params f r).
Proof. revert r. induction f as [|f IH]; intros r; cbn [read_params]; blind_tac; apply IH. Qed.

Hint Resolve blind_cancel blind_read_params : blind.

Lemma blind_startup_params r : blind (read_startup_params r).
Proof. unfold read_startup_params. blind_tac. Qed.

Hint Resolve blind_startup_params : blind.

(** ** What is written once a login was accepted is written for good *)

Lemma keeps_blind {E T} (m : IO Conn E T) : blind m -> keeps m.
Proof. by intros [H _]. Qed.

Lemma keeps_lookup d user : keeps (provider_lookup d user).
Proof.
  intros c H. unfold provider_lookup. destruct d as [d|]; [|exact H].
  destruct (store_lookup d user (co_provider c)). exact H.
Qed.

Lemma keeps_link config : keeps (link_backend env config).
Proof.
  unfold link_backend. destruct (ce_backend env) as [be|]; [|intros c H; exact H].
  apply preserves_map_err. intros c H. unfold backend_new.
  destruct (connect _ _ _) as [[[|]| |] x]; exact H.
Qed.

Lemma keeps_bind {E T U} (m : IO Conn E T) (k : T -> IO Conn E U) :
  keeps m -> (forall x, keeps (k x)) -> keeps (m ≫= k).
Proof. apply preserves_bind. exact _. Qed.

Lemma keeps_modify {E} (f : Conn -> Conn) :
  (forall c, told_later c (f c)) -> keeps (io_modify f : IO Conn E unit).
Proof. apply preserves_modify. Qed.

Lemma keeps_map_err {E E' T} (f : E' -> E) (m : IO Conn E' T) : keeps m -> keeps (io_map_err f m).
Proof. apply preserves_map_err. Qed.

Lemma keeps_try {E E' T} (m : IO Conn E T) : keeps m -> keeps (io_try m : IO Conn E' (result E T)).
Proof. apply preserves_try. Qed.

Lemma keeps_get {E} : keeps (io_get : IO Conn E Conn).
Proof. intros c H. exact H. Qed.

End secrecy.

Ltac keeps_step :=
  idtac; lazymatch goal with
  | |- keeps (_ ≫= _) => apply keeps_bind; [|intros ?]
  | |- keeps io_get => apply keeps_get
  | |- keeps (io_modify _) => apply keeps_modify; intros ? H; exact H
  | |- keeps (io_map_err _ _) => apply keeps_map_err
  | |- keeps (io_try _) => apply keeps_try
  | |- keeps (provider_lookup _ _) => apply keeps_lookup
  | |- keeps (link_backend _ _) => apply keeps_link
  | |- keeps (match ?x with _ => _ end) => destruct x
  | |- keeps _ => first [ solve [eauto 2 with keeps] | apply (keeps_blind (fun _ _ => True)); blind_step ]
  end.

Ltac keeps_tac := repeat (cbv beta iota zeta; keeps_step).

Create HintDb keeps discriminated.

Section secrecy.
Context {P : Primitives} {A : Alloc} (env : ConnEnv).

#[local] Hint Resolve blind_write_message blind_send_error blind_message_length : blind.

Lemma keeps_register b i t : keeps (register_session env b i t).
Proof.
  revert i. induction t as [|t IH]; intros i; cbn [register_session]; keeps_tac.
Qed.

Lemma keeps_notifications ns : keeps (send_notifications ns).
Proof.
  induction ns as [|n ns IH]; cbn [send_notifications]; keeps_tac.
  destruct n; simpl; keeps_tac.
Qed.

Hint Resolve keeps_register keeps_notifications : keeps.

Lemma keeps_start_session key : keeps (start_session env key).
Proof.
  unfold start_session, send_startup_notifications, send_key_secret, send_ready_signal. keeps_tac.
Qed.

(** ** The end of an exchange *)

(** What [handle_scram_auth] does with the client's last message, and
    [handle_authentication] with the outcome. *)
Definition finish (scram : ScramAuthenticator) (user client_final : bytes)
    : IO Conn AuthFailure (option bytes) :=
  '(server_final, scram) ← io_local scram
    (io_map_err rejected (handle_client_final client_final user));
  io_map_err AuthInternal (send_auth_message AUTH_SASL_FINAL server_final);;
  io_map_err AuthInternal (send_auth_message AUTH_SASL_OK []);;
  mret (sa_extracted_client_key scram).

Definition answer_login (r : result AuthFailure (option bytes)) : IO Conn ProxyError (option bytes) :=
  match r with
  | Ok client_key => mret client_key
  | Err (Rejected error) =>
      io_map_err Internal (send_error_message (auth_error_code error) (auth_error_message error));;
      mret None
  | Err (AuthInternal error) => io_fail (Internal error)
  end.

(** A client that takes no further write sees the same whatever becomes of it. *)
Definition blocked_end (x : Stream) : poll (result ProxyError (option bytes)) :=
  match st_out_end x with Ends e => Ready (Err (Internal (BoxedIo e))) | Stalls => Pending end.

Lemma write_blocked data c :
  st_room (co_stream c) = Some 0%nat ->
  (write_flush data : IO Conn IoError unit) c =
  (ended (st_out_end (co_stream c)), set_stream (co_stream c) c).
Proof.
  intros Hr. unfold write_flush, stream_write. change (sess_stream c) with (co_stream c). by rewrite Hr.
Qed.

Lemma finish_blocked a user cf c :
  st_room (co_stream c) = Some 0%nat ->
  (io_try (finish a user cf) ≫= answer_login) c =
  (blocked_end (co_stream c), set_stream (co_stream c) c).
Proof.
  intros Hr. unfold blocked_end.
  unfold finish, answer_login, send_auth_message, send_error_message, write_message, write_raw,
    mbind, io_bind, io_try, io_local, io_map_err. rewrite handle_client_final_eq.
  destruct (bool_decide _); [destruct (final_check a cf user) as [[key out]|e]|];
    cbn [map_err rejected]; cbn beta iota; rewrite write_blocked by done;
    unfold ended; by destruct (st_out_end (co_stream c)).
Qed.

(** An accepted login is told. *)
Lemma write_told tag body c :
  st_room (co_stream c) <> Some 0%nat ->
  exists x, write_message tag body c = (Ready (Ok tt), set_stream x c) /\
    st_out x = st_out (co_stream c) ++ [message tag body].
Proof.
  intros Hr. unfold write_message, write_raw, io_map_err, write_flush, stream_write.
  change (sess_stream c) with (co_stream c).
  destruct (st_room (co_stream c)) as [[|n]|]; [done|..]; eexists; by split.
Qed.

Lemma try_step {E E' T U} (m m' : IO Conn E T) (h : result E T -> IO Conn E' U) c c' :
  m c = m' c' -> (io_try m ≫= h) c = (io_try m' ≫= h) c'.
Proof. unfold mbind, io_bind, io_try. by intros ->. Qed.

Lemma keeps_answer r : keeps (answer_login r).
Proof. unfold answer_login. keeps_tac. Qed.

Lemma finish_accepted a user cf out a2 c :
  handle_client_final cf user a = (Ready (Ok out), a2) -> st_room (co_stream c) <> Some 0%nat ->
  told ((io_try (finish a user cf) ≫= answer_login) c).2.
Proof.
  intros Ha Hr.
  destruct (write_told MSG_AUTH (u32_to_be (as_u32 AUTH_SASL_FINAL) ++ out) c Hr) as (x & Hw & Hx).
  rewrite (try_step _ (io_map_err AuthInternal (send_auth_message AUTH_SASL_OK []);;
                       mret (sa_extracted_client_key a2)) _ c (set_stream x c)).
  - apply (keeps_bind (io_try _) answer_login); [|apply keeps_answer|].
    + apply preserves_try. change (keeps (io_map_err AuthInternal (send_auth_message AUTH_SASL_OK []);;
        mret (sa_extracted_client_key a2))). unfold send_auth_message. keeps_tac.
    + unfold told. cbn. rewrite Hx, Exists_app. right. constructor. by exists out.
  - unfold finish, send_auth_message, mbind, io_bind, io_local, io_map_err. rewrite Ha.
    cbn [map_err]. cbn beta iota. by rewrite Hw.
Qed.

Lemma finish_rejected a user cf e a2 c :
  handle_client_final cf user a = (Ready (Err e), a2) ->
  (io_try (finish a user cf) ≫= answer_login) c = answer_login (Err (rejected e)) c.
Proof.
  intros Ha. unfold finish, mbind, io_bind, io_try, io_local, io_map_err. by rewrite Ha.
Qed.

Lemma final_answers cf user a : exists r a2, handle_client_final cf user a = (Ready r, a2).
Proof.
  rewrite handle_client_final_eq. destruct (bool_decide _); [|eauto].
  destruct (final_check a cf user) as [[key out]|e]; eauto.
Qed.

Lemma final_errors_public cf user a b e e' a2 b2 :
  same_public a b -> handle_client_final cf user a = (Ready (Err e), a2) ->
  handle_client_final cf user b = (Ready (Err e'), b2) -> e = e'.
Proof.
  rewrite !handle_client_final_eq. intros Hp. pose proof Hp as (_ & _ & <- & _).
  destruct (bool_decide _); [|congruence].
  destruct (final_check a cf user) as [[]|] eqn:Ha; [done|].
  destruct (final_check b cf user) as [[]|] eqn:Hb; [done|]. intros [= <- _] [= <- _].
  by apply (final_check_error_public a b cf user).
Qed.

Section exchange.
Context (Q : CredentialStore -> CredentialStore -> Prop).
Abbreviation twins := (twins Q).
Abbreviation beside := (beside Q).
Abbreviation blind := (blind Q).

(** No login comes of it. *)
Definition no_login {T} (x y : option T) : Prop := x = None /\ y = None.

Lemma beside_answer e c d :
  twins c d -> beside no_login (answer_login (Err e)) (answer_login (Err e)) c d.
Proof.
  intros Ht. destruct e as [error|error]; cbn [answer_login].
  - eapply beside_bind; [apply blind_beside; [apply blind_map_err, blind_send_error|exact Ht]|intros x; keeps_tac..|].
    intros x ? c' d' <- Ht'. by right; right.
  - by right; right.
Qed.

Lemma beside_finish a b user cf c d :
  same_public a b -> twins c d ->
  beside no_login (io_try (finish a user cf) ≫= answer_login)
    (io_try (finish b user cf) ≫= answer_login) c d.
Proof.
  intros Hp Ht. destruct (twins_same Q c d Ht) as [Hx _].
  destruct (decide (st_room (co_stream c) = Some 0%nat)) as [Hr|Hr].
  - right; right. rewrite !finish_blocked by congruence. rewrite Hx. cbn [fst snd].
    split; [unfold blocked_end; by destruct (st_out_end _)|]. by apply twins_stream.
  - destruct (final_answers cf user a) as (ra & a2 & Ha).
    destruct (final_answers cf user b) as (rb & b2 & Hb).
    destruct ra as [out|e]; [left; by eapply finish_accepted|].
    destruct rb as [out|e']; [right; left; eapply finish_accepted; [exact Hb|congruence]|].
    rewrite (final_errors_public cf user a b e e' a2 b2) in Ha by done.
    unfold ConnTwins.beside. rewrite (finish_rejected a user cf e' a2), (finish_rejected b user cf e' b2) by done.
    by apply beside_answer.
Qed.

(** *** The exchange *)

Lemma blind_auth_message code data : blind (send_auth_message code data).
Proof. apply blind_write_message. Qed.

Lemma blind_auth_sasl ms : blind (send_auth_sasl ms).
Proof. apply blind_map_err, blind_auth_message. Qed.

Lemma blind_sasl_response {T} (k : bytes -> IO Conn AuthFailure T) :
  (forall b, blind (k b)) -> blind (with_sasl_response k).
Proof.
  intros Hk. unfold with_sasl_response. blind_tac. apply blind_message_body. intros [b|]; [apply Hk|].
  apply blind_fail.
Qed.

Lemma blind_initial ms : blind (read_sasl_initial_response ms).
Proof. apply blind_sasl_response. intros b. blind_tac. Qed.

Lemma blind_final : blind read_sasl_final_response.
Proof. apply blind_sasl_response. intros b. blind_tac. Qed.

Lemma keeps_finish a user cf : keeps (finish a user cf).
Proof. unfold finish, send_auth_message. keeps_tac. Qed.

(** [handle_scram_auth] from the authenticator on. *)
Definition dialogue (scram : ScramAuthenticator) (user : bytes) : IO Conn AuthFailure (option bytes) :=
  io_map_err internal_failure (send_auth_sasl (mechanisms scram));;
  '(chosen, client_first) ← read_sasl_initial_response (mechanisms scram);
  '(server_first, scram) ← io_local scram
    (io_map_err rejected (handle_client_first (ce_nonce env) chosen client_first user));
  io_map_err AuthInternal (send_auth_message AUTH_SASL_CONTINUE server_first);;
  client_final ← read_sasl_final_response;
  finish scram user client_final.

Lemma beside_local_first a b chosen client_first user c d :
  same_public a b -> twins c d ->
  beside (fun x y => x.1 = y.1 /\ same_public x.2 y.2)
    (io_local a (io_map_err rejected (handle_client_first (ce_nonce env) chosen client_first user))
       : IO Conn AuthFailure _)
    (io_local b (io_map_err rejected (handle_client_first (ce_nonce env) chosen client_first user)))
    c d.
Proof.
  intros Hp Ht. right; right. unfold io_local, io_map_err.
  destruct (handle_client_first (ce_nonce env) chosen client_first user a) as [r a'] eqn:Ha.
  destruct (handle_client_first_public _ _ _ _ _ _ _ _ Hp Ha) as (b' & -> & Hp').
  by destruct r as [[sf|e]| |cr].
Qed.

(** The parts of the dialogue that are the same on both sides, one at a time. *)
Lemma beside_part {T} (m : IO Conn AuthFailure T) (k1 k2 : T -> IO Conn AuthFailure (option bytes)) c d :
  blind m -> (forall x, keeps (k1 x)) -> (forall x, keeps (k2 x)) -> twins c d ->
  (forall x c' d', twins c' d' ->
     beside no_login (io_try (k1 x) ≫= answer_login) (io_try (k2 x) ≫= answer_login) c' d') ->
  beside no_login (io_try (m ≫= k1) ≫= answer_login) (io_try (m ≫= k2) ≫= answer_login) c d.
Proof.
  intros Hm Hk1 Hk2 Ht Hk. eapply beside_try_bind; [by apply blind_beside|done|done|apply keeps_answer| |].
  - intros e c' d'. apply beside_answer.
  - intros x ? c' d' <-. apply Hk.
Qed.

Lemma keeps_parts :
  (forall code data, keeps (send_auth_message code data)) /\
  (forall ms, keeps (send_auth_sasl ms)) /\ (forall ms, keeps (read_sasl_initial_response ms)) /\
  keeps read_sasl_final_response.
Proof.
  split; [intros; apply blind_auth_message|]. split; [intros; apply blind_auth_sasl|].
  split; [intros; apply blind_initial|apply blind_final].
Qed.

Hint Resolve keeps_finish : keeps.
Hint Extern 1 (keeps _) => apply keeps_parts : keeps.

Lemma beside_dialogue a b user c d :
  same_public a b -> twins c d ->
  beside no_login (io_try (dialogue a user) ≫= answer_login) (io_try (dialogue b user) ≫= answer_login)
    c d.
Proof.
  intros Hp Ht. unfold dialogue.
  assert (Hm : mechanisms b = mechanisms a)
    by (unfold mechanisms; destruct Hp as (_ & _ & _ & _ & _ & _ & _ & _ & _ & ->); done).
  rewrite Hm. apply beside_part; [apply blind_map_err, blind_auth_sasl|intros _; keeps_tac..|done|].
  clear c d Ht. intros _ c d Ht.
  apply beside_part; [apply blind_initial|intros []; keeps_tac..|done|].
  clear c d Ht. intros [chosen client_first] c d Ht.
  eapply beside_try_bind; [by apply beside_local_first|intros []; keeps_tac..|apply keeps_answer| |].
  { intros e c' d'. apply beside_answer. }
  clear c d Ht. intros [sf a'] [sf' b'] c d [Heq Hp'] Ht. simpl in Heq, Hp'. subst sf'.
  apply beside_part; [apply blind_map_err, blind_auth_message|intros _; keeps_tac..|done|].
  clear c d Ht. intros _ c d Ht.
  apply beside_part; [apply blind_final|intros x; apply keeps_finish..|done|].
  clear c d Ht. intros cf c d Ht. by apply beside_finish.
Qed.

(** *** Authentication *)

Lemma scram_auth_eq c :
  handle_scram_auth env c =
  match co_user c ≫= non_empty with
  | None => (Ready (Err (rejected (AuthenticationFailed
               #"password authentication failed for user"))), c)
  | Some user =>
      match provider_lookup (ce_lookup1 env) user c with
      | (Ready (Ok found), c1) =>
          dialogue (authenticator_new (resolve (co_provider c) user found) (session_cert_hash c1)) user c1
      | (Ready (Err e), c1) => (Ready (Err (Rejected (AeProvider e))), c1)
      | (Pending, c1) => (Pending, c1)
      | (Crashed cr, c1) => (Crashed cr, c1)
      end
  end.
Proof.
  unfold handle_scram_auth, dialogue, finish, io_get, mbind, io_bind, io_lift. cbn beta iota.
  destruct (option_bind _ _) as [user|]; [|reflexivity]. cbn [ok_or]. unfold io_map_err at 1.
  by destruct (provider_lookup (ce_lookup1 env) user c) as [[[found|e]| |cr] c1].
Qed.

Lemma scram_auth_step c user found st :
  co_user c ≫= non_empty = Some user ->
  provider_lookup (ce_lookup1 env) user c = (Ready (Ok found), set_provider st c) ->
  handle_scram_auth env c =
  dialogue (authenticator_new (resolve (co_provider c) user found)
              (session_cert_hash (set_provider st c))) user (set_provider st c).
Proof. intros Hu Hl. by rewrite scram_auth_eq, Hu, Hl. Qed.

Lemma beside_authentication c d :
  stores_alike env Q -> twins c d ->
  beside no_login (handle_authentication env) (handle_authentication env) c d.
Proof.
  intros HQ Ht. change (handle_authentication env) with (io_try (handle_scram_auth env) ≫= answer_login).
  pose proof Ht as [Hd Hq].
  assert (Hu : co_user d = co_user c) by (by rewrite Hd).
  unfold ConnTwins.beside.
  destruct (co_user c ≫= non_empty) as [user|] eqn:Huser.
  2: { rewrite !(try_step (handle_scram_auth env) (io_fail (rejected (AuthenticationFailed
         #"password authentication failed for user"))) answer_login _ _)
         by (rewrite scram_auth_eq, ?Hu, Huser; reflexivity).
       by apply beside_answer. }
  destruct (ce_lookup1 env) as [dr|] eqn:Hdr.
  2: { rewrite !(try_step (handle_scram_auth env) io_pending answer_login _ _)
         by (rewrite scram_auth_eq, ?Hu, Huser, Hdr; reflexivity).
       right; right. by split. }
  destruct (HQ (co_provider c) (co_provider d) user dr Hq Hdr) as [Ha Hq'].
  assert (Hl : forall s, provider_lookup (ce_lookup1 env) user s =
    let '(r, st) := store_lookup dr user (co_provider s) in (r, set_provider st s)) by (by rewrite Hdr).
  destruct (store_lookup dr user (co_provider c)) as [r1 s1] eqn:H1.
  destruct (store_lookup dr user (co_provider d)) as [r2 s2] eqn:H2. cbn [fst snd] in Ha, Hq'.
  assert (Ht' : twins (set_provider s1 c) (set_provider s2 d)).
  { split; [|done]. by rewrite Hd. }
  destruct r1 as [[f|e]| |cr], r2 as [[g|e']| |cr']; try done; simpl in Ha.
  - rewrite (try_step _ _ answer_login c _ (scram_auth_step c user f s1 Huser ltac:(by rewrite Hl, H1))).
    rewrite (try_step _ _ answer_login d _
      (scram_auth_step d user g s2 ltac:(by rewrite Hu) ltac:(by rewrite Hl, H2))).
    apply beside_dialogue; [|done]. unfold salt_view in Ha. injection Ha as Hs Hi.
    assert (Hh : session_cert_hash (set_provider s2 d) = session_cert_hash (set_provider s1 c))
      by (by rewrite Hd).
    rewrite Hh. by repeat split.
  - subst e'.
    rewrite !(try_step (handle_scram_auth env) (io_fail (Rejected (AeProvider e))) answer_login _ _)
      by (rewrite scram_auth_eq, ?Hu, Huser, Hl, ?H1, ?H2; reflexivity).
    by apply beside_answer.
  - rewrite !(try_step (handle_scram_auth env) io_pending answer_login _ _)
      by (rewrite scram_auth_eq, ?Hu, Huser, Hl, ?H1, ?H2; reflexivity).
    right; right. by split.
  - subst cr'. right; right. unfold mbind, io_bind, io_try.
    rewrite !scram_auth_eq, !Hu, Huser, !Hl, H1, H2. by split.
Qed.

(** *** The session *)

Context (HQ : stores_alike env Q).

Lemma blind_startup_handler v r : blind (handle_startup_packet env v r).
Proof.
  assert (Hauth : keeps (handle_authentication env)).
  { unfold handle_authentication, handle_scram_auth. keeps_tac. }
  split.
  - unfold handle_startup_packet. keeps_tac; [apply (keeps_blind Q), blind_startup_params|apply keeps_start_session].
  - intros c d Ht. unfold handle_startup_packet.
    assert (Hrest : forall x, keeps (match x with
        | Some key => start_session env key | None => mret Close end : IO Conn ProxyError _)).
    { intros [key|]; [apply keeps_start_session|apply (keeps_blind Q), blind_ret]. }
    assert (Hparams : keeps (read_startup_params r)) by apply (keeps_blind Q), blind_startup_params.
    eapply beside_bind; [apply blind_beside; [blind_step|exact Ht]|intros ?; keeps_tac; apply keeps_start_session..|].
    clear c d Ht. intros ? _ c d _ Ht.
    eapply beside_bind; [apply blind_beside; [apply blind_startup_params|exact Ht]
                        |intros ?; keeps_tac; apply keeps_start_session..|].
    clear c d Ht. intros ? _ c d _ Ht.
    eapply beside_bind; [by apply beside_authentication|apply Hrest..|].
    clear c d Ht. intros ? ? c d [-> ->] Ht. by right; right.
Qed.

Lemma blind_startup : blind (handle_startup env).
Proof.
  apply blind_startup_packet. intros b. unfold dispatch.
  pose proof blind_startup_handler as Hh. pose proof (blind_ssl env Q) as Hs.
  pose proof (blind_gss Q) as Hg. pose proof (blind_cancel env Q) as Hc. blind_tac.
Qed.

Lemma blind_drive f : blind (drive env f).
Proof.
  pose proof blind_startup as Hs. pose proof (blind_send_error Q) as He.
  induction f as [|f IH]; cbn [drive]; blind_tac.
Qed.

(** The deadline and the permit. *)
Lemma blind_deadline : blind (startup_with_deadline env).
Proof.
  assert (Hd : blind (drive_startup_until_ready env))
    by (unfold drive_startup_until_ready; pose proof blind_drive; blind_tac).
  pose proof (blind_send_error Q (connection_error_code AuthTimeout)
    (connection_error_message AuthTimeout)) as He.
  split.
  - intros c H. unfold startup_with_deadline. pose proof (proj1 Hd c H) as Hk.
    destruct (drive_startup_until_ready env c) as [[r| |cr] c1]; try exact Hk. by apply (proj1 He c1).
  - intros c d Ht. pose proof (proj2 Hd c d Ht) as Hb. unfold ConnTwins.beside, startup_with_deadline in *.
    destruct (drive_startup_until_ready env c) as [r1 c1], (drive_startup_until_ready env d) as [r2 d1].
    cbn [fst snd] in Hb. destruct Hb as [Hb|[Hb|[Ha Ht1]]].
    + left. destruct r1; try exact Hb. by apply (proj1 He c1).
    + right; left. destruct r2; try exact Hb. by apply (proj1 He d1).
    + apply agree_eq in Ha as ->. destruct r2 as [r| |cr].
      * right; right. split; [apply agree_refl|done].
      * apply (proj2 He c1 d1 Ht1).
      * by right; right.
Qed.

Lemma blind_handle : blind (handle env).
Proof.
  assert (Hset : forall r c d, twins c d -> twins (set_conn_registry r c) (set_conn_registry r d)).
  { intros r c d [Hd Hq]. split; [|done]. by rewrite Hd. }
  pose proof (blind_send_error Q (connection_error_code TooManyRequest)
    (connection_error_message TooManyRequest)) as He.
  split.
  - intros c H. unfold handle. destruct (try_acquire _) as [[] r]; [|by apply (proj1 He)].
    pose proof (proj1 blind_deadline (set_conn_registry r c) H) as Hk.
    destruct (startup_with_deadline env _) as [[?| |?] c1]; exact Hk.
  - intros c d Ht. unfold ConnTwins.beside, handle.
    assert (Hr : co_conn_registry d = co_conn_registry c) by (destruct Ht as [Hd _]; by rewrite Hd).
    rewrite Hr. destruct (try_acquire (co_conn_registry c)) as [[] r]; [|by apply (proj2 He), Hset].
    pose proof (proj2 blind_deadline _ _ (Hset r c d Ht)) as Hb. unfold ConnTwins.beside in Hb.
    destruct (startup_with_deadline env (set_conn_registry r c)) as [r1 c1].
    destruct (startup_with_deadline env (set_conn_registry r d)) as [r2 d1].
    cbn [fst snd] in Hb. destruct Hb as [Hb|[Hb|[Ha Ht1]]].
    + left. destruct r1; exact Hb.
    + right; left. destruct r2; exact Hb.
    + right; right. apply agree_eq in Ha as ->.
      assert (Hr1 : co_conn_registry d1 = co_conn_registry c1) by (destruct Ht1 as [Hd _]; by rewrite Hd).
      destruct r2; cbn [fst snd]; rewrite ?Hr1;
        (split; [apply agree_refl || done|first [by apply Hset|done]]).
Qed.

(** C3: A stranger learns nothing of the credential store from a session: take two
    sessions with the same client, whatever it sends and wherever it stalls,
    and with stores that answer every lookup alike up to the keys of the
    verifiers, a missing user having the dummy verifier.  Unless one of the two
    clients is sent the server's signature, which only an accepted login gets,
    the sessions end alike, have read and written the same bytes, and differ in
    their stores only. *)
Theorem strangers_learn_nothing c d :
  twins c d -> ~ told (handle env c).2 -> ~ told (handle env d).2 ->
  (handle env c).1 = (handle env d).1 /\
  (handle env d).2 = set_provider (co_provider (handle env d).2) (handle env c).2.
Proof.
  intros Ht Hc Hd. destruct (proj2 blind_handle c d Ht) as [?|[?|[Ha [Heq _]]]]; [done|done|].
  split; [by apply agree_eq|exact Heq].
Qed.

End exchange.

(** Snapshots that show the same salts: what a user list, or none, looks like to a
    stranger who does not know which salts are dummies. *)
Definition same_salts (s t : CredentialStore) : Prop :=
  (match cs_source s with SourceFile _ | SourceMemory => True | _ => False end) /\
  (match cs_source t with SourceFile _ | SourceMemory => True | _ => False end) /\
  forall user, salt_view (resolve s user (snapshot_get (cs_snapshot s) user)) =
               salt_view (resolve t user (snapshot_get (cs_snapshot t) user)).

Lemma snapshots_alike : stores_alike env same_salts.
Proof.
  intros s t user dr (Hs & Ht & Hv) _. unfold store_lookup, lookup_source, mbind, io_bind, io_try.
  destruct s as [src sn nonce err m], t as [src' sn' nonce' err' m'].
  cbn [cs_source cs_snapshot] in *.
  destruct src; try done; destruct src'; try done;
    (split; [exact (Hv user)|split; [exact I|split; [exact I|exact Hv]]]).
Qed.

End secrecy.
