(* ===== verification/Server.v ===== *)
(** The listener: [server.rs].  Sessions are served one after another here; the
    accept loop with sessions that run concurrently is in [Listener]. *)
From S2P Require Import Prelude Words RustStr Errors BufferPool Packet Crypto ToyCrypto Tls.
From S2P Require Import Verifier CredentialFile AuthQuery CredentialStore Config BackendPolicy.
From S2P Require Import Transport PgClient Backend Registry ConnState ConnAuth Conn ConnSafety.
From S2P Require Import ConnDriver ConnReady.
Local Open Scope Z_scope.

Record ServerConfig := mkServerConfig {
  sc_config : Config;
  sc_credentials : CredentialStore;
  sc_frontend_tls : option FrontendTls;
  sc_pool_min : Z;
  sc_pool_max : Z }.

Record ServerState := mkServerState {
  sv_config : Config;
  sv_credentials : CredentialStore;
  sv_frontend_tls : option FrontendTls;
  sv_pool : MultiBufferPool;
  sv_backends : Inner;
  sv_connections : ConnRegistry;
  sv_next_id : Z }.

Section server.
Context {P : Primitives} {A : Alloc}.

(** [ServerState::new]; 64 doublings exhaust a [usize]. *)
Definition server_state_new (c : ServerConfig) : option ServerState :=
  pool ← pool_new 64 (sc_pool_min c) (sc_pool_max c) 16;
  Some (mkServerState (sc_config c) (sc_credentials c) (sc_frontend_tls c) pool registry_new
          (conn_registry_new (lm_max_connections (cf_limits (sc_config c)))) 1).

(** One accepted socket: [fetch_add] wraps. *)
Definition accept (socket : Stream) (s : ServerState) : Conn * ServerState :=
  let conn_id := sv_next_id s in
  (conn_new conn_id socket (sv_pool s) (sv_frontend_tls s) (sv_credentials s) (sv_backends s)
     (sv_connections s) (sv_config s),
   mkServerState (sv_config s) (sv_credentials s) (sv_frontend_tls s) (sv_pool s) (sv_backends s)
     (sv_connections s) (as_i32 (conn_id + 1))).

(** What the session task leaves in the shared state when it ends. *)
Definition session_end (c : Conn) (s : ServerState) : ServerState :=
  let c := conn_drop c in
  mkServerState (sv_config s) (co_provider c) (sv_frontend_tls s) (co_pool c)
    (co_backend_registry c) (co_conn_registry c) (sv_next_id s).

Inductive served : nat -> ServerState -> ServerState -> Prop :=
| served_none s : served 0 s s
| served_one n env socket s s1 c s2 r c' :
    served n s s1 -> accept socket s1 = (c, s2) -> handle env c = (Ready r, c') ->
    served (S n) s (session_end c' s2).

(** ** A session's registration *)

(** What the registry and the guard are before and after. *)
Definition same_entry (c c' : Conn) : Prop :=
  (co_conn_id c', co_session_guard c', co_backend_registry c') =
  (co_conn_id c, co_session_guard c, co_backend_registry c).

#[local] Instance same_entry_preorder : PreOrder same_entry.
Proof. split; [done|]. intros x y z Hxy Hyz. unfold same_entry in *. congruence. Qed.

(** A session without a guard ends without one and leaves the registry as it
    was, or its guard stands for the one entry it added under a free key. *)
Definition enters (c c' : Conn) : Prop :=
  co_session_guard c = None ->
  same_entry c c' \/
  exists k b, lookup_by_key k (co_backend_registry c) = None /\
    co_session_guard c' = Some (mkGuard (co_conn_id c) k) /\
    co_backend_registry c' =
      mkInner (<[co_conn_id c := b]> (in_conn_backend (co_backend_registry c)))
        (<[k := b]> (in_key_secret_backend (co_backend_registry c))).

Lemma same_enters c c' : same_entry c c' -> enters c c'.
Proof. intros H _. by left. Qed.

Lemma enters_before c1 c2 c3 : same_entry c1 c2 -> enters c2 c3 -> enters c1 c3.
Proof.
  intros H H23 Hn. assert (Hn2 : co_session_guard c2 = None) by (unfold same_entry in H; congruence).
  destruct (H23 Hn2) as [Hs|(k & b & Hf & Hg & Hr)]; [left; by etrans|].
  right. exists k, b. injection H as Hi _ Hb. by rewrite <- Hi, <- Hb.
Qed.

Lemma enters_after c1 c2 c3 : enters c1 c2 -> same_entry c2 c3 -> enters c1 c3.
Proof.
  intros H12 H Hn. destruct (H12 Hn) as [Hs|(k & b & Hf & Hg & Hr)]; [left; by etrans|].
  right. exists k, b. injection H as _ Hg3 Hr3. split; [done|]. split; congruence.
Qed.

Lemma auth_same c c' : auth_phase c c' -> same_entry c c'.
Proof. by intros ->. Qed.

Lemma params_same c c' : params_phase c c' -> same_entry c c'.
Proof. by intros ->. Qed.

Lemma preserves_enters {E T} (m : IO Conn E T) :
  io_preserves same_entry m -> io_preserves enters m.
Proof. apply preserves_weaken, same_enters. Qed.

Lemma enters_bind_before {E T U} (m : IO Conn E T) (k : T -> IO Conn E U) :
  io_preserves same_entry m -> (forall x, io_preserves enters (k x)) ->
  io_preserves enters (m ≫= k).
Proof.
  intros Hm Hk c. specialize (Hm c). unfold mbind, io_bind.
  destruct (m c) as [[[x|e]| |cr] c1]; simpl in *; try by apply same_enters.
  eapply enters_before; [exact Hm|apply Hk].
Qed.

Lemma enters_bind_after {E T U} (m : IO Conn E T) (k : T -> IO Conn E U) :
  io_preserves enters m -> (forall x, io_preserves same_entry (k x)) ->
  io_preserves enters (m ≫= k).
Proof.
  intros Hm Hk c. specialize (Hm c). unfold mbind, io_bind.
  destruct (m c) as [[[x|e]| |cr] c1]; simpl in *; try done.
  eapply enters_after; [exact Hm|apply Hk].
Qed.

Lemma enters_body {E T} (inject : ProxyError -> E) n (k : option bytes -> IO Conn E T) :
  (forall d, io_preserves enters (k d)) -> io_preserves enters (with_message_body inject n k).
Proof.
  intros Hk. unfold with_message_body. destruct (n =? 0); [apply Hk|].
  apply enters_bind_before; [apply preserves_get; exact _|]. intros c0.
  destruct (_ <? n); [apply preserves_enters, preserves_fail; exact _|]. intros c. unfold with_pooled.
  destruct (pool_get _ _) as [[pb p]|]; [|apply same_enters; reflexivity].
  assert (Hr : io_preserves same_entry (io_map_err (fun e => inject (proxy_io e))
                 (read_exact (S := Conn) (Z.to_nat n)))).
  { apply preserves_map_err, (preserves_weaken auth_phase); [apply auth_same|apply auth_read]. }
  specialize (Hr (set_sess_pool p c)).
  destruct (io_map_err _ _ (set_sess_pool p c)) as [[[d|e]| |cr] c1]; cbn [snd] in Hr;
    unfold io_finally, io_fail, io_lift, io_pending, drop_pooled.
  - pose proof (Hk (Some (pb_slice (pb_fill pb d))) c1) as Hc.
    destruct (k _ c1) as [r c2]. cbn [snd] in Hc.
    destruct (pooled_drop _ _) as [p2|]; simpl; eapply enters_before; try exact Hr;
      [eapply enters_after; [exact Hc|done]|exact Hc].
  - destruct (pooled_drop _ _); apply same_enters; exact Hr.
  - destruct (pooled_drop _ _); apply same_enters; exact Hr.
  - apply same_enters; exact Hr.
Qed.

Ltac same_tac :=
  repeat first
    [ progress cbv beta iota zeta
    | solve [apply (preserves_weaken auth_phase); [apply auth_same|eauto 2 with preserves]]
    | preserves_step | case_match; simplify_eq ].

Hint Resolve auth_read auth_write auth_message auth_send_error auth_message_length auth_lookup
  auth_link auth_authentication : preserves.

Lemma same_ssl env : io_preserves same_entry (handle_ssl_request env).
Proof. unfold handle_ssl_request, promote_to_tls, answer, tls_accept. same_tac. Qed.

Lemma same_gss : io_preserves same_entry handle_gssnc_request.
Proof. unfold handle_gssnc_request, answer. same_tac. Qed.

Lemma same_cancel env r : io_preserves same_entry (handle_cancel_request env r).
Proof.
  unfold handle_cancel_request. same_tac. intros c. unfold forward_cancel.
  by destruct (send_cancel_request _ _ _) as [[| |] w].
Qed.

Lemma same_notifications ns : io_preserves same_entry (send_notifications ns).
Proof.
  induction ns as [|n ns IH]; cbn [send_notifications]; unfold send_notification; same_tac; done.
Qed.

Hint Resolve same_ssl same_gss same_cancel same_notifications : preserves.

(** A loop that registers nothing leaves the registry; one that does is followed
    by the assignment of the guard. *)
Lemma register_step env b i t c :
  (exists e, register_session env b i t c = (Ready (Err e), c)) \/
  exists k c', register_session env b i t c = (Ready (Ok (k, mkGuard (co_conn_id c) k)), c') /\
    lookup_by_key k (co_backend_registry c) = None /\
    c' = set_backend_registry
      (mkInner (<[co_conn_id c := b]> (in_conn_backend (co_backend_registry c)))
         (<[k := b]> (in_key_secret_backend (co_backend_registry c)))) c.
Proof.
  revert i. induction t as [|t IH]; intros i; cbn [register_session]; [by left; eexists|].
  unfold mbind, io_bind, io_get, register. cbn beta iota.
  destruct (in_key_secret_backend (co_backend_registry c) !!
              session_key_secret_new (ce_draws env i)) eqn:Hf; cbn beta iota.
  - unfold io_modify. replace (set_backend_registry (co_backend_registry c) c) with c by (by destruct c).
    apply IH.
  - right. do 2 eexists. split; [reflexivity|]. done.
Qed.

(** Registering, keeping the guard, and what follows. *)
Lemma register_enters env b (k : unit -> IO Conn ProxyError StartupOutCome) :
  (forall u, io_preserves same_entry (k u)) ->
  io_preserves enters (
    '(key, guard) ← register_session env b 0 64;
    io_modify (set_session key b guard) ≫= k).
Proof.
  intros Hk c. unfold mbind at 1, io_bind at 1.
  destruct (register_step env b 0 64 c) as [[e ->]|(key & c1 & -> & Hf & ->)];
    [apply same_enters; reflexivity|]. cbv beta iota.
  intros Hn. right. exists key, b. split; [exact Hf|].
  match goal with |- context [(io_modify ?f ≫= k) ?c0] =>
    change ((io_modify f ≫= k) c0) with (k tt (f c0)); pose proof (Hk tt (f c0)) as H end.
  injection H as _ -> ->. done.
Qed.

Lemma start_session_enters env key : io_preserves enters (start_session env key).
Proof.
  unfold start_session, send_startup_notifications, send_key_secret, send_ready_signal.
  do 6 (apply enters_bind_before; [solve [same_tac]|intros ?]). case_match.
  apply enters_bind_before; [solve [same_tac]|intros backend].
  apply register_enters. intros _. same_tac.
Qed.

Lemma startup_packet_enters env v r : io_preserves enters (handle_startup_packet env v r).
Proof.
  unfold handle_startup_packet.
  apply enters_bind_before; [solve [same_tac]|intros _].
  apply enters_bind_before.
  { apply (preserves_weaken params_phase); [apply params_same|apply params_startup]. }
  intros _. apply enters_bind_before; [solve [same_tac]|intros [k|]].
  - apply start_session_enters.
  - apply preserves_enters. same_tac.
Qed.

Lemma startup_enters env : io_preserves enters (handle_startup env).
Proof.
  unfold handle_startup, with_startup_packet.
  apply enters_bind_before; [solve [same_tac]|intros n].
  apply enters_bind_before; [solve [same_tac]|intros c].
  destruct (_ <? _); [apply preserves_enters; same_tac|]. apply enters_body. intros [b|];
    [|apply preserves_enters; same_tac]. unfold dispatch.
  apply enters_bind_before; [solve [same_tac]|intros [code r]].
  destruct (code =? SSL_REQUEST_CODE); [apply preserves_enters; same_tac|].
  destruct (code =? GSSENC_REQUEST_CODE); [apply preserves_enters; same_tac|].
  destruct (code =? CANCEL_REQUEST_CODE); [apply preserves_enters; same_tac|].
  destruct (code =? PROTOCOL_VERSION_NUMBER); [|apply preserves_enters; same_tac].
  apply enters_bind_before; [solve [same_tac]|intros c1]. destruct (_ && _).
  - apply preserves_enters; same_tac.
  - apply startup_packet_enters.
Qed.

(** A packet after which the loop goes on registered nothing. *)
Lemma continued_same env c c' :
  handle_startup env c = (Ready (Ok Continued), c') -> same_entry c c'.
Proof.
  unfold handle_startup. intros H. apply startup_packet_Ok in H as (b & c1 & c2 & H & Hs & ->).
  change (same_entry c c2). transitivity c1; [by apply auth_same, same_session_auth|].
  unfold dispatch in H. io_inv H. rename a0 into code.
  assert (Hk : forall m : IO Conn ProxyError unit, io_preserves same_entry m ->
            (m;; mret Continued) c1 = (Ready (Ok Continued), c2) -> same_entry c1 c2).
  { intros m Hm Hr. apply io_bind_Ok in Hr as (u & s & H1 & Hr). io_inv Hr.
    specialize (Hm c1). by rewrite H1 in Hm. }
  destruct (code =? SSL_REQUEST_CODE); [by apply Hk in H; [|apply same_ssl]|].
  destruct (code =? GSSENC_REQUEST_CODE); [by apply Hk in H; [|apply same_gss]|].
  destruct (code =? CANCEL_REQUEST_CODE); [io_inv H; done|].
  destruct (code =? PROTOCOL_VERSION_NUMBER); [|done]. io_inv H.
  destruct (_ && _); [done|]. by apply startup_packet_never_continues in H.
Qed.

Lemma drive_enters env f : io_preserves enters (drive env f).
Proof.
  induction f as [|f IH]; intros c; cbn [drive]; [apply same_enters; reflexivity|].
  unfold mbind, io_bind, io_try at 1. pose proof (startup_enters env c) as H.
  destruct (handle_startup env c) as [[[[]|[e|e]]| |cr] c1] eqn:Hh; simpl in H; cbn beta iota; try done.
  - eapply enters_before; [by eapply continued_same|apply IH].
  - eapply enters_after; [exact H|].
    pose proof (auth_send_error (client_code e) (client_message e) c1) as Hs%auth_same.
    by destruct (send_error_message _ _ c1) as [[[]| |] c2].
Qed.

Lemma deadline_enters env : io_preserves enters (startup_with_deadline env).
Proof.
  intros c. unfold startup_with_deadline, drive_startup_until_ready, mbind, io_bind.
  pose proof (drive_enters env 3 c) as H.
  destruct (drive env 3 c) as [[[o|e]| |cr] c1]; simpl in *; try done.
  eapply enters_after; [exact H|]. apply auth_same, auth_send_error.
Qed.

Lemma handle_enters env : io_preserves enters (handle env).
Proof.
  intros c. unfold handle. destruct (try_acquire _) as [[] r].
  - assert (H : enters c (startup_with_deadline env (set_conn_registry r c)).2).
    { apply (enters_before c (set_conn_registry r c)); [done|apply deadline_enters]. }
    destruct (startup_with_deadline env _) as [[| |] c1]; [|done|];
      (eapply enters_after; [exact H|done]).
  - apply same_enters. apply (auth_same (set_conn_registry r c)), auth_send_error.
Qed.

(** The end of a session takes its entry out again. *)
Lemma drop_restores c c' :
  co_session_guard c = None -> in_conn_backend (co_backend_registry c) !! co_conn_id c = None ->
  enters c c' -> co_backend_registry (conn_drop c') = co_backend_registry c.
Proof.
  intros Hn Hid [[= _ Hg Hr]|(k & b & Hf & Hg & Hr)]; [done| |]; unfold conn_drop; rewrite Hg.
  - by rewrite Hn.
  - simpl. rewrite Hr. unfold guard_drop. simpl. rewrite lookup_insert_eq.
    rewrite !delete_insert_id by done. by destruct (co_backend_registry c).
Qed.

(** ** Properties *)

Lemma conn_drop_shared c :
  co_pool (conn_drop c) = co_pool c /\ co_conn_registry (conn_drop c) = co_conn_registry c.
Proof. unfold conn_drop. by destruct (co_session_guard c). Qed.

(** C12: Sessions leave no trace: after any number of sessions, one after another,
    whatever each client, the credential store and the backends did, and however
    each session ended, the buffer pool is well formed with the sizes it had and
    no bucket keeps fewer buffers than at the start, every connection slot is
    free and the registry of cancel keys is empty. *)
Theorem served_sessions_leave_no_trace {AOk : AllocOk A} n s s' :
  pool_ok (sv_pool s) -> 0 <= cr_live (sv_connections s) -> sv_backends s = registry_new ->
  served n s s' ->
  pool_ok (sv_pool s') /\ sizes (sv_pool s') = sizes (sv_pool s) /\
  nothing_lost (sv_pool s) (sv_pool s') /\
  sv_connections s' = sv_connections s /\ sv_backends s' = registry_new.
Proof.
  intros Hp Hl Hb H. induction H as [|n env socket s s1 c s2 r c' _ IH Hacc Hh]; [done|].
  destruct (IH Hp Hl Hb) as (Hp1 & Hz1 & Hn1 & Hc1 & Hb1). unfold accept in Hacc. injection Hacc as <- <-.
  set (c := conn_new _ _ _ _ _ _ _ _) in *.
  assert (Hc : co_pool c = sv_pool s1 /\ co_conn_registry c = sv_connections s1 /\
    co_backend_registry c = registry_new) by done. destruct Hc as (Hc2 & Hc3 & Hc4).
  pose proof (handle_shares env c) as Hs. pose proof (handle_enters env c) as He.
  rewrite Hh in Hs, He. rewrite Hc2, Hc3, Hc1 in Hs. destruct (Hs Hp1 Hl) as (Hp' & Hz' & Hn' & Hr').
  destruct (conn_drop_shared c') as [Hd1 Hd2]. unfold session_end. simpl.
  rewrite Hd1, Hd2. split; [done|]. split; [congruence|]. split; [by etrans|]. split; [done|].
  rewrite (drop_restores c c') by (done || (rewrite Hc4; apply lookup_empty)). exact Hc4.
Qed.

(** The id the [n]th connection gets. *)
Lemma served_next_id n s s' :
  sv_next_id s = 1 -> served n s s' -> sv_next_id s' = as_i32 (1 + Z.of_nat n).
Proof.
  intros H1 H. induction H as [|n env socket s s1 c s2 r c' _ IH Hacc _]; [by rewrite H1|].
  unfold accept in Hacc. injection Hacc as _ <-. simpl. rewrite IH by done.
  rewrite as_i32_as_i32_succ. f_equal. lia.
Qed.

(** Connection ids, which the session registry needs to be unique, are unique
    among any 2^32 consecutive connections and then repeat. *)
Theorem conn_ids_unique n m s s1 s2 :
  sv_next_id s = 1 -> served n s s1 -> served m s s2 ->
  (sv_next_id s1 = sv_next_id s2 <-> (Z.of_nat n - Z.of_nat m) mod 2 ^ 32 = 0).
Proof.
  intros H1 Hn Hm. rewrite (served_next_id n s s1), (served_next_id m s s2) by done. split.
  - intros H%as_i32_congr. rewrite <- H. f_equal. lia.
  - intros H. apply as_i32_mod. unfold as_u32.
    replace (1 + Z.of_nat n) with (1 + Z.of_nat m + (Z.of_nat n - Z.of_nat m)) by lia.
    by rewrite <- Zplus_mod_idemp_r, H, Z.add_0_r.
Qed.

End server.
