(* ===== verification/Listener.v ===== *)
(** The listener with its sessions running concurrently: the [serve] loop of
    [server.rs] and, of each session task, the operations on what all sessions
    share: the buffer pool, the registry of cancel keys and the connection cap.

    Every such operation runs under its object's lock, so it is one step; between
    two steps of a task any other task may take any number of steps.  What a task
    does besides does not touch the shared objects.  That a session of [Conn] is
    such a task is proved in [ListenerTask]. *)
From S2P Require Import Prelude Words BufferPool BackendPolicy PgClient Backend Registry.
Local Open Scope Z_scope.

(** The [Arc]s of [ServerState] and its counter. *)
Record Shared := mkShared {
  sh_pool : MultiBufferPool;
  sh_backends : Inner;
  sh_connections : ConnRegistry;
  sh_next_id : Z }.

(** A task before it asks for a slot, inside the part of [handle] that holds one,
    after [handle] has returned, and after its [Conn] has been dropped. *)
Inductive TaskPhase := Spawned | Running | Returned | Ended.

#[export] Instance task_phase_eq_dec : EqDecision TaskPhase.
Proof. solve_decision. Defined.

(** The shared resources a task owns: its rented buffers, innermost first, and
    its entry in the registry. *)
Record Task := mkTask {
  tk_id : Z;
  tk_phase : TaskPhase;
  tk_rented : list PooledBytes;
  tk_session : option (SessionGuard * Backend) }.

Definition guard_dropped (session : option (SessionGuard * Backend)) (r : Inner) : Inner :=
  match session with Some (g, _) => guard_drop g r | None => r end.

Section listener.
Context {A : Alloc}.

Inductive task_step : Shared * Task -> Shared * Task -> Prop :=
| task_admitted p r c n id c' :
    try_acquire c = (true, c') ->
    task_step (mkShared p r c n, mkTask id Spawned [] None)
              (mkShared p r c' n, mkTask id Running [] None)
| task_refused p r c n id c' :
    try_acquire c = (false, c') ->
    task_step (mkShared p r c n, mkTask id Spawned [] None)
              (mkShared p r c' n, mkTask id Returned [] None)
| task_moves p p' r c n id bs bs' e :
    pool_move (p, bs) (p', bs') ->
    task_step (mkShared p r c n, mkTask id Running bs e) (mkShared p' r c n, mkTask id Running bs' e)
| task_registers p r c n id bs b k g r' :
    register b id k r = (Ok g, r') ->
    task_step (mkShared p r c n, mkTask id Running bs None)
              (mkShared p r' c n, mkTask id Running bs (Some (g, b)))
| task_key_taken p r c n id bs b k k' r' :
    register b id k r = (Err k', r') ->
    task_step (mkShared p r c n, mkTask id Running bs None)
              (mkShared p r' c n, mkTask id Running bs None)
| task_returns p r c n id e :
    task_step (mkShared p r c n, mkTask id Running [] e)
              (mkShared p r (permit_drop c) n, mkTask id Returned [] e)
| task_ends p r c n id e :
    task_step (mkShared p r c n, mkTask id Returned [] e)
              (mkShared p (guard_dropped e r) c n, mkTask id Ended [] None).

(** ** The loop *)

Record Listener := mkListener { li_shared : Shared; li_tasks : list Task }.

Definition spawn (s : Listener) : Listener :=
  let h := li_shared s in
  mkListener (mkShared (sh_pool h) (sh_backends h) (sh_connections h) (as_i32 (sh_next_id h + 1)))
    (li_tasks s ++ [mkTask (sh_next_id h) Spawned [] None]).

(** A failed [accept] is logged and the loop goes on. *)
Inductive serve_step : Listener -> Listener -> Prop :=
| serve_accepts s : serve_step s (spawn s)
| serve_accept_fails s : serve_step s s
| serve_task s i t h' t' :
    li_tasks s !! i = Some t -> task_step (li_shared s, t) (h', t') ->
    serve_step s (mkListener h' (<[i := t']> (li_tasks s))).

Definition listener_new (pool : MultiBufferPool) (max_connections : Z) : Listener :=
  mkListener (mkShared pool registry_new (conn_registry_new max_connections) 1) [].

Definition serve_reachable pool max : Listener -> Prop := rtc serve_step (listener_new pool max).

(** ** The invariant *)

Definition holds_permit (t : Task) : nat := if bool_decide (tk_phase t = Running) then 1 else 0.

Definition permits (ts : list Task) : nat := sum_list_with holds_permit ts.

(** How many buffers of bucket [j] the tasks have rented. *)
Definition rented_by (ts : list Task) (j : nat) : nat :=
  sum_list_with (fun t => rented_from j (tk_rented t)) ts.

(** The sessions with an entry in the registry. *)
Definition live_sessions (ts : list Task) : list (SessionGuard * Backend) := omap tk_session ts.

(** The [i]th accepted connection, in a pool [p]. *)
Record task_ok (p : MultiBufferPool) (i : nat) (t : Task) : Prop := {
  to_id : tk_id t = as_i32 (1 + Z.of_nat i);
  to_rented : tk_phase t <> Running -> tk_rented t = [];
  to_buffers : Forall (pooled_wf p) (tk_rented t);
  to_session : forall g b, tk_session t = Some (g, b) ->
    sg_conn_id g = tk_id t /\ (tk_phase t = Running \/ tk_phase t = Returned) }.

(** [pool] is the pool the listener was started with. *)
Record listener_inv (pool : MultiBufferPool) (max : Z) (s : Listener) : Prop := {
  li_pool : pool_ok (sh_pool (li_shared s));
  li_sizes : sizes (sh_pool (li_shared s)) = sizes pool;
  li_buffers : covers pool (sh_pool (li_shared s)) (rented_by (li_tasks s));
  li_cap : cr_max (sh_connections (li_shared s)) = max;
  li_live : cr_live (sh_connections (li_shared s)) = Z.of_nat (permits (li_tasks s));
  li_below : Z.of_nat (permits (li_tasks s)) <= max;
  li_next : sh_next_id (li_shared s) = as_i32 (1 + Z.of_nat (length (li_tasks s)));
  li_registry :
    reg_inv (mkRegState (sh_backends (li_shared s)) (live_sessions (li_tasks s)));
  li_tasks_ok : forall i t, li_tasks s !! i = Some t -> task_ok (sh_pool (li_shared s)) i t }.

(** *** Lists of tasks *)

Lemma permits_insert ts i t t' :
  ts !! i = Some t -> (permits (<[i := t']> ts) + holds_permit t = permits ts + holds_permit t')%nat.
Proof. apply sum_list_with_insert. Qed.

Lemma permits_app ts us : permits (ts ++ us) = (permits ts + permits us)%nat.
Proof. apply sum_list_with_app. Qed.

Lemma rented_by_insert ts i t t' j :
  ts !! i = Some t ->
  (rented_by (<[i := t']> ts) j + rented_from j (tk_rented t) =
   rented_by ts j + rented_from j (tk_rented t'))%nat.
Proof. apply (sum_list_with_insert (fun t => rented_from j (tk_rented t))). Qed.

(** A step of one task that accounts for its own buffers accounts for all. *)
Lemma covers_task p0 p q ts i t t' :
  ts !! i = Some t ->
  (forall out, covers p0 p (fun j => rented_from j (tk_rented t) + out j)%nat ->
               covers p0 q (fun j => rented_from j (tk_rented t') + out j)%nat) ->
  covers p0 p (rented_by ts) -> covers p0 q (rented_by (<[i := t']> ts)).
Proof.
  intros Hi Hstep Hc.
  assert (Hle : forall j, (rented_from j (tk_rented t) <= rented_by ts j)%nat).
  { intros j. pose proof (rented_by_insert ts i t (mkTask 0 Ended [] None) j Hi) as H.
    cbn [tk_rented] in H. change (rented_from j []) with 0%nat in H. lia. }
  eapply covers_proper; [|apply (Hstep (fun j => rented_by ts j - rented_from j (tk_rented t))%nat)].
  - intros j. pose proof (rented_by_insert ts i t t' j Hi). specialize (Hle j). simpl. lia.
  - eapply covers_proper; [|exact Hc]. intros j. specialize (Hle j). simpl. lia.
Qed.

Lemma live_sessions_insert ts i t t' :
  ts !! i = Some t ->
  option_list (tk_session t) ++ live_sessions (<[i := t']> ts) ≡ₚ
  option_list (tk_session t') ++ live_sessions ts.
Proof.
  intros Hi. pose proof (take_drop_middle ts i t Hi) as Ht. unfold live_sessions.
  rewrite insert_take_drop by (by eapply lookup_lt_Some). rewrite <- Ht at 3.
  rewrite !omap_app. simpl.
  destruct (tk_session t), (tk_session t'); simpl; rewrite <- ?Permutation_middle;
    [apply Permutation_swap|done..].
Qed.

Lemma live_sessions_spawn ts n : live_sessions (ts ++ [mkTask n Spawned [] None]) = live_sessions ts.
Proof. unfold live_sessions. rewrite omap_app. simpl. apply app_nil_r. Qed.

Lemma live_sessions_elem ts g b :
  (g, b) ∈ live_sessions ts <-> exists i t, ts !! i = Some t /\ tk_session t = Some (g, b).
Proof.
  unfold live_sessions. rewrite list_elem_of_omap. split.
  - intros (t & Ht & Hs). apply list_elem_of_lookup in Ht as [i Hi]. by exists i, t.
  - intros (i & t & Hi & Hs). exists t. split; [|done]. by eapply list_elem_of_lookup_2.
Qed.

Lemma reg_inv_perm r l l' : l ≡ₚ l' -> reg_inv (mkRegState r l) -> reg_inv (mkRegState r l').
Proof.
  intros Hl (H1 & H2 & H3 & H4). unfold reg_inv, live_ids in *. simpl in *.
  split; [by rewrite <- Hl|]. split; [by rewrite <- Hl|].
  split; intros x b; [rewrite H3|rewrite H4]; by setoid_rewrite Hl.
Qed.

(** *** Preservation *)

Lemma task_ok_sizes p q i t : sizes q = sizes p -> task_ok p i t -> task_ok q i t.
Proof.
  intros Hs [H1 H2 H3 H4]. split; try done. eapply Forall_impl; [exact H3|].
  intros pb. by apply pooled_wf_sizes.
Qed.

(** What a step of task [i] has to establish. *)
Lemma listener_inv_task pool max s i t h' t' :
  listener_inv pool max s -> li_tasks s !! i = Some t ->
  pool_ok (sh_pool h') -> sizes (sh_pool h') = sizes (sh_pool (li_shared s)) ->
  sh_next_id h' = sh_next_id (li_shared s) -> cr_max (sh_connections h') = max ->
  cr_live (sh_connections h') + Z.of_nat (holds_permit t) =
    cr_live (sh_connections (li_shared s)) + Z.of_nat (holds_permit t') ->
  cr_live (sh_connections h') <= max ->
  reg_inv (mkRegState (sh_backends h') (live_sessions (<[i := t']> (li_tasks s)))) ->
  task_ok (sh_pool h') i t' ->
  (forall out, covers pool (sh_pool (li_shared s)) (fun j => rented_from j (tk_rented t) + out j)%nat ->
               covers pool (sh_pool h') (fun j => rented_from j (tk_rented t') + out j)%nat) ->
  listener_inv pool max (mkListener h' (<[i := t']> (li_tasks s))).
Proof.
  intros [Ip Is Iu Ic Il Ib In Ir It] Hi Hp Hsz Hn Hm Hl Hb Hr Ht Hu.
  pose proof (covers_task _ _ _ _ _ _ _ Hi Hu Iu).
  pose proof (permits_insert _ i t t' Hi) as Hc.
  split; simpl; try done; rewrite ?length_insert; try (congruence || lia).
  intros j u Hj. apply list_lookup_insert_Some in Hj as [(-> & <- & _)|(_ & Hj)]; [done|].
  eapply task_ok_sizes; [exact Hsz|]. by apply It.
Qed.

(** A step that leaves the task's registration. *)
Lemma reg_inv_same r ts i t t' :
  ts !! i = Some t -> tk_session t' = tk_session t ->
  reg_inv (mkRegState r (live_sessions ts)) ->
  reg_inv (mkRegState r (live_sessions (<[i := t']> ts))).
Proof.
  intros Hi Hs. apply reg_inv_perm. pose proof (live_sessions_insert ts i t t' Hi) as H.
  rewrite Hs in H. symmetry. by apply (Permutation_app_inv_l (option_list (tk_session t))).
Qed.

(** No session is registered under the id of a task that is not. *)
Lemma fresh_id s pool max i t :
  listener_inv pool max s -> Z.of_nat (length (li_tasks s)) <= 2 ^ 32 ->
  li_tasks s !! i = Some t -> tk_session t = None ->
  tk_id t ∉ live_ids (mkRegState (sh_backends (li_shared s)) (live_sessions (li_tasks s))).
Proof.
  intros [_ _ _ _ _ _ _ _ It] Hlen Hi Hs Hin. unfold live_ids in Hin. simpl in Hin.
  apply list_elem_of_fmap in Hin as ([g b] & Hid & Hg). simpl in Hid.
  apply live_sessions_elem in Hg as (j & u & Hj & Hu).
  destruct (to_session _ _ _ (It j u Hj) g b Hu) as [Hgid _].
  pose proof (to_id _ _ _ (It i t Hi)) as Hti. pose proof (to_id _ _ _ (It j u Hj)) as Huj.
  assert (Heq : as_i32 (1 + Z.of_nat i) = as_i32 (1 + Z.of_nat j)) by congruence.
  apply as_i32_congr in Heq. pose proof (lookup_lt_Some _ _ _ Hi). pose proof (lookup_lt_Some _ _ _ Hj).
  assert (i = j) as ->; [|congruence].
  destruct (decide (i = j)) as [->|Hne]; [done|]. exfalso.
  destruct (Nat.lt_ge_cases i j).
  - rewrite <- (Z.opp_involutive (_ - _)) in Heq. apply Z.mod_opp_l_z in Heq; [|done].
    rewrite Z.opp_involutive in Heq. rewrite Z.mod_small in Heq by lia. lia.
  - rewrite Z.mod_small in Heq; lia.
Qed.

(** An end that registers or unregisters. *)
Lemma reg_inv_guard_dropped s pool max i t t' :
  listener_inv pool max s -> li_tasks s !! i = Some t -> tk_session t' = None ->
  reg_inv (mkRegState (guard_dropped (tk_session t) (sh_backends (li_shared s)))
    (live_sessions (<[i := t']> (li_tasks s)))).
Proof.
  intros Hinv Hi Ht'. pose proof (live_sessions_insert _ i t t' Hi) as Hp. rewrite Ht' in Hp.
  simpl in Hp. pose proof (li_registry _ _ _ Hinv) as Hr. destruct (tk_session t) as [[g b]|] eqn:Hs.
  - simpl in *. apply (reg_inv_perm _ _ _ (Permutation_sym Hp)) in Hr.
    exact (reg_end_inv (mkRegState _ ((g, b) :: _)) [] g b _ eq_refl Hr).
  - simpl in *. by apply (reg_inv_perm _ _ _ (Permutation_sym Hp)).
Qed.

Lemma reg_inv_registers s pool max i t t' g b k r' :
  listener_inv pool max s -> Z.of_nat (length (li_tasks s)) <= 2 ^ 32 ->
  li_tasks s !! i = Some t -> tk_session t = None -> tk_session t' = Some (g, b) ->
  register b (tk_id t) k (sh_backends (li_shared s)) = (Ok g, r') ->
  reg_inv (mkRegState r' (live_sessions (<[i := t']> (li_tasks s)))).
Proof.
  intros Hinv Hlen Hi Hs Hs' Hreg. pose proof (fresh_id _ _ _ _ _ Hinv Hlen Hi Hs) as Hid.
  pose proof (live_sessions_insert _ i t t' Hi) as Hp. rewrite Hs, Hs' in Hp. simpl in Hp.
  eapply reg_inv_perm; [|exact (reg_register_inv _ b _ k g r' Hid Hreg (li_registry _ _ _ Hinv))].
  simpl. rewrite Hp. symmetry. apply Permutation_cons_append.
Qed.

Context {AOk : AllocOk A}.

Lemma try_acquire_true c c' :
  try_acquire c = (true, c') ->
  cr_max c' = cr_max c /\ cr_live c' = cr_live c + 1 /\ cr_live c' <= cr_max c.
Proof. unfold try_acquire. destruct (Z.leb_spec (cr_max c) (cr_live c)); intros [= <-]. simpl. lia. Qed.

Lemma try_acquire_false c c' : try_acquire c = (false, c') -> c' = c.
Proof. unfold try_acquire. by destruct (_ <=? _); intros [=]. Qed.

(** What a step of a running task leaves for the invariant of its task. *)
Lemma task_ok_running p q i id bs bs' e e' :
  task_ok p i (mkTask id Running bs e) -> sizes q = sizes p ->
  (Forall (pooled_wf p) bs -> Forall (pooled_wf q) bs') ->
  (forall g b, e' = Some (g, b) -> e = e' \/ sg_conn_id g = id) ->
  task_ok q i (mkTask id Running bs' e').
Proof.
  intros [Hid Hr Hb Hs] Hsz Hbs He. split; simpl in *; [done|done|by apply Hbs|].
  intros g b Hg. split; [|by left]. destruct (He g b Hg) as [->|?]; [|done]. by apply (Hs g b).
Qed.

Lemma register_id b id k r g r' : register b id k r = (Ok g, r') -> sg_conn_id g = id.
Proof. unfold register. destruct (_ !! k); [done|]. by intros [= <- _]. Qed.

(** The side conditions that the numbers and the invariant settle. *)
Ltac side Hgoal Hsame :=
  apply Hgoal; simpl; try done; unfold holds_permit; simpl; try lia; try (by apply Hsame).

Lemma task_step_inv pool max s i t h' t' :
  pool_wf pool -> listener_inv pool max s -> Z.of_nat (length (li_tasks s)) <= 2 ^ 32 ->
  li_tasks s !! i = Some t -> task_step (li_shared s, t) (h', t') ->
  listener_inv pool max (mkListener h' (<[i := t']> (li_tasks s))).
Proof.
  intros Hwf Hinv Hlen Hi Hstep. pose proof Hinv as [Ip Is Iu Ic Il Ib In Ir It].
  pose proof (It i t Hi) as Hok. pose proof Hok as [Tid Tr Tb Ts].
  pose proof (permits_insert _ i t t' Hi) as Hc.
  pose proof (listener_inv_task pool max s i t h' t' Hinv Hi) as Hgoal.
  pose proof (reg_inv_same (sh_backends (li_shared s)) _ i t t' Hi) as Hsame.
  pose proof (reg_inv_guard_dropped s pool max i t t' Hinv Hi) as Hdrop.
  pose proof (fun g b k r' => reg_inv_registers s pool max i t t' g b k r' Hinv Hlen Hi) as Hregs.
  destruct s as [[p r c n] ts]. simpl in *.
  inversion Hstep as [? ? ? ? ? ? Ha|? ? ? ? ? ? Ha|? ? ? ? ? ? ? ? ? Hmv
    |? ? ? ? ? ? ? ? ? ? Hr|? ? ? ? ? ? ? ? ? ? Hr| |]; subst; clear Hstep; simpl in *.
  - apply try_acquire_true in Ha as (? & ? & ?). side Hgoal Hsame.
  - apply try_acquire_false in Ha as ->. side Hgoal Hsame.
  - destruct (pool_move_ok _ _ _ _ Hmv Ip Tb) as (Hp' & Hs & Hb). side Hgoal Hsame.
    intros out. by apply pool_move_covers.
  - side Hgoal Hsame; [by eapply Hregs|].
    eapply task_ok_running; [exact Hok|done|done|].
    intros g' b' [= <- <-]. right. by eapply register_id.
  - unfold register in Hr. destruct (_ !! k); [|done]. injection Hr as _ <-. side Hgoal Hsame.
  - unfold holds_permit in Hc at 1 2. simpl in Hc. side Hgoal Hsame.
    split; simpl; [done|done|done|]. intros g b Hg. split; [by apply (Ts g b)|by right].
  - side Hgoal Hsame. by apply Hdrop.
Qed.

Lemma spawn_inv pool max s : listener_inv pool max s -> listener_inv pool max (spawn s).
Proof.
  intros [Ip Is Iu Ic Il Ib In Ir It]. unfold spawn.
  split; simpl; rewrite ?permits_app, ?live_sessions_spawn, ?length_app, ?Nat.add_0_r; try done.
  - eapply covers_proper; [|exact Iu]. intros j. unfold rented_by. rewrite sum_list_with_app. simpl. lia.
  - rewrite In, as_i32_as_i32_succ. f_equal. simpl. lia.
  - intros i t [Hi|[Hi Ht]]%lookup_app_Some; [by apply It|].
    destruct (i - length (li_tasks s))%nat as [|m] eqn:Hm; [|done]. injection Ht as <-.
    split; simpl; try done. rewrite In. do 2 f_equal. lia.
Qed.

Lemma serve_tasks_grow s s' :
  serve_step s s' -> (length (li_tasks s) <= length (li_tasks s'))%nat.
Proof. intros []; simpl; rewrite ?length_app, ?length_insert; lia. Qed.

Lemma serve_run_grows s s' :
  rtc serve_step s s' -> (length (li_tasks s) <= length (li_tasks s'))%nat.
Proof. induction 1 as [|s1 s2 s3 Hs _ IH]; [done|]. apply serve_tasks_grow in Hs. lia. Qed.

Lemma serve_run_inv pool max s s' :
  pool_wf pool -> rtc serve_step s s' -> Z.of_nat (length (li_tasks s')) <= 2 ^ 32 ->
  listener_inv pool max s -> listener_inv pool max s'.
Proof.
  intros Hwf. induction 1 as [|s1 s2 s3 Hs Hr IH]; intros Hlen Hinv; [done|]. apply IH; [done|].
  apply serve_run_grows in Hr. pose proof (serve_tasks_grow _ _ Hs).
  destruct Hs as [s|s|s i t h' t' Hi Ht]; [by apply spawn_inv|done|].
  eapply task_step_inv; [done|done|lia|exact Hi|exact Ht].
Qed.

Lemma listener_new_inv pool max :
  pool_ok pool -> 0 <= max -> listener_inv pool max (listener_new pool max).
Proof.
  intros Hp Hm. split; simpl; try done; [apply nothing_lost_covers; reflexivity|].
  unfold reg_inv, live_ids. simpl. split; [constructor|]. split; [constructor|].
  split; intros x b; rewrite lookup_empty; (split; [done|]); by intros [? ?%elem_of_nil].
Qed.

(** ** Properties *)

Lemma live_sessions_nil ts :
  Forall (fun t => tk_session t = None) ts -> live_sessions ts = [].
Proof. induction 1 as [|t ts Ht _ IH]; [done|]. unfold live_sessions in *. simpl. by rewrite Ht. Qed.

Lemma permits_zero ts : Forall (fun t => tk_phase t <> Running) ts -> permits ts = 0%nat.
Proof.
  induction 1 as [|t ts Ht _ IH]; [done|]. unfold permits in *. simpl. rewrite IH. unfold holds_permit.
  by rewrite bool_decide_eq_false_2.
Qed.

Lemma rented_by_ended pool max s :
  listener_inv pool max s -> Forall (fun t => tk_phase t = Ended) (li_tasks s) ->
  nothing_lost pool (sh_pool (li_shared s)).
Proof.
  intros [_ _ Iu _ _ _ _ _ It] Hend. eapply covers_proper; [|exact Iu]. intros j.
  assert (H : Forall (fun t => tk_rented t = []) (li_tasks s)).
  { apply Forall_lookup. intros i t Hi. apply (to_rented _ _ _ (It i t Hi)).
    by rewrite (Forall_lookup_1 _ _ _ _ Hend Hi). }
  clear - H. unfold rented_by. induction H as [|t ts Ht _ IH]; simpl; [done|].
  rewrite Ht. exact IH.
Qed.

(** C8: However the tasks of a listener interleave, over its first 2^32
    connections (after which connection ids repeat): the slots taken are those of
    the tasks inside [handle] and never more than [max_connections]; a cancel key
    resolves exactly to the backend of a session that has registered it and is
    not over; the pool is well formed with the bucket sizes it started with, every
    rented buffer fits its bucket, and every buffer the pool started with is in
    its bucket or rented by a task; and once all tasks have ended, however they
    did, every slot is free, the registry is empty and no bucket keeps fewer
    buffers than at the start. *)
Theorem concurrent_sessions_share_safely pool max s :
  pool_ok pool -> 0 <= max -> serve_reachable pool max s ->
  Z.of_nat (length (li_tasks s)) <= 2 ^ 32 ->
  let h := li_shared s in
  cr_live (sh_connections h) = Z.of_nat (permits (li_tasks s)) /\
  Z.of_nat (permits (li_tasks s)) <= max /\
  (forall k b, lookup_by_key k (sh_backends h) = Some b <->
     exists i t id, li_tasks s !! i = Some t /\ tk_session t = Some (mkGuard id k, b)) /\
  pool_ok (sh_pool h) /\ sizes (sh_pool h) = sizes pool /\
  Forall (fun t => Forall (pooled_wf (sh_pool h)) (tk_rented t)) (li_tasks s) /\
  covers pool (sh_pool h) (rented_by (li_tasks s)) /\
  (Forall (fun t => tk_phase t = Ended) (li_tasks s) ->
   cr_live (sh_connections h) = 0 /\ (forall k, lookup_by_key k (sh_backends h) = None) /\
   nothing_lost pool (sh_pool h)).
Proof.
  intros Hp Hm Hr Hlen h.
  pose proof (serve_run_inv _ _ _ _ (proj1 Hp) Hr Hlen (listener_new_inv pool max Hp Hm)) as Hinv.
  pose proof Hinv as [Ip Is Iu Ic Il Ib In (_ & _ & _ & Ik) It].
  assert (Hkey : forall k b, lookup_by_key k (sh_backends h) = Some b <->
     exists i t id, li_tasks s !! i = Some t /\ tk_session t = Some (mkGuard id k, b)).
  { intros k b. etrans; [apply Ik|]. setoid_rewrite live_sessions_elem. naive_solver. }
  split; [done|]. split; [done|]. split; [done|]. split; [done|]. split; [done|]. split.
  - apply Forall_lookup. intros i t Hi. apply (to_buffers _ _ _ (It i t Hi)).
  - split; [exact Iu|]. intros Hend. unfold h. rewrite Il. split; [|split].
    + rewrite permits_zero; [done|]. eapply Forall_impl; [exact Hend|]. intros t ->. done.
    + intros k. destruct (lookup_by_key k _) as [b|] eqn:Hk; [|done].
      apply Hkey in Hk as (i & t & id & Hi & Hs).
      destruct (to_session _ _ _ (It i t Hi) _ _ Hs) as [_ Hph].
      rewrite Forall_lookup in Hend. rewrite (Hend i t Hi) in Hph. by destruct Hph.
    + by eapply rented_by_ended.
Qed.

(** ** Progress *)

(** Steps of one task among the others. *)
Lemma task_steps_serve s i t h' t' :
  li_tasks s !! i = Some t -> rtc task_step (li_shared s, t) (h', t') ->
  rtc serve_step s (mkListener h' (<[i := t']> (li_tasks s))).
Proof.
  intros Hi Hr. remember (li_shared s, t) as x eqn:Hx. remember (h', t') as y eqn:Hy.
  revert s t Hi Hx. induction Hr as [x|x [h1 t1] y Hs Hr IH]; intros s t Hi ->; subst.
  - injection Hy as <- <-. rewrite list_insert_id by done. by destruct s.
  - eapply rtc_l; [by eapply serve_task|].
    rewrite <- (list_insert_insert_eq (li_tasks s) i t' t1).
    apply (IH eq_refl (mkListener h1 (<[i := t1]> (li_tasks s))) t1); [|done]. simpl.
    by rewrite list_lookup_insert_eq by (by eapply lookup_lt_Some).
Qed.

Lemma pooled_all_sizes p q bs :
  sizes q = sizes p -> Forall (pooled_wf p) bs -> Forall (pooled_wf q) bs.
Proof. intros Hs H. eapply Forall_impl; [exact H|]. intros pb. by apply pooled_wf_sizes. Qed.

(** A running task can give its buffers back, whatever it has rented. *)
Lemma task_gives_all_back p r c n id bs e :
  pool_ok p -> Forall (pooled_wf p) bs ->
  exists p', rtc task_step (mkShared p r c n, mkTask id Running bs e)
                           (mkShared p' r c n, mkTask id Running [] e).
Proof.
  revert p. induction bs as [|pb bs IH]; intros p Hp Hb; [by exists p|].
  apply Forall_cons in Hb as [Hpb Hbs].
  destruct (pooled_drop_spec p pb Hp Hpb) as (q & Hd & Hq & Hs).
  destruct (IH q Hq) as [p' Hr]; [by eapply pooled_all_sizes|]. exists p'.
  eapply rtc_l; [by apply task_moves, move_return|exact Hr].
Qed.

Lemma task_can_end p r c n i t :
  pool_ok p -> task_ok p i t ->
  exists h' t', rtc task_step (mkShared p r c n, t) (h', t') /\ tk_phase t' = Ended.
Proof.
  intros Hp [_ Hr Hb Hs]. destruct t as [id ph bs e]. simpl in *.
  assert (Hend : forall p r c e, exists h' t',
    rtc task_step (mkShared p r c n, mkTask id Returned [] e) (h', t') /\ tk_phase t' = Ended).
  { intros. do 2 eexists. split; [apply rtc_once, task_ends|done]. }
  assert (Hrun : forall c bs, Forall (pooled_wf p) bs -> exists h' t',
    rtc task_step (mkShared p r c n, mkTask id Running bs e) (h', t') /\ tk_phase t' = Ended).
  { intros c0 bs0 Hb0. destruct (task_gives_all_back p r c0 n id bs0 e Hp Hb0) as [p' H1].
    destruct (Hend p' r (permit_drop c0) e) as (h' & t' & H2 & H3). exists h', t'.
    split; [|done]. etrans; [exact H1|]. eapply rtc_l; [apply task_returns|exact H2]. }
  destruct ph.
  - assert (e = None /\ bs = []) as [-> ->].
    { split; [|by apply Hr]. destruct e as [[g b]|]; [|done].
      by destruct (Hs g b eq_refl) as [_ [?|?]]. }
    destruct (try_acquire c) as [[] c'] eqn:Ha.
    + destruct (Hrun c' [] ltac:(constructor)) as (h' & t' & H1 & H2). exists h', t'.
      split; [|done]. eapply rtc_l; [by apply task_admitted|exact H1].
    + destruct (Hend p r c' None) as (h' & t' & H1 & H2). exists h', t'.
      split; [|done]. eapply rtc_l; [by apply task_refused|exact H1].
  - destruct (Hrun c bs Hb) as (h' & t' & H1 & H2). by exists h', t'.
  - rewrite (Hr ltac:(done)). destruct (Hend p r c e) as (h' & t' & H1 & H2). by exists h', t'.
  - do 2 eexists. split; [reflexivity|]. done.
Qed.

(** No task ever waits for another: from every reachable state each task can
    come to its end by steps of its own, while the others stand still, whatever
    they hold; so no order of rents, registrations and slots is a deadlock, and
    every slot comes back. *)
Theorem every_task_can_end pool max s i t :
  pool_ok pool -> 0 <= max -> serve_reachable pool max s ->
  Z.of_nat (length (li_tasks s)) <= 2 ^ 32 -> li_tasks s !! i = Some t ->
  exists h' t', rtc serve_step s (mkListener h' (<[i := t']> (li_tasks s))) /\
    tk_phase t' = Ended.
Proof.
  intros Hp Hm Hr Hlen Hi.
  destruct (serve_run_inv _ _ _ _ (proj1 Hp) Hr Hlen (listener_new_inv pool max Hp Hm))
    as [Ip _ _ _ _ _ _ _ It].
  destruct s as [[p r c n] ts]. simpl in *.
  destruct (task_can_end p r c n i t Ip (It i t Hi)) as (h' & t' & H1 & H2).
  exists h', t'. split; [|done]. by apply (task_steps_serve (mkListener _ ts) i t).
Qed.

End listener.
