(* ===== verification/ListenerTask.v ===== *)
(** A session of [Conn] is a task of the [Listener]: the refinement that carries
    the properties of concurrent tasks over to the handlers of [conn.rs]. *)
From S2P Require Import Prelude Words RustStr Errors BufferPool Packet Crypto ToyCrypto Tls.
From S2P Require Import Verifier CredentialFile AuthQuery CredentialStore Config BackendPolicy.
From S2P Require Import Transport PgClient Backend Registry ConnState ConnAuth Conn ConnSafety.
From S2P Require Import ConnOutput ConnDriver ConnReady Server Listener.
Local Open Scope Z_scope.

(** The shared objects as a session sees them, and its registration. *)
Definition shared_of (n : Z) (c : Conn) : Shared :=
  mkShared (co_pool c) (co_backend_registry c) (co_conn_registry c) n.

Section session.
Context {P : Primitives} {A : Alloc} {AOk : AllocOk A}.

Lemma pool_moves_task p p' r c n id e :
  pool_moves p p' ->
  rtc task_step (mkShared p r c n, mkTask id Running [] e) (mkShared p' r c n, mkTask id Running [] e).
Proof.
  intros H. specialize (H []). remember (p, []) as x eqn:Hx. remember (p', []) as y eqn:Hy.
  assert (Hg : rtc task_step (mkShared x.1 r c n, mkTask id Running x.2 e)
                 (mkShared y.1 r c n, mkTask id Running y.2 e)); [|by subst].
  clear Hx Hy. induction H as [|[p1 b1] [p2 b2] z Hm _ IH]; [done|].
  eapply rtc_l; [by apply task_moves|exact IH].
Qed.

(** A refusal writes an error and touches nothing that is shared. *)
Lemma send_error_shares n code message c :
  shared_of n (send_error_message code message c).2 = shared_of n c /\
  co_session_guard (send_error_message code message c).2 = co_session_guard c.
Proof.
  unfold send_error_message, write_message, write_raw, io_map_err, write_flush.
  by destruct (stream_write _ _) as [[[|]| |] x].
Qed.

(** The part of [handle] that holds a slot: the pool moves it makes, and its
    registration. *)
Lemma deadline_is_running env n c r c' :
  pool_ok (co_pool c) -> co_session_guard c = None ->
  startup_with_deadline env c = (r, c') ->
  exists e, rtc task_step (shared_of n c, mkTask (co_conn_id c) Running [] None)
                          (shared_of n c', mkTask (co_conn_id c) Running [] e) /\
    fst <$> e = co_session_guard c'.
Proof.
  intros Hp Hg Hr. pose proof (safe_deadline env c Hp) as Hs.
  pose proof (deadline_enters env c Hg) as He. pose proof (fixed_deadline env c) as Hf.
  rewrite Hr in Hs, He, Hf. cbn [snd] in He, Hf. injection Hf as _ _ _ Hc _.
  destruct Hs as (_ & _ & Hm). unfold shared_of. rewrite Hc.
  pose proof (pool_moves_task (co_pool c) (co_pool c') (co_backend_registry c) (co_conn_registry c) n
    (co_conn_id c) None Hm) as Hrun.
  destruct He as [[= _ Hg' Hreg]|(k & b & Hfree & Hg' & Hreg)]; rewrite Hreg, Hg'.
  - exists None. split; [exact Hrun|]. by rewrite Hg.
  - exists (Some (mkGuard (co_conn_id c) k, b)). split; [|done].
    etrans; [exact Hrun|]. apply rtc_once. apply (task_registers _ _ _ _ _ _ b k).
    unfold register, lookup_by_key in *. by rewrite Hfree.
Qed.

Lemma conn_drop_task n c e :
  fst <$> e = co_session_guard c ->
  shared_of n (conn_drop c) =
    mkShared (co_pool c) (guard_dropped e (co_backend_registry c)) (co_conn_registry c) n.
Proof. intros He. unfold conn_drop. rewrite <- He. by destruct e as [[g b]|]. Qed.

(** C9: A session is a task of the listener: on the shared pool, registry and
    connection count, [handle] followed by the drop of the [Conn] does exactly
    the steps of a task, from being spawned to its end; and a session whose last
    write hangs is a task that has come no further than its slot, with every
    buffer given back.  So what holds for concurrent tasks holds for concurrent
    sessions. *)
Theorem session_is_a_task env n c r c' :
  pool_ok (co_pool c) -> co_session_guard c = None -> handle env c = (r, c') ->
  let start := (shared_of n c, mkTask (co_conn_id c) Spawned [] None) in
  match r with
  | Ready _ => rtc task_step start (shared_of n (conn_drop c'), mkTask (co_conn_id c) Ended [] None)
  | Pending => exists ph e, ph <> Ended /\
      rtc task_step start (shared_of n c', mkTask (co_conn_id c) ph [] e)
  | Crashed _ => False
  end.
Proof.
  intros Hp Hg Hh start. pose proof (safe_handle env c Hp) as Hs. rewrite Hh in Hs.
  unfold handle in Hh. destruct (try_acquire (co_conn_registry c)) as [[] reg] eqn:Ha.
  - destruct (startup_with_deadline env (set_conn_registry reg c)) as [r1 c1] eqn:Hd.
    destruct (deadline_is_running env n (set_conn_registry reg c) r1 c1 Hp Hg Hd) as (e & Hrun & He).
    assert (Hstart : rtc task_step start (shared_of n c1, mkTask (co_conn_id c) Running [] e)).
    { eapply rtc_l; [by apply task_admitted|exact Hrun]. }
    destruct r1 as [x| |cr]; injection Hh as <- <-; [|by exists Running, e|by destruct Hs].
    etrans; [exact Hstart|]. eapply rtc_l; [apply task_returns|]. apply rtc_once.
    rewrite (conn_drop_task n _ e) by exact He. apply task_ends.
  - pose proof (try_acquire_false _ _ Ha) as ->. replace (set_conn_registry _ c) with c in Hh by (by destruct c).
    destruct (send_error_shares n (connection_error_code TooManyRequest)
      (connection_error_message TooManyRequest) c) as [Hsh Hgu]. rewrite Hh in Hsh, Hgu.
    cbn [snd] in Hsh, Hgu.
    assert (Hstart : rtc task_step start (shared_of n c', mkTask (co_conn_id c) Returned [] None)).
    { rewrite Hsh. apply rtc_once. by apply task_refused. }
    destruct r as [x| |cr]; [|by exists Returned, None|by destruct Hs].
    etrans; [exact Hstart|]. apply rtc_once. rewrite (conn_drop_task n c' None) by (by rewrite Hgu).
    apply task_ends.
Qed.

End session.
