(* ===== verification/ConnWitness.v ===== *)
(** Concrete sessions: a login through to the ready signal, a refused and a
    stalled client, and a cancel request, on the toy primitives. *)
From S2P Require Import Prelude Words RustStr Errors BufferPool Packet StartupOptions Crypto.
From S2P Require Import ToyCrypto Tls Verifier ScramServer ScramClient ScramExchange.
From S2P Require Import LookupCache CredentialFile AuthQuery CredentialStore Config.
From S2P Require Import BackendPolicy Transport PgClient Backend Registry ConnState ConnAuth.
From S2P Require Import Conn ConnSafety ConnOutput ConnDriver ConnReady Server Listener.
From S2P Require Import ListenerTask ConnTwins ConnSecrecy Dialogue StartupReplay BackendLogin ConnLogin.
Local Open Scope Z_scope.

#[local] Existing Instance toy_crypto.
#[local] Existing Instance plain_alloc.
#[local] Existing Instance plain_alloc_ok.

(** A client that falls silent after what it says. *)
Definition client_stream (b : bytes) : Stream := mkStream b Stalls [] None Stalls.

(** A client that logs in as alice. *)
Definition login_bytes : bytes :=
  packet (u32_to_be PROTOCOL_VERSION_NUMBER
          ++ put_params [( #"user", #"alice"); ( #"options", #"-c geqo=off")] ++ [x00])
  ++ x70 :: packet (put_cstr [] #"SCRAM-SHA-256"
          ++ u32_to_be (Z.of_nat (length (client_first_message sample_client)))
          ++ client_first_message sample_client)
  ++ x70 :: packet sample_final.

Definition session_config : Config :=
  mkConfig listen_default limits_default credentials_default
    (mkBackendConfig #"127.0.0.1:5432" 2000 5000 (mkBackendTlsConfig TlsDisable None CbPrefer None)
       None).

Definition session_store : CredentialStore :=
  from_source #"nonce" SourceMemory (mkSnapshot 1 {[ #"alice" := sample_verifier ]}).

Definition session_pool : MultiBufferPool :=
  default (mkPool []) (pool_new (A := plain_alloc) 64 64 256 1).

Lemma session_pool_ok : pool_ok session_pool.
Proof.
  split; [split|discriminate].
  - repeat constructor; simpl; done.
  - let x := eval vm_compute in (buckets session_pool) in change (buckets session_pool) with x.
    intros i j b c Hij Hi Hj.
    destruct i as [|[|[|[|i]]]], j as [|[|[|[|j]]]]; try lia; simpl in *; simplify_eq/=; lia.
Qed.

Definition session_env : ConnEnv :=
  mkConnEnv (fun _ => 0%nat) (fun _ => None) (Some idle_driver) (Some idle_driver)
    sample_server_nonce (fun i j => (7, Z.of_nat j)) map_to_list
    (Some (sample_env trusting_backend)) (sample_env []).

Definition session (input : bytes) (max : Z) : Conn :=
  conn_new 1 (client_stream input) session_pool None session_store registry_new
    (conn_registry_new max) session_config.

(** The whole dialogue: the mechanisms, the two SCRAM answers, the success, the
    cancel key and the ready signal. *)
Example login_dialogue :
  map (fun w => (head w, length w)) (st_out (co_stream (handle session_env (session login_bytes 1)).2))
  = [(Some x52, 24%nat); (Some x52, 96%nat); (Some x52, 55%nat); (Some x52, 9%nat);
     (Some x4b, 13%nat); (Some x5a, 6%nat)].
Proof. vm_compute. reflexivity. Qed.

(** A client that stops reading keeps its slot: nothing bounds the write of the
    error that ends it. *)
Example stalled_reader_keeps_its_slot :
  let c := handle session_env
    (conn_new 1 (mkStream [] Stalls [] (Some 0%nat) Stalls) session_pool None session_store
       registry_new (conn_registry_new 1) session_config) in
  c.1 = Pending /\ cr_live (co_conn_registry c.2) = 1.
Proof. vm_compute. done. Qed.

(** An SSLRequest that is declined counts as done: [required_tls] would be
    satisfied although the connection stays in plaintext. *)
Example declined_ssl_counts_as_tls :
  let c := (handle_startup session_env (session (packet (u32_to_be SSL_REQUEST_CODE)) 1)).2 in
  co_ssl_done c = true /\ co_transport c = HalvesPlain /\ st_out (co_stream c) = [[x4e]].
Proof. vm_compute. done. Qed.

Lemma startup_loop_terminates_witness :
  drive session_env 3 (session login_bytes 1) <>
  (Ready (Ok None), (drive session_env 3 (session login_bytes 1)).2).
Proof. apply (startup_loop_terminates session_env 3 (session login_bytes 1)). vm_compute. lia. Defined.

Lemma error_response_is_last_witness :
  exists w, st_out (co_stream (handle session_env (session login_bytes 0)).2) = [w] /\
    head w = Some MSG_ERROR.
Proof.
  set (out := st_out (co_stream (handle session_env (session login_bytes 0)).2)).
  destruct out as [|w post] eqn:Hout; [vm_compute in Hout; discriminate Hout|].
  assert (Hw : head w = Some MSG_ERROR).
  { vm_compute in Hout. injection Hout as <- _. reflexivity. }
  rewrite (error_response_is_last session_env (session login_bytes 0) [] w post eq_refl Hout Hw).
  eauto.
Defined.

(** The automaton reads the dialogue to its end, and a refusal as an error. *)
Example login_conforms :
  conforms (st_out (co_stream (handle session_env (session login_bytes 1)).2)) = Some OutReady /\
  conforms (st_out (co_stream (handle session_env (session login_bytes 0)).2)) = Some OutError.
Proof. vm_compute. done. Qed.

Lemma session_speaks_the_protocol_witness :
  is_Some (conforms (st_out (co_stream (handle session_env (session login_bytes 1)).2))).
Proof. by apply (session_speaks_the_protocol session_env (session login_bytes 1)). Defined.

Lemma session_ends_witness :
  (exists x, (handle session_env (session login_bytes 1)).1 = Ready x) \/
  ((handle session_env (session login_bytes 1)).1 = Pending /\
   reader_stalled (co_stream (handle session_env (session login_bytes 1)).2)).
Proof.
  apply (session_ends session_env (session login_bytes 1)).
  - apply session_pool_ok.
  - apply surjective_pairing.
Defined.

Lemma session_returns_what_it_shares_witness :
  let '(r, c') := handle session_env (session login_bytes 1) in
  pool_ok (co_pool c') /\ sizes (co_pool c') = sizes session_pool /\
  nothing_lost session_pool (co_pool c') /\
  match r with
  | Ready _ => co_conn_registry c' = conn_registry_new 1
  | Pending => True
  | Crashed _ => False
  end.
Proof.
  apply (session_returns_what_it_shares session_env (session login_bytes 1)).
  - apply session_pool_ok.
  - simpl. lia.
Defined.

Lemma ready_session_is_authenticated_witness :
  exists c', handle_startup session_env (session login_bytes 1) = (Ready (Ok SessionReady), c') /\
    exists user key, co_user c' = Some user /\ linked session_env (session login_bytes 1) c' user key.
Proof.
  destruct (handle_startup session_env (session login_bytes 1)) as [r c'] eqn:H.
  assert (Hr : r = Ready (Ok SessionReady)).
  { change r with (r, c').1. rewrite <- H. vm_compute. reflexivity. }
  rewrite Hr in H |- *.
  destruct (ready_session_is_authenticated session_env (session login_bytes 1) c' H)
    as (user & d & v & s & key & Hu & _ & _ & _ & _ & Hl).
  exists c'. split; [reflexivity|]. exists user, key. split; [exact Hu|exact Hl].
Defined.

Lemma startup_message_roundtrip_witness :
  let config := sample_pg_config TlsDisable CbPrefer in
  exists r,
    read_u32 (reader_new (startup_body config)) = (Ready (Ok PROTOCOL_VERSION_NUMBER), r) /\
    read_params (S (length (mr_buf r))) r (session [] 1) =
    (Ready (Ok (true, mkReader (startup_body config) (length (startup_body config)))),
     set_params (foldl (fun m kv => <[kv.1 := kv.2]> m) ∅ (sent_params config)) (session [] 1)).
Proof.
  apply (startup_message_roundtrip (sample_pg_config TlsDisable CbPrefer) (session [] 1)).
  - repeat constructor; try done; apply (bool_decide_unpack _); vm_compute; exact I.
  - vm_compute. reflexivity.
Defined.

Lemma cancel_request_is_routed_witness :
  exists c', handle_startup session_env
      (session (cancel_packet (mkBackendKeyData (-5) 77)) 1) = (Ready (Ok Close), c') /\
    st_out (co_stream c') = [] /\ co_backend_registry c' = registry_new /\
    co_forwarded c' = cancelled (mkKeySecret (-5) 77) registry_new.
Proof.
  apply (cancel_request_is_routed session_env (-5) 77 []
    (session (cancel_packet (mkBackendKeyData (-5) 77)) 1)).
  - split; lia.
  - split; lia.
  - apply session_pool_ok.
  - vm_compute. discriminate.
  - vm_compute. discriminate.
  - rewrite app_nil_r. reflexivity.
  - intros addr. eexists. split; [reflexivity|]. done.
Defined.

(** A reader that has taken all there is, and a TLS peer that logs in. *)
Definition tls_env : ConnEnv :=
  mkConnEnv (fun x => length (st_in x)) (fun _ => Some (Ok (client_stream login_bytes)))
    (Some idle_driver) (Some idle_driver) sample_server_nonce (fun i j => (7, Z.of_nat j)) map_to_list
    (Some (sample_env trusting_backend)) (sample_env []).

Definition tls_session : Conn :=
  conn_new 1 (client_stream []) session_pool (Some (mkFrontendTls None)) session_store registry_new
    (conn_registry_new 1) session_config.

Lemma plaintext_never_crosses_into_tls_witness :
  (handle_ssl_request tls_env (set_stream (client_stream #"injected") tls_session)).2 =
  (handle_ssl_request tls_env tls_session).2 /\
  st_in (co_stream (handle_ssl_request tls_env tls_session).2) = login_bytes.
Proof.
  destruct (plaintext_never_crosses_into_tls tls_env tls_session (client_stream #"injected"))
    as [_ H]; [discriminate|reflexivity|reflexivity|].
  split; [apply H; vm_compute; reflexivity|vm_compute; reflexivity].
Defined.

(** A server after one login. *)
Definition sample_server : ServerState :=
  mkServerState session_config session_store None session_pool registry_new (conn_registry_new 5) 1.

Lemma sample_served : exists s', served 1 sample_server s'.
Proof.
  destruct (handle session_env (accept (client_stream login_bytes) sample_server).1) as [r c'] eqn:H.
  assert (Hr : r = Ready (Ok tt)).
  { change r with (r, c').1. rewrite <- H. vm_compute. reflexivity. }
  rewrite Hr in H. eexists. eapply served_one; [apply served_none|reflexivity|exact H].
Qed.

Lemma served_sessions_leave_no_trace_witness :
  exists s', served 1 sample_server s' /\ pool_ok (sv_pool s') /\
    nothing_lost session_pool (sv_pool s') /\
    sv_connections s' = conn_registry_new 5 /\ sv_backends s' = registry_new.
Proof.
  destruct sample_served as [s' H]. exists s'. split; [exact H|].
  destruct (served_sessions_leave_no_trace 1 sample_server s') as (Hp & _ & Hn & Hc & Hb);
    [apply session_pool_ok|simpl; lia|reflexivity|exact H|].
  split; [exact Hp|]. split; [exact Hn|]. split; [exact Hc|exact Hb].
Defined.

Lemma conn_ids_unique_witness :
  exists s', served 1 sample_server s' /\ sv_next_id sample_server <> sv_next_id s'.
Proof.
  destruct sample_served as [s' H]. exists s'. split; [exact H|]. intros Heq.
  apply (conn_ids_unique 0 1 sample_server sample_server s' eq_refl (served_none _) H) in Heq.
  vm_compute in Heq. discriminate Heq.
Defined.

(** ** Concurrent sessions *)

(** The login runs as a task, from being spawned to its end. *)
Lemma session_is_a_task_witness :
  rtc task_step
    (shared_of 2 (session login_bytes 1), mkTask 1 Spawned [] None)
    (shared_of 2 (conn_drop (handle session_env (session login_bytes 1)).2), mkTask 1 Ended [] None).
Proof.
  destruct (handle session_env (session login_bytes 1)) as [r c'] eqn:H.
  assert (Hr : r = Ready (Ok tt)).
  { change r with (r, c').1. rewrite <- H. vm_compute. reflexivity. }
  rewrite Hr in H.
  exact (session_is_a_task session_env 2 (session login_bytes 1) _ c' session_pool_ok eq_refl H).
Defined.

(** Two connections under a cap of one: the first has its slot and a rented
    buffer when the second is refused. *)
Definition busy_listener : Listener :=
  match pool_get session_pool 64 with
  | Val (pb, p) =>
      mkListener (mkShared p registry_new (mkConnRegistry 1 1) 3)
        [mkTask 1 Running [pb] None; mkTask 2 Returned [] None]
  | Crash _ => listener_new session_pool 1
  end.

Lemma busy_reachable : serve_reachable session_pool 1 busy_listener.
Proof.
  unfold serve_reachable, busy_listener. destruct (pool_get session_pool 64) as [[pb p]|] eqn:Hg;
    [|vm_compute in Hg; discriminate Hg].
  eapply rtc_l; [apply serve_accepts|]. eapply rtc_l; [apply serve_accepts|].
  eapply rtc_l.
  { eapply (serve_task _ 0); [reflexivity|]. apply task_admitted. reflexivity. }
  eapply rtc_l.
  { eapply (serve_task _ 0); [reflexivity|]. apply task_moves, (move_rent _ _ 64); [|exact Hg].
    vm_compute. split; discriminate. }
  eapply rtc_l.
  { eapply (serve_task _ 1); [reflexivity|]. apply task_refused. reflexivity. }
  apply rtc_refl.
Qed.

Lemma busy_length : Z.of_nat (length (li_tasks busy_listener)) <= 2 ^ 32.
Proof. vm_compute. discriminate. Qed.

Lemma concurrent_sessions_share_safely_witness :
  cr_live (sh_connections (li_shared busy_listener)) = Z.of_nat (permits (li_tasks busy_listener)) /\
  covers session_pool (sh_pool (li_shared busy_listener)) (rented_by (li_tasks busy_listener)) /\
  rented_by (li_tasks busy_listener) 0 = 1%nat.
Proof.
  destruct (concurrent_sessions_share_safely session_pool 1 busy_listener)
    as (H & _ & _ & _ & _ & _ & Hc & _).
  - apply session_pool_ok.
  - lia.
  - apply busy_reachable.
  - apply busy_length.
  - split; [exact H|]. split; [exact Hc|]. vm_compute. reflexivity.
Defined.

Lemma every_task_can_end_witness :
  exists h' t', tk_phase t' = Ended /\
    rtc serve_step busy_listener (mkListener h' (<[1%nat := t']> (li_tasks busy_listener))).
Proof.
  destruct (every_task_can_end session_pool 1 busy_listener 1 (mkTask 2 Returned [] None))
    as (h' & t' & H1 & H2).
  - apply session_pool_ok.
  - lia.
  - apply busy_reachable.
  - apply busy_length.
  - vm_compute. reflexivity.
  - exists h', t'. split; [exact H2|exact H1].
Defined.

(** ** A login through to the backend *)

(** The session of [tls_session] after its SSLRequest, whose client then logs in. *)
Definition full_settings : list (bytes * bytes) :=
  [( #"user", #"alice"); ( #"options", #"-c geqo=off")].

(** The store has the secret, not the password. *)
Definition full_verifier : Verifier :=
  mkVerifier 4096 #"saltsalt" (v_stored_key sample_verifier) (v_server_key sample_verifier) None false.

Definition full_parsed : gmap bytes bytes :=
  match parse_options #"-c geqo=off" with Ok parsed => parsed | Err _ => ∅ end.

Definition full_params : gmap bytes bytes :=
  merge_options full_parsed (foldl (fun m kv => <[kv.1 := kv.2]> m) ∅ full_settings).

Definition full_config : PgConfig :=
  session_pg_config session_env (started full_params #"alice" Off (session [] 1)) ScramExchange.sample_key
    full_verifier #"alice" #"alice" #"127.0.0.1" 5432.

(** A backend that offers SCRAM and holds the same verifier. *)
Definition full_mechs : bytes := put_cstr [] #"SCRAM-SHA-256" ++ [x00].

Definition full_nonce : bytes := #"a nonce of the backend, 32 bytes".

Definition full_backend_says : bytes :=
  login_input full_mechs (scram_of (sample_env []) full_config None ScramSha256) full_verifier
    full_nonce sample_startup x49.

Definition full_env : ConnEnv :=
  mkConnEnv (fun x => length (st_in x))
    (fun _ => Some (Ok (client_stream (packet (startup_request full_settings)
       ++ client_input session_env sample_client SCRAM_SHA_256 full_verifier ScramExchange.sample_key))))
    (Some idle_driver) (Some idle_driver) sample_server_nonce (fun i j => (7, Z.of_nat j)) map_to_list
    (Some (sample_env full_backend_says)) (sample_env []).

Definition full_session : Conn :=
  conn_new 1 (client_stream (packet (u32_to_be SSL_REQUEST_CODE))) session_pool
    (Some (mkFrontendTls None)) (from_source #"nonce" SourceMemory
       (mkSnapshot 1 {[ #"alice" := full_verifier ]})) registry_new (conn_registry_new 1)
    session_config.

Definition full_opened : Conn :=
  (handle_startup full_env (set_conn_registry (try_acquire (co_conn_registry full_session)).2
     full_session)).2.

Definition full_store : CredentialStore := (store_lookup idle_driver #"alice" (co_provider full_session)).2.

Definition full_key : SessionKeySecret := session_key_secret_new (ce_draws full_env 0).

Lemma full_backend :
  willing_backend (sample_env full_backend_says) full_config (sizes session_pool)
    (sample_stream full_backend_says) None (sample_stream full_backend_says) full_mechs ScramSha256
    full_verifier full_nonce ScramExchange.sample_key sample_startup x49 [].
Proof.
  split; try reflexivity.
  - apply secured_off. reflexivity.
  - split; try (vm_compute; (done || reflexivity)).
    all: repeat split; vm_compute; discriminate || reflexivity.
  - vm_compute. discriminate.
  - unfold sample_startup. repeat apply Forall_cons_2; try apply Forall_nil_2.
    all: split; [vm_compute; discriminate|split; [vm_compute; reflexivity|]]; cbn [bm_ok].
    + exact I.
    + split; [|split; [|split; vm_compute; reflexivity]];
        apply (bool_decide_unpack _); vm_compute; exact I.
    + split; unfold is_i32; simpl; lia.
    + exact I.
Qed.

Lemma backend_login_completes_witness :
  exists c', connect (sample_env full_backend_says) full_config
      (new_client full_config session_pool no_stream) = (Ready (Ok tt), c') /\
    cl_server_signature_verified c' = true /\ cl_ready_status c' = Some x49.
Proof.
  destruct (@backend_login_completes _ toy_crypto_ok _ plain_alloc_ok (sample_env full_backend_says)
    full_config session_pool (sample_stream full_backend_says) None (sample_stream full_backend_says)
    full_mechs ScramSha256 full_verifier full_nonce ScramExchange.sample_key sample_startup x49 [])
    as [(c' & Hc & Hlog & _) _].
  - apply session_pool_ok.
  - apply full_backend.
  - split; [|split; [|split; [|split; [|left]]]]; vm_compute; reflexivity.
  - reflexivity.
  - discriminate.
  - exists c'. split; [exact Hc|]. destruct Hlog as [_ _ Hv _ Hs _ _].
    split; [|exact Hs]. rewrite Hv. vm_compute. reflexivity.
Defined.

Lemma full_startup : startup_case full_settings full_params #"alice" Off.
Proof.
  split.
  - unfold param_ok. apply (bool_decide_unpack _). vm_compute. exact I.
  - intros sent. assert (H : sent !! #"options" = Some #"-c geqo=off") by (vm_compute; reflexivity).
    rewrite H. unfold full_params, full_parsed.
    assert (Hok : is_ok (parse_options #"-c geqo=off") = true) by (vm_compute; reflexivity).
    destruct (parse_options #"-c geqo=off") as [parsed|]; [|discriminate Hok].
    exists parsed. split; reflexivity.
  - vm_compute. reflexivity.
  - discriminate.
  - vm_compute. reflexivity.
Qed.

Lemma full_opened_pool : pool_ok (co_pool full_opened).
Proof.
  pose proof (safe_handle_startup full_env
    (set_conn_registry (try_acquire (co_conn_registry full_session)).2 full_session)) as H.
  unfold full_opened. destruct (handle_startup full_env _) as [r c']. by apply H, session_pool_ok.
Qed.

(** Over TLS: the SSLRequest is granted, then the client logs in. *)
Lemma right_password_reaches_the_backend_witness :
  exists c' b, handle full_env full_session = (Ready (Ok tt), c') /\
    co_user c' = Some #"alice" /\ lookup_by_key full_key (co_backend_registry c') = Some b /\
    length (st_out (co_stream c')) = 9%nat.
Proof.
  destruct (@right_password_reaches_the_backend _ toy_crypto_ok _ plain_alloc_ok full_env full_session
    full_opened full_settings full_params #"alice" Off full_verifier full_store
    (store_lookup idle_driver #"alice" full_store).2
    sample_client SCRAM_SHA_256 #"eighteen-bytes-abc" ScramExchange.sample_key
    (sample_env full_backend_says) full_config full_key (sample_stream full_backend_says) None
    (sample_stream full_backend_says) full_mechs ScramSha256 full_verifier full_nonce sample_startup
    x49 [] []) as (c' & b & Hh & Ho & _ & Hu & _ & _ & Hk & _).
  - reflexivity.
  - right. vm_compute. reflexivity.
  - apply full_opened_pool.
  - reflexivity.
  - split; try (vm_compute; done); repeat split; vm_compute; discriminate || reflexivity.
  - apply full_startup.
  - split; try (vm_compute; done).
    exists idle_driver. split; vm_compute; reflexivity.
  - split.
    + exists idle_driver. split; vm_compute; reflexivity.
    + reflexivity.
    + exists #"alice", #"127.0.0.1", 5432. split; [vm_compute; reflexivity|]. split; reflexivity.
    + reflexivity.
    + apply full_backend.
  - exact I.
  - repeat split.
  - vm_compute. reflexivity.
  - exists c', b. split; [exact Hh|]. split; [exact Hu|]. split; [exact Hk|].
    rewrite Ho, !length_app. vm_compute. reflexivity.
Defined.

(** ** A stranger *)

(** The same client, to a proxy where alice has another password and to one that has
    no user. *)
Definition stranger_session (users : gmap bytes Verifier) : Conn :=
  conn_new 1 (client_stream login_bytes) session_pool None
    (from_source #"nonce" SourceMemory (mkSnapshot 1 users)) registry_new (conn_registry_new 1)
    session_config.

Definition alice_verifier : Verifier :=
  let dummy := verifier_dummy #"alice" #"nonce" in
  mkVerifier (v_iterations dummy) (v_salt dummy) (v_stored_key sample_verifier)
    (v_server_key sample_verifier) None false.

Lemma alice_same_salts :
  same_salts (co_provider (stranger_session {[ #"alice" := alice_verifier ]}))
    (co_provider (stranger_session ∅)).
Proof.
  split; [exact I|]. split; [exact I|]. intros user. unfold salt_view, resolve, snapshot_get. simpl.
  destruct (decide (user = #"alice")) as [->|Hu].
  - rewrite lookup_singleton_eq. reflexivity.
  - by rewrite lookup_singleton_ne.
Qed.

Lemma strangers_learn_nothing_witness :
  let c := stranger_session {[ #"alice" := alice_verifier ]} in
  let d := stranger_session ∅ in
  length (st_out (co_stream (handle session_env c).2)) = 3%nat /\
  st_out (co_stream (handle session_env c).2) = st_out (co_stream (handle session_env d).2).
Proof.
  intros c d. split; [vm_compute; reflexivity|].
  destruct (strangers_learn_nothing session_env same_salts (snapshots_alike session_env) c d) as [_ H].
  - split; [reflexivity|apply alice_same_salts].
  - apply not_told. vm_compute. reflexivity.
  - apply not_told. vm_compute. reflexivity.
  - rewrite H. reflexivity.
Defined.
