(* ===== verification/Cli.v ===== *)
(** The command line: [crates/wirechaos/src/main.rs].

    Parsing the arguments is [clap]'s; [main] is a function of the command to the
    effects it has, in their order, and how it ends.  The file system, the
    prompts, the environment and the random generator are its environment. *)
From S2P Require Import Prelude Words RustStr Errors BufferPool Crypto ToyCrypto Tls Verifier.
From S2P Require Import LookupCache CredentialFile AuthQuery CredentialStore Config BackendPolicy.
From S2P Require Import PgClient Backend Registry ConnState Server.
Local Open Scope Z_scope.

Inductive HashFormat := Secret | YamlSnippet.

(** [trim_end_matches(['\r', '\n'])]. *)
Fixpoint trim_end (s : bytes) : bytes :=
  match s with
  | [] => []
  | c :: s' => match trim_end s' with
               | [] => if bool_decide (c = x0d) || bool_decide (c = x0a) then [] else [c]
               | t => c :: t
               end
  end.

Definition read_password (from_stdin : bool) (line password confirmation : bytes)
    : result bytes bytes :=
  if from_stdin then Ok (trim_end line)
  else if negb (bool_decide (password = confirmation)) then Err #"passwords do not match"
  else Ok password.

Section hash.
Context {P : Primitives}.

Definition hash_password_command (iterations : Z) (format : HashFormat) (user : option bytes)
    (input : result bytes bytes) (salt : bytes) : result bytes bytes :=
  if iterations <? MIN_ITERATIONS then
    Err (#"--iterations must be at least " ++ show_uint MIN_ITERATIONS)
  else
    password ← input;
    if bool_decide (password = []) then Err #"the password must not be empty"
    else
      let secret := hash_password salt password iterations in
      match format with
      | Secret => Ok (secret ++ [x0a])
      | YamlSnippet =>
          user ← ok_or user #"--user is required with --format=yaml-snippet";
          Ok (#"users:" ++ x0a :: #"  - name: " ++ user ++ x0a :: #"    scram_secret: "
              ++ x22 :: secret ++ [x22; x0a])
      end.

End hash.

(** ** The commands *)

Inductive Commands :=
| CmdProxy (config : bytes)
| CmdScenario
| CmdDoctor
| CmdHashPassword (iterations : Z) (format : HashFormat) (user : option bytes)
    (password_stdin : bool).

Inductive CliError :=
| CliText (message : bytes)
| CliIo
| CliConfig (e : ConfigError).

(** What a run does: install the log subscriber, write a log line, print to
    standard output, or serve for as long as the process lives. *)
Inductive CliEffect {Addr : Type} :=
| InitLogging
| LogInfo (line : bytes)
| Stdout (text : bytes)
| RunServer (bind : Addr) (config : ServerConfig).
Arguments CliEffect : clear implicits.

Record CliEnv (Addr : Type) := mkCliEnv {
  (** [init_logging]: the error of a subscriber that is already installed. *)
  ev_init_logging : result bytes unit;
  ev_read_file : bytes -> option bytes;
  ev_parse_config : bytes -> option Config;
  ev_parse_addr : bytes -> option Addr;
  (** [TcpListener::bind]. *)
  ev_bind : Addr -> result bytes unit;
  ev_feature : bool;
  ev_env : bytes -> option bytes;
  ev_nonce : bytes;
  ev_driver : DriverEnv;
  ev_salts : nat -> bytes;
  ev_parse_users : bytes -> option (list RawUser);
  (** The line on standard input and the two prompts. *)
  ev_line : bytes;
  ev_password : bytes;
  ev_confirmation : bytes }.
Arguments ev_init_logging {Addr}. Arguments ev_read_file {Addr}. Arguments ev_parse_config {Addr}.
Arguments ev_parse_addr {Addr}. Arguments ev_bind {Addr}. Arguments ev_feature {Addr}. Arguments ev_env {Addr}.
Arguments ev_nonce {Addr}. Arguments ev_driver {Addr}. Arguments ev_salts {Addr}.
Arguments ev_parse_users {Addr}. Arguments ev_line {Addr}. Arguments ev_password {Addr}.
Arguments ev_confirmation {Addr}.

Section main.
Context {P : Primitives} {Addr : Type}.
Variable env : CliEnv Addr.

(** The server the [proxy] command starts. *)
Definition proxy_config (path : bytes) : result CliError (Addr * ServerConfig) :=
  text ← ok_or (ev_read_file env path) CliIo;
  parsed ← map_err CliConfig (config_from_yaml (ev_parse_config env) text);
  bind ← map_err CliConfig (frontend_addr (ev_parse_addr env) parsed);
  credentials ← map_err CliConfig
    (build_store (ev_salts env) (ev_parse_users env) (ev_feature env) (ev_read_file env) (ev_env env)
       (ev_nonce env) (ev_driver env) (cf_credentials parsed));
  Ok (bind, mkServerConfig parsed credentials None 4 (2 ^ 20)).

Definition is_hash_password (c : Commands) : bool :=
  match c with CmdHashPassword _ _ _ _ => true | _ => false end.

(** [run_server]: an address that cannot be bound ends the process, and the loop
    behind a bound one never returns. *)
Definition run_server (bind : Addr) (config : ServerConfig) :
    list (CliEffect Addr) * result CliError unit :=
  match ev_bind env bind with
  | Ok _ => ([RunServer bind config], Ok tt)
  | Err m => ([], Err (CliText m))
  end.

(** The [match] on the command. *)
Definition run_command (c : Commands) : list (CliEffect Addr) * result CliError unit :=
  match c with
  | CmdProxy path =>
      match proxy_config path with
      | Ok (bind, config) => run_server bind config
      | Err e => ([], Err e)
      end
  | CmdScenario => ([LogInfo #"Running chaos scenario..."], Ok tt)
  | CmdDoctor => ([LogInfo #"Running environment diagnostic check..."], Ok tt)
  | CmdHashPassword iterations format user password_stdin =>
      match hash_password_command iterations format user
              (read_password password_stdin (ev_line env) (ev_password env) (ev_confirmation env))
              (ev_salts env 0) with
      | Ok text => ([Stdout text], Ok tt)
      | Err m => ([], Err (CliText m))
      end
  end.

Definition main (c : Commands) : list (CliEffect Addr) * result CliError unit :=
  if negb (is_hash_password c) then
    match ev_init_logging env with
    | Ok _ => let '(effects, r) := run_command c in (InitLogging :: effects, r)
    | Err m => ([], Err (CliText m))
    end
  else run_command c.

(** ** Properties *)

Definition prints (e : CliEffect Addr) : bool := match e with Stdout _ => true | _ => false end.

(** The output of [hash-password] can be piped: it is the only command that
    prints, it prints once and only when it succeeds, nothing that logs runs in
    the same process, and every other command installs the log subscriber
    exactly once, before anything else it does. *)
Theorem only_hash_password_prints c effects r :
  main c = (effects, r) ->
  (if is_hash_password c then
     InitLogging ∉ effects /\
     (forall m, LogInfo m ∉ effects) /\
     (if is_ok r then exists text, effects = [Stdout text] else effects = [])
   else
     Forall (fun e => prints e = false) effects /\
     (effects = [] \/ exists rest, effects = InitLogging :: rest /\ InitLogging ∉ rest)).
Proof.
  unfold main. destruct c as [path| | |iterations format user stdin]; simpl.
  - destruct (ev_init_logging env); [|intros [= <- <-]; split; [constructor|by left]].
    destruct (proxy_config path) as [[bind config]|e];
      [unfold run_server; destruct (ev_bind env bind)|]; intros [= <- <-];
      (split; [by repeat constructor|right]); eexists; (split; [done|set_solver]).
  - destruct (ev_init_logging env); intros [= <- <-]; (split; [by repeat constructor|]);
      [right; eexists; split; [done|set_solver]|by left].
  - destruct (ev_init_logging env); intros [= <- <-]; (split; [by repeat constructor|]);
      [right; eexists; split; [done|set_solver]|by left].
  - destruct (hash_password_command _ _ _ _ _) as [text|m]; intros [= <- <-]; simpl;
      (split; [set_solver|split; [set_solver|]]); [by exists text|done].
Qed.

(** The server the [proxy] command starts satisfies what the theorems on
    sessions assume: its state is built without diverging, its pool is whole with
    buffers from 4 bytes to 1 MiB, no session is registered, no connection
    counted, ids start at 1, and there is no TLS to offer. *)
Theorem started_server_is_fresh {A : Alloc} {AOk : AllocOk A} path bind config :
  proxy_config path = Ok (bind, config) ->
  exists st, server_state_new config = Some st /\
    pool_ok (sv_pool st) /\ max_capacity (sv_pool st) = 2 ^ 20 /\
    sv_backends st = registry_new /\ cr_live (sv_connections st) = 0 /\
    cr_max (sv_connections st) = lm_max_connections (cf_limits (sc_config config)) /\
    sv_next_id st = 1 /\ sv_frontend_tls st = None.
Proof.
  intros H. unfold proxy_config in H.
  apply result_bind_Ok in H as (text & _ & H). apply result_bind_Ok in H as (parsed & _ & H).
  apply result_bind_Ok in H as (addr & _ & H). apply result_bind_Ok in H as (store & _ & H).
  injection H as _ <-. unfold server_state_new. cbn [sc_pool_min sc_pool_max].
  destruct (pool_new_spec 4 (2 ^ 20) 16) as (p & Hp & Hwf & Hs); [lia|lia|]. rewrite Hp.
  assert (H18 : sizes p !! 18%nat = Some (2 ^ 20)) by (apply Hs; done).
  assert (H19 : sizes p !! 19%nat = None).
  { destruct (sizes p !! 19%nat) as [c|] eqn:Hc; [|done]. apply Hs in Hc as [-> Hc]. by vm_compute in Hc. }
  eexists. split; [reflexivity|]. simpl. split; [|split; [|repeat split; reflexivity]].
  - split; [done|]. intros Hb. unfold sizes in H18. by rewrite Hb in H18.
  - rewrite max_capacity_sizes, last_lookup. apply lookup_lt_Some in H18 as Hlt.
    apply lookup_ge_None in H19. replace (pred (length (sizes p))) with 18%nat by lia.
    by rewrite H18.
Qed.

End main.

(** The line terminator is dropped, whichever it is. *)
Example trims_crlf : trim_end (#"pa ss" ++ [x0d; x0a]) = #"pa ss".
Proof. vm_compute. reflexivity. Qed.

(** ** Witnesses *)

#[local] Existing Instance toy_crypto.

Definition sample_cli_config : Config :=
  mkConfig listen_default limits_default
    (mkCredentialsConfig KindFile (Some #"users.yaml") None None None)
    (mkBackendConfig #"127.0.0.1:5432" 2000 5000 backend_tls_default None).

Definition sample_cli : CliEnv bytes :=
  mkCliEnv bytes (Ok tt) (fun _ => Some #"users") (fun _ => Some sample_cli_config) Some (fun _ => Ok tt) false
    (fun _ => None) #"nonce" idle_driver sample_salt sample_parse ( #"secret" ++ [x0a]) [] [].

Lemma only_hash_password_prints_witness :
  exists text, (main sample_cli (CmdHashPassword 4096 Secret None true)).1 = [Stdout text].
Proof.
  destruct (main sample_cli (CmdHashPassword 4096 Secret None true)) as [effects r] eqn:H.
  assert (Hr : is_ok r = true).
  { change r with (effects, r).2. rewrite <- H. vm_compute. reflexivity. }
  destruct (only_hash_password_prints sample_cli _ _ _ H) as (_ & _ & Ht).
  rewrite Hr in Ht. exact Ht.
Defined.

Lemma started_server_is_fresh_witness :
  exists config st,
    server_state_new (A := plain_alloc) config = Some st /\ max_capacity (sv_pool st) = 2 ^ 20.
Proof.
  destruct (proxy_config sample_cli #"wirechaos.yaml") as [[bind config]|e] eqn:H.
  - pose proof plain_alloc_ok as Hok.
    destruct (started_server_is_fresh (A := plain_alloc) sample_cli _ _ _ H)
      as (st & Hst & _ & Hmax & _).
    exists config, st. split; [exact Hst|exact Hmax].
  - exfalso. assert (Hok : is_ok (proxy_config sample_cli #"wirechaos.yaml") = true)
      by (vm_compute; reflexivity).
    rewrite H in Hok. discriminate Hok.
Defined.
