(* ===== verification/TestKit.v ===== *)
(** What the tests of the source are translated with.

    A test is a boolean: the conjunction of its assertions.  Unwrapping a value
    that is not there makes it fail.  The tests run with the published primitives of
    [Digests], with one round of PBKDF2 where they ask for 4096. *)
From S2P Require Import Prelude Words RustStr Crypto ToyCrypto Digests.
Local Open Scope Z_scope.

(** [assert_eq!], [assert!] on an optional value, and [matches!]. *)
Definition assert_eq {A} `{EqDecision A} (x y : A) : bool := bool_decide (x = y).

Definition unwrap_or_fail {A} (x : option A) (k : A -> bool) : bool :=
  match x with Some a => k a | None => false end.

Definition ok_value {E A} (r : poll (result E A)) : option A :=
  match r with Ready (Ok a) => Some a | _ => None end.

Definition err_value {E A} (r : poll (result E A)) : option E :=
  match r with Ready (Err e) => Some e | _ => None end.

Definition result_err {E A} (r : result E A) : option E :=
  match r with Err e => Some e | Ok _ => None end.

(** [contains]: the text occurs somewhere. *)
Definition contains (needle s : bytes) : bool :=
  match rfind needle s with Some _ => true | None => false end.

(** The published primitives with one round of PBKDF2 in place of 4096: no assertion
    depends on the count. *)
Definition one_round : Primitives := {|
  sha2_256 := sha256_digest;
  sha2_384 := sha384_digest;
  sha2_512 := sha512_digest;
  hmac_sha2_256 := hmac_digest;
  pbkdf2_hmac_sha2_256 := fun password salt _ => pbkdf2_block password salt 1;
  md5_compute := md5_digest;
  b64_encode := toy_encode;
  b64_decode := toy_decode;
  b64_no_pad_decode := base64_no_pad;
  b64_url_encode := base64_url;
  saslprep := @saslprep published;
  x509_signature_oid := @x509_signature_oid published |}.
