(* ===== verification/ScramTests.v ===== *)
(** The tests of [auth/scram/scram_authenticator.rs] and
    [backend/scram_client.rs], run against the model.

    Each test of the source is a boolean of the same name ([TestKit]).  Random bytes
    a test does not fix are an argument.  The vector of RFC 7677 is in
    [ScramReference]. *)
From S2P Require Import Prelude Words RustStr Errors Crypto Tls Verifier ScramServer.
From S2P Require Import ScramClient ScramReference TestKit.
Local Open Scope Z_scope.

(** ** [scram_authenticator.rs] *)

Definition USER : bytes := #"user".
Definition CLIENT_NONCE : bytes := #"fyko+d2lbbTB1mTN".
Definition OPAQUE : bytes := #"malformed SCRAM message".

Definition protocol_err (r : poll (result ScramError bytes)) : option bytes :=
  match err_value r with Some (Protocol message) => Some message | _ => None end.

Definition assert_malformed (r : poll (result ScramError bytes)) : bool :=
  assert_eq (protocol_err r) (Some OPAQUE).

Definition is_protocol (r : poll (result ScramError bytes)) : bool :=
  match protocol_err r with Some _ => true | None => false end.

(** The nonce of a server's first message. *)
Definition combined_nonce_of (server_first : bytes) : option bytes :=
  first ← head (split chr_comma server_first);
  strip_prefix #"r=" first.

Definition cert_hash (digest : byte) : CertHash := mkCertHash Tls.Sha256 (replicate 32 digest).

Section authenticator_tests.
Context {P : Primitives}.
Context (random : bytes).

Definition verifier : Verifier := verifier_from_password #"pencil" (replicate 16 x00) 4096.

Definition client_first : bytes := #"n,,n=" ++ USER ++ #",r=" ++ CLIENT_NONCE.
Definition bare : bytes := #"n=" ++ USER ++ #",r=" ++ CLIENT_NONCE.
Definition fresh (h : option CertHash) : ScramAuthenticator := authenticator_new verifier h.

Definition begin_exchange (a : ScramAuthenticator) : option (bytes * ScramAuthenticator) :=
  let '(r, a1) := handle_client_first random SCRAM_SHA_256 client_first USER a in
  server_first ← ok_value r;
  Some (server_first, a1).

Definition full_client_exchange (a : ScramAuthenticator) (password gs2_header client_nonce : bytes)
    : option (bytes * bytes * ScramAuthenticator) :=
  let flag := take 1 gs2_header in
  let client_first := flag ++ #",,n=" ++ USER ++ #",r=" ++ client_nonce in
  let '(r, a1) := handle_client_first random SCRAM_SHA_256 client_first USER a in
  server_first ← ok_value r;
  let client_first_bare := #"n=" ++ USER ++ #",r=" ++ client_nonce in
  '(client_final, expected_server_final) ←
    simulate_client password client_first_bare server_first gs2_header;
  let '(r, a2) := handle_client_final client_final [] a1 in
  server_final ← ok_value r;
  Some (server_final, expected_server_final, a2).

(** A first message, and a final message after an accepted first one. *)
Definition first_result (h : option CertHash) (mechanism message user : bytes)
    : poll (result ScramError bytes) :=
  (handle_client_first random mechanism message user (fresh h)).1.

Definition final_result (message : bytes -> bytes) : poll (result ScramError bytes) :=
  match begin_exchange (fresh None) with
  | Some (server_first, a1) => (handle_client_final (message server_first) [] a1).1
  | None => Crashed Panic
  end.

Definition mechanisms_offers_sha_256 : bool :=
  assert_eq (mechanisms (fresh None)) [SCRAM_SHA_256].

Definition ok_returns_structured_server_first : bool :=
  unwrap_or_fail (begin_exchange (fresh None)) (fun '(server_first, _) =>
    let prefix := #"r=" ++ CLIENT_NONCE ++ #"-" in
    starts_with prefix server_first &&
    unwrap_or_fail (head (split chr_comma (drop (length prefix) server_first))) (fun server_nonce =>
      assert_eq (length server_nonce) 44%nat &&
      unwrap_or_fail (b64_decode server_nonce) (fun decoded =>
        assert_eq (length decoded) SERVER_NONCE_LENGTH) &&
      assert_eq server_first
        (#"r=" ++ CLIENT_NONCE ++ #"-" ++ server_nonce ++ #",s=" ++ b64_encode (v_salt verifier)
         ++ #",i=" ++ show_uint (v_iterations verifier)))).

Definition ok_accepts_n_and_y_gs2_flags : bool :=
  forallb (fun flag =>
    unwrap_or_fail (ok_value (first_result None SCRAM_SHA_256
                                (flag ++ #",,n=" ++ USER ++ #",r=" ++ CLIENT_NONCE) USER))
      (starts_with (#"r=" ++ CLIENT_NONCE ++ #"-"))) [ #"n"; #"y"].

Definition ok_state_advances_and_rejects_replay : bool :=
  unwrap_or_fail (begin_exchange (fresh None)) (fun '(_, a1) =>
    assert_malformed (handle_client_first random SCRAM_SHA_256 client_first USER a1).1).

Definition ok_can_retry_after_protocol_error : bool :=
  let '(r, a1) := handle_client_first random SCRAM_SHA_256 #"n," USER (fresh None) in
  assert_malformed r &&
  unwrap_or_fail (ok_value (handle_client_first random SCRAM_SHA_256 client_first USER a1).1)
    (fun _ => true).

Definition err_missing_client_nonce : bool :=
  assert_malformed (first_result None SCRAM_SHA_256 (#"n,,n=" ++ USER) USER).

Definition err_fewer_than_three_comma_parts : bool :=
  assert_malformed (first_result None SCRAM_SHA_256 #"n," USER).

Definition err_empty_startup_user : bool :=
  assert_eq (protocol_err (first_result None SCRAM_SHA_256 client_first []))
    (Some #"startup user must not be empty").

Definition err_unsupported_mechanism : bool :=
  assert_eq (protocol_err (first_result None #"SCRAM-SHA-256-PLUS" client_first USER))
    (Some #"unsupported SASL mechanism: SCRAM-SHA-256-PLUS").

Definition err_channel_binding_not_offered : bool :=
  assert_eq (protocol_err (first_result None SCRAM_SHA_256
      (#"p=tls-unique,,n=" ++ USER ++ #",r=" ++ CLIENT_NONCE) USER))
    (Some #"client requested channel binding, but SCRAM-SHA-256-PLUS was not offered").

Definition err_invalid_gs2_flag : bool :=
  assert_malformed (first_result None SCRAM_SHA_256
    (#"x,,n=" ++ USER ++ #",r=" ++ CLIENT_NONCE) USER).

Definition err_authzid_not_supported : bool :=
  unwrap_or_fail (protocol_err (first_result None SCRAM_SHA_256
      (#"n,a=" ++ USER ++ #",n=" ++ USER ++ #",r=" ++ CLIENT_NONCE) USER))
    (contains #"authorization identity").

Definition err_malformed_authzid : bool :=
  assert_malformed (first_result None SCRAM_SHA_256
    (#"n,zz,n=" ++ USER ++ #",r=" ++ CLIENT_NONCE) USER).

Definition extractor_splits_gs2_header_from_bare : bool :=
  match extract_data_from_client_first client_first with
  | Ok (flag, authzid, b) => assert_eq flag #"n" && assert_eq authzid [] && assert_eq b bare
  | Err _ => false
  end &&
  match extract_data_from_client_first #"n," with Ok _ => false | Err _ => true end.

Definition ok_full_exchange_returns_verifiable_server_signature : bool :=
  unwrap_or_fail (full_client_exchange (fresh None) #"pencil" #"n,," CLIENT_NONCE)
    (fun '(server_final, expected, a) =>
       assert_eq server_final expected && starts_with #"v=" server_final &&
       is_some (sa_extracted_client_key a)).

Definition ok_full_exchange_accepts_y_gs2_flag : bool :=
  unwrap_or_fail (full_client_exchange (fresh None) #"pencil" #"y,," CLIENT_NONCE)
    (fun '(server_final, expected, _) => assert_eq server_final expected).

Definition ok_state_is_done_after_successful_exchange : bool :=
  unwrap_or_fail (full_client_exchange (fresh None) #"pencil" #"n,," CLIENT_NONCE)
    (fun '(_, _, a) => assert_malformed (handle_client_final #"c=biws,r=x,p=AAAA" [] a).1).

Definition err_wrong_password_fails_authentication : bool :=
  unwrap_or_fail (begin_exchange (fresh None)) (fun '(server_first, a1) =>
    unwrap_or_fail (simulate_client #"not-pencil" bare server_first #"n,,") (fun '(final, _) =>
      match err_value (handle_client_final final [] a1).1 with
      | Some (AuthenticationFailed _) => true
      | _ => false
      end)).

Definition err_proof_attribute_is_not_last : bool :=
  unwrap_or_fail (begin_exchange (fresh None)) (fun '(server_first, a1) =>
    unwrap_or_fail (combined_nonce_of server_first) (fun nonce =>
      assert_malformed (handle_client_final (#"p=AAAA,c=biws,r=" ++ nonce) [] a1).1)).

Definition err_client_final_out_of_order : bool :=
  assert_malformed (handle_client_final #"c=biws,r=x,p=AAAA" [] (fresh None)).1.

Definition err_required_attributes_missing : bool :=
  forallb (fun message => assert_malformed (final_result (fun _ => message)))
    [ #"r=x,p=AAAA"; #"c=biws,p=AAAA"; #"c=biws,r=x"].

Definition err_duplicate_attributes : bool :=
  forallb (fun message => assert_malformed (final_result (fun _ => message)))
    [ #"c=biws,c=biws,r=x,p=AAAA"; #"c=biws,r=x,r=y,p=AAAA"; #"c=biws,r=x,p=AAAA,p=BBBB"].

Definition err_channel_binding_mismatch : bool :=
  assert_malformed (final_result (fun _ => #"c=eSws,r=x,p=AAAA")).

Definition err_nonce_mismatch : bool :=
  unwrap_or_fail (begin_exchange (fresh None)) (fun '(server_first, a1) =>
    unwrap_or_fail (combined_nonce_of server_first) (fun combined =>
      let truncated := #"c=biws,r=" ++ take (length combined - 1) combined ++ #",p=AAAA" in
      assert_malformed (handle_client_final truncated [] a1).1)) &&
  assert_malformed (final_result (fun _ => #"c=biws,r=totally-different,p=AAAA")).

Definition err_malformed_proof : bool :=
  forallb (fun payload =>
    unwrap_or_fail (begin_exchange (fresh None)) (fun '(server_first, a1) =>
      unwrap_or_fail (combined_nonce_of server_first) (fun nonce =>
        assert_malformed
          (handle_client_final (#"c=biws,r=" ++ nonce ++ #",p=" ++ payload) [] a1).1)))
    [ #"!!!not-base64!!!"; b64_encode (replicate 16 x00)].

Definition mechanisms_offers_plus_first_only_with_a_certificate_hash : bool :=
  assert_eq (mechanisms (fresh None)) [SCRAM_SHA_256] &&
  assert_eq (mechanisms (fresh (Some (cert_hash x07)))) [PLUS; SCRAM_SHA_256].

(** The first message of a client that binds, and its final message when it is
    bound to a certificate. *)
Definition plus_first : bytes :=
  #"p=tls-server-end-point,,n=" ++ USER ++ #",r=" ++ CLIENT_NONCE.

Definition plus_exchange (server client : CertHash)
    : option (poll (result ScramError bytes) * bytes * ScramAuthenticator) :=
  let '(r, a1) := handle_client_first random PLUS plus_first USER (fresh (Some server)) in
  server_first ← ok_value r;
  '(final, expected) ← simulate_client #"pencil" bare server_first (cbind_input client);
  let '(r, a2) := handle_client_final final USER a1 in
  Some (r, expected, a2).

Definition ok_plus_exchange_verifies_binding_and_proof : bool :=
  unwrap_or_fail (plus_exchange (cert_hash x07) (cert_hash x07)) (fun '(r, expected, a) =>
    assert_eq (ok_value r) (Some expected) && is_some (sa_extracted_client_key a)).

Definition err_plus_wrong_certificate_is_a_binding_mismatch : bool :=
  unwrap_or_fail (plus_exchange (cert_hash x01) (cert_hash x02)) (fun '(r, _, _) =>
    match err_value r with Some ChannelBindingMismatch => true | _ => false end).

Definition err_y_is_a_downgrade_when_plus_was_offered : bool :=
  match err_value (first_result (Some (cert_hash x07)) SCRAM_SHA_256
                     (#"y,,n=" ++ USER ++ #",r=" ++ CLIENT_NONCE) USER) with
  | Some ChannelBindingDowngrade => true
  | _ => false
  end.

Definition ok_y_is_accepted_when_plus_was_not_offered : bool :=
  is_some (ok_value (first_result None SCRAM_SHA_256
                       (#"y,,n=" ++ USER ++ #",r=" ++ CLIENT_NONCE) USER)).

Definition err_p_binding_when_plus_was_not_offered : bool :=
  is_protocol (first_result None SCRAM_SHA_256 plus_first USER).

Definition err_plus_selected_without_binding_data : bool :=
  forallb (fun flag => is_protocol (first_result (Some (cert_hash x07)) PLUS
                         (flag ++ #"n=" ++ USER ++ #",r=" ++ CLIENT_NONCE) USER))
    [ #"n,,"; #"y,,"].

Definition err_plus_with_a_different_binding_type : bool :=
  is_protocol (first_result (Some (cert_hash x07)) PLUS
    (#"p=tls-unique,,n=" ++ USER ++ #",r=" ++ CLIENT_NONCE) USER).

Definition channel_binding_error_codes : bool :=
  assert_eq (scram_error_code ChannelBindingMismatch) #"28P01" &&
  assert_eq (scram_error_code ChannelBindingDowngrade) #"08P01".

Definition authenticator_tests : list bool :=
  [mechanisms_offers_sha_256; ok_returns_structured_server_first; ok_accepts_n_and_y_gs2_flags;
   ok_state_advances_and_rejects_replay; ok_can_retry_after_protocol_error;
   err_missing_client_nonce; err_fewer_than_three_comma_parts; err_empty_startup_user;
   err_unsupported_mechanism; err_channel_binding_not_offered; err_invalid_gs2_flag;
   err_authzid_not_supported; err_malformed_authzid; extractor_splits_gs2_header_from_bare;
   ok_full_exchange_returns_verifiable_server_signature; ok_full_exchange_accepts_y_gs2_flag;
   ok_state_is_done_after_successful_exchange; err_wrong_password_fails_authentication;
   err_proof_attribute_is_not_last; err_client_final_out_of_order;
   err_required_attributes_missing; err_duplicate_attributes; err_channel_binding_mismatch;
   err_nonce_mismatch; err_malformed_proof;
   mechanisms_offers_plus_first_only_with_a_certificate_hash;
   ok_plus_exchange_verifies_binding_and_proof; err_plus_wrong_certificate_is_a_binding_mismatch;
   err_y_is_a_downgrade_when_plus_was_offered; ok_y_is_accepted_when_plus_was_not_offered;
   err_p_binding_when_plus_was_not_offered; err_plus_selected_without_binding_data;
   err_plus_with_a_different_binding_type; channel_binding_error_codes].

End authenticator_tests.

Example authenticator_tests_pass :
  forallb id (@authenticator_tests one_round #"thirty-two-bytes-of-server-nonce") = true.
Proof. vm_compute. reflexivity. Qed.

(** ** [scram_client.rs] *)

Definition PASSWORD : bytes := #"pencil".
Definition SALT : bytes :=
  [x5b; x6d; x99; x68; x9d; x12; x35; x8e; xec; xa0; x4b; x14; x12; x36; xfa; x81].
Definition ITERATIONS : Z := 4096.
Definition RFC_NONCE : bytes := #"rOprNGfwEbeRWgbNEkqO".
Definition SERVER_NONCE_SUFFIX : bytes := #"%hvYDpWUa2RaTCAfuxFIlj)hNlF$k0".

Definition is_auth_error (text : bytes) (e : PgError) : bool :=
  match e with PgAuth message => assert_eq message text | _ => false end.

Section client_tests.
Context {P : Primitives}.

(** Client key, server key and stored key. *)
Definition keys (password salt : bytes) (iterations : Z) : bytes * bytes * bytes :=
  let salted := pbkdf2_sha256 password salt iterations in
  let client_key := hmac_sha256 salted #"Client Key" in
  let server_key := hmac_sha256 salted #"Server Key" in
  let stored_key := sha256 client_key in
  (client_key, server_key, stored_key).

(** [client.client_nonce = nonce]. *)
Definition set_client_nonce (nonce : bytes) (c : ScramClient) : ScramClient :=
  mkScramClient nonce (sc_auth_message c) (sc_client_key c) (sc_server_key c) (sc_stored_key c)
    (sc_password c) (sc_mechanism c) (sc_channel_binding c).

Definition secret_client_with_nonce (salt : bytes) (iterations : Z) (nonce : bytes) : ScramClient :=
  let '(client_key, server_key, stored_key) := keys PASSWORD salt iterations in
  set_client_nonce nonce
    (scram_client_new [] (Some client_key) (Some server_key) (Some stored_key) None).

Definition password_client_with_nonce (password nonce : bytes) : ScramClient :=
  set_client_nonce nonce (scram_client_new [] None None None (Some password)).

Definition salt_b64 : bytes := b64_encode SALT.

Definition server_first (client_nonce salt_b64 : bytes) (iterations : Z) : bytes :=
  #"r=" ++ client_nonce ++ SERVER_NONCE_SUFFIX ++ #",s=" ++ salt_b64
  ++ #",i=" ++ show_uint iterations.

Definition expected_client_final (client_nonce server_first client_key stored_key gs2 : bytes)
    : bytes :=
  let combined_nonce := client_nonce ++ SERVER_NONCE_SUFFIX in
  let client_final_without_proof := #"c=" ++ b64_encode gs2 ++ #",r=" ++ combined_nonce in
  let auth_message :=
    #"n=,r=" ++ client_nonce ++ #"," ++ server_first ++ #"," ++ client_final_without_proof in
  let client_signature := hmac_sha256 stored_key auth_message in
  let proof := xor_bytes client_key client_signature in
  client_final_without_proof ++ #",p=" ++ b64_encode proof.

(** The client with the captured keys of the password. *)
Definition secret_client : ScramClient := secret_client_with_nonce SALT ITERATIONS RFC_NONCE.

Definition plain_first : bytes := server_first RFC_NONCE salt_b64 ITERATIONS.

(** The error of the final message for a server's first message. *)
Definition final_error (server_first stored_salt : bytes) : option PgError :=
  err_value (client_final_message server_first stored_salt ITERATIONS secret_client).1.

Definition client_first_has_gs2_header_and_a_fresh_nonce (random random' : bytes) : bool :=
  let first := scram_client_new random None None None (Some PASSWORD) in
  let second := scram_client_new random' None None None (Some PASSWORD) in
  starts_with #"n,,n=,r=" (client_first_message first) &&
  negb (bool_decide (sc_client_nonce first = [])) &&
  negb (bool_decide (sc_client_nonce first = sc_client_nonce second)) &&
  forallb b64_url_symbol (sc_client_nonce first).

Definition client_final_matches_an_independent_computation : bool :=
  let '(client_key, server_key, stored_key) := keys PASSWORD SALT ITERATIONS in
  let '(r, client) := client_final_message plain_first SALT ITERATIONS secret_client in
  unwrap_or_fail (ok_value r) (fun actual =>
    assert_eq actual (expected_client_final RFC_NONCE plain_first client_key stored_key #"n,,") &&
    let combined_nonce := RFC_NONCE ++ SERVER_NONCE_SUFFIX in
    let auth_message := #"n=,r=" ++ RFC_NONCE ++ #"," ++ plain_first ++ #",c=biws,r="
                        ++ combined_nonce in
    let server_signature := hmac_sha256 server_key auth_message in
    match verify_server_final (#"v=" ++ b64_encode server_signature) client with
    | Ok verified => verified
    | Err _ => false
    end).

Definition a_plaintext_password_derives_keys_for_the_backends_salt : bool :=
  let other_salt := replicate 16 x99 in
  let first := server_first RFC_NONCE (b64_encode other_salt) ITERATIONS in
  let client := password_client_with_nonce PASSWORD RFC_NONCE in
  let '(client_key, _, stored_key) := keys PASSWORD other_salt ITERATIONS in
  assert_eq (ok_value (client_final_message first SALT ITERATIONS client).1)
    (Some (expected_client_final RFC_NONCE first client_key stored_key #"n,,")).

Definition rejects_a_salt_that_differs_from_the_stored_verifier : bool :=
  match final_error plain_first #"a-different-salt" with
  | Some SaltMismatch => true
  | _ => false
  end.

Definition rejects_an_iteration_count_that_differs_from_the_stored_verifier : bool :=
  unwrap_or_fail (final_error (server_first RFC_NONCE salt_b64 (ITERATIONS + 1)) SALT)
    (is_auth_error #"Invalid iteration count").

Definition rejects_a_server_nonce_that_does_not_extend_the_client_nonce : bool :=
  unwrap_or_fail
    (final_error (#"r=an-attacker-chosen-nonce,s=" ++ salt_b64 ++ #",i=" ++ show_uint ITERATIONS)
       SALT)
    (is_auth_error #"Server nonce mismatch").

Definition rejects_a_server_nonce_that_is_exactly_the_client_nonce : bool :=
  unwrap_or_fail
    (final_error (#"r=" ++ RFC_NONCE ++ #",s=" ++ salt_b64 ++ #",i=" ++ show_uint ITERATIONS) SALT)
    (is_auth_error #"Server nonce mismatch").

(** The first message without an attribute, and with two of them broken. *)
Definition without_attr (name : bytes) : bytes :=
  let kept := List.filter (fun pair => negb (starts_with name pair)) (split chr_comma plain_first) in
  match kept with
  | [a; b] => a ++ chr_comma :: b
  | _ => []
  end.

Definition rejects_missing_or_invalid_server_first_attributes : bool :=
  forallb (fun message => is_some (final_error message SALT))
    [without_attr #"r="; without_attr #"s="; without_attr #"i=";
     #"r=" ++ RFC_NONCE ++ SERVER_NONCE_SUFFIX ++ #",s=" ++ salt_b64 ++ #",i=not-a-number";
     server_first RFC_NONCE #"!!!" ITERATIONS].

Definition channel_binding_uses_the_tls_server_end_point_gs2_header : bool :=
  let cbind := #"p=tls-server-end-point,," ++ replicate 32 x33 in
  let client := use_channel_binding cbind (password_client_with_nonce PASSWORD RFC_NONCE) in
  match sc_mechanism client with Sha256Plus => true | ScramClient.Sha256 => false end &&
  starts_with #"p=tls-server-end-point,,n=,r=" (client_first_message client) &&
  unwrap_or_fail (ok_value (client_final_message plain_first SALT ITERATIONS client).1)
    (starts_with (#"c=" ++ b64_encode cbind ++ #",r=")).

Definition verify_server_final_reports_when_no_server_key_is_available (random : bytes) : bool :=
  let client := scram_client_new random None None None (Some PASSWORD) in
  let first := server_first (sc_client_nonce client) salt_b64 ITERATIONS in
  is_some (ok_value (client_final_message first SALT ITERATIONS client).1) &&
  let without_key := set_client_nonce RFC_NONCE (scram_client_new random None None None None) in
  match verify_server_final #"v=AAAA" without_key with
  | Ok verified => negb verified
  | Err _ => false
  end.

Definition verify_server_final_rejects_a_bad_signature_or_an_error_message : bool :=
  let '(r, client) := client_final_message plain_first SALT ITERATIONS secret_client in
  let refused message text :=
    unwrap_or_fail (result_err (verify_server_final message client)) (is_auth_error text) in
  is_some (ok_value r) &&
  refused (#"v=" ++ b64_encode (replicate 32 x00)) #"invalid server signature" &&
  refused #"v=not-base64!" #"invalid server signature" &&
  refused #"nope" #"invalid server signature" &&
  refused #"e=other-error" #"SCRAM error: other-error".

Definition client_tests : list bool :=
  [client_first_has_gs2_header_and_a_fresh_nonce #"eighteen-bytes-abc" #"Eighteen-bytes-abc";
   client_final_matches_an_independent_computation;
   a_plaintext_password_derives_keys_for_the_backends_salt;
   rejects_a_salt_that_differs_from_the_stored_verifier;
   rejects_an_iteration_count_that_differs_from_the_stored_verifier;
   rejects_a_server_nonce_that_does_not_extend_the_client_nonce;
   rejects_a_server_nonce_that_is_exactly_the_client_nonce;
   rejects_missing_or_invalid_server_first_attributes;
   channel_binding_uses_the_tls_server_end_point_gs2_header;
   verify_server_final_reports_when_no_server_key_is_available #"eighteen-bytes-abc";
   verify_server_final_rejects_a_bad_signature_or_an_error_message].

End client_tests.

Example client_tests_pass : forallb id (@client_tests one_round) = true.
Proof. vm_compute. reflexivity. Qed.
