(* ===== verification/UnitTests.v ===== *)
(** The remaining unit tests of the source, run against the model: a boolean per
    test, of the test's name ([TestKit]).

    Left out are the tests whose subject is not in the model: poisoned locks and
    unwinding, erased memory, generated certificates, Unicode tables, ten thousand
    random keys, and trait bounds the compiler checks.  Where a test reads YAML,
    the parsed document is an argument. *)
From S2P Require Import Prelude Words RustStr Errors BufferPool Packet StartupOptions Crypto Tls.
From S2P Require Import Verifier LookupCache CredentialFile AuthQuery CredentialStore Config.
From S2P Require Import BackendPolicy Transport PgClient Backend Registry Conn TestKit.
Local Open Scope Z_scope.

Definition all_pass (tests : list bool) : bool := forallb id tests.

(** ** [packet.rs] *)

Definition reader_with (bs : bytes) : MessageReader := reader_new bs.

Definition read_string_fixed_size_consumes_only_the_string : bool :=
  let '(r, reader) := read_string_fixed_size 4 (reader_with ( #"abcd" ++ [x00; x00; x00; x01])) in
  assert_eq (ok_value r) (Some #"abcd") && assert_eq (remaining reader) 4 &&
  let '(r, reader) := read_u32 reader in
  assert_eq (ok_value r) (Some 1) && assert_eq (remaining reader) 0.

Definition read_string_fixed_size_rejects_a_short_buffer : bool :=
  match err_value (read_string_fixed_size 8 (reader_with #"abcd")).1 with
  | Some _ => true
  | None => false
  end.

Example packet_tests_pass :
  all_pass [read_string_fixed_size_consumes_only_the_string;
            read_string_fixed_size_rejects_a_short_buffer] = true.
Proof. vm_compute. reflexivity. Qed.

(** ** [startup_config_parse_util.rs] *)

Definition split_empty_input_yields_no_tokens : bool := assert_eq (split_option_tokens []) [].

Definition split_single_token : bool :=
  assert_eq (split_option_tokens #"application_name=psql") [ #"application_name=psql"].

Definition split_on_single_space : bool :=
  assert_eq (split_option_tokens #"a b c") [ #"a"; #"b"; #"c"].

Definition split_on_tab : bool :=
  assert_eq (split_option_tokens [x61; chr_tab; x62]) [ #"a"; #"b"].

Definition split_on_tab_for_diff_token : bool :=
  assert_eq (split_option_tokens ( #"-ck=value" ++ chr_tab :: #"--k2=valu2"))
    [ #"-ck=value"; #"--k2=valu2"].

Definition split_escaped_space_stays_in_token : bool :=
  assert_eq (split_option_tokens #"a\ b") [ #"a b"].

Definition split_escaped_backslash_is_literal : bool :=
  assert_eq (split_option_tokens #"a\\b") [ #"a\b"].

Definition split_consecutive_spaces_collapse_into_one_separator : bool :=
  assert_eq (split_option_tokens #"a  b") [ #"a"; #"b"].

Definition parses_to (input : bytes) (expected : gmap bytes bytes) : bool :=
  match parse_options input with
  | Ok map => assert_eq (size map) (size expected) && assert_eq map expected
  | Err _ => false
  end.

(** [unwrap_err().to_string() == "invalid data"]. *)
Definition rejects (input : bytes) : bool :=
  unwrap_or_fail (result_err (parse_options input)) (fun err =>
    assert_eq (proxy_error_display (fun _ => []) err) #"invalid data").

Definition parse_empty_input_yields_empty_map : bool := parses_to [] ∅.

Definition parse_joined_dash_c_option : bool := parses_to #"-ck=value" {[ #"k" := #"value" ]}.

Definition parse_multi_option : bool :=
  parses_to ( #"-ck=value" ++ chr_tab :: #"--k2=value2")
    {[ #"k" := #"value"; #"k2" := #"value2" ]}.

Definition parse_dash_c_with_separate_value : bool :=
  parses_to #"-c k=value" {[ #"k" := #"value" ]}.

Definition parse_double_dash_option_normalizes_underscore : bool :=
  parses_to #"--connection-limit=5" {[ #"connection_limit" := #"5" ]}.

Definition parse_multiple_space_separated_options : bool :=
  parses_to #"-ck=v --foo=bar" {[ #"k" := #"v"; #"foo" := #"bar" ]}.

Definition parse_rejects_joined_dash_c_without_equals : bool := rejects #"-ck".

Definition parse_rejects_double_dash_without_equals : bool := rejects #"--connection-limit".

Definition parse_value_may_contain_equals : bool :=
  parses_to #"--application-name=a=b" {[ #"application_name" := #"a=b" ]}.

Definition parse_rejects_missing_value_after_dash_c : bool := rejects #"-c".

Definition parse_rejects_empty_value : bool := rejects #"-ck=".

Definition parse_rejects_empty_key : bool := rejects #"-c=v".

Definition parse_rejects_double_dash_with_empty_value : bool := rejects #"--foo=".

Definition parse_rejects_unsupported_option : bool := rejects #"garbage".

Example startup_option_tests_pass :
  all_pass
    [split_empty_input_yields_no_tokens; split_single_token; split_on_single_space; split_on_tab;
     split_on_tab_for_diff_token; split_escaped_space_stays_in_token;
     split_escaped_backslash_is_literal; split_consecutive_spaces_collapse_into_one_separator;
     parse_empty_input_yields_empty_map; parse_joined_dash_c_option; parse_multi_option;
     parse_dash_c_with_separate_value; parse_double_dash_option_normalizes_underscore;
     parse_multiple_space_separated_options; parse_rejects_joined_dash_c_without_equals;
     parse_rejects_double_dash_without_equals; parse_value_may_contain_equals;
     parse_rejects_missing_value_after_dash_c; parse_rejects_empty_value;
     parse_rejects_empty_key; parse_rejects_double_dash_with_empty_value;
     parse_rejects_unsupported_option] = true.
Proof. vm_compute. reflexivity. Qed.

(** ** [tls.rs] *)

#[export] Instance hash_algorithm_eq_dec : EqDecision HashAlgorithm.
Proof. solve_decision. Defined.

Definition hash_algorithm_follows_rfc5929 : bool :=
  forallb (fun '(oid, expected) => assert_eq (hash_algorithm_for_oid_str oid) expected)
    [( #"1.2.840.113549.1.1.11", Some Tls.Sha256); ( #"1.2.840.10045.4.3.2", Some Tls.Sha256);
     ( #"1.2.840.113549.1.1.12", Some Sha384); ( #"1.2.840.10045.4.3.3", Some Sha384);
     ( #"1.2.840.113549.1.1.13", Some Sha512); ( #"1.2.840.10045.4.3.4", Some Sha512);
     ( #"1.2.840.113549.1.1.4", Some Tls.Sha256); ( #"1.2.840.113549.1.1.5", Some Tls.Sha256);
     ( #"1.2.840.10045.4.1", Some Tls.Sha256);
     ( #"1.3.101.112", None); ( #"1.3.101.113", None); ( #"1.2.840.113549.1.1.10", None);
     ( #"1.2.3.4", None)].

Definition cbind_input_is_header_then_raw_digest {P : Primitives} : bool :=
  let digest := map (fun i => z2b (Z.of_nat i)) (seq 0 32) in
  let cert_hash := mkCertHash Tls.Sha256 digest in
  let expected := TLS_SERVER_END_POINT_HEADER ++ digest in
  assert_eq (cbind_input cert_hash) expected &&
  assert_eq (expected_c cert_hash) (b64_encode expected).

Example tls_tests_pass :
  all_pass [hash_algorithm_follows_rfc5929; @cbind_input_is_header_then_raw_digest one_round] = true.
Proof. vm_compute. reflexivity. Qed.

(** ** [backend/mod.rs], [backend/error.rs], [backend/pg_client.rs] *)

#[export] Instance tls_outcome_eq_dec : EqDecision TlsOutcome.
Proof. solve_decision. Defined.

#[export] Instance channel_binding_mode_eq_dec : EqDecision ChannelBindingMode.
Proof. solve_decision. Defined.

#[export] Instance backend_error_class_eq_dec : EqDecision BackendErrorClass.
Proof. solve_decision. Defined.

(** The published digest of [password ‖ user] and of the salted outer text. *)
Definition md5_response_is_computed_like_postgresql {P : Primitives} : bool :=
  let salt := [x01; x02; x03; x04] in
  let inner := hex (md5_compute #"alice-pwalice") in
  let expected := #"md5" ++ hex (md5_compute (inner ++ salt)) in
  assert_eq (md5_response #"alice" #"alice-pw" salt) expected.

Definition chooses (mode : ChannelBindingMode) (available : bool) (offered : list SaslMechanism)
    (expected : option SaslMechanism) : bool :=
  assert_eq (match select_mechanism mode available offered with
             | Ok m => Some m
             | Err _ => None
             end) expected.

Definition channel_binding_modes_choose_the_right_mechanism : bool :=
  let mechanisms := [ScramSha256Plus; ScramSha256] in
  chooses CbDisable true mechanisms (Some ScramSha256) &&
  chooses CbPrefer true mechanisms (Some ScramSha256Plus) &&
  chooses CbPrefer false mechanisms (Some ScramSha256) &&
  chooses CbRequire true [ScramSha256Plus] (Some ScramSha256Plus) &&
  chooses CbRequire false mechanisms None &&
  chooses CbRequire true [ScramSha256] None.

Definition tls_mode_decision_table : bool :=
  forallb (fun '(mode, reply, expected) => assert_eq (decide_tls mode reply) expected)
    [(TlsDisable, NotRequested, Plaintext); (TlsPrefer, ReplyNo, Plaintext);
     (TlsPrefer, ReplyYes, UseTls false); (TlsRequire, ReplyNo, TlsFail);
     (TlsRequire, ReplyYes, UseTls false); (TlsVerifyFull, ReplyNo, TlsFail);
     (TlsVerifyFull, ReplyYes, UseTls true)].

Definition sasl_mechanism_lists_are_parsed_until_the_terminator : bool :=
  assert_eq (parse_sasl_mechanisms ( #"SCRAM-SHA-256-PLUS" ++ x00 :: #"SCRAM-SHA-256" ++ [x00; x00]))
    [ScramSha256Plus; ScramSha256].

(** The clients of the tests: nothing connected, an empty pool. *)
Definition empty_pool {A : Alloc} : MultiBufferPool := default (mkPool []) (pool_new 64 16 16 0).

Definition nowhere : Stream :=
  mkStream [] (Ends UnexpectedEof) [] (Some 0%nat) (Ends WriteZero).

Definition client_for_test {A : Alloc} : PgClient :=
  mkPgClient empty_pool nowhere [] None None false None [] 0 (from_secs 1).

Definition backend_for_test {A : Alloc} : Backend :=
  mkBackend [] None x49 false [] 0 (from_secs 1) client_for_test.

Definition param_status_values_keep_backend_order {A : Alloc} : bool :=
  let backend := mkBackend
    [ParameterStatus #"server_version" #"17.2"; Notice #"notice";
     ParameterStatus #"client_encoding" #"UTF8"] None x49 false [] 0 (from_secs 1)
    client_for_test in
  assert_eq (get_param_status_values backend)
    [( #"server_version", #"17.2"); ( #"client_encoding", #"UTF8")].

Definition backend_errors_are_classified_as_specified : bool :=
  forallb (fun '(sqlstate, expected) => assert_eq (classify_backend_error sqlstate) expected)
    [( #"28P01", Generalised); ( #"28000", Generalised); ( #"08006", Generalised);
     ( #"3D000", PassThrough); ( #"53300", PassThrough); ( #"57P03", PassThrough)].

(** [database "appdb" does not exist]. *)
Definition no_database : bytes := #"database " ++ x22 :: #"appdb" ++ x22 :: #" does not exist".

Definition pass_through_errors_keep_the_backend_message : bool :=
  let err := PgBackend #"FATAL" #"3D000" no_database in
  assert_eq (pg_error_code err) #"3D000" && assert_eq (pg_error_message err) no_database.

Definition proxy_side_auth_errors_are_generalised_for_the_client : bool :=
  let err := PgBackend #"FATAL" #"28P01"
    ( #"password authentication failed for user " ++ x22 :: #"alice" ++ [x22]) in
  assert_eq (pg_error_code err) #"28P01" &&
  assert_eq (pg_error_message err) #"backend authentication failed" &&
  contains #"password authentication failed" (pg_error_display (fun _ => []) err).

Definition unsupported_methods_name_the_actionable_cause : bool :=
  let err := UnsupportedAuth
    #"backend requires MD5 authentication, but only a SCRAM secret is available" in
  assert_eq (pg_error_code err) #"28P01" && contains #"MD5" (pg_error_message err) &&
  contains #"SCRAM secret" (pg_error_message err).

Definition error_response_fields_are_parsed : bool :=
  let body := #"SFATAL" ++ x00 :: #"VFATAL" ++ x00 :: #"C28P01" ++ x00
              :: #"Mpassword authentication failed" ++ [x00; x00] in
  let '(severity, code, message) := parse_error_response body in
  assert_eq severity #"FATAL" && assert_eq code #"28P01" &&
  assert_eq message #"password authentication failed".

Definition unsupported_methods_name_the_method : bool :=
  forallb (fun '(code, name) => contains name (unsupported_method_message code))
    [(7, #"GSSAPI"); (9, #"SSPI"); (2, #"Kerberos"); (6, #"SCM"); (99, #"99")].

Definition configuration_defaults_are_libpq_compatible : bool :=
  assert_eq (bt_mode backend_tls_default) TlsPrefer &&
  assert_eq (bt_channel_binding backend_tls_default) CbPrefer.

Example backend_tests_pass :
  all_pass
    [@md5_response_is_computed_like_postgresql one_round;
     channel_binding_modes_choose_the_right_mechanism; tls_mode_decision_table;
     sasl_mechanism_lists_are_parsed_until_the_terminator;
     @param_status_values_keep_backend_order plain_alloc;
     backend_errors_are_classified_as_specified; pass_through_errors_keep_the_backend_message;
     proxy_side_auth_errors_are_generalised_for_the_client;
     unsupported_methods_name_the_actionable_cause; error_response_fields_are_parsed;
     unsupported_methods_name_the_method; configuration_defaults_are_libpq_compatible] = true.
Proof. vm_compute. reflexivity. Qed.

(** ** [backend/registry.rs], [conn_registry.rs], [buffer_pool.rs] *)

Definition key : SessionKeySecret := mkKeySecret 1 2.

Definition found (r : Inner) : bool :=
  match lookup_by_key key r with Some _ => true | None => false end.

Section registries.
Context {A : Alloc}.

Definition unknown_cancel_key_is_ignored_not_panicked : bool := negb (found registry_new).

Definition registered_key_resolves_to_its_backend : bool :=
  let '(r, registry) := register backend_for_test 123 key registry_new in
  match r with Ok _ => found registry | Err _ => false end.

Definition a_duplicate_key_is_reported_instead_of_overwriting : bool :=
  let '(first, registry) := register backend_for_test 1 key registry_new in
  match first with
  | Ok _ => assert_eq (result_err (register backend_for_test 2 key registry).1) (Some key)
  | Err _ => false
  end.

Definition the_guard_frees_the_key_on_drop : bool :=
  let '(r, registry) := register backend_for_test 1 key registry_new in
  match r with
  | Ok guard => found registry && negb (found (guard_drop guard registry))
  | Err _ => false
  end.

Definition permit_is_release_on_drop : bool :=
  let '(a, registry) := try_acquire (conn_registry_new 2) in
  let '(b, registry) := try_acquire registry in
  let '(third, registry) := try_acquire registry in
  let '(again, _) := try_acquire (permit_drop registry) in
  a && b && negb third && again.

(** A clone is another handle of the same counter. *)
Definition clone_share_the_counter : bool :=
  let '(first, shared) := try_acquire (conn_registry_new 1) in
  first && negb (try_acquire shared).1.

Definition pool (min max : Z) (n : nat) : MultiBufferPool := default (mkPool []) (pool_new 64 min max n).

(** The length a buffer shows and the capacity behind it. *)
Definition rented (p : MultiBufferPool) (size : Z) : option (Z * Z) :=
  match pool_get p size with
  | Val (buf, _) => Some (Z.of_nat (length (pb_slice buf)), pb_original_capacity buf)
  | Crash _ => None
  end.

Definition get_uses_the_smallest_bucket_that_fits : bool :=
  let p := pool 4 64 2 in
  assert_eq (rented p 8) (Some (8, 8)) && assert_eq (rented p 9) (Some (9, 16)).

Definition returned_buffers_are_reusable_after_rounding : bool :=
  match fold_left (fun p _ =>
          p ← p;
          '(buf, p) ← pool_get p 20;
          if assert_eq (length (pb_slice buf)) 20%nat
          then pooled_drop (pb_fill buf (replicate 20 x07)) p
          else Crash Panic) (seq 0 4) (Val (pool 4 64 1)) with
  | Val _ => true
  | Crash _ => false
  end.

Definition max_capacity_is_the_largest_bucket : bool :=
  assert_eq (max_capacity (pool 4 64 1)) 64 && assert_eq (max_capacity (pool 4 100 1)) 64.

Definition registry_tests : list bool :=
  [unknown_cancel_key_is_ignored_not_panicked; registered_key_resolves_to_its_backend;
   a_duplicate_key_is_reported_instead_of_overwriting; the_guard_frees_the_key_on_drop;
   permit_is_release_on_drop; clone_share_the_counter; get_uses_the_smallest_bucket_that_fits;
   returned_buffers_are_reusable_after_rounding; max_capacity_is_the_largest_bucket].

End registries.

Example registry_tests_pass : all_pass (@registry_tests plain_alloc) = true.
Proof. vm_compute. reflexivity. Qed.

(** ** [error.rs], [conn.rs] *)

Definition proxy_err_is_a_standard_error : bool :=
  match proxy_error_source (connection_error TooManyRequest) with Some _ => true | None => false end.

(** [?] turns an internal error into a [ProxyError]. *)
Definition internal_error_converts_via_question_mark : bool :=
  let fallible : result ProxyError unit := Err (proxy_error_internal (BoxedStr #"to blew up")) in
  match fallible with Err _ => true | Ok _ => false end.

Definition startup_error_codes_and_wording_match_postgresql : bool :=
  forallb (fun '(e, code, message) =>
      assert_eq (connection_error_code e) code && assert_eq (connection_error_message e) message)
    [(TooManyRequest, #"53300", #"sorry, too many clients already");
     (AuthTimeout, #"57014", #"canceling authentication due to timeout");
     (FirstMessageTooBig, #"08P01", #"invalid startup packet layout");
     (MissingUser, #"28000", #"no PostgreSQL user name specified in startup packet")].

Definition runtime_protocol_error_carries_its_code_and_message : bool :=
  let text := #"unsupported frontend protocol 4.0: server supports 3.0 to 3.0" in
  match protocol_error #"0A000" text with
  | ConnectionError inner => assert_eq (client_code inner) #"0A000" && assert_eq (client_message inner) text
  | Internal _ => false
  end.

Definition protocol_version_message_matches_postgres : bool :=
  assert_eq (unsupported_protocol_message (Z.shiftl 4 16))
    #"unsupported frontend protocol 4.0: server supports 3.0 to 3.0" &&
  assert_eq (unsupported_protocol_message (Z.lor (Z.shiftl 3 16) 2))
    #"unsupported frontend protocol 3.2: server supports 3.0 to 3.0".

Definition count_byte (b : byte) (s : bytes) : nat :=
  length (List.filter (fun c => bool_decide (c = b)) s).

Definition error_body_carries_severity_code_and_message_fields : bool :=
  let body := prepare_error_buf #"FATAL" #"53300" #"sorry, too many clients already" in
  assert_eq (head body) (Some x53) && assert_eq (last body) (Some x00) &&
  assert_eq (count_byte x43 body) 1%nat && assert_eq (count_byte x4d body) 1%nat.

Example error_tests_pass :
  all_pass [proxy_err_is_a_standard_error; internal_error_converts_via_question_mark;
            startup_error_codes_and_wording_match_postgresql;
            runtime_protocol_error_carries_its_code_and_message;
            protocol_version_message_matches_postgres;
            error_body_carries_severity_code_and_message_fields] = true.
Proof. vm_compute. reflexivity. Qed.

(** ** [auth/credentials/] and [auth/verifier.rs] *)

(** Nanoseconds after an arbitrary [now]. *)
Definition negative_results_are_cached_briefly_and_never_forever (now : Z) : bool :=
  let cache := insert_negative #"ghost" now (cache_new (from_secs 60) (from_secs 5)) in
  let '(first, cache) := cache_get_negative #"ghost" now cache in
  let '(later, _) := cache_get_negative #"ghost" (now + from_secs 6) cache in
  match first, later with Some _, None => true | _, _ => false end.

Definition valid_query (query : bytes) : bool :=
  match validate_query query with Ok _ => true | Err _ => false end.

Definition accepts_exactly_one_dollar_one_placeholder : bool :=
  valid_query #"SELECT usename, passwd FROM lookup($1)" &&
  negb (valid_query #"SELECT usename, passwd FROM lookup()") &&
  negb (valid_query #"SELECT * FROM lookup($1, $2)") &&
  negb (valid_query #"SELECT * FROM lookup($2)") &&
  negb (valid_query #"SELECT '$1' FROM lookup($1)").

Definition metrics_render_and_are_labelled_without_user_data : bool :=
  let metrics := record_lookup Hit metrics_default in
  let metrics := record_lookup Miss metrics in
  let metrics := record_lookup Miss metrics in
  let metrics := record_lookup LookupUnavailable metrics in
  let metrics := record_reload true metrics in
  let text := gather (metrics_set_generation 3 metrics) in
  let labelled name label value :=
    contains (name ++ #"{result=" ++ x22 :: label ++ x22 :: #"} " ++ value) text in
  labelled #"credentials_lookup_total" #"hit" #"1" &&
  labelled #"credentials_lookup_total" #"miss" #"2" &&
  labelled #"credentials_lookup_total" #"unavailable" #"1" &&
  labelled #"credentials_reload_total" #"ok" #"1" &&
  contains #"credentials_generation 3" text.

(** The parsed [auth_query] block. *)
Definition config_debug_redacts_an_inline_password : bool :=
  let config := mkAuthQueryFileConfig default_host default_port #"lookup" (Some #"hunter2") None
    default_database #"SELECT usename, passwd FROM lookup($1)" default_cache_ttl_ms None
    default_max_entries false in
  let rendered := debug_auth_query (fun _ => true) config in
  negb (contains #"hunter2" rendered) && contains #"<redacted>" rendered.

Section credential_tests.
Context {P : Primitives}.

Definition salt_of (n : nat) : bytes := replicate 16 (z2b (Z.of_nat n)).

(** The store of a parsed user list. *)
Definition store_of (users : list RawUser) : result ConfigError CredentialStore :=
  from_yaml salt_of (fun _ => Some users) #"nonce" #"users".

(** A lookup in a store, which needs no database. *)
Definition looked_up (name : bytes) (s : CredentialStore)
    : option (option Verifier) * CredentialStore :=
  let '(r, s) := store_lookup (mkDriverEnv 0 (Ok tt) QueryNoRow) name s in (ok_value r, s).

Definition accepts_either_password_or_secret_per_user : bool :=
  let derived := verifier_from_password #"bob-password" (replicate 16 x07) 4096 in
  match store_of [mkRawUser #"alice" (Some #"s3cret") None;
                  mkRawUser #"bob" None (Some (to_pg_secret derived))] with
  | Ok store =>
      assert_eq (snapshot_len (cs_snapshot store)) 2%nat &&
      let '(alice, store) := looked_up #"alice" store in
      let '(bob, _) := looked_up #"bob" store in
      match alice, bob with
      | Some (Some _), Some (Some bob) =>
          assert_eq (v_stored_key bob) (v_stored_key derived) &&
          assert_eq (v_salt bob) (v_salt derived)
      | _, _ => false
      end
  | Err _ => false
  end.

(** The report of a refused user list. *)
Definition report_of (users : list RawUser) : option bytes :=
  config_error_display <$> result_err (store_of users).

Definition reports_every_invalid_entry_not_just_the_first : bool :=
  unwrap_or_fail
    (report_of
       [mkRawUser #"alice" (Some []) None;
        mkRawUser #"alice" (Some #"duplicate name") None;
        mkRawUser #"carol" (Some #"x") (Some #"SCRAM-SHA-256$4096:c2FsdA==$AA:BB");
        mkRawUser #"dave" None (Some #"SCRAM-SHA-256$1:c2FsdA==$AA:BB")])
    (fun report =>
       contains #"alice" report && contains #"carol" report && contains #"dave" report &&
       negb (contains #"duplicate name" report)).

Definition md5_secrets_are_rejected_with_a_reason : bool :=
  unwrap_or_fail
    (report_of [mkRawUser #"legacy" None (Some #"md5a1b2c3d4e5f60718293a4b5c6d7e8f9")])
    (fun report => contains #"MD5" report && contains #"not supported" report).

Definition hash_password_output_round_trips (salt : bytes) : bool :=
  let secret := hash_password salt #"pencil" 4096 in
  match from_pg_secret secret with
  | Ok parsed =>
      assert_eq (v_iterations parsed) 4096 && assert_eq (length (v_stored_key parsed)) 32%nat &&
      starts_with #"SCRAM-SHA-256$4096:" secret && negb (contains #"pencil" secret)
  | Err _ => false
  end.

Definition metrics_are_counted_without_user_labels : bool :=
  match store_of [mkRawUser #"alice" (Some #"pw") None] with
  | Ok store =>
      let '(_, store) := looked_up #"alice" store in
      let '(_, store) := looked_up #"ghost" store in
      let metrics := collect_metrics store in
      let labelled label :=
        contains ( #"credentials_lookup_total{result=" ++ x22 :: label ++ x22 :: #"} 1") metrics in
      labelled #"hit" && labelled #"miss" && negb (contains #"alice" metrics)
  | Err _ => false
  end.

Definition secret_round_trips : bool :=
  let original := verifier_from_password #"pencil" (replicate 16 x11) 4096 in
  match from_pg_secret (to_pg_secret original) with
  | Ok parsed =>
      assert_eq (v_iterations parsed) 4096 && assert_eq (v_salt parsed) (v_salt original) &&
      assert_eq (v_stored_key parsed) (v_stored_key original) &&
      assert_eq (v_server_key parsed) (v_server_key original)
  | Err _ => false
  end.

#[local] Instance secret_format_error_eq_dec : EqDecision SecretFormatError.
Proof. solve_decision. Defined.

Definition malformed_secrets_are_named : bool :=
  forallb (fun '(input, expected) => assert_eq (result_err (from_pg_secret input)) (Some expected))
    [( #"md5a1b2c3d4e5f60718293a4b5c6d7e8f9", Md5);
     ( #"SCRAM-SHA-1$4096:AA$AA:A", UnsupportedScheme);
     ( #"SCRAM-SHA-256$4096:AA$AA", Syntax);
     ( #"SCRAM-SHA-256$abc:AA$AA:AA", Iterations);
     ( #"SCRAM-SHA-256$1:AA$AA:AA", IterationsTooLow);
     ( #"SCRAM-SHA-256$4096:!!$AA:AA", Base64 #"salt");
     ( #"SCRAM-SHA-256$4096:c2FsdA==$AA:AA", KeyLength #"StoredKey")].

Definition credential_tests : list bool :=
  [negative_results_are_cached_briefly_and_never_forever 0;
   accepts_exactly_one_dollar_one_placeholder; metrics_render_and_are_labelled_without_user_data;
   config_debug_redacts_an_inline_password; accepts_either_password_or_secret_per_user;
   reports_every_invalid_entry_not_just_the_first; md5_secrets_are_rejected_with_a_reason;
   hash_password_output_round_trips #"0123456789abcdef"; metrics_are_counted_without_user_labels;
   secret_round_trips; malformed_secrets_are_named].

End credential_tests.

Example credential_tests_pass : all_pass (@credential_tests one_round) = true.
Proof. vm_compute. reflexivity. Qed.

(** ** [config.rs] *)

(** An empty document leaves every default; [port] reads a socket address. *)
Definition defaults_match_the_documented_limits (port : bytes -> option Z) : bool :=
  match config_from_yaml (fun _ => Some config_default) #"{}" with
  | Ok config =>
      assert_eq (lm_max_connections (cf_limits config)) 100 &&
      assert_eq (lm_authentication_timeout_ms (cf_limits config)) 60000 &&
      assert_eq (lm_max_startup_bytes (cf_limits config)) 10000 &&
      match frontend_addr port config with Ok p => assert_eq p 6432 | Err _ => false end
  | Err _ => false
  end.

(** A document with one block, over the defaults. *)
Definition with_listen (frontend : bytes) : Config :=
  mkConfig (mkListenConfig frontend) limits_default credentials_default backend_default.

Definition a_bad_frontend_address_is_a_config_error_not_a_panic (port : bytes -> option Z) : bool :=
  match frontend_addr port (with_listen #"not-an-addr") with Ok _ => false | Err _ => true end.

Definition authentication_timeout_is_milliseconds : bool :=
  let limits := mkLimitsConfig DEFAULT_MAX_CONNECTIONS 250 10000 (Z.shiftl 1 30) 0 in
  assert_eq
    (authentication_timeout (mkConfig listen_default limits credentials_default backend_default))
    (from_millis 250).

Definition backend_tls_and_timeouts_match_the_documented_keys : bool :=
  let backend := mkBackendConfig #"db.internal:5432" 1500 7000
    (mkBackendTlsConfig TlsVerifyFull (Some #"/etc/ssl/certs/ca.pem") CbRequire
       (Some #"db.internal")) None in
  let config := mkConfig listen_default limits_default credentials_default backend in
  assert_eq (connect_timeout (cf_backend config)) (from_millis 1500) &&
  assert_eq (startup_timeout (cf_backend config)) (from_millis 7000) &&
  assert_eq (bt_mode (bc_tls backend)) TlsVerifyFull &&
  assert_eq (bt_channel_binding (bc_tls backend)) CbRequire &&
  assert_eq (tls_server_name (cf_backend config) #"127.0.0.1") (Some #"db.internal") &&
  match backend_host_port config with
  | Ok address => assert_eq address ( #"db.internal", 5432)
  | Err _ => false
  end.

Definition backend_defaults_are_libpq_compatible : bool :=
  assert_eq (bt_mode (bc_tls (cf_backend config_default))) TlsPrefer &&
  assert_eq (bt_channel_binding (bc_tls (cf_backend config_default))) CbPrefer &&
  assert_eq (startup_timeout (cf_backend config_default)) (from_millis 5000).

(** The port of [a.b.c.d:port]. *)
Definition sample_port (address : bytes) : option Z :=
  '(_, port) ← rsplit_once chr_colon address; parse_u16 port.

Example config_tests_pass :
  all_pass [defaults_match_the_documented_limits sample_port;
            a_bad_frontend_address_is_a_config_error_not_a_panic sample_port;
            authentication_timeout_is_milliseconds;
            backend_tls_and_timeouts_match_the_documented_keys;
            backend_defaults_are_libpq_compatible] = true.
Proof. vm_compute. reflexivity. Qed.
